(** * Dejavas simulation engine: a shallow embedding and its properties

    The development follows three source modules of the backend:
    [agents/__init__.py] (genomes, agents, the agent factory),
    [llm_integration.py] (the analysis contexts and the heuristic
    fallback backend [EnhancedMockAI]) and [simulation/__init__.py]
    (influence graph, round executor, arena metrics, adoption score).

    Conventions of the embedding.
    - Python [float]s are read as exact rationals ([Q]); a float literal
      such as [0.1] is the rational [1/10].  Python [int]s are [Z].
    - [dict]s whose keys are tested for presence are [gmap string _];
      dicts whose insertion order the code relies on are association
      lists updated in place.
    - The module [random] is a state-and-error monad over a list of raw
      draws; every library call is modelled by its contract. *)

From Stdlib Require Import ZArith QArith Qminmax Lqa Lia.
From Stdlib Require Import Strings.Ascii Strings.String.
From Stdlib Require Import Sorting.Sorted Sorting.Permutation.
From stdpp Require Import base option list strings gmap pretty.

Local Open Scope Z_scope.
Local Open Scope Q_scope.

(** ** Python built-ins on numbers *)

Module Py.

(** [min(a, b)] returns [b] when [b < a] and [a] otherwise. *)
Definition min (a b : Q) : Q :=
  match b ?= a with Lt => b | _ => a end.

(** [max(a, b)] returns [b] when [b > a] and [a] otherwise. *)
Definition max (a b : Q) : Q :=
  match b ?= a with Gt => b | _ => a end.

(** [abs(x)] *)
Definition abs (x : Q) : Q :=
  match x ?= 0 with Lt => - x | _ => x end.

(** The recurring idiom [max(0, min(1, x))]. *)
Definition clamp01 (x : Q) : Q := max 0 (min 1 x).

(** [int(x)] on a float: truncation towards zero. *)
Definition int (x : Q) : Z := Z.quot (Qnum x) (Z.pos (Qden x)).

End Py.

Global Instance Qlt_decision (x y : Q) : Decision (x < y) :=
  match Qlt_le_dec x y with
  | left H => left H
  | right H => right (Qle_not_lt _ _ H)
  end.

Global Instance Qle_decision (x y : Q) : Decision (x <= y) :=
  match Qlt_le_dec y x with
  | left H => right (Qlt_not_le _ _ H)
  | right H => left H
  end.

(** ** Dynamically typed values stored in dictionaries *)

Inductive PyVal : Type :=
  | VStr (s : string)
  | VInt (z : Z)
  | VFloat (q : Q)
  | VList (l : list string).

(** ** Insertion-ordered dictionaries

    [d[k] = v] keeps the position of an existing key and appends a new
    one; [list(d.keys())] lists the keys in insertion order. *)

Module ODict.
Section ODict.
Context {V : Type}.

Fixpoint set (d : list (string * V)) (k : string) (v : V) : list (string * V) :=
  match d with
  | [] => [(k, v)]
  | (k', v') :: d' =>
      if decide (k' = k) then (k, v) :: d' else (k', v') :: set d' k v
  end.

Fixpoint get (d : list (string * V)) (k : string) : option V :=
  match d with
  | [] => None
  | (k', v') :: d' => if decide (k' = k) then Some v' else get d' k
  end.

Definition keys (d : list (string * V)) : list string := d.*1.
End ODict.
End ODict.

(** ** The module [random]

    A computation reads raw draws from a list (an exhausted list yields
    zeros) and may raise, as the library does on invalid arguments. *)

Module Random.

Definition Rng : Type := list N.
Definition M (A : Type) : Type := Rng → option (A * Rng).

Definition ret {A} (x : A) : M A := λ s, Some (x, s).
Definition bind {A B} (m : M A) (k : A → M B) : M B :=
  λ s, match m s with
       | Some (x, s') => k x s'
       | None => None
       end.
Definition raise {A} : M A := λ _, None.
Definition lift {A} (o : option A) : M A :=
  match o with Some x => ret x | None => raise end.

Definition raw : M N :=
  λ s, match s with
       | [] => Some (0%N, [])
       | x :: s' => Some (x, s')
       end.

(** [random.random()]: a 53-bit fraction in [[0, 1)]. *)
Definition random : M Q :=
  bind raw (λ k, ret (Z.of_N (k mod 2 ^ 53) # 2 ^ 53)).

(** [random.uniform(a, b) = a + (b - a) * random()]. *)
Definition uniform (a b : Q) : M Q :=
  bind random (λ u, ret (a + (b - a) * u)).

(** [random.randint(a, b)]: an integer [n] with [a <= n <= b];
    raises [ValueError] on an empty range. *)
Definition randint (a b : Z) : M Z :=
  if (b <? a)%Z then raise
  else bind raw (λ k, ret (a + Z.of_N k mod (b - a + 1))%Z).

(** [random.choice(seq)]: raises [IndexError] on an empty sequence. *)
Definition choice {A} (l : list A) : M A :=
  bind raw (λ k, lift (l !! (N.to_nat k mod length l)%nat)).

(** [random.sample(population, k)]: [k] elements at pairwise distinct
    positions, in selection order; raises [ValueError] when [k] is
    negative or larger than the population. *)
Fixpoint sample_from {A} (pool : list A) (k : nat) : M (list A) :=
  match k with
  | O => ret []
  | S k' =>
      bind raw (λ r,
        let i := (N.to_nat r mod length pool)%nat in
        match pool !! i with
        | None => raise
        | Some x => bind (sample_from (delete i pool) k') (λ rest, ret (x :: rest))
        end)
  end.

Definition sample {A} (population : list A) (k : Z) : M (list A) :=
  if ((k <? 0) || (Z.of_nat (length population) <? k))%Z then raise
  else sample_from population (Z.to_nat k).

(** [for x in l: acc = body(acc, x)] *)
Fixpoint for_each {A S} (l : list A) (body : S → A → M S) (acc : S) : M S :=
  match l with
  | [] => ret acc
  | x :: l' => bind (body acc x) (for_each l' body)
  end.

(** [[f(x) for x in l]] with effects, left to right. *)
Fixpoint map_m {A B} (f : A → M B) (l : list A) : M (list B) :=
  match l with
  | [] => ret []
  | x :: l' => bind (f x) (λ y, bind (map_m f l') (λ ys, ret (y :: ys)))
  end.

End Random.

Notation "x <- c ;; k" := (Random.bind c (λ x, k))
  (at level 100, c at next level, right associativity).

(** ** Python built-ins on strings

    A Python string is a sequence of code points.  The model holds the
    strings whose code points are all below 256 (ASCII and the Latin-1
    supplement): a character of the model is one code point, numbered
    by [nat_of_ascii], not a byte of an encoding.  So the length of a
    model string is the number of its code points, and [lower] is
    [str.lower] on these strings, which maps them to strings of the
    same range.  Strings with other code points are outside the
    model. *)

Module Str.

(** The lower-case mapping of a code point below 256: the letters
    [A] to [Z] and the capital letters of the Latin-1 supplement,
    U+00C0 to U+00DE without the multiplication sign U+00D7, move up
    by 32; every other code point is mapped to itself. *)
Definition lower_char (c : ascii) : ascii :=
  let n := nat_of_ascii c in
  if ((65 <=? n) && (n <=? 90)
      || (192 <=? n) && (n <=? 222) && negb (n =? 215))%nat
  then ascii_of_nat (n + 32) else c.

(** The upper-case mapping of a code point below 256: the letters
    [a] to [z] and the small letters U+00E0 to U+00FE without the
    division sign U+00F7 move down by 32, and the sharp s U+00DF
    becomes [SS].  The capitals of U+00B5 and U+00FF lie above 255:
    they are left as they are, and a string that holds one of them is
    outside the model once upper-cased (the code upper-cases role
    names only). *)
Definition upper_char (c : ascii) : string :=
  let n := nat_of_ascii c in
  if (n =? 223)%nat then "SS"
  else if ((97 <=? n) && (n <=? 122)
           || (224 <=? n) && (n <=? 254) && negb (n =? 247))%nat
  then String (ascii_of_nat (n - 32)) EmptyString
  else String c EmptyString.

(** [s.lower()] *)
Fixpoint lower (s : string) : string :=
  match s with
  | EmptyString => EmptyString
  | String c s' => String (lower_char c) (lower s')
  end.

(** [s.upper()] *)
Fixpoint upper (s : string) : string :=
  match s with
  | EmptyString => EmptyString
  | String c s' => upper_char c +:+ upper s'
  end.

(** [needle in hay] *)
Fixpoint contains (needle hay : string) : bool :=
  Strings.String.prefix needle hay ||
  match hay with
  | EmptyString => false
  | String _ hay' => contains needle hay'
  end.

(** [len(s)]: the number of code points. *)
Definition len (s : string) : Z := Z.of_nat (Strings.String.length s).

End Str.

(** A feature is a dictionary with the string entries [title] and
    [description]; [get_or] is [d.get(key, default)]. *)
Abbreviation Feature := (gmap string string).
Abbreviation Dict := (gmap string PyVal).

Definition get_or {V} (d : gmap string V) (key : string) (dflt : V) : V :=
  default dflt (d !! key).

(** * llm_integration.py *)

Module AgentRole.
Inductive t : Type := CUSTOMER | COMPETITOR | INFLUENCER | INTERNAL_TEAM.

Definition value (r : t) : string :=
  match r with
  | CUSTOMER => "customer"
  | COMPETITOR => "competitor"
  | INFLUENCER => "influencer"
  | INTERNAL_TEAM => "internal_team"
  end.

(** [AgentRole(s)]: lookup by value, [ValueError] when there is none. *)
Definition of_value (s : string) : option t :=
  if decide (s = "customer") then Some CUSTOMER
  else if decide (s = "competitor") then Some COMPETITOR
  else if decide (s = "influencer") then Some INFLUENCER
  else if decide (s = "internal_team") then Some INTERNAL_TEAM
  else None.
End AgentRole.

(** The dictionary built by [AgentGenome.to_dict]; it always carries
    all seven keys, so the backend's [genome.get(key, default)] never
    falls back to the default. *)
Module GenomeDict.
Record t : Type := mk {
  agent_type : string;
  demographics : Dict;
  psychographics : Dict;
  behavioral_patterns : Dict;
  influence_score : Q;
  attention_tokens : Z;
  personality_traits : list string
}.
End GenomeDict.

Module AgentContext.
Record t : Type := mk {
  role : AgentRole.t;
  genome : GenomeDict.t;
  current_opinion : Q;
  memory : list string;
  relationships : gmap string Q;
  attention_tokens : Z
}.
End AgentContext.

Module FeatureAnalysis.
Record t : Type := mk {
  feature_title : string;
  opinion_shift : Q;
  reasoning : string;
  objections : list string;
  suggestions : list string;
  influence_impact : Q;
  attention_spent : Z
}.
End FeatureAnalysis.

(** What [Agent.process_feature] awaits: the real model or the
    fallback, as a computation that may consume randomness. *)
Definition Backend : Type :=
  Feature → AgentContext.t → Dict → Random.M FeatureAnalysis.t.

Module EnhancedMockAI.

Definition positive_keywords : list string :=
  ["ai"; "automation"; "integration"; "mobile"; "cloud"; "secure"; "fast";
   "easy"; "intuitive"].

Definition negative_keywords : list string :=
  ["complex"; "expensive"; "slow"; "difficult"; "limited"; "basic"; "outdated"].

Definition _calculate_personality_modifier (context : AgentContext.t) : Q :=
  let personality_traits := GenomeDict.personality_traits (AgentContext.genome context) in
  let modifier :=
    fold_left (λ (modifier : Q) (trait : string),
      let trait := Str.lower trait in
      if Str.contains "early_adopter" trait then modifier + (3 # 10)
      else if Str.contains "skeptic" trait then modifier - (4 # 10)
      else if Str.contains "enthusiast" trait then modifier + (2 # 10)
      else if Str.contains "laggard" trait then modifier - (3 # 10)
      else modifier) personality_traits 1 in
  Py.max (3 # 10) (Py.min 2 modifier).

Definition _analyze_feature_characteristics
    (feature : Feature) (context : AgentContext.t) : Random.M Q :=
  let base_score := 0 in
  let description := Str.lower (get_or feature "description" "") in
  let title := Str.lower (get_or feature "title" "") in
  let base_score :=
    fold_left (λ (base_score : Q) keyword,
      if Str.contains keyword description || Str.contains keyword title
      then base_score + (1 # 10) else base_score) positive_keywords base_score in
  let base_score :=
    fold_left (λ (base_score : Q) keyword,
      if Str.contains keyword description || Str.contains keyword title
      then base_score - (15 # 100) else base_score) negative_keywords base_score in
  let personality_modifier := _calculate_personality_modifier context in
  let base_score := base_score * personality_modifier in
  noise <- Random.uniform (- (5 # 100)) (5 # 100);;
  let base_score := base_score + noise in
  Random.ret (Py.max (- (1)) (Py.min 1 base_score)).

Definition _generate_realistic_reasoning
    (feature : Feature) (context : AgentContext.t) (feature_score : Q) : string :=
  let role := AgentRole.value (AgentContext.role context) in
  let feature_title := get_or feature "title" "this feature" in
  if Qlt_le_dec (3 # 10) feature_score then
    if decide (role = "customer") then
      "As a customer, I'm impressed by " +:+ feature_title +:+
      ". It addresses real pain points and offers clear value. The implementation looks solid and user-friendly."
    else if decide (role = "competitor") then
      "This " +:+ feature_title +:+
      " represents a significant competitive threat. The innovation level and market positioning are concerning for our market share."
    else if decide (role = "influencer") then
      feature_title +:+
      " is exactly what my audience needs right now. It's trendy, innovative, and has great shareability potential."
    else
      "From an internal perspective, " +:+ feature_title +:+
      " aligns well with our strategic goals and should drive positive business outcomes."
  else if Qlt_le_dec feature_score (- (3 # 10)) then
    if decide (role = "customer") then
      "I have serious concerns about " +:+ feature_title +:+
      ". The implementation seems complex and doesn't address my core needs effectively."
    else if decide (role = "competitor") then
      "This " +:+ feature_title +:+
      " has several vulnerabilities we can exploit. The approach seems flawed and won't pose a significant threat."
    else if decide (role = "influencer") then
      feature_title +:+
      " doesn't align with current trends and won't resonate with my audience. It feels outdated and uninspired."
    else
      "Internally, " +:+ feature_title +:+
      " raises concerns about resource allocation and strategic alignment with our core objectives."
  else
    "My opinion on " +:+ feature_title +:+
    " is mixed. While it has some positive aspects, there are also areas that need improvement before I can fully endorse it.".

Definition append_if (b : bool) (x : string) (l : list string) : list string :=
  if b then l ++ [x] else l.

Definition _generate_objections_suggestions
    (feature : Feature) (context : AgentContext.t) (feature_score : Q)
    : list string * list string :=
  let description := Str.lower (get_or feature "description" "") in
  let role := AgentRole.value (AgentContext.role context) in
  let has (w : string) := Str.contains w description in
  let objections :=
    if decide (role = "customer") then
      append_if (has "integration") "Integration requirements may be too complex"
        (append_if (has "expensive" || has "premium") "Pricing may be too high for target market"
          (append_if (has "complex" || has "advanced")
             "Feature complexity may overwhelm average users" []))
    else if decide (role = "competitor") then
      append_if (has "mobile") "Mobile-first approach may alienate desktop users"
        (append_if (has "ai" || has "automation")
           "AI features may not be mature enough for production" [])
    else if decide (role = "influencer") then
      append_if (has "niche") "Limited appeal may reduce shareability"
        (append_if (has "technical") "Too technical for general audience engagement" [])
    else [] in
  let suggestions :=
    if Qlt_le_dec feature_score 0 then
      ["Simplify the user interface and onboarding process";
       "Provide better documentation and support resources";
       "Consider phased rollout to gather user feedback"]
    else [] in
  let objections :=
    if decide (length objections = 0%nat)
    then objections ++ ["No major objections identified"] else objections in
  let suggestions :=
    if decide (length suggestions = 0%nat)
    then suggestions ++ ["Feature appears well-implemented"] else suggestions in
  (take 3 objections, take 3 suggestions).

Definition _calculate_attention_spend
    (feature : Feature) (context : AgentContext.t) (feature_score : Q) : Z :=
  let base_spend := 15%Z in
  let base_spend :=
    if Qlt_le_dec (5 # 10) (Py.abs feature_score) then (base_spend + 10)%Z else base_spend in
  let role := AgentRole.value (AgentContext.role context) in
  let base_spend :=
    if decide (role = "competitor") then (base_spend + 5)%Z
    else if decide (role = "influencer") then (base_spend + 8)%Z
    else base_spend in
  let description := get_or feature "description" "" in
  let base_spend :=
    if (100 <? Str.len description)%Z then (base_spend + 5)%Z else base_spend in
  Z.min base_spend (AgentContext.attention_tokens context).

(** [analyze_feature] without its call of [_apply_persona_logic]
    (the second statement of the function): what the function
    computes when that call returns.  The call fills a dictionary
    that no later step reads and draws no randomness, but it can
    raise; the function itself, with the call in its place, is
    [MockPersona.analyze_feature] below. *)
Definition analyze_without_persona : Backend := λ feature context market_context,
  feature_score <- _analyze_feature_characteristics feature context;;
  let reasoning := _generate_realistic_reasoning feature context feature_score in
  let '(objections, suggestions) :=
    _generate_objections_suggestions feature context feature_score in
  let attention_spent := _calculate_attention_spend feature context feature_score in
  Random.ret {|
    FeatureAnalysis.feature_title := get_or feature "title" "Unknown Feature";
    FeatureAnalysis.opinion_shift := feature_score;
    FeatureAnalysis.reasoning := reasoning;
    FeatureAnalysis.objections := objections;
    FeatureAnalysis.suggestions := suggestions;
    FeatureAnalysis.influence_impact :=
      GenomeDict.influence_score (AgentContext.genome context);
    FeatureAnalysis.attention_spent := attention_spent
  |}.

End EnhancedMockAI.

(** * agents/__init__.py *)

Module AgentType.
Inductive t : Type := CUSTOMER | COMPETITOR | INFLUENCER | INTERNAL_TEAM.

Definition value (ty : t) : string :=
  match ty with
  | CUSTOMER => "customer"
  | COMPETITOR => "competitor"
  | INFLUENCER => "influencer"
  | INTERNAL_TEAM => "internal_team"
  end.

Global Instance eq_dec : EqDecision t.
Proof. solve_decision. Defined.
End AgentType.

Module PersonalityTrait.
Inductive t : Type :=
  EARLY_ADOPTER | LATE_MAJORITY | LAGGARD | INFLUENCER | SKEPTIC | ENTHUSIAST.

Definition value (tr : t) : string :=
  match tr with
  | EARLY_ADOPTER => "early_adopter"
  | LATE_MAJORITY => "late_majority"
  | LAGGARD => "laggard"
  | INFLUENCER => "influencer"
  | SKEPTIC => "skeptic"
  | ENTHUSIAST => "enthusiast"
  end.

(** [list(PersonalityTrait)], in definition order. *)
Definition all : list t :=
  [EARLY_ADOPTER; LATE_MAJORITY; LAGGARD; INFLUENCER; SKEPTIC; ENTHUSIAST].
End PersonalityTrait.

Module AgentGenome.
Record t : Type := mk {
  agent_type : AgentType.t;
  demographics : Dict;
  psychographics : Dict;
  behavioral_patterns : Dict;
  influence_score : Q;
  attention_tokens : Z;
  personality_traits : list PersonalityTrait.t
}.

(** [AgentGenome(agent_type, **kwargs)] with the defaults of
    [kwargs.get]. *)
Definition init (agent_type : AgentType.t)
    (demographics psychographics : option Dict)
    (personality_traits : option (list PersonalityTrait.t))
    (influence_score : option Q) (attention_tokens : option Z) : t :=
  {| agent_type := agent_type;
     demographics := default ∅ demographics;
     psychographics := default ∅ psychographics;
     behavioral_patterns := ∅;
     influence_score := default (5 # 10) influence_score;
     attention_tokens := default 100%Z attention_tokens;
     personality_traits := default [] personality_traits |}.

Definition to_dict (g : t) : GenomeDict.t :=
  {| GenomeDict.agent_type := AgentType.value (agent_type g);
     GenomeDict.demographics := demographics g;
     GenomeDict.psychographics := psychographics g;
     GenomeDict.behavioral_patterns := behavioral_patterns g;
     GenomeDict.influence_score := influence_score g;
     GenomeDict.attention_tokens := attention_tokens g;
     GenomeDict.personality_traits := PersonalityTrait.value <$> personality_traits g |}.

(** [genome.attention_tokens -= n] *)
Definition spend (g : t) (n : Z) : t :=
  {| agent_type := agent_type g;
     demographics := demographics g;
     psychographics := psychographics g;
     behavioral_patterns := behavioral_patterns g;
     influence_score := influence_score g;
     attention_tokens := (attention_tokens g - n)%Z;
     personality_traits := personality_traits g |}.
End AgentGenome.

(** One record produced by [Agent.process_feature]: a dictionary. *)
Abbreviation Interaction := (gmap string PyVal).

Module Agent.
Record t : Type := mk {
  genome : AgentGenome.t;
  name : string;
  memory : list string;
  relationships : gmap string Q;
  current_opinion : Q
}.

(** [Agent(genome, name)]; a missing or empty name is drawn at random. *)
Definition init (genome : AgentGenome.t) (name : option string) : Random.M t :=
  name <-
    match name with
    | Some n => if decide (n = "") then
                  k <- Random.randint 1000 9999;;
                  Random.ret (AgentType.value (AgentGenome.agent_type genome) +:+ "_" +:+ pretty k)
                else Random.ret n
    | None =>
        k <- Random.randint 1000 9999;;
        Random.ret (AgentType.value (AgentGenome.agent_type genome) +:+ "_" +:+ pretty k)
    end;;
  Random.ret {| genome := genome; name := name; memory := [];
                relationships := ∅; current_opinion := 5 # 10 |}.

(** The state change of [process_feature] once the analysis is back. *)
Definition absorb (self : t) (analysis : FeatureAnalysis.t) : t :=
  let memory := memory self ++ [FeatureAnalysis.reasoning analysis] in
  {| genome := AgentGenome.spend (genome self) (FeatureAnalysis.attention_spent analysis);
     name := name self;
     memory := if decide (10 < length memory)%nat then drop 1 memory else memory;
     relationships := relationships self;
     current_opinion :=
       Py.clamp01 (current_opinion self + FeatureAnalysis.opinion_shift analysis) |}.

(** The dictionary returned by [process_feature]. *)
Definition report (self : t) (analysis : FeatureAnalysis.t) : Interaction :=
  <["influence_impact" := VFloat (FeatureAnalysis.influence_impact analysis)]>
  (<["suggestions" := VList (FeatureAnalysis.suggestions analysis)]>
  (<["objections" := VList (FeatureAnalysis.objections analysis)]>
  (<["reasoning" := VStr (FeatureAnalysis.reasoning analysis)]>
  (<["tokens_spent" := VInt (FeatureAnalysis.attention_spent analysis)]>
  (<["opinion" := VFloat (current_opinion self)]>
  (<["agent_type" := VStr (AgentType.value (AgentGenome.agent_type (genome self)))]>
  (<["agent_name" := VStr (name self)]> ∅))))))).

Definition process_feature (llm : Backend) (self : t) (feature : Feature)
    (market_context : option Dict) : Random.M (t * Interaction) :=
  role <- Random.lift (AgentRole.of_value (AgentType.value (AgentGenome.agent_type (genome self))));;
  let context :=
    {| AgentContext.role := role;
       AgentContext.genome := AgentGenome.to_dict (genome self);
       AgentContext.current_opinion := current_opinion self;
       AgentContext.memory := memory self;
       AgentContext.relationships := relationships self;
       AgentContext.attention_tokens := AgentGenome.attention_tokens (genome self) |} in
  analysis <- llm feature context (default ∅ market_context);;
  let self := absorb self analysis in
  Random.ret (self, report self analysis).

(** [agent.current_opinion = q] *)
Definition set_opinion (self : t) (q : Q) : t :=
  {| genome := genome self; name := name self; memory := memory self;
     relationships := relationships self; current_opinion := q |}.
End Agent.

Module AgentFactory.

Definition create_customer_agent : Random.M Agent.t :=
  age <- Random.randint 18 65;;
  income_level <- Random.choice ["low"; "middle"; "high"];;
  location <- Random.choice ["urban"; "suburban"; "rural"];;
  education <- Random.choice ["high_school"; "college"; "graduate"];;
  let demographics : Dict :=
    <["education" := VStr education]> (<["location" := VStr location]>
    (<["income_level" := VStr income_level]> (<["age" := VInt age]> ∅))) in
  tech_savviness <- Random.uniform (2 # 10) 1;;
  price_sensitivity <- Random.uniform (3 # 10) (9 # 10);;
  brand_loyalty <- Random.uniform (1 # 10) (8 # 10);;
  social_influence <- Random.uniform (1 # 10) (7 # 10);;
  let psychographics : Dict :=
    <["social_influence" := VFloat social_influence]>
    (<["brand_loyalty" := VFloat brand_loyalty]>
    (<["price_sensitivity" := VFloat price_sensitivity]>
    (<["tech_savviness" := VFloat tech_savviness]> ∅))) in
  n <- Random.randint 1 3;;
  personality_traits <- Random.sample PersonalityTrait.all n;;
  influence_score <- Random.uniform (1 # 10) (6 # 10);;
  let genome :=
    AgentGenome.init AgentType.CUSTOMER (Some demographics) (Some psychographics)
      (Some personality_traits) (Some influence_score) None in
  Agent.init genome None.

Definition create_competitor_agent : Random.M Agent.t :=
  aggressiveness <- Random.uniform (4 # 10) (9 # 10);;
  market_share <- Random.uniform (1 # 10) (8 # 10);;
  innovation_focus <- Random.uniform (3 # 10) (9 # 10);;
  let psychographics : Dict :=
    <["innovation_focus" := VFloat innovation_focus]>
    (<["market_share" := VFloat market_share]>
    (<["aggressiveness" := VFloat aggressiveness]> ∅)) in
  influence_score <- Random.uniform (6 # 10) (9 # 10);;
  let genome :=
    AgentGenome.init AgentType.COMPETITOR None (Some psychographics)
      (Some [PersonalityTrait.SKEPTIC]) (Some influence_score) None in
  Agent.init genome None.

Definition create_influencer_agent : Random.M Agent.t :=
  reach <- Random.uniform (7 # 10) 1;;
  credibility <- Random.uniform (5 # 10) (9 # 10);;
  engagement_rate <- Random.uniform (3 # 10) (8 # 10);;
  let psychographics : Dict :=
    <["engagement_rate" := VFloat engagement_rate]>
    (<["credibility" := VFloat credibility]> (<["reach" := VFloat reach]> ∅)) in
  influence_score <- Random.uniform (7 # 10) 1;;
  let genome :=
    AgentGenome.init AgentType.INFLUENCER None (Some psychographics)
      (Some [PersonalityTrait.INFLUENCER]) (Some influence_score) (Some 150%Z) in
  Agent.init genome None.

Definition create_internal_team_agent (role : string) : Random.M Agent.t :=
  department_bias <- Random.uniform (3 # 10) (8 # 10);;
  company_loyalty <- Random.uniform (6 # 10) (9 # 10);;
  risk_tolerance <- Random.uniform (2 # 10) (7 # 10);;
  let psychographics : Dict :=
    <["risk_tolerance" := VFloat risk_tolerance]>
    (<["company_loyalty" := VFloat company_loyalty]>
    (<["department_bias" := VFloat department_bias]> ∅)) in
  influence_score <- Random.uniform (4 # 10) (7 # 10);;
  let genome :=
    AgentGenome.init AgentType.INTERNAL_TEAM (Some {[ "role" := VStr role ]})
      (Some psychographics) (Some [PersonalityTrait.ENTHUSIAST])
      (Some influence_score) None in
  k <- Random.randint 100 999;;
  Agent.init genome (Some (Str.upper role +:+ "_" +:+ pretty k)).

End AgentFactory.

(** * simulation/__init__.py *)

Module NetworkTopology.
Inductive t : Type := ECHO_CHAMBER | LOOSE_NETWORK | REAL_FOLLOWER.
End NetworkTopology.

(** ** The part of [networkx.DiGraph] the engine uses

    Nodes in insertion order; edges in the order of their first
    insertion, each with its [weight] attribute.  Adding an edge again
    overwrites the weight and keeps the position, as the adjacency
    dictionaries do. *)

Module DiGraph.
Abbreviation edge := (string * string * Q)%type.

Record t : Type := mk { nodes : list string; edges : list edge }.

Definition empty : t := {| nodes := []; edges := [] |}.

Definition src (e : edge) : string := e.1.1.
Definition dst (e : edge) : string := e.1.2.
Definition weight (e : edge) : Q := e.2.

Definition add_node_list (ns : list string) (n : string) : list string :=
  if decide (n ∈ ns) then ns else ns ++ [n].

Definition add_node (g : t) (n : string) : t :=
  {| nodes := add_node_list (nodes g) n; edges := edges g |}.

Fixpoint set_edge (es : list edge) (u v : string) (w : Q) : list edge :=
  match es with
  | [] => [(u, v, w)]
  | e :: es' =>
      if decide (src e = u ∧ dst e = v) then (u, v, w) :: es'
      else e :: set_edge es' u v w
  end.

Definition add_edge (g : t) (u v : string) (w : Q) : t :=
  {| nodes := add_node_list (add_node_list (nodes g) u) v;
     edges := set_edge (edges g) u v w |}.

(** [g.predecessors(n)] and [g.successors(n)] raise for an unknown node. *)
Definition predecessors (g : t) (n : string) : option (list string) :=
  if decide (n ∈ nodes g)
  then Some (src <$> filter (λ e, dst e = n) (edges g)) else None.

Definition successors (g : t) (n : string) : option (list string) :=
  if decide (n ∈ nodes g)
  then Some (dst <$> filter (λ e, src e = n) (edges g)) else None.

(** The edge attribute dictionary [g[u][v]], when the edge exists. *)
Definition find_edge (g : t) (u v : string) : option edge :=
  head (filter (λ e, src e = u ∧ dst e = v) (edges g)).

Definition has_edge (g : t) (u v : string) : bool :=
  bool_decide (is_Some (find_edge g u v)).

(** Successors without the membership check: the out-neighbours. *)
Definition out_neighbours (g : t) (n : string) : list string :=
  dst <$> filter (λ e, src e = n) (edges g).
End DiGraph.

(** ** ArenaHealthMetrics *)

Module ArenaHealthMetrics.

Record metrics : Type := mk_metrics {
  polarization_score : Q;
  advocate_to_saboteur_ratio : Q;
  viral_path_length : Q;
  engagement_density : Q
}.

Definition sumQ (l : list Q) : Q := fold_left Qplus l 0.

(** [len(l)] as a float operand. *)
Definition lenQ {A} (l : list A) : Q := inject_Z (Z.of_nat (length l)).

(** Raises [ZeroDivisionError] on an empty agent list. *)
Definition _calculate_polarization (agents : list Agent.t) : option Q :=
  let opinions := Agent.current_opinion <$> agents in
  if decide (length opinions = 0%nat) then None else
  let mean_opinion := sumQ opinions / lenQ opinions in
  let variance :=
    sumQ ((λ op, (op - mean_opinion) ^ 2) <$> opinions) / lenQ opinions in
  Some (Py.min 1 (variance * 4)).

Definition _calculate_advocate_ratio (agents : list Agent.t) : Q :=
  let advocates :=
    length (filter (λ a, 7 # 10 < Agent.current_opinion a) agents) in
  let saboteurs :=
    length (filter (λ a, Agent.current_opinion a < 3 # 10) agents) in
  inject_Z (Z.of_nat advocates) / inject_Z (Z.max (Z.of_nat saboteurs) 1).

(** A dictionary value as a summand; anything but a number raises. *)
Definition as_number (v : PyVal) : option Q :=
  match v with
  | VFloat q => Some q
  | VInt z => Some (inject_Z z)
  | _ => None
  end.

Definition _calculate_viral_path (interactions : list Interaction) : option Q :=
  if decide (interactions = []) then Some 0 else
  total_impact ← foldl (λ acc interaction,
      t ← acc; x ← as_number (get_or interaction "influence_impact" (VInt 0));
      Some (t + x)) (Some 0) interactions;
  Some (total_impact / lenQ interactions).

(** Equality of dictionary values ([1 == 1.0] holds). *)
Definition val_eqb (a b : PyVal) : bool :=
  match a, b with
  | VStr x, VStr y => bool_decide (x = y)
  | VList x, VList y => bool_decide (x = y)
  | VList _, _ | _, VList _ | VStr _, _ | _, VStr _ => false
  | x, y => match as_number x, as_number y with
            | Some p, Some q => Qeq_bool p q
            | _, _ => false
            end
  end.

(** [tuple(sorted([a, b]))] as a set element: comparing a string with
    a number raises, and a tuple holding a list cannot be hashed. *)
Definition sorted_pair (a b : PyVal) : option (PyVal * PyVal) :=
  match a, b with
  | VStr x, VStr y =>
      Some (if Strings.String.ltb y x then (b, a) else (a, b))
  | VList _, _ | _, VList _ | VStr _, _ | _, VStr _ => None
  | x, y => match as_number x, as_number y with
            | Some p, Some q =>
                Some (match q ?= p with Lt => (b, a) | _ => (a, b) end)
            | _, _ => None
            end
  end.

Definition pair_eqb (p q : PyVal * PyVal) : bool :=
  val_eqb p.1 q.1 && val_eqb p.2 q.2.

(** [unique_pairs.add(pair)] *)
Definition set_add (pairs : list (PyVal * PyVal)) (pair : PyVal * PyVal)
    : list (PyVal * PyVal) :=
  if existsb (pair_eqb pair) pairs then pairs else pairs ++ [pair].

Definition _calculate_engagement_density (interactions : list Interaction)
    : option Q :=
  if decide (interactions = []) then Some 0 else
  unique_pairs ← foldl (λ acc (interaction : Interaction),
      pairs ← acc;
      match interaction !! "agent_name", interaction !! "target_agent" with
      | Some a, Some b => pair ← sorted_pair a b; Some (set_add pairs pair)
      | _, _ => Some pairs
      end) (Some []) interactions;
  Some (lenQ unique_pairs
        / inject_Z (Z.max (Z.of_nat (length interactions)) 1)).

Definition calculate_metrics (agents : list Agent.t)
    (interactions : list Interaction) : option metrics :=
  polarization ← _calculate_polarization agents;
  let ratio := _calculate_advocate_ratio agents in
  viral ← _calculate_viral_path interactions;
  density ← _calculate_engagement_density interactions;
  Some {| polarization_score := polarization;
          advocate_to_saboteur_ratio := ratio;
          viral_path_length := viral;
          engagement_density := density |}.

End ArenaHealthMetrics.

(** ** InfluenceGraph *)

Module InfluenceGraph.

Record t : Type := mk {
  topology : NetworkTopology.t;
  graph : DiGraph.t;
  agents : list (string * Agent.t)
}.

Definition init (topology : NetworkTopology.t) : t :=
  {| topology := topology; graph := DiGraph.empty; agents := [] |}.

(** [sorted(l, key=..., reverse=True)] on (name, key) pairs: stable,
    so equal keys keep their original order. *)
Fixpoint insert_desc (x : string * Q) (l : list (string * Q)) : list (string * Q) :=
  match l with
  | [] => [x]
  | y :: l' => if decide (x.2 < y.2) then y :: insert_desc x l' else x :: l
  end.

Definition sorted_desc (l : list (string * Q)) : list (string * Q) :=
  foldr insert_desc [] l.

(** [enumerate(l)] *)
Definition enumerate {A} (l : list A) : list (nat * A) := zip (seq 0 (length l)) l.

Definition echo_chamber_edges (agents : list (string * Agent.t))
    (agent_names : list string) (g : DiGraph.t) : Random.M DiGraph.t :=
  Random.for_each (enumerate agent_names) (λ g '(i, agent_name),
    agent <- Random.lift (ODict.get agents agent_name);;
    Random.for_each (enumerate agent_names) (λ g '(j, other_name),
      if decide (i ≠ j) then
        other_agent <- Random.lift (ODict.get agents other_name);;
        let similarity :=
          1 - Py.abs (Agent.current_opinion agent - Agent.current_opinion other_agent) in
        r <- Random.random;;
        if decide (r < similarity * 0.3)
        then Random.ret (DiGraph.add_edge g agent_name other_name similarity)
        else Random.ret g
      else Random.ret g) g) g.

Definition loose_network_edges (agent_names : list string) (g : DiGraph.t)
    : Random.M DiGraph.t :=
  Random.for_each agent_names (λ g agent_name,
    num_connections <- Random.randint 2 4;;
    connections <-
      Random.sample (filter (λ n, n ≠ agent_name) agent_names)
        (Z.min num_connections (Z.of_nat (length agent_names) - 1));;
    Random.for_each connections (λ g connection,
      weight <- Random.uniform 0.1 1.0;;
      Random.ret (DiGraph.add_edge g agent_name connection weight)) g) g.

(** The split of the real-follower strategy: names sorted by
    influence score, the first [max(1, n // 5)] are the influencers. *)
Definition ranked (agents : list (string * Agent.t)) (agent_names : list string)
    : option (list string) :=
  keyed ← mapM (λ x, a ← ODict.get agents x;
                     Some (x, AgentGenome.influence_score (Agent.genome a)))
               agent_names;
  Some (sorted_desc keyed).*1.

Definition num_influencers (sorted_agents : list string) : nat :=
  Nat.max 1 (length sorted_agents / 5).

Definition real_follower_edges (agents : list (string * Agent.t))
    (agent_names : list string) (g : DiGraph.t) : Random.M DiGraph.t :=
  sorted_agents <- Random.lift (ranked agents agent_names);;
  let num_influencers := num_influencers sorted_agents in
  let influencers := take num_influencers sorted_agents in
  let followers := drop num_influencers sorted_agents in
  Random.for_each followers (λ g follower,
    num_follows <-
      Random.randint 1 (Z.min 3 (Z.of_nat (length influencers)));;
    followed_influencers <- Random.sample influencers num_follows;;
    Random.for_each followed_influencers (λ g influencer,
      a <- Random.lift (ODict.get agents influencer);;
      let weight := AgentGenome.influence_score (Agent.genome a) in
      Random.ret (DiGraph.add_edge g follower influencer weight)) g) g.

Definition _create_network_edges (self : t) : Random.M t :=
  let agent_names := ODict.keys (agents self) in
  g <- match topology self with
       | NetworkTopology.ECHO_CHAMBER =>
           echo_chamber_edges (agents self) agent_names (graph self)
       | NetworkTopology.LOOSE_NETWORK =>
           loose_network_edges agent_names (graph self)
       | NetworkTopology.REAL_FOLLOWER =>
           real_follower_edges (agents self) agent_names (graph self)
       end;;
  Random.ret {| topology := topology self; graph := g; agents := agents self |}.

Definition add_agents (self : t) (new_agents : list Agent.t) : Random.M t :=
  let self :=
    fold_left (λ self agent,
      {| topology := topology self;
         graph := DiGraph.add_node (graph self) (Agent.name agent);
         agents := ODict.set (agents self) (Agent.name agent) agent |})
      new_agents self in
  _create_network_edges self.

Definition get_influencers (self : t) (agent_name : string) : option (list string) :=
  DiGraph.predecessors (graph self) agent_name.

Definition get_followers (self : t) (agent_name : string) : option (list string) :=
  DiGraph.successors (graph self) agent_name.

Definition calculate_influence_flow (self : t) (source_agent target_agent : string) : Q :=
  match DiGraph.find_edge (graph self) source_agent target_agent with
  | Some e => DiGraph.weight e
  | None => 0
  end.

End InfluenceGraph.

(** ** AdvancedSimulator *)

Module Brief.
(** The brief dictionary; [features] is [None] when the key is absent. *)
Record t : Type := mk { product_name : string; features : option (list Feature) }.
End Brief.

Module RoundResult.
Record t : Type := mk {
  round : Z;
  interactions : list Interaction;
  average_opinion : Q
}.
End RoundResult.

Module Report.
Record t : Type := mk {
  adoption_score : Q;
  arena_health : ArenaHealthMetrics.metrics;
  round_history : list RoundResult.t;
  final_agents : list Agent.t
}.
End Report.

Module AdvancedSimulator.

(** The simulator object.  [agents] maps a name to the position, in
    the population list, of the agent object stored under that name:
    objects are shared with the list, not copied. *)
Record t : Type := mk {
  network_topology : NetworkTopology.t;
  influence_graph : InfluenceGraph.t;
  round_history : list RoundResult.t;
  agents : list (string * nat)
}.

Definition init (network_topology : NetworkTopology.t) : t :=
  {| network_topology := network_topology;
     influence_graph := InfluenceGraph.init network_topology;
     round_history := [];
     agents := [] |}.

Definition total_agents : Z := 20.

(** [int((config.get(key, dflt) / 100) * total_agents)] *)
Definition role_count (config : gmap string Z) (key : string) (dflt : Z) : Z :=
  Py.int ((inject_Z (get_or config key dflt) / 100) * inject_Z total_agents).

(** [for _ in range(n): agents.append(create())] *)
Definition append_agents (n : Z) (create : nat → Random.M Agent.t)
    (agents : list Agent.t) : Random.M (list Agent.t) :=
  Random.for_each (seq 0 (Z.to_nat n)) (λ agents i,
    a <- create i;; Random.ret (agents ++ [a])) agents.

Definition internal_roles : list string := ["pm"; "sales"; "cx"].

Definition create_agent_population (config : gmap string Z)
    : Random.M (list Agent.t) :=
  let num_customers := role_count config "customer_percentage" 60 in
  let num_competitors := role_count config "competitor_percentage" 20 in
  let num_influencers := role_count config "influencer_percentage" 10 in
  let num_internal :=
    (total_agents - num_customers - num_competitors - num_influencers)%Z in
  agents <- append_agents num_customers
              (λ _, AgentFactory.create_customer_agent) [];;
  agents <- append_agents num_competitors
              (λ _, AgentFactory.create_competitor_agent) agents;;
  agents <- append_agents num_influencers
              (λ _, AgentFactory.create_influencer_agent) agents;;
  append_agents num_internal
    (λ i, role <- Random.lift (internal_roles !! (i mod 3)%nat);;
          AgentFactory.create_internal_team_agent role) agents.

(** [result['influence_impact'] += x] *)
Definition add_impact (result : Interaction) (x : Q) : option Interaction :=
  match result !! "influence_impact" with
  | Some v => q ← ArenaHealthMetrics.as_number v;
              Some (<["influence_impact" := VFloat (q + x)]> result)
  | None => None
  end.

(** One pass of the loop [for influencer_name in influencers] for the
    agent at position [i] of the population. *)
Definition influence_step (self : t) (i : nat)
    (st : list Agent.t * Interaction) (influencer_name : string)
    : Random.M (list Agent.t * Interaction) :=
  let '(population, result) := st in
  agent <- Random.lift (population !! i);;
  j <- Random.lift (ODict.get (agents self) influencer_name);;
  influencer <- Random.lift (population !! j);;
  let influence_strength :=
    InfluenceGraph.calculate_influence_flow (influence_graph self)
      influencer_name (Agent.name agent) in
  let opinion_shift :=
    (Agent.current_opinion influencer - Agent.current_opinion agent)
    * influence_strength * 0.1 in
  let agent :=
    Agent.set_opinion agent (Py.clamp01 (Agent.current_opinion agent + opinion_shift)) in
  result <- Random.lift (add_impact result (Py.abs opinion_shift));;
  Random.ret (<[i := agent]> population, result).

(** The body of [for i, result in enumerate(agent_results)]. *)
Definition propagate (self : t)
    (st : list Agent.t * list Interaction) (ir : nat * Interaction)
    : Random.M (list Agent.t * list Interaction) :=
  let '(population, feature_interactions) := st in
  let '(i, result) := ir in
  agent <- Random.lift (population !! i);;
  influencers <-
    Random.lift (InfluenceGraph.get_influencers (influence_graph self) (Agent.name agent));;
  pr <- Random.for_each influencers (influence_step self i) (population, result);;
  Random.ret (pr.1, feature_interactions ++ [pr.2]).

(** The [asyncio.gather] barrier: every task reads and writes
    its own agent only, so the tasks are run in population order. *)
Definition gather (llm : Backend) (feature : Feature) (market_context : option Dict)
    (population : list Agent.t) : Random.M (list Agent.t * list Interaction) :=
  rs <- Random.map_m (λ agent, Agent.process_feature llm agent feature market_context)
          population;;
  Random.ret (rs.*1, rs.*2).

Definition run_feature (self : t) (llm : Backend) (market_context : option Dict)
    (st : list Agent.t * list Interaction) (feature : Feature)
    : Random.M (list Agent.t * list Interaction) :=
  let '(population, interactions) := st in
  gr <- gather llm feature market_context population;;
  pr <- Random.for_each (InfluenceGraph.enumerate gr.2) (propagate self) (gr.1, []);;
  Random.ret (pr.1, interactions ++ pr.2).

Definition _run_single_round (self : t) (llm : Backend) (brief : Brief.t)
    (population : list Agent.t) (round_num : Z) (market_context : option Dict)
    : Random.M (RoundResult.t * list Agent.t) :=
  st <- Random.for_each (default [] (Brief.features brief))
          (run_feature self llm market_context) (population, []);;
  if decide (length st.1 = 0%nat) then Random.raise else
  Random.ret
    ({| RoundResult.round := (round_num + 1)%Z;
        RoundResult.interactions := st.2;
        RoundResult.average_opinion :=
          ArenaHealthMetrics.sumQ (Agent.current_opinion <$> st.1)
          / ArenaHealthMetrics.lenQ st.1 |}, st.1).

Definition _calculate_adoption_score (population : list Agent.t) : Q :=
  let customer_agents :=
    filter (λ a, AgentGenome.agent_type (Agent.genome a) = AgentType.CUSTOMER)
      population in
  if decide (customer_agents = []) then 0 else
  let total_weighted_opinion :=
    ArenaHealthMetrics.sumQ
      ((λ agent, Agent.current_opinion agent
                 * AgentGenome.influence_score (Agent.genome agent))
         <$> customer_agents) in
  let total_weight :=
    ArenaHealthMetrics.sumQ
      ((λ agent, AgentGenome.influence_score (Agent.genome agent))
         <$> customer_agents) in
  if decide (0 < total_weight)
  then (total_weighted_opinion / total_weight) * 100 else 0.

(** [{agent.name: agent for agent in agents}] *)
Definition index_by_name (population : list Agent.t) : list (string * nat) :=
  fold_left (λ d '(i, agent), ODict.set d (Agent.name agent) i)
    (InfluenceGraph.enumerate population) [].

(** [for round_num in range(num_rounds)] *)
Definition run_rounds (self : t) (llm : Backend) (brief : Brief.t)
    (num_rounds : Z) (market_context : option Dict) (population : list Agent.t)
    : Random.M (t * list Agent.t) :=
  Random.for_each (seq 0 (Z.to_nat num_rounds)) (λ '(self, population) round_num,
    rr <- _run_single_round self llm brief population (Z.of_nat round_num)
            market_context;;
    Random.ret
      ({| network_topology := network_topology self;
          influence_graph := influence_graph self;
          round_history := round_history self ++ [rr.1];
          agents := agents self |}, rr.2)) (self, population).

(** The first part of [run_simulation], from the creation of the
    population to [final_metrics], with the analysis backend of the
    agents as a parameter.  It is not the whole function: the
    insights, which may raise, and the lists of the report follow it
    in [Reporting.run_simulation] below, which is [run_simulation]. *)
Definition run_to_metrics (self : t) (llm : Backend) (brief : Brief.t)
    (config : gmap string Z) (num_rounds : Z) (market_context : option Dict)
    : Random.M (t * Report.t) :=
  population <- create_agent_population config;;
  graph <- InfluenceGraph.add_agents (influence_graph self) population;;
  let self :=
    {| network_topology := network_topology self;
       influence_graph := graph;
       round_history := [];
       agents := index_by_name population |} in
  sp <- run_rounds self llm brief num_rounds market_context population;;
  let '(self, population) := sp in
  final_metrics <-
    Random.lift (ArenaHealthMetrics.calculate_metrics population
      (concat (RoundResult.interactions <$> round_history self)));;
  Random.ret (self,
    {| Report.adoption_score := _calculate_adoption_score population;
       Report.arena_health := final_metrics;
       Report.round_history := round_history self;
       Report.final_agents := population |}).

End AdvancedSimulator.

(** * Vocabulary of the properties *)

(** A computation that returns: it produces a result, and the result
    satisfies [P]. *)
Definition ran {A} (o : option A) : bool :=
  match o with Some _ => true | None => false end.

Definition returns {A} (o : option A) (P : A → Prop) : Prop :=
  ∃ x, o = Some x ∧ P x.

(** Total correctness of a computation in [Random.M]: started on the
    draws [s] it does not raise, and its value satisfies [P]. *)
Definition yields {A} (m : Random.M A) (s : Random.Rng) (P : A → Prop) : Prop :=
  ∃ x s', m s = Some (x, s') ∧ P x.

(** An opinion inside the unit interval. *)
Definition opinion_in_range (a : Agent.t) : Prop :=
  0 <= Agent.current_opinion a <= 1.

(** The attention budget left to an agent. *)
Definition tokens (a : Agent.t) : Z := AgentGenome.attention_tokens (Agent.genome a).

(** The numeric value of a record's [influence_impact] field. *)
Definition impact_of (r : Interaction) : option Q :=
  r !! "influence_impact" ≫= ArenaHealthMetrics.as_number.

(** The opinion delta an agent receives from one predecessor, as the
    round executor computes it. *)
Definition propagation_delta (self : AdvancedSimulator.t)
    (influencer agent : Agent.t) (influencer_name : string) : Q :=
  (Agent.current_opinion influencer - Agent.current_opinion agent)
  * InfluenceGraph.calculate_influence_flow
      (AdvancedSimulator.influence_graph self) influencer_name (Agent.name agent)
  * 0.1.

(** The deltas met while the agent at position [i] walks through its
    predecessors: each one is taken against the population as the
    previous ones left it. *)
Fixpoint propagation_deltas (self : AdvancedSimulator.t) (i : nat)
    (population : list Agent.t) (influencers : list string) : list Q :=
  match influencers with
  | [] => []
  | influencer_name :: rest =>
      match population !! i,
            ODict.get (AdvancedSimulator.agents self) influencer_name ≫= (population !!.) with
      | Some agent, Some influencer =>
          let delta := propagation_delta self influencer agent influencer_name in
          delta ::
          propagation_deltas self i
            (<[i := Agent.set_opinion agent
                      (Py.clamp01 (Agent.current_opinion agent + delta))]> population)
            rest
      | _, _ => []
      end
  end.

(** * Concrete scenarios

    Small populations with a hand-picked edge set, used to evaluate the
    model. *)

Module Scenario.

Definition agent (name : string) (ty : AgentType.t) (influence opinion : Q)
    : Agent.t :=
  {| Agent.genome := AgentGenome.init ty None None None (Some influence) None;
     Agent.name := name;
     Agent.memory := [];
     Agent.relationships := ∅;
     Agent.current_opinion := opinion |}.

Definition feature : Feature :=
  <["description" := "fast cloud sync"]> (<["title" := "Sync"]> ∅).

Definition brief : Brief.t :=
  {| Brief.product_name := "Demo"; Brief.features := Some [feature] |}.

(** A simulator whose graph holds the given population and edges. *)
Definition simulator (topology : NetworkTopology.t)
    (population : list Agent.t) (edges : list DiGraph.edge) : AdvancedSimulator.t :=
  {| AdvancedSimulator.network_topology := topology;
     AdvancedSimulator.influence_graph :=
       {| InfluenceGraph.topology := topology;
          InfluenceGraph.graph :=
            {| DiGraph.nodes := Agent.name <$> population; DiGraph.edges := edges |};
          InfluenceGraph.agents := (λ a, (Agent.name a, a)) <$> population |};
     AdvancedSimulator.round_history := [];
     AdvancedSimulator.agents := AdvancedSimulator.index_by_name population |}.

(** A backend that answers every request with the same analysis. *)
Definition fixed_backend (shift impact : Q) (spent : Z) : Backend :=
  λ feature context market_context,
    Random.ret {| FeatureAnalysis.feature_title := get_or feature "title" "";
                  FeatureAnalysis.opinion_shift := shift;
                  FeatureAnalysis.reasoning := "noted";
                  FeatureAnalysis.objections := [];
                  FeatureAnalysis.suggestions := [];
                  FeatureAnalysis.influence_impact := impact;
                  FeatureAnalysis.attention_spent := spent |}.

(** What [fixed_backend 0.1 0.25 7] answers about [feature]. *)
Definition note : FeatureAnalysis.t :=
  FeatureAnalysis.mk "Sync" 0.1 "noted" [] [] 0.25 7.

(** Two agents: [ann] has no predecessor, [bob] is influenced by [ann]. *)
Definition ann : Agent.t := agent "ann" AgentType.CUSTOMER 0.5 0.9.
Definition bob : Agent.t := agent "bob" AgentType.COMPETITOR 0.8 0.2.
Definition cat : Agent.t := agent "cat" AgentType.INFLUENCER 0.9 0.6.

Definition pair : list Agent.t := [ann; bob].
Definition pair_sim : AdvancedSimulator.t :=
  simulator NetworkTopology.REAL_FOLLOWER pair [("ann", "bob", 0.5)].

(** Three agents: [cat] is influenced by [ann] and then by [bob]. *)
Definition trio : list Agent.t := [ann; bob; cat].
Definition trio_sim : AdvancedSimulator.t :=
  simulator NetworkTopology.LOOSE_NETWORK trio
    [("ann", "cat", 0.5); ("bob", "cat", 1)].

(** The record of [cat] before any propagation. *)
Definition cat_record : Interaction := Agent.report cat note.

End Scenario.

(** The keys the engagement-density metric looks at: a record of the
    round executor names its agent and no target agent. *)
Definition agent_only_record (r : Interaction) : Prop :=
  is_Some (r !! "agent_name") ∧ r !! "target_agent" = None.

(** Every interaction logged in a round history. *)
Definition logged_interactions (history : list RoundResult.t) : list Interaction :=
  concat (RoundResult.interactions <$> history).

Module Configs.

(** [{customer: 25, competitor: 25, influencer: 25, internal_team: 25}] *)
Definition quarters : gmap string Z :=
  <["internal_team_percentage" := 25%Z]> (<["influencer_percentage" := 25%Z]>
  (<["competitor_percentage" := 25%Z]> (<["customer_percentage" := 25%Z]> ∅))).

(** A population of customers only. *)
Definition customers_only : gmap string Z :=
  <["internal_team_percentage" := 0%Z]> (<["influencer_percentage" := 0%Z]>
  (<["competitor_percentage" := 0%Z]> (<["customer_percentage" := 100%Z]> ∅))).

(** Three roles at 50 percent each: the percentages sum to 150. *)
Definition oversubscribed : gmap string Z :=
  <["internal_team_percentage" := 0%Z]> (<["influencer_percentage" := 50%Z]>
  (<["competitor_percentage" := 50%Z]> (<["customer_percentage" := 50%Z]> ∅))).

End Configs.

(** What the factory guarantees about a new agent of role [ty]: the
    range its influence score is drawn from, its attention budget and
    the neutral starting state. *)
Definition fresh_agent (ty : AgentType.t) (lo hi : Q) (budget : Z) (a : Agent.t) : Prop :=
  AgentGenome.agent_type (Agent.genome a) = ty
  ∧ lo <= AgentGenome.influence_score (Agent.genome a) <= hi
  ∧ tokens a = budget
  ∧ Agent.current_opinion a = 0.5
  ∧ Agent.memory a = [].

Definition factory_agent (a : Agent.t) : Prop :=
  fresh_agent AgentType.CUSTOMER 0.1 0.6 100 a
  ∨ fresh_agent AgentType.COMPETITOR 0.6 0.9 100 a
  ∨ fresh_agent AgentType.INFLUENCER 0.7 1 150 a
  ∨ fresh_agent AgentType.INTERNAL_TEAM 0.4 0.7 100 a.

(** The number of agents a loop [for _ in range(n)] creates. *)
Definition iterations (n : Z) : nat := Z.to_nat n.

(** The first half of [add_agents]: every agent is entered in the
    dictionary and as a node, before any edge is created. *)
Definition register (self : InfluenceGraph.t) (new_agents : list Agent.t)
    : InfluenceGraph.t :=
  fold_left (λ self agent,
    {| InfluenceGraph.topology := InfluenceGraph.topology self;
       InfluenceGraph.graph :=
         DiGraph.add_node (InfluenceGraph.graph self) (Agent.name agent);
       InfluenceGraph.agents :=
         ODict.set (InfluenceGraph.agents self) (Agent.name agent) agent |})
    new_agents self.

(** The influence score the graph's dictionary records for a name. *)
Definition score_of (agents : list (string * Agent.t)) (n : string) : Q :=
  match ODict.get agents n with
  | Some a => AgentGenome.influence_score (Agent.genome a)
  | None => 0
  end.

(** An influence graph built once, on a new [InfluenceGraph] object. *)
Definition build (topology : NetworkTopology.t) (population : list Agent.t)
    : Random.M InfluenceGraph.t :=
  InfluenceGraph.add_agents (InfluenceGraph.init topology) population.

(** A backend that answers every request. *)
Definition answers (llm : Backend) : Prop :=
  ∀ feature context market_context s,
    yields (llm feature context market_context) s (λ _, True).

(** A record whose [influence_impact] field holds a number. *)
Definition numeric_impact (r : Interaction) : Prop := is_Some (impact_of r).

(** The simulator can resolve what its graph hands to the round
    executor: every name of the population is a node, and the source of
    every edge is indexed to a position of the population. *)
Definition wired (self : AdvancedSimulator.t) (names : list string) : Prop :=
  let g := InfluenceGraph.graph (AdvancedSimulator.influence_graph self) in
  (∀ x, x ∈ names → x ∈ DiGraph.nodes g)
  ∧ ∀ e, e ∈ DiGraph.edges g →
      ∃ j, ODict.get (AdvancedSimulator.agents self) (DiGraph.src e) = Some j
           ∧ (j < length names)%nat.

(** * Further parts of the three modules

    What the functions below add to the embedding: the exceptions a
    caller can observe, [AgentGenome.from_dict], the persona step of
    the fallback backend, the insight generators, the integration
    object with its fallback logic, and the report helpers of the
    simulator. *)

(** ** Exceptions *)

Inductive PyError : Type :=
  | KeyError (key : string)
  | ValueError (value : string)
  | TypeError
  | ZeroDivisionError.

(** A computation that either raises or returns. *)
Abbreviation Result A := (PyError + A)%type.

(** ** Enumerations by value *)

(** [AgentType(s)]: the member whose value is [s]. *)
Definition AgentType_of_value (s : string) : option AgentType.t :=
  if decide (s = "customer") then Some AgentType.CUSTOMER
  else if decide (s = "competitor") then Some AgentType.COMPETITOR
  else if decide (s = "influencer") then Some AgentType.INFLUENCER
  else if decide (s = "internal_team") then Some AgentType.INTERNAL_TEAM
  else None.

(** [PersonalityTrait(s)] *)
Definition PersonalityTrait_of_value (s : string) : option PersonalityTrait.t :=
  if decide (s = "early_adopter") then Some PersonalityTrait.EARLY_ADOPTER
  else if decide (s = "late_majority") then Some PersonalityTrait.LATE_MAJORITY
  else if decide (s = "laggard") then Some PersonalityTrait.LAGGARD
  else if decide (s = "influencer") then Some PersonalityTrait.INFLUENCER
  else if decide (s = "skeptic") then Some PersonalityTrait.SKEPTIC
  else if decide (s = "enthusiast") then Some PersonalityTrait.ENTHUSIAST
  else None.

(** ** AgentGenome.from_dict *)

(** The dictionary [from_dict] reads: each of the seven keys may be
    absent.  Values are of the kind [to_dict] writes. *)
Module GenomeData.
Record t : Type := mk {
  agent_type : option string;
  demographics : option Dict;
  psychographics : option Dict;
  behavioral_patterns : option Dict;
  influence_score : option Q;
  attention_tokens : option Z;
  personality_traits : option (list string)
}.

(** The dictionary [to_dict] returns: every key is present. *)
Definition of_dict (d : GenomeDict.t) : t :=
  {| agent_type := Some (GenomeDict.agent_type d);
     demographics := Some (GenomeDict.demographics d);
     psychographics := Some (GenomeDict.psychographics d);
     behavioral_patterns := Some (GenomeDict.behavioral_patterns d);
     influence_score := Some (GenomeDict.influence_score d);
     attention_tokens := Some (GenomeDict.attention_tokens d);
     personality_traits := Some (GenomeDict.personality_traits d) |}.

(** A dictionary that holds [agent_type] only. *)
Definition only (agent_type : string) : t :=
  {| agent_type := Some agent_type;
     demographics := None; psychographics := None; behavioral_patterns := None;
     influence_score := None; attention_tokens := None; personality_traits := None |}.

(** The dictionary with every absent key set to the default
    [from_dict] reads for it. *)
Definition completed (data : t) (agent_type : string) : t :=
  {| agent_type := Some agent_type;
     demographics := Some (default ∅ (demographics data));
     psychographics := Some (default ∅ (psychographics data));
     behavioral_patterns := Some (default ∅ (behavioral_patterns data));
     influence_score := Some (default (5 # 10) (influence_score data));
     attention_tokens := Some (default 100%Z (attention_tokens data));
     personality_traits := Some (default [] (personality_traits data)) |}.
End GenomeData.

Module GenomeCodec.

(** [[PersonalityTrait(trait) for trait in l]]: the first value that
    names no trait raises [ValueError]. *)
Fixpoint traits_of_values (l : list string) : Result (list PersonalityTrait.t) :=
  match l with
  | [] => inr []
  | v :: l' =>
      match PersonalityTrait_of_value v with
      | None => inl (ValueError v)
      | Some tr =>
          match traits_of_values l' with
          | inl e => inl e
          | inr trs => inr (tr :: trs)
          end
      end
  end.

(** [AgentGenome.from_dict(data)]: the keyword arguments are evaluated
    in order, [agent_type] first. *)
Definition from_dict (data : GenomeData.t) : Result AgentGenome.t :=
  match GenomeData.agent_type data with
  | None => inl (KeyError "agent_type")
  | Some v =>
      match AgentType_of_value v with
      | None => inl (ValueError v)
      | Some agent_type =>
          match traits_of_values (default [] (GenomeData.personality_traits data)) with
          | inl e => inl e
          | inr traits =>
              inr {| AgentGenome.agent_type := agent_type;
                     AgentGenome.demographics := default ∅ (GenomeData.demographics data);
                     AgentGenome.psychographics := default ∅ (GenomeData.psychographics data);
                     AgentGenome.behavioral_patterns :=
                       default ∅ (GenomeData.behavioral_patterns data);
                     AgentGenome.influence_score :=
                       default (5 # 10) (GenomeData.influence_score data);
                     AgentGenome.attention_tokens :=
                       default 100%Z (GenomeData.attention_tokens data);
                     AgentGenome.personality_traits := traits |}
          end
      end
  end.

End GenomeCodec.

(** ** Attention budgets by role *)

(** The budget the factory gives an agent of a role: 150 to an
    influencer, the constructor's default of 100 to the others. *)
Definition factory_budget (ty : AgentType.t) : Z :=
  match ty with AgentType.INFLUENCER => 150 | _ => 100 end.

(** The base spend of the fallback before any feature-dependent
    increment: 15, plus 5 for a competitor and 8 for an influencer. *)
Definition least_spend (ty : AgentType.t) : Z :=
  match ty with
  | AgentType.COMPETITOR => 20
  | AgentType.INFLUENCER => 23
  | _ => 15
  end.

(** ** Names given by the factory *)

(** The name [Agent.__init__] draws for a nameless agent:
    [f"{agent_type.value}_{k}"] with a four-digit [k]. *)
Definition drawn_name (ty : AgentType.t) (name : string) : Prop :=
  ∃ k, (1000 ≤ k ≤ 9999)%Z ∧ name = AgentType.value ty +:+ "_" +:+ pretty k.

(** The name of an agent of the population: drawn by the
    constructor, except for the internal team, which is named after
    its upper-cased role ([pm], [sales] or [cx]) and a three-digit
    number. *)
Definition named_by_factory (a : Agent.t) : Prop :=
  match AgentGenome.agent_type (Agent.genome a) with
  | AgentType.INTERNAL_TEAM =>
      ∃ role k,
        role ∈ AdvancedSimulator.internal_roles
        ∧ AgentGenome.demographics (Agent.genome a) !! "role" = Some (VStr role)
        ∧ (100 ≤ k ≤ 999)%Z
        ∧ Agent.name a = Str.upper role +:+ "_" +:+ pretty k
  | ty => drawn_name ty (Agent.name a)
  end.

(** ** Exceptions in straight-line code *)

Module Result.
Definition bind {A B} (r : Result A) (k : A → Result B) : Result B :=
  match r with
  | inl e => inl e
  | inr x => k x
  end.

(** The outcome as the [Random] monad sees it: an exception of any
    class aborts the computation. *)
Definition ok {A} (r : Result A) : option A :=
  match r with
  | inr x => Some x
  | inl _ => None
  end.
End Result.

Notation "x <~ r ;; k" := (Result.bind r (λ x, k))
  (at level 100, r at next level, right associativity).

(** A dictionary value used as an operand of [<], [>], [-] or [*] with
    a number: a string or a list raises [TypeError]. *)
Definition number (v : PyVal) : Result Q :=
  match ArenaHealthMetrics.as_number v with
  | Some q => inr q
  | None => inl TypeError
  end.

(** [v == s] for a string literal [s]: never raises. *)
Definition is_str (v : PyVal) (s : string) : bool :=
  match v with
  | VStr x => bool_decide (x = s)
  | _ => false
  end.

(** ** The persona step of the fallback backend *)

Module MockPersona.

(** [market_knowledge["trends"]["2024"]] *)
Definition trends_2024 : list string :=
  ["AI integration"; "Sustainability"; "Personalization"; "Mobile-first";
   "Voice interfaces"].

(** The three scores a perspective returns. *)
Abbreviation Analysis := (gmap string Q).

Definition _analyze_customer_perspective
    (feature : Feature) (context : AgentContext.t) : Result Analysis :=
  let demographics := GenomeDict.demographics (AgentContext.genome context) in
  let psychographics := GenomeDict.psychographics (AgentContext.genome context) in
  let value_perception := 5 # 10 in
  let ease_of_use := 5 # 10 in
  let need_alignment := 5 # 10 in
  age <~ number (get_or demographics "age" (VInt 35));;
  let ease_of_use :=
    if decide (age < 25) then ease_of_use + (2 # 10)
    else if decide (50 < age) then ease_of_use - (1 # 10)
    else ease_of_use in
  tech_savviness <~ number (get_or psychographics "tech_savviness" (VFloat (5 # 10)));;
  let value_perception := value_perception + (tech_savviness - (5 # 10)) * (3 # 10) in
  let price_sensitivity := get_or psychographics "price_sensitivity" (VFloat (5 # 10)) in
  let description := Str.lower (get_or feature "description" "") in
  value_perception <~
    (if Str.contains "free" description || Str.contains "trial" description
     then p <~ number price_sensitivity;;
          inr (value_perception + (2 # 10) * (1 - p))
     else inr value_perception);;
  inr (<["need_alignment" := need_alignment]>
       (<["ease_of_use" := ease_of_use]>
       (<["value_perception" := value_perception]> ∅))).

Definition _analyze_competitor_perspective
    (feature : Feature) (context : AgentContext.t) : Result Analysis :=
  let psychographics := GenomeDict.psychographics (AgentContext.genome context) in
  let threat_level := 5 # 10 in
  let competitive_advantage := 5 # 10 in
  let market_impact := 5 # 10 in
  let aggressiveness := get_or psychographics "aggressiveness" (VFloat (5 # 10)) in
  let description := Str.lower (get_or feature "description" "") in
  threat_level <~
    (if Str.contains "ai" description || Str.contains "automation" description
     then a <~ number aggressiveness;; inr (threat_level + (3 # 10) * a)
     else inr threat_level);;
  innovation_focus <~
    number (get_or psychographics "innovation_focus" (VFloat (5 # 10)));;
  let competitive_advantage :=
    competitive_advantage + (innovation_focus - (5 # 10)) * (4 # 10) in
  inr (<["market_impact" := market_impact]>
       (<["competitive_advantage" := competitive_advantage]>
       (<["threat_level" := threat_level]> ∅))).

Definition _analyze_influencer_perspective
    (feature : Feature) (context : AgentContext.t) : Result Analysis :=
  let psychographics := GenomeDict.psychographics (AgentContext.genome context) in
  let audience_appeal := 5 # 10 in
  let description := Str.lower (get_or feature "description" "") in
  let '(trendiness, shareability) :=
    fold_left (λ '(trendiness, shareability) trend,
      if Str.contains (Str.lower trend) description
      then (trendiness + (3 # 10), shareability + (2 # 10))
      else (trendiness, shareability)) trends_2024 (5 # 10, 5 # 10) in
  engagement_rate <~
    number (get_or psychographics "engagement_rate" (VFloat (5 # 10)));;
  let audience_appeal := audience_appeal + (engagement_rate - (5 # 10)) * (3 # 10) in
  inr (<["audience_appeal" := audience_appeal]>
       (<["shareability" := shareability]>
       (<["trendiness" := trendiness]> ∅))).

Definition _analyze_internal_perspective
    (feature : Feature) (context : AgentContext.t) : Result Analysis :=
  let demographics := GenomeDict.demographics (AgentContext.genome context) in
  let role := get_or demographics "role" (VStr "pm") in
  let strategic_alignment := 5 # 10 in
  let description := Str.lower (get_or feature "description" "") in
  let has (w : string) := Str.contains w description in
  let strategic_alignment :=
    if is_str role "pm" then
      if has "user" || has "customer"
      then strategic_alignment + (3 # 10) else strategic_alignment
    else if is_str role "sales" then
      if has "pricing" || has "roi"
      then strategic_alignment + (3 # 10) else strategic_alignment
    else if is_str role "cx" then
      if has "support" || has "help"
      then strategic_alignment + (3 # 10) else strategic_alignment
    else strategic_alignment in
  inr (<["resource_requirements" := 5 # 10]>
       (<["implementation_feasibility" := 5 # 10]>
       (<["strategic_alignment" := strategic_alignment]> ∅))).

Definition _apply_persona_logic
    (feature : Feature) (context : AgentContext.t) (market_context : Dict)
    : Result Analysis :=
  let role := AgentRole.value (AgentContext.role context) in
  if decide (role = "customer") then _analyze_customer_perspective feature context
  else if decide (role = "competitor") then
    _analyze_competitor_perspective feature context
  else if decide (role = "influencer") then
    _analyze_influencer_perspective feature context
  else if decide (role = "internal_team") then
    _analyze_internal_perspective feature context
  else inr ∅.

(** [EnhancedMockAI.analyze_feature], the whole function: the score
    of the feature, the persona step, then the reasoning, the
    objections and the spend. *)
Definition analyze_feature : Backend := λ feature context market_context,
  feature_score <- EnhancedMockAI._analyze_feature_characteristics feature context;;
  persona_analysis <-
    Random.lift (Result.ok (_apply_persona_logic feature context market_context));;
  let reasoning :=
    EnhancedMockAI._generate_realistic_reasoning feature context feature_score in
  let '(objections, suggestions) :=
    EnhancedMockAI._generate_objections_suggestions feature context feature_score in
  let attention_spent :=
    EnhancedMockAI._calculate_attention_spend feature context feature_score in
  Random.ret {|
    FeatureAnalysis.feature_title := get_or feature "title" "Unknown Feature";
    FeatureAnalysis.opinion_shift := feature_score;
    FeatureAnalysis.reasoning := reasoning;
    FeatureAnalysis.objections := objections;
    FeatureAnalysis.suggestions := suggestions;
    FeatureAnalysis.influence_impact :=
      GenomeDict.influence_score (AgentContext.genome context);
    FeatureAnalysis.attention_spent := attention_spent
  |}.

End MockPersona.

(** The entries of a genome that the persona step uses as numbers
    hold numbers, where they are present. *)
Definition numeric_entry (d : Dict) (key : string) : Prop :=
  ∀ v, d !! key = Some v → is_Some (ArenaHealthMetrics.as_number v).

Definition numeric_profile (demographics psychographics : Dict) : Prop :=
  numeric_entry demographics "age"
  ∧ Forall (numeric_entry psychographics)
      ["tech_savviness"; "price_sensitivity"; "aggressiveness"; "innovation_focus";
       "engagement_rate"].

Definition numeric_genome (a : Agent.t) : Prop :=
  numeric_profile (AgentGenome.demographics (Agent.genome a))
    (AgentGenome.psychographics (Agent.genome a)).

(** Example agents for the persona step. *)
Module Personas.

(** A customer whose age was entered as text. *)
Definition teen : Agent.t :=
  {| Agent.genome :=
       AgentGenome.init AgentType.CUSTOMER (Some {[ "age" := VStr "young" ]}) None None
         (Some (3 # 10)) None;
     Agent.name := "teen";
     Agent.memory := [];
     Agent.relationships := ∅;
     Agent.current_opinion := 5 # 10 |}.

(** The context [process_feature] builds for an agent. *)
Definition context_of (role : AgentRole.t) (a : Agent.t) : AgentContext.t :=
  {| AgentContext.role := role;
     AgentContext.genome := AgentGenome.to_dict (Agent.genome a);
     AgentContext.current_opinion := Agent.current_opinion a;
     AgentContext.memory := Agent.memory a;
     AgentContext.relationships := Agent.relationships a;
     AgentContext.attention_tokens := AgentGenome.attention_tokens (Agent.genome a) |}.

End Personas.

(** Example features. *)
Module Features.

(** A feature that mentions none of the keywords of the fallback. *)
Definition dark_mode : Feature :=
  <["description" := "A darker colour theme for the night"]>
  (<["title" := "Dark mode"]> ∅).

(** A feature that mentions three of the positive keywords. *)
Definition assistant : Feature :=
  <["description" := "AI automation with cloud integration"]>
  (<["title" := "Assistant"]> ∅).

End Features.

(** ** Dictionary values in dynamic positions *)

(** [bool(v)] *)
Definition truthy (v : PyVal) : bool :=
  match v with
  | VStr s => negb (bool_decide (s = ""))
  | VInt z => negb (z =? 0)%Z
  | VFloat q => negb (Qeq_bool q 0)
  | VList l => negb (bool_decide (l = []))
  end.

(** The characters of a string, each as a string. *)
Fixpoint chars (s : string) : list string :=
  match s with
  | EmptyString => []
  | String c s' => String c EmptyString :: chars s'
  end.

(** [acc.extend(v)] on a list of strings: a list is appended, a string
    is appended character by character, a number raises [TypeError]. *)
Definition extend (acc : list string) (v : PyVal) : Result (list string) :=
  match v with
  | VList l => inr (acc ++ l)
  | VStr s => inr (acc ++ chars s)
  | VInt _ | VFloat _ => inl TypeError
  end.

(** [sum(vs)]: starts from 0 and adds from the left. *)
Definition sum_numbers (vs : list PyVal) : Result Q :=
  foldl (λ acc v, t <~ acc;; x <~ number v;; inr (t + x)) (inr 0) vs.

(** [", ".join(l)] *)
Fixpoint join (sep : string) (l : list string) : string :=
  match l with
  | [] => ""
  | [x] => x
  | x :: l' => x +:+ sep +:+ join sep l'
  end.

(** ** Analyses rebuilt from interaction records

    [FeatureAnalysis] is a dataclass: its constructor stores whatever
    it is given.  The simulator rebuilds analyses from the entries of
    its interaction records, so their fields are dictionary values. *)

Module DynAnalysis.
Record t : Type := mk {
  feature_title : PyVal;
  opinion_shift : PyVal;
  reasoning : PyVal;
  objections : PyVal;
  suggestions : PyVal;
  influence_impact : PyVal;
  attention_spent : PyVal
}.

(** An analysis as a backend returns it. *)
Definition of_analysis (a : FeatureAnalysis.t) : t :=
  {| feature_title := VStr (FeatureAnalysis.feature_title a);
     opinion_shift := VFloat (FeatureAnalysis.opinion_shift a);
     reasoning := VStr (FeatureAnalysis.reasoning a);
     objections := VList (FeatureAnalysis.objections a);
     suggestions := VList (FeatureAnalysis.suggestions a);
     influence_impact := VFloat (FeatureAnalysis.influence_impact a);
     attention_spent := VInt (FeatureAnalysis.attention_spent a) |}.
End DynAnalysis.

(** ** The insight generators of the fallback *)

Module MarketInsights.
(** [trend_alignment] is [None] where the dictionary has no such key. *)
Record t : Type := mk {
  market_insights : string;
  adoption_score : Q;
  top_objections : list string;
  top_suggestions : list string;
  confidence_score : Q;
  trend_alignment : option Z
}.
End MarketInsights.

Module CompetitiveAnalysis.
(** The last two keys are absent from what the remote model path
    returns. *)
Record t : Type := mk {
  competitive_analysis : string;
  threat_level : string;
  opportunity_score : Q;
  competitive_position : option string;
  feature_quality_ratio : option Q
}.
End CompetitiveAnalysis.

Module PersonaInsights.
(** What [generate_persona_insights] returns, without the text under
    the key [persona_insights] (it prints floats with two decimals). *)
Inductive t : Type :=
  | Insufficient
  | Insights (persona_receptiveness : list (string * Q)) (recommendations : list string).
End PersonaInsights.

(** The entries of an agent context that the persona insights read. *)
Module PersonaContext.
Record t : Type := mk { role : string; genome : GenomeDict.t; final_opinion : Q }.
End PersonaContext.

(** One turn of the loop both market insight generators run over the
    analyses: [all_objections.extend(analysis.objections)], then the
    same for the suggestions. *)
Definition gather_lists (acc : Result (list string * list string))
    (analysis : DynAnalysis.t) : Result (list string * list string) :=
  os <~ acc;;
  all_objections <~ extend os.1 (DynAnalysis.objections analysis);;
  all_suggestions <~ extend os.2 (DynAnalysis.suggestions analysis);;
  inr (all_objections, all_suggestions).

Module MockInsights.

(** [generate_market_insights(features, agent_analyses)] *)
Definition generate_market_insights (features : list Feature)
    (agent_analyses : list DynAnalysis.t) : Result MarketInsights.t :=
  if decide (agent_analyses = []) then
    inr {| MarketInsights.market_insights := "Insufficient data for market analysis";
           MarketInsights.adoption_score := 50;
           MarketInsights.top_objections := ["No agent feedback available"];
           MarketInsights.top_suggestions := ["Gather more agent feedback"];
           MarketInsights.confidence_score := 3 # 10;
           MarketInsights.trend_alignment := None |}
  else
    total_opinion_shift <~ sum_numbers (DynAnalysis.opinion_shift <$> agent_analyses);;
    let avg_opinion_shift := total_opinion_shift / ArenaHealthMetrics.lenQ agent_analyses in
    let adoption_score := Py.max 0 (Py.min 100 ((avg_opinion_shift + 1) * 50)) in
    lists <~ foldl gather_lists (inr ([], [])) agent_analyses;;
    let '(all_objections, all_suggestions) := lists in
    let current_trends := MockPersona.trends_2024 in
    let feature_titles := (λ f, get_or f "title" "") <$> features in
    let trend_alignment :=
      fold_left (λ (n : Z) trend,
        fold_left (λ (n : Z) title,
          if Str.contains (Str.lower trend) (Str.lower title) then (n + 1)%Z else n)
          feature_titles n) current_trends 0%Z in
    let market_insights :=
      if (0 <? trend_alignment)%Z then
        "Features show strong alignment with 2024 trends including " +:+
        join ", " (take 3 current_trends) +:+ ". Market reception should be positive."
      else
        "Features may need trend alignment updates to maximize market appeal in 2024." in
    inr {| MarketInsights.market_insights := market_insights;
           MarketInsights.adoption_score := adoption_score;
           MarketInsights.top_objections := take 5 all_objections;
           MarketInsights.top_suggestions := take 5 all_suggestions;
           MarketInsights.confidence_score := 8 # 10;
           MarketInsights.trend_alignment := Some trend_alignment |}.

(** [generate_competitive_analysis(product_features, competitor_data)]:
    the competitor data is not read; the quality ratio divides by the
    number of features. *)
Definition generate_competitive_analysis (product_features : list Feature)
    (competitor_data : PyVal) : Result CompetitiveAnalysis.t :=
  let feature_count := length product_features in
  let feature_quality :=
    length (filter (λ f,
              let description := Str.lower (get_or f "description" "") in
              existsb (λ word, Str.contains word description)
                ["ai"; "automation"; "integration"] = true) product_features) in
  let quality := inject_Z (Z.of_nat feature_quality) in
  let count := inject_Z (Z.of_nat feature_count) in
  let '(competitive_position, threat_level, opportunity_score, printed) :=
    if decide (count * (6 # 10) < quality) then ("strong", "low", 8 # 10, "0.8")
    else if decide (count * (3 # 10) < quality) then ("moderate", "medium", 6 # 10, "0.6")
    else ("weak", "high", 3 # 10, "0.3") in
  let analysis :=
    "Product shows " +:+ competitive_position +:+ " competitive positioning with " +:+
    pretty (Z.of_nat feature_quality) +:+ "/" +:+ pretty (Z.of_nat feature_count) +:+
    " high-quality features. " +:+
    "Threat level is " +:+ threat_level +:+ " with opportunity score of " +:+
    printed +:+ "." in
  if decide (feature_count = 0%nat) then inl ZeroDivisionError
  else
    inr {| CompetitiveAnalysis.competitive_analysis := analysis;
           CompetitiveAnalysis.threat_level := threat_level;
           CompetitiveAnalysis.opportunity_score := opportunity_score;
           CompetitiveAnalysis.competitive_position := Some competitive_position;
           CompetitiveAnalysis.feature_quality_ratio := Some (quality / count) |}.

(** [max(items, key=value)] and [min(items, key=value)]: the first
    item with the largest, respectively smallest, value. *)
Definition max_item (first : string * Q) (rest : list (string * Q)) : string * Q :=
  fold_left (λ best item, if decide (best.2 < item.2) then item else best) rest first.

Definition min_item (first : string * Q) (rest : list (string * Q)) : string * Q :=
  fold_left (λ best item, if decide (item.2 < best.2) then item else best) rest first.

Definition _generate_persona_recommendations
    (persona_receptiveness : list (string * Q)) : list string :=
  match persona_receptiveness with
  | [] => []
  | first :: rest =>
      let most_receptive := max_item first rest in
      let least_receptive := min_item first rest in
      let recommendations := [] in
      let recommendations :=
        if decide (5 # 10 < most_receptive.2)
        then recommendations ++
             ["Focus marketing efforts on " +:+ most_receptive.1 +:+
              " personas as primary advocates"]
        else recommendations in
      let recommendations :=
        if decide (least_receptive.2 < - (3 # 10))
        then recommendations ++
             ["Address concerns of " +:+ least_receptive.1 +:+
              " personas to improve overall adoption"]
        else recommendations in
      if decide (2 < length persona_receptiveness)%nat
      then recommendations ++
           ["Consider persona-specific messaging to address varying receptiveness levels"]
      else recommendations
  end.

(** The analyses grouped by the role of the agent at the same
    position; a role is entered when first met, even with no analysis
    for it. *)
Definition group_by_role (agent_contexts : list PersonaContext.t)
    (feature_analyses : list DynAnalysis.t)
    : list (string * list DynAnalysis.t) :=
  fold_left (λ role_analyses '(i, context),
    let role := PersonaContext.role context in
    let role_analyses :=
      match ODict.get role_analyses role with
      | Some _ => role_analyses
      | None => ODict.set role_analyses role []
      end in
    match feature_analyses !! i with
    | Some analysis =>
        ODict.set role_analyses role
          (default [] (ODict.get role_analyses role) ++ [analysis])
    | None => role_analyses
    end) (InfluenceGraph.enumerate agent_contexts) [].

Definition generate_persona_insights (agent_contexts : list PersonaContext.t)
    (feature_analyses : list DynAnalysis.t) : Result PersonaInsights.t :=
  if decide (agent_contexts = [] ∨ feature_analyses = [])
  then inr PersonaInsights.Insufficient
  else
    let role_analyses := group_by_role agent_contexts feature_analyses in
    persona_receptiveness <~
      foldl (λ acc '(role, analyses),
               receptiveness <~ acc;;
               if decide (analyses = []) then inr receptiveness
               else
                 total <~ sum_numbers (DynAnalysis.opinion_shift <$> analyses);;
                 inr (ODict.set receptiveness role
                        (total / ArenaHealthMetrics.lenQ analyses)))
            (inr []) role_analyses;;
    inr (PersonaInsights.Insights persona_receptiveness
           (_generate_persona_recommendations persona_receptiveness)).

End MockInsights.

(** ** The integration object *)

Module AgentResponse.
Record t : Type := mk {
  opinion_shift : Q;
  reasoning : string;
  objections : list string;
  suggestions : list string;
  attention_spent : Z;
  influence_impact : Q
}.
End AgentResponse.

Module LLMIntegration.

(** Whether the remote model is in use, and the remote model itself.
    A reply stands for building the prompt, the call and the parsing
    of the answer; [None] is an exception raised by any of them.  The
    agents' replies may differ from one call to the next: they read,
    and may advance, the hidden state the run threads along. *)
Record t : Type := mk {
  llm_available : bool;
  agent_reply : Feature → AgentContext.t → Dict → Random.Rng
                → option AgentResponse.t * Random.Rng;
  market_reply : list Feature → list DynAnalysis.t → Dict → option string;
  competitive_reply : list Feature → PyVal → option string
}.

(** [_get_llm_analysis]: [None] on any exception. *)
Definition _get_llm_analysis (self : t) (feature : Feature) (context : AgentContext.t)
    (market_context : Dict) (s : Random.Rng) : option FeatureAnalysis.t * Random.Rng :=
  let '(reply, s') := agent_reply self feature context market_context s in
  (response ← reply;
   Some {| FeatureAnalysis.feature_title := get_or feature "title" "Unknown Feature";
           FeatureAnalysis.opinion_shift := AgentResponse.opinion_shift response;
           FeatureAnalysis.reasoning := AgentResponse.reasoning response;
           FeatureAnalysis.objections := AgentResponse.objections response;
           FeatureAnalysis.suggestions := AgentResponse.suggestions response;
           FeatureAnalysis.influence_impact := AgentResponse.influence_impact response;
           FeatureAnalysis.attention_spent := AgentResponse.attention_spent response |},
   s').

(** [analyze_feature_as_agent]: the remote model when it is available
    and answers, the fallback otherwise. *)
Definition analyze_feature_as_agent (self : t) : Backend :=
  λ feature context market_context s,
    if llm_available self then
      match _get_llm_analysis self feature context market_context s with
      | (Some analysis, s') => Random.ret analysis s'
      | (None, s') => MockPersona.analyze_feature feature context market_context s'
      end
    else MockPersona.analyze_feature feature context market_context s.

(** [_get_llm_market_insights]: [None] on any exception. *)
Definition _get_llm_market_insights (self : t) (features : list Feature)
    (agent_analyses : list DynAnalysis.t) (market_context : Dict)
    : option MarketInsights.t :=
  total_opinion_shift ←
    Result.ok (sum_numbers (DynAnalysis.opinion_shift <$> agent_analyses));
  let avg_opinion_shift :=
    if decide (agent_analyses = []) then 0
    else total_opinion_shift / ArenaHealthMetrics.lenQ agent_analyses in
  lists ← Result.ok (foldl gather_lists (inr ([], [])) agent_analyses);
  insights ← market_reply self features agent_analyses market_context;
  Some {| MarketInsights.market_insights := insights;
          MarketInsights.adoption_score :=
            Py.max 0 (Py.min 100 ((avg_opinion_shift + 1) * 50));
          MarketInsights.top_objections := take 5 lists.1;
          MarketInsights.top_suggestions := take 5 lists.2;
          MarketInsights.confidence_score := 85 # 100;
          MarketInsights.trend_alignment := None |}.

Definition generate_market_insights (self : t) (features : list Feature)
    (agent_analyses : list DynAnalysis.t) (market_context : Dict)
    : Result MarketInsights.t :=
  if llm_available self then
    match _get_llm_market_insights self features agent_analyses market_context with
    | Some insights => inr insights
    | None => MockInsights.generate_market_insights features agent_analyses
    end
  else MockInsights.generate_market_insights features agent_analyses.

(** [_get_llm_competitive_analysis]: [None] on any exception. *)
Definition _get_llm_competitive_analysis (self : t) (product_features : list Feature)
    (competitor_data : PyVal) : option CompetitiveAnalysis.t :=
  text ← competitive_reply self product_features competitor_data;
  Some {| CompetitiveAnalysis.competitive_analysis := text;
          CompetitiveAnalysis.threat_level := "medium";
          CompetitiveAnalysis.opportunity_score := 7 # 10;
          CompetitiveAnalysis.competitive_position := None;
          CompetitiveAnalysis.feature_quality_ratio := None |}.

Definition generate_competitive_analysis (self : t) (product_features : list Feature)
    (competitor_data : PyVal) : Result CompetitiveAnalysis.t :=
  if llm_available self then
    match _get_llm_competitive_analysis self product_features competitor_data with
    | Some analysis => inr analysis
    | None => MockInsights.generate_competitive_analysis product_features competitor_data
    end
  else MockInsights.generate_competitive_analysis product_features competitor_data.

(** [generate_persona_insights]: the method it would call on the
    remote path, [_get_llm_persona_insights], is not defined; the
    attribute error is caught and the fallback answers in both
    modes. *)
Definition generate_persona_insights (self : t)
    (agent_contexts : list PersonaContext.t) (feature_analyses : list DynAnalysis.t)
    : Result PersonaInsights.t :=
  MockInsights.generate_persona_insights agent_contexts feature_analyses.

(** The integration with the persona step of its fallback left out;
    it answers every request, and agrees with the integration on
    every agent with a numeric profile. *)
Definition without_persona_step (self : t) : Backend :=
  λ feature context market_context s,
    if llm_available self then
      match _get_llm_analysis self feature context market_context s with
      | (Some analysis, s') => Random.ret analysis s'
      | (None, s') => EnhancedMockAI.analyze_without_persona feature context market_context s'
      end
    else EnhancedMockAI.analyze_without_persona feature context market_context s.

End LLMIntegration.

(** ** Vocabulary of the insight properties *)

(** The number an analysis holds as its opinion shift, if it is one. *)
Definition shift_of (a : DynAnalysis.t) : option Q :=
  ArenaHealthMetrics.as_number (DynAnalysis.opinion_shift a).

(** What iterating over a value yields: the elements of a list, the
    characters of a string; a number is not iterable. *)
Definition items (v : PyVal) : option (list string) :=
  match v with
  | VList l => Some l
  | VStr s => Some (chars s)
  | VInt _ | VFloat _ => None
  end.

(** An analysis the insight generators cannot digest. *)
Definition ill_typed (a : DynAnalysis.t) : Prop :=
  shift_of a = None
  ∨ items (DynAnalysis.objections a) = None
  ∨ items (DynAnalysis.suggestions a) = None.

(** Example integrations. *)
Module Remote.

Definition reply : AgentResponse.t :=
  {| AgentResponse.opinion_shift := 3 # 10;
     AgentResponse.reasoning := "Looks useful";
     AgentResponse.objections := ["Price"];
     AgentResponse.suggestions := ["Add a trial"];
     AgentResponse.attention_spent := 12;
     AgentResponse.influence_impact := 4 # 10 |}.

(** A remote model that replies when the next draw is even and fails
    otherwise, consuming the draw. *)
Definition flaky : LLMIntegration.t :=
  {| LLMIntegration.llm_available := true;
     LLMIntegration.agent_reply := λ _ _ _ s,
       match s with
       | k :: s' => (if N.even k then Some reply else None, s')
       | [] => (None, [])
       end;
     LLMIntegration.market_reply := λ _ _ _, None;
     LLMIntegration.competitive_reply := λ _ _, None |}.

End Remote.

(** Example analyses. *)
Module Analyses.

Definition keen : DynAnalysis.t :=
  {| DynAnalysis.feature_title := VStr "Dark mode";
     DynAnalysis.opinion_shift := VFloat (5 # 10);
     DynAnalysis.reasoning := VStr "Easier on the eyes";
     DynAnalysis.objections := VList [];
     DynAnalysis.suggestions := VList ["Follow the system setting"];
     DynAnalysis.influence_impact := VFloat (2 # 10);
     DynAnalysis.attention_spent := VInt 20 |}.

Definition wary : DynAnalysis.t :=
  {| DynAnalysis.feature_title := VStr "Dark mode";
     DynAnalysis.opinion_shift := VFloat (- (3 # 10));
     DynAnalysis.reasoning := VStr "Not a priority";
     DynAnalysis.objections := VList ["Cost"; "Contrast"];
     DynAnalysis.suggestions := VList [];
     DynAnalysis.influence_impact := VFloat (1 # 10);
     DynAnalysis.attention_spent := VInt 15 |}.

(** An analysis whose opinion shift was stored as text. *)
Definition garbled : DynAnalysis.t :=
  {| DynAnalysis.feature_title := VStr "Dark mode";
     DynAnalysis.opinion_shift := VStr "0.5";
     DynAnalysis.reasoning := VStr "";
     DynAnalysis.objections := VList [];
     DynAnalysis.suggestions := VList [];
     DynAnalysis.influence_impact := VInt 0;
     DynAnalysis.attention_spent := VInt 0 |}.

End Analyses.


(** ** The end of [run_simulation]: the report and its insights *)

Module AdvancedInsights.
(** [competitor_analysis] is [None] where the dictionary is empty. *)
Record t : Type := mk {
  market_insights : MarketInsights.t;
  persona_insights : PersonaInsights.t;
  competitor_analysis : option CompetitiveAnalysis.t;
  simulation_confidence : Q;
  ai_powered : bool
}.
End AdvancedInsights.

Module AgentSummary.
Record t : Type := mk {
  name : string;
  type : string;
  final_opinion : Q;
  influence_score : Q;
  attention_tokens_remaining : Z;
  personality_traits : list string
}.
End AgentSummary.

Module FullReport.
Record t : Type := mk {
  adoption_score : Q;
  top_objections : list string;
  must_fix : list string;
  arena_health : ArenaHealthMetrics.metrics;
  round_history : list RoundResult.t;
  agent_summaries : list AgentSummary.t;
  advanced_insights : AdvancedInsights.t
}.
End FullReport.

Module Reporting.

(** The analysis [_generate_advanced_insights] rebuilds from an
    interaction record. *)
Definition analysis_of (interaction : Interaction) : DynAnalysis.t :=
  {| DynAnalysis.feature_title := get_or interaction "feature_title" (VStr "Unknown");
     DynAnalysis.opinion_shift := get_or interaction "opinion_shift" (VInt 0);
     DynAnalysis.reasoning := get_or interaction "reasoning" (VStr "");
     DynAnalysis.objections := get_or interaction "objections" (VList []);
     DynAnalysis.suggestions := get_or interaction "suggestions" (VList []);
     DynAnalysis.influence_impact := get_or interaction "influence_impact" (VInt 0);
     DynAnalysis.attention_spent := get_or interaction "tokens_spent" (VInt 0) |}.

(** [market_context and market_context.get('competitors')], when it is
    true. *)
Definition competitors (market_context : option Dict) : option PyVal :=
  v ← market_context ≫= (.!! "competitors");
  if truthy v then Some v else None.

Definition _generate_advanced_insights (self : AdvancedSimulator.t)
    (integration : LLMIntegration.t) (brief : Brief.t) (agents : list Agent.t)
    (market_context : option Dict) : Result AdvancedInsights.t :=
  let all_analyses :=
    analysis_of <$> concat (RoundResult.interactions
                              <$> AdvancedSimulator.round_history self) in
  market_insights <~
    LLMIntegration.generate_market_insights integration
      (default [] (Brief.features brief)) all_analyses (default ∅ market_context);;
  let agent_contexts :=
    (λ agent,
       {| PersonaContext.role :=
            AgentType.value (AgentGenome.agent_type (Agent.genome agent));
          PersonaContext.genome := AgentGenome.to_dict (Agent.genome agent);
          PersonaContext.final_opinion := Agent.current_opinion agent |}) <$> agents in
  persona_insights <~
    LLMIntegration.generate_persona_insights integration agent_contexts all_analyses;;
  competitor_analysis <~
    match competitors market_context with
    | Some data =>
        analysis <~ LLMIntegration.generate_competitive_analysis integration
                      (default [] (Brief.features brief)) data;;
        inr (Some analysis)
    | None => inr None
    end;;
  inr {| AdvancedInsights.market_insights := market_insights;
         AdvancedInsights.persona_insights := persona_insights;
         AdvancedInsights.competitor_analysis := competitor_analysis;
         AdvancedInsights.simulation_confidence := 85 # 100;
         AdvancedInsights.ai_powered := true |}.

(** One line per agent whose opinion is below 0.4, the first five. *)
Definition _extract_top_objections (agents : list Agent.t) : list string :=
  take 5
    ((λ agent,
        Agent.name agent +:+ " (" +:+
        AgentType.value (AgentGenome.agent_type (Agent.genome agent)) +:+ "): " +:+
        default "General concerns" (last (Agent.memory agent)))
     <$> filter (λ agent, Agent.current_opinion agent < 4 # 10) agents).

Definition opinions_of (ty : AgentType.t) (agents : list Agent.t) : list Q :=
  Agent.current_opinion
    <$> filter (λ a, AgentGenome.agent_type (Agent.genome a) = ty) agents.

Definition _identify_critical_issues (agents : list Agent.t) : list string :=
  let issues := [] in
  let customer_opinions := opinions_of AgentType.CUSTOMER agents in
  let issues :=
    if decide (customer_opinions ≠ []
               ∧ ArenaHealthMetrics.sumQ customer_opinions
                 / ArenaHealthMetrics.lenQ customer_opinions < 5 # 10)
    then issues ++ ["Low customer adoption - review feature-market fit"]
    else issues in
  let competitor_opinions := opinions_of AgentType.COMPETITOR agents in
  let issues :=
    if decide (competitor_opinions ≠ []
               ∧ ArenaHealthMetrics.sumQ competitor_opinions
                 / ArenaHealthMetrics.lenQ competitor_opinions < 3 # 10)
    then issues ++ ["Competitive vulnerability detected - strengthen differentiation"]
    else issues in
  let internal_opinions := opinions_of AgentType.INTERNAL_TEAM agents in
  if decide (internal_opinions ≠ []) then
    let variance :=
      ArenaHealthMetrics.sumQ
        ((λ op, (op - ArenaHealthMetrics.sumQ internal_opinions
                      / ArenaHealthMetrics.lenQ internal_opinions) ^ 2)
         <$> internal_opinions)
      / ArenaHealthMetrics.lenQ internal_opinions in
    if decide (1 # 10 < variance)
    then issues ++ ["Internal team misalignment - address cross-functional concerns"]
    else issues
  else issues.

Definition _summarize_agent (agent : Agent.t) : AgentSummary.t :=
  {| AgentSummary.name := Agent.name agent;
     AgentSummary.type := AgentType.value (AgentGenome.agent_type (Agent.genome agent));
     AgentSummary.final_opinion := Agent.current_opinion agent;
     AgentSummary.influence_score := AgentGenome.influence_score (Agent.genome agent);
     AgentSummary.attention_tokens_remaining :=
       AgentGenome.attention_tokens (Agent.genome agent);
     AgentSummary.personality_traits :=
       PersonalityTrait.value <$> AgentGenome.personality_traits (Agent.genome agent) |}.

(** [run_simulation], the whole function: the population, the
    rounds and the metrics of [AdvancedSimulator.run_to_metrics] with
    the integration as the agents' backend, then the insights, which
    may raise, and the report.  The computation returns [None] when
    an exception leaves the first part, and an error value when one
    leaves [_generate_advanced_insights]. *)
Definition run_simulation (self : AdvancedSimulator.t) (integration : LLMIntegration.t)
    (brief : Brief.t) (config : gmap string Z) (num_rounds : Z)
    (market_context : option Dict)
    : Random.M (AdvancedSimulator.t * Result FullReport.t) :=
  sr <- AdvancedSimulator.run_to_metrics self
          (LLMIntegration.analyze_feature_as_agent integration)
          brief config num_rounds market_context;;
  let '(self, report) := sr in
  let agents := Report.final_agents report in
  Random.ret (self,
    advanced_insights <~
      _generate_advanced_insights self integration brief agents market_context;;
    inr {| FullReport.adoption_score := Report.adoption_score report;
           FullReport.top_objections := _extract_top_objections agents;
           FullReport.must_fix := _identify_critical_issues agents;
           FullReport.arena_health := Report.arena_health report;
           FullReport.round_history := Report.round_history report;
           FullReport.agent_summaries := _summarize_agent <$> agents;
           FullReport.advanced_insights := advanced_insights |}).

End Reporting.

(** A record as the rounds log it: no opinion shift, the objections
    and the suggestions as lists. *)
Definition plain_record (r : Interaction) : Prop :=
  r !! "opinion_shift" = None
  ∧ (∃ l, r !! "objections" = Some (VList l))
  ∧ (∃ l, r !! "suggestions" = Some (VList l)).

(** An analysis that reports no shift. *)
Definition unmoved (a : DynAnalysis.t) : Prop :=
  DynAnalysis.opinion_shift a = VInt 0.

(** The one recommendation that does not depend on the scores. *)
Definition general_recommendation : string :=
  "Consider persona-specific messaging to address varying receptiveness levels".

(** Example set-ups of a run. *)
Module Setups.

(** The integration without a key: only the fallback answers. *)
Definition offline : LLMIntegration.t :=
  {| LLMIntegration.llm_available := false;
     LLMIntegration.agent_reply := λ _ _ _ s, (None, s);
     LLMIntegration.market_reply := λ _ _ _, None;
     LLMIntegration.competitive_reply := λ _ _, None |}.

(** A brief whose feature list is empty. *)
Definition bare_brief : Brief.t :=
  {| Brief.product_name := "Notes"; Brief.features := Some [] |}.

Definition rivals : Dict := {[ "competitors" := VList ["Acme"] ]}.

End Setups.


(** The three issues [_identify_critical_issues] can report, in the
    order it checks them. *)
Definition critical_issues : list string :=
  ["Low customer adoption - review feature-market fit";
   "Competitive vulnerability detected - strengthen differentiation";
   "Internal team misalignment - address cross-functional concerns"].

(** An influence graph with three edges among the agents of the
    scenario. *)
Definition small_graph : InfluenceGraph.t :=
  {| InfluenceGraph.topology := NetworkTopology.LOOSE_NETWORK;
     InfluenceGraph.graph :=
       DiGraph.add_edge
         (DiGraph.add_edge (DiGraph.add_edge DiGraph.empty "ann" "bob" (5 # 10))
            "cat" "bob" (7 # 10))
         "bob" "ann" (2 # 10);
     InfluenceGraph.agents :=
       [("ann", Scenario.ann); ("bob", Scenario.bob); ("cat", Scenario.cat)] |}.


(** The name entry of each record, in order, and the entries a
    population writes when every agent reports once. *)
Definition record_names (rs : list Interaction) : list (option PyVal) :=
  (λ r, r !! "agent_name") <$> rs.

Definition roll_call (population : list Agent.t) : list (option PyVal) :=
  (λ a, Some (VStr (Agent.name a))) <$> population.


(** An edge the round executor cannot follow: it ends at an agent of
    the population and starts at a name the simulator has no agent
    for. *)
Definition stale_edge (self : AdvancedSimulator.t) (population : list Agent.t)
    (e : DiGraph.edge) : Prop :=
  e ∈ DiGraph.edges (InfluenceGraph.graph (AdvancedSimulator.influence_graph self))
  ∧ DiGraph.dst e ∈ Agent.name <$> population
  ∧ ODict.get (AdvancedSimulator.agents self) (DiGraph.src e) = None.

(** The simulator as [run_simulation] sets it up for the rounds. *)
Definition prepared (self : AdvancedSimulator.t) (graph : InfluenceGraph.t)
    (population : list Agent.t) : AdvancedSimulator.t :=
  {| AdvancedSimulator.network_topology := AdvancedSimulator.network_topology self;
     AdvancedSimulator.influence_graph := graph;
     AdvancedSimulator.round_history := [];
     AdvancedSimulator.agents := AdvancedSimulator.index_by_name population |}.

(** A simulator that has served before: its graph still holds an
    agent of the earlier run. *)
Definition used_simulator : AdvancedSimulator.t :=
  {| AdvancedSimulator.network_topology := NetworkTopology.LOOSE_NETWORK;
     AdvancedSimulator.influence_graph :=
       {| InfluenceGraph.topology := NetworkTopology.LOOSE_NETWORK;
          InfluenceGraph.graph := DiGraph.add_node DiGraph.empty "zed";
          InfluenceGraph.agents :=
            [("zed", Scenario.agent "zed" AgentType.CUSTOMER 0.5 0.5)] |};
     AdvancedSimulator.round_history := [];
     AdvancedSimulator.agents := [("zed", 0%nat)] |}.

(** Whether, once [run_simulation] has created its population and
    added it to the graph, the graph holds an edge from a name outside
    the population to an agent of it. *)
Definition outside_influence (self : AdvancedSimulator.t) (config : gmap string Z)
    (s : Random.Rng) : bool :=
  match AdvancedSimulator.create_agent_population config s with
  | Some (population, s1) =>
      match InfluenceGraph.add_agents (AdvancedSimulator.influence_graph self)
              population s1 with
      | Some (graph, _) =>
          existsb (λ e, bool_decide (DiGraph.dst e ∈ Agent.name <$> population)
                        && bool_decide (DiGraph.src e ∉ Agent.name <$> population))
            (DiGraph.edges (InfluenceGraph.graph graph))
      | None => false
      end
  | None => false
  end.


(** The entries of [xs] at the positions of the contexts with the
    given role, in order: an entry beyond the contexts, or a context
    beyond the entries, contributes nothing. *)
Definition of_role {A} (agent_contexts : list PersonaContext.t) (xs : list A)
    (role : string) : list A :=
  omap (λ '(i, context),
          if decide (PersonaContext.role context = role) then xs !! i else None)
       (InfluenceGraph.enumerate agent_contexts).

(** [sum(l) / len(l)] *)
Definition mean (l : list Q) : Q :=
  ArenaHealthMetrics.sumQ l / ArenaHealthMetrics.lenQ l.

(** The two recommendations that name a role. *)
Definition focus_on (role : string) : string :=
  "Focus marketing efforts on " +:+ role +:+ " personas as primary advocates".

Definition address_concerns_of (role : string) : string :=
  "Address concerns of " +:+ role +:+ " personas to improve overall adoption".

(** The numbers among the opinion shifts of a list of analyses. *)
Definition shifts_of (analyses : list DynAnalysis.t) : list Q :=
  omap shift_of analyses.

(** Example contexts: the three agents of the scenario, as the
    simulator describes them for the persona insights. *)
Definition panel : list PersonaContext.t :=
  (λ agent,
     {| PersonaContext.role :=
          AgentType.value (AgentGenome.agent_type (Agent.genome agent));
        PersonaContext.genome := AgentGenome.to_dict (Agent.genome agent);
        PersonaContext.final_opinion := Agent.current_opinion agent |})
  <$> [Scenario.ann; Scenario.bob; Scenario.ann].

(** * Properties *)

Lemma clamp01_bounds (x : Q) : 0 <= Py.clamp01 x <= 1.
Proof.
  unfold Py.clamp01, Py.max, Py.min.
  destruct (x ?= 1) eqn:E1.
  - apply Qeq_alt in E1.
    destruct (1 ?= 0) eqn:E2; lra.
  - destruct (x ?= 0) eqn:E2; [ apply Qeq_alt in E2 | apply Qlt_alt in E2 | apply Qgt_alt in E2 ];
      apply Qlt_alt in E1; lra.
  - destruct (1 ?= 0) eqn:E2; lra.
Qed.

(** ** Reasoning about computations in [Random.M] *)

Lemma bind_Some {A B} (m : Random.M A) (k : A → Random.M B) s r :
  Random.bind m k s = Some r ↔ ∃ x s', m s = Some (x, s') ∧ k x s' = Some r.
Proof.
  unfold Random.bind. split.
  - destruct (m s) as [[x s']|]; [eauto | discriminate].
  - intros (x & s' & -> & Hk). exact Hk.
Qed.

Lemma ret_Some {A} (x : A) s r : Random.ret x s = Some r ↔ r = (x, s).
Proof. unfold Random.ret. split; [ intros [= <-] | intros -> ]; reflexivity. Qed.

Lemma lift_Some {A} (o : option A) s r :
  Random.lift o s = Some r ↔ ∃ x, o = Some x ∧ r = (x, s).
Proof.
  destruct o as [x|]; simpl; unfold Random.ret, Random.raise; split.
  - intros [= <-]. eauto.
  - intros (y & [= <-] & ->). reflexivity.
  - discriminate.
  - intros (y & [=] & _).
Qed.

Lemma raise_Some {A} s (r : A * Random.Rng) : Random.raise s = Some r ↔ False.
Proof. unfold Random.raise. split; [discriminate | tauto]. Qed.

Lemma returns_intro {A} (o : option A) (P : A → Prop) :
  ran o = true → (∀ x, o = Some x → P x) → returns o P.
Proof.
  destruct o as [x|]; simpl; [ | discriminate].
  intros _ H. exists x. split; [reflexivity | by apply H].
Qed.

(** Break a successful run into the successful runs of its parts. *)
Ltac inv_run H :=
  let x := fresh "x" in
  let s := fresh "s" in
  let H1 := fresh "Hrun" in
  first
    [ apply bind_Some in H as (x & s & H1 & H)
    | apply ret_Some in H
    | apply lift_Some in H as (x & H1 & H)
    | apply raise_Some in H; contradiction ].

Lemma for_each_nil {A S} (body : S → A → Random.M S) acc s :
  Random.for_each [] body acc s = Some (acc, s).
Proof. reflexivity. Qed.

Lemma for_each_cons {A S} (body : S → A → Random.M S) x l acc s :
  Random.for_each (x :: l) body acc s
  = Random.bind (body acc x) (Random.for_each l body) s.
Proof. reflexivity. Qed.

Lemma for_each_app {A S} (body : S → A → Random.M S) l1 l2 acc s :
  Random.for_each (l1 ++ l2) body acc s
  = Random.bind (Random.for_each l1 body acc) (Random.for_each l2 body) s.
Proof.
  revert acc s. induction l1 as [|x l1 IH]; intros acc s; simpl.
  - reflexivity.
  - unfold Random.bind in *.
    destruct (body acc x s) as [[acc' s']|]; [apply IH | reflexivity].
Qed.

(** Loop invariants: a property of the accumulator kept by every
    successful pass of the body is kept by the loop. *)
Lemma for_each_invariant {A S} (P : S → Prop) (body : S → A → Random.M S) l :
  (∀ acc x s acc' s', x ∈ l → P acc → body acc x s = Some (acc', s') → P acc') →
  ∀ acc s acc' s',
    P acc → Random.for_each l body acc s = Some (acc', s') → P acc'.
Proof.
  induction l as [|x l IH]; intros Hbody acc s acc' s' HP Hrun.
  - apply ret_Some in Hrun. by inversion Hrun; subst.
  - rewrite for_each_cons in Hrun. apply bind_Some in Hrun as (acc1 & s1 & H1 & H2).
    eapply IH; [ | | exact H2].
    + intros ? y ? ? ? Hy. apply Hbody. by right.
    + eapply Hbody; [ by left | exact HP | exact H1].
Qed.

(** A loop whose body cannot fail under the invariant cannot fail. *)
Lemma for_each_total {A S} (P : S → Prop) (body : S → A → Random.M S) l :
  (∀ acc x s, x ∈ l → P acc → ∃ acc' s', body acc x s = Some (acc', s') ∧ P acc') →
  ∀ acc s, P acc → ∃ acc' s', Random.for_each l body acc s = Some (acc', s') ∧ P acc'.
Proof.
  induction l as [|x l IH]; intros Hbody acc s HP.
  - exists acc, s. by split.
  - destruct (Hbody acc x s) as (acc1 & s1 & H1 & HP1); [by left | done |].
    destruct (IH (λ a y t Hy, Hbody a y t (list_elem_of_further _ _ _ Hy)) acc1 s1 HP1)
      as (acc' & s' & H2 & HP').
    exists acc', s'. split; [ | done].
    rewrite for_each_cons. apply bind_Some. eauto.
Qed.

Lemma map_m_Some {A B} (f : A → Random.M B) l s ys s' :
  Random.map_m f l s = Some (ys, s') →
  Forall2 (λ x y, ∃ t t', f x t = Some (y, t')) l ys.
Proof.
  revert s ys s'. induction l as [|x l IH]; intros s ys s' Hrun; simpl in Hrun.
  - apply ret_Some in Hrun. inversion Hrun; subst. constructor.
  - apply bind_Some in Hrun as (y & s1 & Hy & Hrun).
    apply bind_Some in Hrun as (ys' & s2 & Hys & Hrun).
    apply ret_Some in Hrun. inversion Hrun; subst.
    constructor; [eauto | eapply IH; eauto].
Qed.

Lemma map_m_total {A B} (f : A → Random.M B) l :
  (∀ x s, x ∈ l → is_Some (f x s)) → ∀ s, is_Some (Random.map_m f l s).
Proof.
  induction l as [|x l IH]; intros Hf s; simpl.
  - by eexists.
  - destruct (Hf x s) as [[y s1] Hy]; [by left |].
    destruct (IH (λ z t Hz, Hf z t (list_elem_of_further _ _ _ Hz)) s1) as [[ys s2] Hys].
    exists (y :: ys, s2). apply bind_Some. exists y, s1. split; [done |].
    apply bind_Some. exists ys, s2. by split.
Qed.

(** ** Agent.process_feature *)

Lemma role_of_agent_type (ty : AgentType.t) :
  is_Some (AgentRole.of_value (AgentType.value ty)).
Proof. destruct ty; by eexists. Qed.

Lemma process_feature_inv llm self feature mc s a r s' :
  Agent.process_feature llm self feature mc s = Some (a, r, s') →
  ∃ context analysis,
    llm feature context (default ∅ mc) s = Some (analysis, s') ∧
    AgentContext.attention_tokens context = tokens self ∧
    AgentContext.genome context = AgentGenome.to_dict (Agent.genome self) ∧
    AgentRole.value (AgentContext.role context)
      = AgentType.value (AgentGenome.agent_type (Agent.genome self)) ∧
    a = Agent.absorb self analysis ∧
    r = Agent.report a analysis.
Proof.
  unfold Agent.process_feature. intros H.
  apply bind_Some in H as (role & s1 & Hrole & H).
  apply lift_Some in Hrole as (role' & Hrole & [= <- <-]).
  apply bind_Some in H as (analysis & s2 & Hllm & H).
  apply ret_Some in H. injection H as -> -> ->.
  eexists _, analysis. split; [exact Hllm | ]. repeat split.
  simpl. destruct (AgentGenome.agent_type (Agent.genome self)); by injection Hrole as <-.
Qed.

Lemma absorb_opinion_in_range self analysis :
  opinion_in_range (Agent.absorb self analysis).
Proof. apply clamp01_bounds. Qed.

Lemma report_impact a analysis :
  Agent.report a analysis !! "influence_impact"
  = Some (VFloat (FeatureAnalysis.influence_impact analysis)).
Proof. unfold Agent.report. by rewrite lookup_insert_eq. Qed.

(** ** One propagation step *)

Lemma add_impact_Some result x q :
  impact_of result = Some q →
  AdvancedSimulator.add_impact result x
  = Some (<["influence_impact" := VFloat (q + x)]> result).
Proof.
  unfold impact_of, AdvancedSimulator.add_impact.
  destruct (result !! "influence_impact") as [v|]; simpl; [ | discriminate].
  by intros ->.
Qed.

Lemma add_impact_inv result x result' :
  AdvancedSimulator.add_impact result x = Some result' →
  ∃ q, impact_of result = Some q
       ∧ result' = <["influence_impact" := VFloat (q + x)]> result.
Proof.
  unfold impact_of, AdvancedSimulator.add_impact.
  destruct (result !! "influence_impact") as [v|]; simpl; [ | discriminate].
  destruct (ArenaHealthMetrics.as_number v) as [q|]; simpl; [ | discriminate].
  intros [= <-]. by exists q.
Qed.

Lemma influence_step_run self i population result influencer_name
    agent j influencer q s :
  population !! i = Some agent →
  ODict.get (AdvancedSimulator.agents self) influencer_name = Some j →
  population !! j = Some influencer →
  impact_of result = Some q →
  let delta := propagation_delta self influencer agent influencer_name in
  AdvancedSimulator.influence_step self i (population, result) influencer_name s
  = Some ((<[i := Agent.set_opinion agent
                    (Py.clamp01 (Agent.current_opinion agent + delta))]> population,
           <["influence_impact" := VFloat (q + Py.abs delta)]> result), s).
Proof.
  intros Hi Hj Hinf Hq delta.
  unfold AdvancedSimulator.influence_step, Random.bind.
  rewrite Hi, Hj. simpl. rewrite Hinf. simpl.
  fold (propagation_delta self influencer agent influencer_name). fold delta.
  by rewrite (add_impact_Some _ _ _ Hq).
Qed.

Lemma influence_step_inv self i population result influencer_name s st' s' :
  AdvancedSimulator.influence_step self i (population, result) influencer_name s
  = Some (st', s') →
  ∃ agent j influencer q,
    population !! i = Some agent
    ∧ ODict.get (AdvancedSimulator.agents self) influencer_name = Some j
    ∧ population !! j = Some influencer
    ∧ impact_of result = Some q
    ∧ s' = s
    ∧ st' = (<[i := Agent.set_opinion agent
                      (Py.clamp01 (Agent.current_opinion agent
                         + propagation_delta self influencer agent influencer_name))]>
               population,
             <["influence_impact" :=
                 VFloat (q + Py.abs (propagation_delta self influencer agent
                                        influencer_name))]> result).
Proof.
  unfold AdvancedSimulator.influence_step. intros H.
  apply bind_Some in H as (agent & s1 & Hi & H).
  apply lift_Some in Hi as (? & Hi & [= <- <-]).
  apply bind_Some in H as (j & s2 & Hj & H).
  apply lift_Some in Hj as (? & Hj & [= <- <-]).
  apply bind_Some in H as (influencer & s3 & Hinf & H).
  apply lift_Some in Hinf as (? & Hinf & [= <- <-]).
  apply bind_Some in H as (result' & s4 & Hres & H).
  apply lift_Some in Hres as (? & Hres & [= <- <-]).
  apply add_impact_inv in Hres as (q & Hq & ->).
  apply ret_Some in H. injection H as -> ->.
  by exists agent, j, influencer, q.
Qed.


(** ** Opinions stay in the unit interval *)

Lemma influence_step_in_range self i population result influencer_name s
    population' result' s' :
  AdvancedSimulator.influence_step self i (population, result) influencer_name s
  = Some ((population', result'), s') →
  (∃ a, population' !! i = Some a ∧ opinion_in_range a)
  ∧ (∀ k, k ≠ i → population' !! k = population !! k)
  ∧ length population' = length population.
Proof.
  intros H. apply influence_step_inv in H
    as (agent & j & influencer & q & Hi & _ & _ & _ & _ & [= -> ->]).
  split; [ | split].
  - eexists. split.
    + apply list_lookup_insert_eq. by eapply lookup_lt_Some.
    + apply clamp01_bounds.
  - intros k Hk. by apply list_lookup_insert_ne.
  - apply length_insert.
Qed.

Lemma influence_step_keeps_range self i population result influencer_name s
    population' result' s' :
  Forall opinion_in_range population →
  AdvancedSimulator.influence_step self i (population, result) influencer_name s
  = Some ((population', result'), s') →
  Forall opinion_in_range population'.
Proof.
  intros Hall H. apply influence_step_in_range in H as ((a & Ha & Hr) & Hother & Hlen).
  apply Forall_lookup. intros k b Hb.
  destruct (decide (k = i)) as [-> | Hk].
  - rewrite Ha in Hb. by injection Hb as <-.
  - rewrite (Hother k Hk) in Hb. by eapply (proj1 (Forall_lookup _ _) Hall).
Qed.

Lemma propagate_keeps_range self st ir s st' s' :
  Forall opinion_in_range st.1 →
  AdvancedSimulator.propagate self st ir s = Some (st', s') →
  Forall opinion_in_range st'.1.
Proof.
  destruct st as [population ints], ir as [i result].
  unfold AdvancedSimulator.propagate. intros Hall H.
  apply bind_Some in H as (agent & s1 & _ & H).
  apply bind_Some in H as (influencers & s2 & _ & H).
  apply bind_Some in H as (pr & s3 & Hloop & H).
  apply ret_Some in H. injection H as -> ->. simpl.
  eapply (for_each_invariant (λ st, Forall opinion_in_range st.1)) in Hloop;
    [exact Hloop | | exact Hall].
  intros [p r] x t [p' r'] t' _ Hp Hstep. by eapply influence_step_keeps_range.
Qed.

Lemma process_feature_in_range llm self feature mc s a r s' :
  Agent.process_feature llm self feature mc s = Some (a, r, s') →
  opinion_in_range a.
Proof.
  intros H. apply process_feature_inv in H as (c & an & _ & _ & _ & _ & -> & _).
  apply absorb_opinion_in_range.
Qed.

Lemma gather_in_range llm feature mc population s population' results s' :
  AdvancedSimulator.gather llm feature mc population s
  = Some ((population', results), s') →
  Forall opinion_in_range population'
  ∧ length population' = length population
  ∧ length results = length population.
Proof.
  unfold AdvancedSimulator.gather. intros H.
  apply bind_Some in H as (rs & s1 & Hrs & H).
  apply ret_Some in H. injection H as -> -> ->.
  apply map_m_Some in Hrs.
  rewrite !length_fmap. rewrite (Forall2_length _ _ _ Hrs). split; [ | done].
  apply Forall_fmap. clear s1.
  induction Hrs as [|a [a' r] l rs (t & t' & Hpf) _ IH]; constructor; [ | exact IH].
  simpl. by eapply process_feature_in_range.
Qed.

Lemma run_feature_in_range self llm mc st feature s st' s' :
  AdvancedSimulator.run_feature self llm mc st feature s = Some (st', s') →
  Forall opinion_in_range st'.1.
Proof.
  destruct st as [population ints]. unfold AdvancedSimulator.run_feature. intros H.
  apply bind_Some in H as ([pop1 rs] & s1 & Hg & H).
  apply bind_Some in H as (pr & s2 & Hloop & H).
  apply ret_Some in H. injection H as -> ->. simpl in *.
  apply gather_in_range in Hg as (Hall & _ & _).
  eapply (for_each_invariant (λ st, Forall opinion_in_range st.1)) in Hloop;
    [exact Hloop | | exact Hall].
  intros st x t st1 t' _ Hp Hstep. by eapply propagate_keeps_range.
Qed.

Lemma run_single_round_keeps_range self llm brief population n mc s rr population' s' :
  Forall opinion_in_range population →
  AdvancedSimulator._run_single_round self llm brief population n mc s
  = Some ((rr, population'), s') →
  Forall opinion_in_range population'.
Proof.
  unfold AdvancedSimulator._run_single_round. intros Hall H.
  apply bind_Some in H as (st & s1 & Hloop & H).
  destruct (decide (length st.1 = 0%nat)); [by apply raise_Some in H |].
  apply ret_Some in H. injection H as -> -> ->.
  eapply (for_each_invariant (λ st, Forall opinion_in_range st.1)) in Hloop;
    [exact Hloop | | exact Hall].
  intros st0 f t st1 t' _ _ Hstep. by eapply run_feature_in_range.
Qed.

(** ** The influence-impact field of a record *)

Lemma sumQ_from (l : list Q) (a : Q) : fold_left Qplus l a == a + ArenaHealthMetrics.sumQ l.
Proof.
  unfold ArenaHealthMetrics.sumQ. revert a.
  induction l as [|x l IH]; intros a; simpl.
  - lra.
  - rewrite (IH (a + x)), (IH (0 + x)). lra.
Qed.

Lemma sumQ_cons (x : Q) (l : list Q) :
  ArenaHealthMetrics.sumQ (x :: l) == x + ArenaHealthMetrics.sumQ l.
Proof.
  unfold ArenaHealthMetrics.sumQ at 1. simpl. rewrite sumQ_from. lra.
Qed.

Lemma impact_of_insert (r : Interaction) (q : Q) :
  impact_of (<["influence_impact" := VFloat q]> r) = Some q.
Proof. unfold impact_of. by rewrite lookup_insert_eq. Qed.

(** The accumulation done by the loop over the predecessors. *)
Lemma influence_loop_impact self i influencers :
  ∀ population result q s st' s',
    impact_of result = Some q →
    Random.for_each influencers (AdvancedSimulator.influence_step self i)
      (population, result) s = Some (st', s') →
    ∃ q', impact_of st'.2 = Some q'
          ∧ q' == q + ArenaHealthMetrics.sumQ
                        (Py.abs <$> propagation_deltas self i population influencers).
Proof.
  induction influencers as [|p ps IH]; intros population result q s st' s' Hq Hrun.
  - apply ret_Some in Hrun. injection Hrun as -> ->. exists q. split; [done |].
    simpl. unfold ArenaHealthMetrics.sumQ. simpl. lra.
  - rewrite for_each_cons in Hrun. apply bind_Some in Hrun as ([pop1 r1] & s1 & Hstep & Hrun).
    apply influence_step_inv in Hstep
      as (agent & j & influencer & q0 & Hi & Hj & Hinf & Hq0 & -> & [= -> ->]).
    rewrite Hq in Hq0. injection Hq0 as <-.
    eapply IH in Hrun as (q' & Hq' & Heq); [ | apply impact_of_insert].
    exists q'. split; [exact Hq' |].
    simpl. rewrite Hi, Hj. simpl. rewrite Hinf.
    rewrite fmap_cons, sumQ_cons. rewrite Heq. lra.
Qed.

Lemma propagate_inv self population ints i result s st' s' :
  AdvancedSimulator.propagate self (population, ints) (i, result) s = Some (st', s') →
  ∃ agent influencers pr,
    population !! i = Some agent
    ∧ InfluenceGraph.get_influencers (AdvancedSimulator.influence_graph self)
        (Agent.name agent) = Some influencers
    ∧ Random.for_each influencers (AdvancedSimulator.influence_step self i)
        (population, result) s = Some (pr, s')
    ∧ st' = (pr.1, ints ++ [pr.2]).
Proof.
  unfold AdvancedSimulator.propagate. intros H.
  apply bind_Some in H as (agent & s1 & Hi & H).
  apply lift_Some in Hi as (? & Hi & [= <- <-]).
  apply bind_Some in H as (influencers & s2 & Hinf & H).
  apply lift_Some in Hinf as (? & Hinf & [= <- <-]).
  apply bind_Some in H as (pr & s3 & Hloop & H).
  apply ret_Some in H. injection H as -> ->.
  by exists agent, influencers, pr.
Qed.



(** The chained result differs from what independent deltas (both taken
    from the opinion before the loop) would give: 0.6 + 0.015 - 0.04
    is 0.575, the executor stores 0.5735. *)
Example chained_not_independent :
  (λ '((population', _), _),
     Qred ∘ Agent.current_opinion <$> population' !! 2%nat)
  <$> Random.for_each ["ann"; "bob"]
        (AdvancedSimulator.influence_step Scenario.trio_sim 2)
        (Scenario.trio, Scenario.cat_record) []
  = Some (Some (1147 # 2000)).
Proof. vm_compute. reflexivity. Qed.



(** ** Records of the round executor

    A property of records that holds of what [process_feature] returns
    and survives an update of [influence_impact] holds of every record
    logged by the rounds. *)

Lemma enumerate_snd {A} (l : list A) : (InfluenceGraph.enumerate l).*2 = l.
Proof.
  unfold InfluenceGraph.enumerate. apply snd_zip. by rewrite length_seq.
Qed.

Section Records.
Variable R : Interaction → Prop.
Hypothesis R_report : ∀ a analysis, R (Agent.report a analysis).
Hypothesis R_impact : ∀ (r : Interaction) q, R r → R (<["influence_impact" := VFloat q]> r).

Lemma influence_loop_record self i influencers population result s st' s' :
  R result →
  Random.for_each influencers (AdvancedSimulator.influence_step self i)
    (population, result) s = Some (st', s') →
  R st'.2.
Proof using R_impact.
  intros Hr Hloop.
  eapply (for_each_invariant (λ st, R st.2)) in Hloop; [exact Hloop | | exact Hr].
  intros [p r] x t [p' r'] t' _ Hinv Hstep. simpl in *.
  apply influence_step_inv in Hstep as (? & ? & ? & ? & _ & _ & _ & _ & _ & [= _ ->]).
  by apply R_impact.
Qed.

Lemma propagate_record self st ir s st' s' :
  Forall R st.2 → R ir.2 →
  AdvancedSimulator.propagate self st ir s = Some (st', s') →
  Forall R st'.2.
Proof using R_impact.
  destruct st as [population ints], ir as [i result]. simpl. intros Hints Hr H.
  apply propagate_inv in H as (agent & influencers & pr & _ & _ & Hloop & ->). simpl.
  apply Forall_app. split; [done |]. constructor; [ | constructor].
  destruct pr as [p r]. by eapply (influence_loop_record _ _ _ _ _ _ (p, r)).
Qed.

Lemma gather_record llm feature mc population s population' results s' :
  AdvancedSimulator.gather llm feature mc population s
  = Some ((population', results), s') →
  Forall R results.
Proof using R_report.
  unfold AdvancedSimulator.gather. intros H.
  apply bind_Some in H as (rs & s1 & Hrs & H).
  apply ret_Some in H. injection H as -> -> ->.
  apply map_m_Some in Hrs. apply Forall_fmap. clear s1.
  induction Hrs as [|a [a' r] l rs (t & t' & Hpf) _ IH]; constructor; [ | exact IH].
  apply process_feature_inv in Hpf as (c & an & _ & _ & _ & _ & _ & ->).
  apply R_report.
Qed.

Lemma propagate_loop_record self (l : list (nat * Interaction)) :
  Forall (λ ir, R ir.2) l →
  ∀ st s st' s',
    Forall R st.2 →
    Random.for_each l (AdvancedSimulator.propagate self) st s = Some (st', s') →
    Forall R st'.2.
Proof using R_impact.
  induction 1 as [|ir l Hir Hl IH]; intros st s st' s' Hst Hloop.
  - apply ret_Some in Hloop. by injection Hloop as ->.
  - rewrite for_each_cons in Hloop. apply bind_Some in Hloop as (st1 & s1 & Hstep & Hloop).
    eapply IH; [ | exact Hloop]. by eapply propagate_record.
Qed.

Lemma run_feature_record self llm mc st feature s st' s' :
  Forall R st.2 →
  AdvancedSimulator.run_feature self llm mc st feature s = Some (st', s') →
  Forall R st'.2.
Proof using R_report R_impact.
  destruct st as [population ints]. unfold AdvancedSimulator.run_feature.
  simpl. intros Hints H.
  apply bind_Some in H as ([pop1 rs] & s1 & Hg & H).
  apply bind_Some in H as (pr & s2 & Hloop & H).
  apply ret_Some in H. injection H as -> ->. simpl in *.
  apply Forall_app. split; [done |].
  apply gather_record in Hg.
  eapply (propagate_loop_record _ (InfluenceGraph.enumerate rs)); [ | | exact Hloop].
  - apply (proj1 (Forall_fmap snd R _)). by rewrite enumerate_snd.
  - constructor.
Qed.

Lemma run_single_round_record self llm brief population n mc s rr population' s' :
  AdvancedSimulator._run_single_round self llm brief population n mc s
  = Some ((rr, population'), s') →
  Forall R (RoundResult.interactions rr).
Proof using R_report R_impact.
  unfold AdvancedSimulator._run_single_round. intros H.
  apply bind_Some in H as (st & s1 & Hloop & H).
  destruct (decide (length st.1 = 0%nat)); [by apply raise_Some in H |].
  apply ret_Some in H. injection H as -> -> ->. simpl.
  eapply (for_each_invariant (λ st, Forall R st.2)) in Hloop;
    [exact Hloop | | constructor].
  intros st0 f t st1 t' _ Hinv Hstep. by eapply run_feature_record.
Qed.

Lemma run_rounds_record self llm brief n mc population s self' population' s' :
  Forall R (logged_interactions (AdvancedSimulator.round_history self)) →
  AdvancedSimulator.run_rounds self llm brief n mc population s
  = Some ((self', population'), s') →
  Forall R (logged_interactions (AdvancedSimulator.round_history self')).
Proof using R_report R_impact.
  unfold AdvancedSimulator.run_rounds. intros H0 Hloop.
  eapply (for_each_invariant
            (λ st, Forall R (logged_interactions (AdvancedSimulator.round_history st.1))))
    in Hloop; [exact Hloop | | exact H0].
  intros [sim p] k t [sim1 p1] t' _ Hinv Hstep. simpl in *.
  apply bind_Some in Hstep as ([rr p2] & s2 & Hround & Hstep).
  apply ret_Some in Hstep. injection Hstep as -> -> ->. simpl.
  unfold logged_interactions in *. rewrite fmap_app, concat_app.
  apply Forall_app. split; [done |]. simpl. rewrite app_nil_r.
  by eapply run_single_round_record.
Qed.
End Records.

(** ** The engagement density *)

Lemma report_agent_only a analysis : agent_only_record (Agent.report a analysis).
Proof.
  unfold agent_only_record, Agent.report. split.
  - rewrite !lookup_insert_ne by done. rewrite lookup_insert_eq. by eexists.
  - by rewrite !lookup_insert_ne.
Qed.

Lemma insert_impact_agent_only (r : Interaction) q :
  agent_only_record r → agent_only_record (<["influence_impact" := VFloat q]> r).
Proof.
  unfold agent_only_record. intros [Hn Ht].
  by rewrite !lookup_insert_ne.
Qed.

Lemma run_rounds_agent_only self llm brief n mc population s self' population' s' :
  Forall agent_only_record (logged_interactions (AdvancedSimulator.round_history self)) →
  AdvancedSimulator.run_rounds self llm brief n mc population s
  = Some ((self', population'), s') →
  Forall agent_only_record (logged_interactions (AdvancedSimulator.round_history self')).
Proof.
  apply run_rounds_record; [apply report_agent_only | apply insert_impact_agent_only].
Qed.

(** With no pair ever added, the metric divides zero by the number of
    interactions. *)
Lemma engagement_density_agent_only interactions :
  Forall agent_only_record interactions →
  ∃ q, ArenaHealthMetrics._calculate_engagement_density interactions = Some q ∧ q == 0.
Proof.
  intros Hall. unfold ArenaHealthMetrics._calculate_engagement_density.
  destruct (decide (interactions = [])) as [_ | _]; [by exists 0 |].
  assert (∀ acc,
    foldl (λ (acc : option (list (PyVal * PyVal))) (interaction : Interaction),
             pairs ← acc;
             match interaction !! "agent_name", interaction !! "target_agent" with
             | Some a, Some b =>
                 pair ← ArenaHealthMetrics.sorted_pair a b;
                 Some (ArenaHealthMetrics.set_add pairs pair)
             | _, _ => Some pairs
             end) acc interactions = acc) as Hfold.
  { induction Hall as [|r l [_ Ht] _ IH]; intros acc; simpl; [done |].
    rewrite IH. destruct acc as [pairs|]; simpl; [ | done].
    rewrite Ht. by destruct (r !! "agent_name"). }
  rewrite Hfold. simpl. eexists. split; [reflexivity |].
  unfold ArenaHealthMetrics.lenQ, Qdiv. simpl length. apply Qmult_0_l.
Qed.

Lemma run_to_metrics_inv self llm brief config n mc s self' report s' :
  AdvancedSimulator.run_to_metrics self llm brief config n mc s
  = Some ((self', report), s') →
  ∃ population s1 graph s2 final metrics,
    AdvancedSimulator.create_agent_population config s = Some (population, s1)
    ∧ InfluenceGraph.add_agents (AdvancedSimulator.influence_graph self) population s1
      = Some (graph, s2)
    ∧ AdvancedSimulator.run_rounds
        {| AdvancedSimulator.network_topology := AdvancedSimulator.network_topology self;
           AdvancedSimulator.influence_graph := graph;
           AdvancedSimulator.round_history := [];
           AdvancedSimulator.agents := AdvancedSimulator.index_by_name population |}
        llm brief n mc population s2 = Some ((self', final), s')
    ∧ ArenaHealthMetrics.calculate_metrics final
        (logged_interactions (AdvancedSimulator.round_history self')) = Some metrics
    ∧ report = {| Report.adoption_score := AdvancedSimulator._calculate_adoption_score final;
                  Report.arena_health := metrics;
                  Report.round_history := AdvancedSimulator.round_history self';
                  Report.final_agents := final |}.
Proof.
  unfold AdvancedSimulator.run_to_metrics. intros H.
  apply bind_Some in H as (population & s1 & Hpop & H).
  apply bind_Some in H as (graph & s2 & Hgraph & H).
  apply bind_Some in H as ([sim final] & s3 & Hrounds & H).
  apply bind_Some in H as (metrics & s4 & Hm & H).
  apply lift_Some in Hm as (? & Hm & [= <- <-]).
  apply ret_Some in H. injection H as -> -> ->.
  by exists population, s1, graph, s2, final, metrics.
Qed.

Lemma calculate_metrics_density agents interactions metrics :
  ArenaHealthMetrics.calculate_metrics agents interactions = Some metrics →
  ArenaHealthMetrics._calculate_engagement_density interactions
  = Some (ArenaHealthMetrics.engagement_density metrics).
Proof.
  unfold ArenaHealthMetrics.calculate_metrics. intros H.
  destruct (ArenaHealthMetrics._calculate_polarization agents); [ | discriminate].
  destruct (ArenaHealthMetrics._calculate_viral_path interactions); [ | discriminate].
  destruct (ArenaHealthMetrics._calculate_engagement_density interactions);
    [ | discriminate].
  simpl in H. by injection H as <-.
Qed.

(** ** Total-correctness rules for [Random.M] *)

Lemma yields_ret {A} (x : A) s (P : A → Prop) : P x → yields (Random.ret x) s P.
Proof. intros H. by exists x, s. Qed.

Lemma yields_bind {A B} (m : Random.M A) (k : A → Random.M B) s
    (Q : A → Prop) (P : B → Prop) :
  yields m s Q → (∀ x s', Q x → yields (k x) s' P) → yields (Random.bind m k) s P.
Proof.
  intros (x & s1 & Hm & HQ) Hk.
  destruct (Hk x s1 HQ) as (y & s2 & Hy & HP).
  exists y, s2. split; [ | exact HP]. apply bind_Some. eauto.
Qed.

Lemma yields_lift {A} (o : option A) s (P : A → Prop) x :
  o = Some x → P x → yields (Random.lift o) s P.
Proof. intros -> H. by exists x, s. Qed.

Lemma yields_mono {A} (m : Random.M A) s (P Q : A → Prop) :
  yields m s P → (∀ x, P x → Q x) → yields m s Q.
Proof. intros (x & s' & Hm & HP) H. exists x, s'. auto. Qed.

Lemma yields_inv {A} (m : Random.M A) s (P : A → Prop) x s' :
  yields m s P → m s = Some (x, s') → P x.
Proof. intros (y & t & Hm & HP) H. rewrite H in Hm. by injection Hm as <- <-. Qed.

Lemma yields_for_each {A S} (Inv : S → Prop) (body : S → A → Random.M S) l :
  (∀ acc x s, x ∈ l → Inv acc → yields (body acc x) s Inv) →
  ∀ acc s, Inv acc → yields (Random.for_each l body acc) s Inv.
Proof.
  intros Hbody acc s Hacc.
  destruct (for_each_total Inv body l) with (acc := acc) (s := s)
    as (acc' & s' & Hrun & Hinv); [ | done | by exists acc', s'].
  intros a x t Hx Ha. destruct (Hbody a x t Hx Ha) as (a' & t' & H1 & H2). eauto.
Qed.

(** A loop over a list without repetitions, with an invariant that
    knows which elements are done. *)
Lemma yields_for_each_prefix {A S} (Inv : list A → S → Prop)
    (body : S → A → Random.M S) :
  ∀ (todo seen : list A) acc s,
    (∀ pre x post acc s,
       seen ++ todo = pre ++ x :: post → (length seen ≤ length pre)%nat →
       Inv pre acc → yields (body acc x) s (Inv (pre ++ [x]))) →
    Inv seen acc →
    yields (Random.for_each todo body acc) s (Inv (seen ++ todo)).
Proof.
  induction todo as [|x todo IH]; intros seen acc s Hbody Hacc.
  - rewrite app_nil_r. by apply yields_ret.
  - simpl. eapply yields_bind.
    + by apply (Hbody seen x todo).
    + intros acc1 s1 H1. simpl in H1.
      replace (seen ++ x :: todo) with ((seen ++ [x]) ++ todo)
        by (by rewrite <- app_assoc).
      apply IH; [ | exact H1].
      intros pre y post acc2 s2 Heq Hlen. apply (Hbody pre y post).
      * by rewrite <- Heq, <- app_assoc.
      * rewrite length_app in Hlen. simpl in Hlen. lia.
Qed.

(** ** The contracts of the [random] calls *)

Lemma raw_yields s (P : N → Prop) : (∀ k, P k) → yields Random.raw s P.
Proof. intros H. destruct s as [|k s]; eexists _, _; split; try reflexivity; apply H. Qed.

Lemma random_yields s : yields Random.random s (λ u, 0 <= u ∧ u < 1).
Proof.
  unfold Random.random. eapply yields_bind; [apply raw_yields with (P := λ _, True); done |].
  intros k s' _. apply yields_ret.
  pose proof (N.mod_lt k (2 ^ 53) ltac:(done)) as Hlt.
  assert (Z.of_N (k mod 2 ^ 53) < Z.pos (2 ^ 53))%Z as Hz.
  { change (Z.pos (2 ^ 53)) with (Z.of_N (2 ^ 53)). by apply N2Z.inj_lt. }
  pose proof (N2Z.is_nonneg (k mod 2 ^ 53)) as Hz0.
  unfold Qle, Qlt. cbn [Qnum Qden]. lia.
Qed.

Lemma uniform_yields a b s :
  a <= b → yields (Random.uniform a b) s (λ x, a <= x <= b).
Proof.
  intros Hab. unfold Random.uniform. eapply yields_bind; [apply random_yields |].
  intros u s' [Hu0 Hu1]. apply yields_ret. nra.
Qed.

Lemma randint_yields a b s :
  (a ≤ b)%Z → yields (Random.randint a b) s (λ n, (a ≤ n ≤ b)%Z).
Proof.
  intros Hab. unfold Random.randint.
  destruct (Z.ltb_spec b a) as [? | _]; [lia |].
  eapply yields_bind; [apply raw_yields with (P := λ _, True); done |].
  intros k s' _. apply yields_ret.
  pose proof (Z.mod_pos_bound (Z.of_N k) (b - a + 1) ltac:(lia)). lia.
Qed.

Lemma choice_yields {A} (l : list A) s :
  l ≠ [] → yields (Random.choice l) s (λ x, x ∈ l).
Proof.
  intros Hl. unfold Random.choice.
  eapply yields_bind; [apply raw_yields with (P := λ _, True); done |].
  intros k s' _.
  assert (N.to_nat k mod length l < length l)%nat as Hlt.
  { apply Nat.mod_upper_bound. by destruct l. }
  destruct (lookup_lt_is_Some_2 l _ Hlt) as [x Hx].
  eapply yields_lift; [exact Hx |]. by eapply list_elem_of_lookup_2.
Qed.

Lemma sample_from_yields {A} (k : nat) :
  ∀ (pool : list A) s,
    (k ≤ length pool)%nat →
    yields (Random.sample_from pool k) s (λ l, length l = k ∧ l ⊆+ pool).
Proof.
  induction k as [|k IH]; intros pool s Hk; simpl.
  - apply yields_ret. split; [done |]. apply submseteq_nil_l.
  - eapply yields_bind; [apply raw_yields with (P := λ _, True); done |].
    intros r s' _. simpl.
    assert (N.to_nat r mod length pool < length pool)%nat as Hlt.
    { apply Nat.mod_upper_bound. destruct pool; simpl in *; lia. }
    destruct (lookup_lt_is_Some_2 pool _ Hlt) as [x Hx]. rewrite Hx.
    eapply yields_bind.
    + apply IH. rewrite length_delete by eauto. lia.
    + intros rest s2 [Hlen Hsub]. apply yields_ret. split; [simpl; lia |].
      rewrite (delete_Permutation pool _ x Hx). by apply submseteq_skip.
Qed.

Lemma sample_yields {A} (population : list A) (k : Z) s :
  (0 ≤ k ≤ Z.of_nat (length population))%Z →
  yields (Random.sample population k) s
    (λ l, Z.of_nat (length l) = k ∧ l ⊆+ population).
Proof.
  intros Hk. unfold Random.sample.
  destruct (Z.ltb_spec k 0) as [? | _]; [lia |].
  destruct (Z.ltb_spec (Z.of_nat (length population)) k) as [? | _]; [lia |]. simpl.
  eapply yields_mono; [apply sample_from_yields; lia |].
  intros l [Hlen Hsub]. split; [lia | done].
Qed.

(** ** The agent factory *)

(** One step of a straight-line computation: use the contract of the
    call at the head. *)
Ltac yields_intro :=
  let H := fresh "Hpost" in intros ? ? H; cbv beta in H.

Ltac yields_step :=
  lazymatch goal with
  | |- yields (Random.bind (Random.uniform _ _) _) _ _ =>
      eapply yields_bind; [apply uniform_yields; lra | yields_intro]
  | |- yields (Random.bind (Random.randint _ _) _) _ _ =>
      eapply yields_bind; [apply randint_yields; lia | yields_intro]
  | |- yields (Random.bind (Random.choice _) _) _ _ =>
      eapply yields_bind; [apply choice_yields; done | yields_intro]
  | |- yields (Random.bind (Random.sample _ _) _) _ _ =>
      eapply yields_bind; [apply sample_yields; simpl; lia | yields_intro]
  end.

Lemma Agent_init_yields genome name s :
  yields (Agent.init genome name) s
    (λ a, Agent.genome a = genome
          ∧ Agent.current_opinion a = 0.5
          ∧ Agent.memory a = []).
Proof.
  unfold Agent.init. eapply yields_bind with (Q := λ _, True).
  - destruct name as [n|]; [destruct (decide (n = "")) |].
    + yields_step. by apply yields_ret.
    + by apply yields_ret.
    + yields_step. by apply yields_ret.
  - intros n s' _. by apply yields_ret.
Qed.

Lemma fresh_agent_init ty lo hi budget genome name s :
  AgentGenome.agent_type genome = ty →
  lo <= AgentGenome.influence_score genome <= hi →
  AgentGenome.attention_tokens genome = budget →
  yields (Agent.init genome name) s (fresh_agent ty lo hi budget).
Proof.
  intros Hty Hinf Hb. eapply yields_mono; [apply Agent_init_yields |].
  intros a (Hg & Hop & Hmem). unfold fresh_agent, tokens. by rewrite Hg.
Qed.

Lemma create_customer_agent_yields s :
  yields AgentFactory.create_customer_agent s
    (fresh_agent AgentType.CUSTOMER 0.1 0.6 100).
Proof.
  unfold AgentFactory.create_customer_agent.
  do 9 yields_step. yields_step. yields_step.
  by apply fresh_agent_init.
Qed.

Lemma create_competitor_agent_yields s :
  yields AgentFactory.create_competitor_agent s
    (fresh_agent AgentType.COMPETITOR 0.6 0.9 100).
Proof.
  unfold AgentFactory.create_competitor_agent.
  do 4 yields_step. by apply fresh_agent_init.
Qed.

Lemma create_influencer_agent_yields s :
  yields AgentFactory.create_influencer_agent s
    (fresh_agent AgentType.INFLUENCER 0.7 1 150).
Proof.
  unfold AgentFactory.create_influencer_agent.
  do 4 yields_step. by apply fresh_agent_init.
Qed.

Lemma create_internal_team_agent_yields role s :
  yields (AgentFactory.create_internal_team_agent role) s
    (fresh_agent AgentType.INTERNAL_TEAM 0.4 0.7 100).
Proof.
  unfold AgentFactory.create_internal_team_agent.
  do 5 yields_step. by apply fresh_agent_init.
Qed.

(** ** The population builder *)

Lemma append_loop_yields (P : Agent.t → Prop) (create : nat → Random.M Agent.t) :
  (∀ i s, yields (create i) s P) →
  ∀ (l : list nat) agents s,
    yields (Random.for_each l (λ agents i, a <- create i;; Random.ret (agents ++ [a])) agents) s
      (λ r, ∃ new, r = agents ++ new ∧ length new = length l ∧ Forall P new).
Proof.
  intros Hcreate. induction l as [|i l IH]; intros agents s; simpl.
  - apply yields_ret. exists []. by rewrite app_nil_r.
  - eapply yields_bind.
    + eapply yields_bind; [apply Hcreate |].
      intros a s1 Ha. apply yields_ret with (P := λ r, ∃ a, r = agents ++ [a] ∧ P a).
      by exists a.
    + intros r s1 (a & -> & Ha). eapply yields_mono; [apply IH |].
      intros r (new & -> & Hlen & Hnew). exists (a :: new).
      rewrite <- app_assoc. simpl. repeat split; [by rewrite Hlen | by constructor].
Qed.

Lemma append_agents_yields (P : Agent.t → Prop) n create agents s :
  (∀ i s, yields (create i) s P) →
  yields (AdvancedSimulator.append_agents n create agents) s
    (λ r, ∃ new, r = agents ++ new ∧ length new = iterations n ∧ Forall P new).
Proof.
  intros Hcreate. unfold AdvancedSimulator.append_agents.
  eapply yields_mono; [by apply append_loop_yields |].
  intros r (new & -> & Hlen & Hnew). exists new. by rewrite length_seq in Hlen.
Qed.

Lemma role_count_quot config key dflt :
  AdvancedSimulator.role_count config key dflt
  = ((get_or config key dflt * 20) ÷ 100)%Z.
Proof.
  unfold AdvancedSimulator.role_count, Py.int, AdvancedSimulator.total_agents.
  simpl. by rewrite !Z.mul_1_r.
Qed.

Lemma create_agent_population_yields config s :
  let c := AdvancedSimulator.role_count config "customer_percentage" 60 in
  let k := AdvancedSimulator.role_count config "competitor_percentage" 20 in
  let i := AdvancedSimulator.role_count config "influencer_percentage" 10 in
  yields (AdvancedSimulator.create_agent_population config) s
    (λ population,
       ∃ customers competitors influencers internal,
         population = customers ++ competitors ++ influencers ++ internal
         ∧ length customers = iterations c
         ∧ length competitors = iterations k
         ∧ length influencers = iterations i
         ∧ length internal = iterations (20 - c - k - i)
         ∧ Forall (fresh_agent AgentType.CUSTOMER 0.1 0.6 100) customers
         ∧ Forall (fresh_agent AgentType.COMPETITOR 0.6 0.9 100) competitors
         ∧ Forall (fresh_agent AgentType.INFLUENCER 0.7 1 150) influencers
         ∧ Forall (fresh_agent AgentType.INTERNAL_TEAM 0.4 0.7 100) internal).
Proof.
  intros c k i. unfold AdvancedSimulator.create_agent_population.
  fold c k i.
  eapply yields_bind;
    [apply append_agents_yields, (λ _ : nat, create_customer_agent_yields) |].
  intros ? s1 (customers & -> & Hc & Hcs).
  eapply yields_bind;
    [apply append_agents_yields, (λ _ : nat, create_competitor_agent_yields) |].
  intros ? s2 (competitors & -> & Hk & Hks).
  eapply yields_bind;
    [apply append_agents_yields, (λ _ : nat, create_influencer_agent_yields) |].
  intros ? s3 (influencers & -> & Hi & His).
  eapply yields_mono.
  - apply append_agents_yields
      with (P := fresh_agent AgentType.INTERNAL_TEAM 0.4 0.7 100).
    intros j t.
    assert (j mod 3 < 3)%nat as Hj by (apply Nat.mod_upper_bound; lia).
    destruct (lookup_lt_is_Some_2 AdvancedSimulator.internal_roles (j mod 3) Hj)
      as [role Hrole].
    eapply yields_bind;
      [eapply yields_lift with (P := λ r, r = role); [exact Hrole | reflexivity] |].
    intros ? ? ->. apply create_internal_team_agent_yields.
  - intros ? (internal & -> & Hn & Hns).
    exists customers, competitors, influencers, internal.
    simpl. rewrite <- !app_assoc. by repeat split.
Qed.

Lemma truncated_share_bound (p : Z) : (0 ≤ p → 0 ≤ p * 20 ÷ 100 ∧ 5 * (p * 20 ÷ 100) ≤ p)%Z.
Proof.
  intros Hp. rewrite Z.quot_div_nonneg by lia.
  pose proof (Z.div_mod (p * 20) 100 ltac:(lia)).
  pose proof (Z.mod_pos_bound (p * 20) 100 ltac:(lia)). lia.
Qed.

(** C5, as the code has it.  The three counts are the truncations of
    (percentage/100) * 20 and internal_team gets 20 minus them; each
    role contributes as many agents as its count when that is positive
    and none otherwise.  So the population has 20 agents whenever the
    three counts are non-negative and sum to at most 20, in particular
    for non-negative percentages summing to at most 100; the split
    25/25/25/25 gives the counts 5, 5, 5, 5. *)
Theorem population_counts (config : gmap string Z) (s : Random.Rng) :
  let pc := get_or config "customer_percentage" 60%Z in
  let pk := get_or config "competitor_percentage" 20%Z in
  let pi := get_or config "influencer_percentage" 10%Z in
  let c := (pc * 20 ÷ 100)%Z in
  let k := (pk * 20 ÷ 100)%Z in
  let i := (pi * 20 ÷ 100)%Z in
  let n := (20 - c - k - i)%Z in
  AdvancedSimulator.role_count config "customer_percentage" 60 = c
  ∧ AdvancedSimulator.role_count config "competitor_percentage" 20 = k
  ∧ AdvancedSimulator.role_count config "influencer_percentage" 10 = i
  ∧ yields (AdvancedSimulator.create_agent_population config) s
      (λ population,
         ∃ customers competitors influencers internal,
           population = customers ++ competitors ++ influencers ++ internal
           ∧ Forall (λ a, AgentGenome.agent_type (Agent.genome a) = AgentType.CUSTOMER)
               customers
           ∧ Forall (λ a, AgentGenome.agent_type (Agent.genome a) = AgentType.COMPETITOR)
               competitors
           ∧ Forall (λ a, AgentGenome.agent_type (Agent.genome a) = AgentType.INFLUENCER)
               influencers
           ∧ Forall (λ a, AgentGenome.agent_type (Agent.genome a) = AgentType.INTERNAL_TEAM)
               internal
           ∧ length customers = Z.to_nat c
           ∧ length competitors = Z.to_nat k
           ∧ length influencers = Z.to_nat i
           ∧ length internal = Z.to_nat n
           ∧ ((0 ≤ c ∧ 0 ≤ k ∧ 0 ≤ i ∧ c + k + i ≤ 20)%Z → length population = 20%nat)
           ∧ ((0 ≤ pc ∧ 0 ≤ pk ∧ 0 ≤ pi ∧ pc + pk + pi ≤ 100)%Z →
              length population = 20%nat))
  ∧ (AdvancedSimulator.role_count Configs.quarters "customer_percentage" 60 = 5
     ∧ AdvancedSimulator.role_count Configs.quarters "competitor_percentage" 20 = 5
     ∧ AdvancedSimulator.role_count Configs.quarters "influencer_percentage" 10 = 5
     ∧ 20 - 5 - 5 - 5 = 5)%Z.
Proof.
  intros pc pk pi c k i n.
  split; [apply role_count_quot |]. split; [apply role_count_quot |].
  split; [apply role_count_quot |]. split; [ | by vm_compute].
  eapply yields_mono; [apply create_agent_population_yields |].
  rewrite !role_count_quot. fold pc pk pi. fold c k i. fold n.
  intros population
    (customers & competitors & influencers & internal & -> & Hc & Hk & Hi & Hn
     & Hcs & Hks & His & Hns).
  unfold iterations in *.
  assert ((0 ≤ c ∧ 0 ≤ k ∧ 0 ≤ i ∧ c + k + i ≤ 20)%Z →
          length (customers ++ competitors ++ influencers ++ internal) = 20%nat) as Hsum.
  { intros Hrange. rewrite !length_app, Hc, Hk, Hi, Hn. subst n. lia. }
  exists customers, competitors, influencers, internal.
  repeat split; try done.
  - eapply Forall_impl; [exact Hcs |]. by intros a (? & _).
  - eapply Forall_impl; [exact Hks |]. by intros a (? & _).
  - eapply Forall_impl; [exact His |]. by intros a (? & _).
  - eapply Forall_impl; [exact Hns |]. by intros a (? & _).
  - intros (Hpc & Hpk & Hpi & Hp). apply Hsum.
    pose proof (truncated_share_bound pc Hpc).
    pose proof (truncated_share_bound pk Hpk).
    pose proof (truncated_share_bound pi Hpi).
    subst c k i. lia.
Qed.

(** C5 on the 25/25/25/25 split: twenty agents. *)
Lemma population_counts_witness :
  yields (AdvancedSimulator.create_agent_population Configs.quarters) []
    (λ population, length population = 20%nat).
Proof.
  destruct (population_counts Configs.quarters []) as (_ & _ & _ & Hpop & _).
  eapply yields_mono; [exact Hpop |].
  intros population (cs & ks & infs & ns & _ & _ & _ & _ & _ & _ & _ & _ & _ & _ & Hlen).
  apply Hlen. vm_compute. repeat split; discriminate.
Defined.

(** C5 fails as stated.  With 50 percent for each of the first three
    roles the counts are 10, 10, 10 and -10, and thirty agents are
    built, not twenty. *)
Lemma population_can_exceed_total :
  AdvancedSimulator.role_count Configs.oversubscribed "customer_percentage" 60 = 10%Z
  ∧ AdvancedSimulator.role_count Configs.oversubscribed "competitor_percentage" 20 = 10%Z
  ∧ AdvancedSimulator.role_count Configs.oversubscribed "influencer_percentage" 10 = 10%Z
  ∧ (length ∘ fst) <$> AdvancedSimulator.create_agent_population Configs.oversubscribed []
    = Some 30%nat
  ∧ 30%nat ≠ 20%nat.
Proof. vm_compute. repeat split; discriminate. Qed.

(** ** Properties of agents kept by the rounds

    A property of single agents that survives an opinion update and a
    call of [process_feature] holds of the whole population after any
    number of rounds. *)

Section Preservation.
Variable P : Agent.t → Prop.
Variable llm : Backend.
Hypothesis P_set_opinion : ∀ a q, P a → P (Agent.set_opinion a q).
Hypothesis P_process_feature :
  ∀ self feature mc s a r s',
    P self → Agent.process_feature llm self feature mc s = Some (a, r, s') → P a.

Lemma influence_step_preserves self i population result influencer_name s
    population' result' s' :
  Forall P population →
  AdvancedSimulator.influence_step self i (population, result) influencer_name s
  = Some ((population', result'), s') →
  Forall P population'.
Proof using P_set_opinion.
  intros Hall H. apply influence_step_inv in H
    as (agent & j & influencer & q & Hi & _ & _ & _ & _ & [= -> ->]).
  apply Forall_insert; [done |]. apply P_set_opinion.
  by eapply (proj1 (Forall_lookup _ _) Hall).
Qed.

Lemma propagate_preserves self st ir s st' s' :
  Forall P st.1 →
  AdvancedSimulator.propagate self st ir s = Some (st', s') →
  Forall P st'.1.
Proof using P_set_opinion.
  destruct st as [population ints], ir as [i result]. simpl. intros Hall H.
  apply propagate_inv in H as (agent & influencers & pr & _ & _ & Hloop & ->). simpl.
  eapply (for_each_invariant (λ st, Forall P st.1)) in Hloop;
    [exact Hloop | | exact Hall].
  intros [p r] x t [p' r'] t' _ Hp Hstep. by eapply influence_step_preserves.
Qed.

Lemma gather_preserves feature mc population s population' results s' :
  Forall P population →
  AdvancedSimulator.gather llm feature mc population s
  = Some ((population', results), s') →
  Forall P population'.
Proof using P_process_feature.
  unfold AdvancedSimulator.gather. intros Hall H.
  apply bind_Some in H as (rs & s1 & Hrs & H).
  apply ret_Some in H. injection H as -> -> ->.
  apply map_m_Some in Hrs. apply Forall_fmap. clear s1.
  induction Hrs as [|a [a' r] l rs (t & t' & Hpf) _ IH]; [constructor |].
  apply Forall_cons in Hall as [Ha Hall].
  constructor; [ | by apply IH]. simpl. by eapply P_process_feature.
Qed.

Lemma run_feature_preserves self mc st feature s st' s' :
  Forall P st.1 →
  AdvancedSimulator.run_feature self llm mc st feature s = Some (st', s') →
  Forall P st'.1.
Proof using P_set_opinion P_process_feature.
  destruct st as [population ints]. unfold AdvancedSimulator.run_feature.
  simpl. intros Hall H.
  apply bind_Some in H as ([pop1 rs] & s1 & Hg & H).
  apply bind_Some in H as (pr & s2 & Hloop & H).
  apply ret_Some in H. injection H as -> ->. simpl in *.
  apply gather_preserves in Hg; [ | exact Hall].
  eapply (for_each_invariant (λ st, Forall P st.1)) in Hloop;
    [exact Hloop | | exact Hg].
  intros st x t st1 t' _ Hp Hstep. by eapply propagate_preserves.
Qed.

Lemma run_single_round_preserves self brief population n mc s rr population' s' :
  Forall P population →
  AdvancedSimulator._run_single_round self llm brief population n mc s
  = Some ((rr, population'), s') →
  Forall P population'.
Proof using P_set_opinion P_process_feature.
  unfold AdvancedSimulator._run_single_round. intros Hall H.
  apply bind_Some in H as (st & s1 & Hloop & H).
  destruct (decide (length st.1 = 0%nat)); [by apply raise_Some in H |].
  apply ret_Some in H. injection H as -> -> ->.
  eapply (for_each_invariant (λ st, Forall P st.1)) in Hloop;
    [exact Hloop | | exact Hall].
  intros st0 f t st1 t' _ Hp Hstep. by eapply run_feature_preserves.
Qed.

Lemma run_rounds_preserves self brief n mc population s self' population' s' :
  Forall P population →
  AdvancedSimulator.run_rounds self llm brief n mc population s
  = Some ((self', population'), s') →
  Forall P population'.
Proof using P_set_opinion P_process_feature.
  unfold AdvancedSimulator.run_rounds. intros Hall Hloop.
  eapply (for_each_invariant (λ st : AdvancedSimulator.t * list Agent.t, Forall P st.2))
    in Hloop; [exact Hloop | | exact Hall].
  intros [sim p] k t [sim1 p1] t' _ Hinv Hstep. simpl in *.
  apply bind_Some in Hstep as ([rr p2] & s2 & Hround & Hstep).
  apply ret_Some in Hstep. injection Hstep as -> -> ->. simpl.
  by eapply run_single_round_preserves.
Qed.
End Preservation.

(** ** The attention budget under the heuristic fallback *)

Lemma attention_spend_bounds feature context score :
  (0 ≤ AgentContext.attention_tokens context)%Z →
  (0 ≤ EnhancedMockAI._calculate_attention_spend feature context score
     ≤ AgentContext.attention_tokens context)%Z.
Proof.
  intros Ht. unfold EnhancedMockAI._calculate_attention_spend.
  repeat match goal with
         | |- context [if ?b then _ else _] => destruct b
         end; lia.
Qed.

Lemma mock_analyze_feature_yields feature context market_context s :
  yields (EnhancedMockAI.analyze_without_persona feature context market_context) s
    (λ analysis,
       FeatureAnalysis.attention_spent analysis
       = EnhancedMockAI._calculate_attention_spend feature context
           (FeatureAnalysis.opinion_shift analysis)
       ∧ FeatureAnalysis.influence_impact analysis
         = GenomeDict.influence_score (AgentContext.genome context)).
Proof.
  unfold EnhancedMockAI.analyze_without_persona, EnhancedMockAI._analyze_feature_characteristics.
  eapply yields_bind with (Q := λ _, True).
  - yields_step. by apply yields_ret.
  - intros score s' _.
    destruct (EnhancedMockAI._generate_objections_suggestions feature context score).
    by apply yields_ret.
Qed.

Lemma process_feature_yields llm self feature mc (Q : FeatureAnalysis.t → Prop) :
  (∀ context s,
     AgentContext.attention_tokens context = tokens self →
     AgentContext.genome context = AgentGenome.to_dict (Agent.genome self) →
     yields (llm feature context (default ∅ mc)) s Q) →
  ∀ s, yields (Agent.process_feature llm self feature mc) s
         (λ ar, ∃ analysis, Q analysis
                            ∧ ar.1 = Agent.absorb self analysis
                            ∧ ar.2 = Agent.report ar.1 analysis).
Proof.
  intros Hllm s. unfold Agent.process_feature.
  destruct (role_of_agent_type (AgentGenome.agent_type (Agent.genome self)))
    as [role Hrole].
  eapply yields_bind;
    [eapply yields_lift with (P := λ r, r = role); [exact Hrole | reflexivity] |].
  intros ? s1 ->.
  eapply yields_bind; [by apply Hllm |].
  intros analysis s2 HQ. apply yields_ret. by exists analysis.
Qed.

Lemma mock_process_feature_tokens self feature mc s a r s' :
  (0 ≤ tokens self)%Z →
  Agent.process_feature EnhancedMockAI.analyze_without_persona self feature mc s
  = Some (a, r, s') →
  (0 ≤ tokens a ≤ tokens self)%Z.
Proof.
  intros Ht H.
  apply process_feature_inv in H as (context & analysis & Hllm & Htok & _ & _ & -> & _).
  pose proof (yields_inv _ _ _ _ _ (mock_analyze_feature_yields _ _ _ _) Hllm)
    as [Hspent _].
  unfold tokens, Agent.absorb. simpl. rewrite Hspent.
  pose proof (attention_spend_bounds feature context
                (FeatureAnalysis.opinion_shift analysis)) as Hb.
  rewrite Htok in Hb. unfold tokens in *. lia.
Qed.

(** ** The adoption score *)

Lemma weighted_sum_bounds (l : list Agent.t) :
  Forall (λ a, 0 <= Agent.current_opinion a <= 1
               ∧ 0 <= AgentGenome.influence_score (Agent.genome a)) l →
  0 <= ArenaHealthMetrics.sumQ
         ((λ a, Agent.current_opinion a * AgentGenome.influence_score (Agent.genome a))
            <$> l)
    <= ArenaHealthMetrics.sumQ
         ((λ a, AgentGenome.influence_score (Agent.genome a)) <$> l).
Proof.
  induction 1 as [|a l [[H0 H1] Hw] _ IH].
  - unfold ArenaHealthMetrics.sumQ. simpl. lra.
  - rewrite !fmap_cons, !sumQ_cons. nra.
Qed.

Lemma total_weight_positive (l : list Agent.t) :
  l ≠ [] →
  Forall (λ a, 0 < AgentGenome.influence_score (Agent.genome a)) l →
  0 < ArenaHealthMetrics.sumQ
        ((λ a, AgentGenome.influence_score (Agent.genome a)) <$> l).
Proof.
  intros Hne Hall. destruct Hall as [|a l Ha Hl]; [done |].
  rewrite ?fmap_cons, sumQ_cons.
  assert (0 <= ArenaHealthMetrics.sumQ
                 ((λ a, AgentGenome.influence_score (Agent.genome a)) <$> l)) as Hrest.
  { clear Hne Ha. induction Hl as [|b l Hb _ IH].
    - unfold ArenaHealthMetrics.sumQ. simpl. lra.
    - rewrite fmap_cons, sumQ_cons. lra. }
  lra.
Qed.

Lemma adoption_score_spec (population : list Agent.t) :
  Forall (λ a, AgentGenome.agent_type (Agent.genome a) = AgentType.CUSTOMER →
               0 <= Agent.current_opinion a <= 1
               ∧ 0 < AgentGenome.influence_score (Agent.genome a)) population →
  let customers :=
    filter (λ a, AgentGenome.agent_type (Agent.genome a) = AgentType.CUSTOMER)
      population in
  let weighted :=
    ArenaHealthMetrics.sumQ
      ((λ a, Agent.current_opinion a * AgentGenome.influence_score (Agent.genome a))
         <$> customers) in
  let weight :=
    ArenaHealthMetrics.sumQ
      ((λ a, AgentGenome.influence_score (Agent.genome a)) <$> customers) in
  let score := AdvancedSimulator._calculate_adoption_score population in
  (customers = [] → score = 0)
  ∧ (customers ≠ [] → 0 < weight ∧ score = (weighted / weight) * 100)
  ∧ 0 <= score <= 100.
Proof.
  intros Hall customers weighted weight score.
  assert (Forall (λ a, 0 <= Agent.current_opinion a <= 1
                       ∧ 0 < AgentGenome.influence_score (Agent.genome a)) customers)
    as Hcust.
  { apply Forall_forall. intros a Ha.
    apply list_elem_of_filter in Ha as [Hty Ha].
    by apply (proj1 (Forall_forall _ _) Hall a Ha). }
  unfold score, AdvancedSimulator._calculate_adoption_score.
  fold customers. fold weighted. fold weight.
  destruct (decide (customers = [])) as [Hnil | Hne].
  - split; [done |]. split; [done | lra].
  - assert (0 < weight) as Hpos.
    { apply total_weight_positive; [done |].
      eapply Forall_impl; [exact Hcust |]. by intros a [_ ?]. }
    destruct (decide (0 < weight)) as [_ | Hn]; [ | done].
    split; [done |]. split; [done |].
    assert (0 <= weighted <= weight) as [Hw0 Hw1].
    { apply weighted_sum_bounds.
      eapply Forall_impl; [exact Hcust |]. intros a [? ?]. split; [done | lra]. }
    assert (0 <= weighted / weight) by (apply Qle_shift_div_l; lra).
    assert (weighted / weight <= 1) by (apply Qle_shift_div_r; lra).
    lra.
Qed.

Example adoption_score_without_customers :
  AdvancedSimulator._calculate_adoption_score [Scenario.bob; Scenario.cat] = 0.
Proof. reflexivity. Qed.

(** What a whole run guarantees about its final agent list. *)

Lemma run_rounds_keeps_range self llm brief n mc population s self' population' s' :
  Forall opinion_in_range population →
  AdvancedSimulator.run_rounds self llm brief n mc population s
  = Some ((self', population'), s') →
  Forall opinion_in_range population'.
Proof.
  unfold AdvancedSimulator.run_rounds. intros Hall Hloop.
  eapply (for_each_invariant
            (λ st : AdvancedSimulator.t * list Agent.t, Forall opinion_in_range st.2))
    in Hloop; [exact Hloop | | exact Hall].
  intros [sim p] k t [sim1 p1] t' _ Hinv Hstep. simpl in *.
  apply bind_Some in Hstep as ([rr p2] & s2 & Hround & Hstep).
  apply ret_Some in Hstep. injection Hstep as -> -> ->. simpl.
  by eapply run_single_round_keeps_range.
Qed.

Lemma factory_agent_population config s :
  yields (AdvancedSimulator.create_agent_population config) s (Forall factory_agent).
Proof.
  eapply yields_mono; [apply create_agent_population_yields |].
  intros population (cs & ks & infs & ns & -> & _ & _ & _ & _ & Hcs & Hks & His & Hns).
  unfold factory_agent. rewrite !Forall_app. repeat split.
  - eapply Forall_impl; [exact Hcs |]. tauto.
  - eapply Forall_impl; [exact Hks |]. tauto.
  - eapply Forall_impl; [exact His |]. tauto.
  - eapply Forall_impl; [exact Hns |]. tauto.
Qed.

Lemma factory_agent_facts a :
  factory_agent a →
  Agent.current_opinion a = 0.5
  ∧ 0.1 <= AgentGenome.influence_score (Agent.genome a) <= 1
  ∧ (0 ≤ tokens a)%Z.
Proof.
  intros [H | [H | [H | H]]]; destruct H as (_ & [Hlo Hhi] & Ht & Hop & _);
    (split; [exact Hop |]); (split; [split; lra | lia]).
Qed.

Lemma run_to_metrics_final_agents self llm brief config n mc s self' report s' :
  AdvancedSimulator.run_to_metrics self llm brief config n mc s
  = Some ((self', report), s') →
  Forall (λ a, 0 <= Agent.current_opinion a <= 1
               ∧ 0.1 <= AgentGenome.influence_score (Agent.genome a) <= 1)
    (Report.final_agents report).
Proof.
  intros Hrun. apply run_to_metrics_inv in Hrun
    as (population & s1 & graph & s2 & final & metrics & Hpop & _ & Hrounds & _ & ->).
  simpl.
  pose proof (yields_inv _ _ _ _ _ (factory_agent_population config s) Hpop) as Hfac.
  apply Forall_and. split.
  - eapply run_rounds_keeps_range; [ | exact Hrounds].
    eapply Forall_impl; [exact Hfac |]. intros a Ha.
    apply factory_agent_facts in Ha as (Hop & _). unfold opinion_in_range.
    rewrite Hop. lra.
  - eapply (run_rounds_preserves
              (λ a, 0.1 <= AgentGenome.influence_score (Agent.genome a) <= 1));
      [ | | | exact Hrounds].
    + by intros a q.
    + intros x f mc' t a r t' Hx Hpf.
      by apply process_feature_inv in Hpf as (? & ? & _ & _ & _ & _ & -> & _).
    + eapply Forall_impl; [exact Hfac |]. intros a Ha.
      by apply factory_agent_facts in Ha as (_ & ? & _).
Qed.

(** The adoption score reported by a run. *)
Corollary run_to_metrics_adoption_score self llm brief config n mc s self' report s' :
  AdvancedSimulator.run_to_metrics self llm brief config n mc s
  = Some ((self', report), s') →
  Report.adoption_score report
  = AdvancedSimulator._calculate_adoption_score (Report.final_agents report)
  ∧ 0 <= Report.adoption_score report <= 100.
Proof.
  intros Hrun. pose proof (run_to_metrics_final_agents _ _ _ _ _ _ _ _ _ _ Hrun) as Hfin.
  apply run_to_metrics_inv in Hrun
    as (population & s1 & graph & s2 & final & metrics & _ & _ & _ & _ & ->).
  simpl in *. split; [reflexivity |].
  apply (adoption_score_spec final).
  eapply Forall_impl; [exact Hfin |]. intros a [Hop [Hlo Hhi]] _. split; [done | lra].
Qed.

(** ** Ordered dictionaries *)

Lemma odict_keys_set {V} (d : list (string * V)) k v :
  ODict.keys (ODict.set d k v) = DiGraph.add_node_list (ODict.keys d) k.
Proof.
  unfold ODict.keys, DiGraph.add_node_list.
  induction d as [|[k' v'] d IH]; [done |].
  cbn [ODict.set]. destruct (decide (k' = k)) as [-> | Hne]; rewrite !fmap_cons; cbn [fst].
  - destruct (decide (k ∈ k :: d.*1)) as [_ | Hn]; [done | exfalso; apply Hn; by left].
  - rewrite IH. clear IH.
    destruct (decide (k ∈ d.*1)) as [Hin | Hnin];
      destruct (decide (k ∈ k' :: d.*1)) as [Hin' | Hnin']; try done.
    + exfalso. apply Hnin'. by right.
    + exfalso. apply elem_of_cons in Hin' as [-> | Hin']; [done | by apply Hnin].
Qed.

Lemma add_node_list_NoDup ns n : NoDup ns → NoDup (DiGraph.add_node_list ns n).
Proof.
  intros Hnd. unfold DiGraph.add_node_list.
  destruct (decide (n ∈ ns)); [done |].
  apply NoDup_app. repeat split; [done | | apply NoDup_singleton].
  intros x Hx Hx'. apply list_elem_of_singleton in Hx'. by subst.
Qed.

Lemma add_node_list_elem ns n x :
  x ∈ DiGraph.add_node_list ns n ↔ x ∈ ns ∨ x = n.
Proof.
  unfold DiGraph.add_node_list. destruct (decide (n ∈ ns)); set_solver.
Qed.

Lemma add_node_list_id ns n : n ∈ ns → DiGraph.add_node_list ns n = ns.
Proof. intros H. unfold DiGraph.add_node_list. by rewrite decide_True. Qed.

Lemma odict_get_set {V} (d : list (string * V)) k v k' :
  ODict.get (ODict.set d k v) k' = if decide (k = k') then Some v else ODict.get d k'.
Proof.
  induction d as [|[k0 v0] d IH]; simpl; [done |].
  destruct (decide (k0 = k)) as [-> | Hne]; simpl.
  - by destruct (decide (k = k')).
  - rewrite IH. clear IH. by destruct (decide (k0 = k')), (decide (k = k')); try congruence.
Qed.

Lemma odict_get_is_Some {V} (d : list (string * V)) k :
  k ∈ ODict.keys d ↔ is_Some (ODict.get d k).
Proof.
  unfold ODict.keys. induction d as [|[k0 v0] d IH]; simpl.
  - split; [intros H; by apply elem_of_nil in H | by intros [? [=]]].
  - destruct (decide (k0 = k)) as [-> | Hne].
    + split; [by eexists | intros _; by left].
    + rewrite <- IH. set_solver.
Qed.

(** ** Edge lists *)

Lemma set_edge_elem es u v w e :
  e ∈ DiGraph.set_edge es u v w → e = (u, v, w) ∨ e ∈ es.
Proof.
  induction es as [|e0 es IH]; simpl.
  - intros H. apply list_elem_of_singleton in H. by left.
  - case_decide; set_solver.
Qed.

Lemma out_set_edge_other es u v w u' :
  u' ≠ u →
  DiGraph.dst <$> filter (λ e, DiGraph.src e = u') (DiGraph.set_edge es u v w)
  = DiGraph.dst <$> filter (λ e, DiGraph.src e = u') es.
Proof.
  intros Hne. induction es as [|e0 es IH]; cbn [DiGraph.set_edge].
  - by rewrite filter_cons_False by (unfold DiGraph.src; simpl; congruence).
  - destruct (decide (DiGraph.src e0 = u ∧ DiGraph.dst e0 = v)) as [[Hs Hd] | Hn].
    + by rewrite !filter_cons_False by (unfold DiGraph.src in *; simpl; congruence).
    + rewrite !filter_cons.
      destruct (decide (DiGraph.src e0 = u')); [rewrite !fmap_cons |]; by rewrite IH.
Qed.

Lemma out_set_edge_new es u v w :
  v ∉ DiGraph.dst <$> filter (λ e, DiGraph.src e = u) es →
  DiGraph.dst <$> filter (λ e, DiGraph.src e = u) (DiGraph.set_edge es u v w)
  = (DiGraph.dst <$> filter (λ e, DiGraph.src e = u) es) ++ [v].
Proof.
  induction es as [|e0 es IH]; cbn [DiGraph.set_edge]; intros Hnin.
  - by rewrite filter_cons_True.
  - destruct (decide (DiGraph.src e0 = u ∧ DiGraph.dst e0 = v)) as [[Hs Hd] | Hn].
    + exfalso. apply Hnin. rewrite filter_cons_True by done.
      rewrite fmap_cons, Hd. by left.
    + rewrite !filter_cons in *.
      destruct (decide (DiGraph.src e0 = u)) as [Hs | Hs].
      * rewrite !fmap_cons in *. rewrite IH; [done |].
        intros H. apply Hnin. by right.
      * by apply IH.
Qed.

(** ** Graph updates *)

Lemma add_edge_nodes g u v w :
  u ∈ DiGraph.nodes g → v ∈ DiGraph.nodes g →
  DiGraph.nodes (DiGraph.add_edge g u v w) = DiGraph.nodes g.
Proof.
  intros Hu Hv. unfold DiGraph.add_edge. simpl.
  by rewrite (add_node_list_id _ u Hu), (add_node_list_id _ v Hv).
Qed.

Lemma add_edge_out_other g u v w u' :
  u' ≠ u →
  DiGraph.out_neighbours (DiGraph.add_edge g u v w) u' = DiGraph.out_neighbours g u'.
Proof. intros Hne. by apply out_set_edge_other. Qed.

Lemma add_edge_out_new g u v w :
  v ∉ DiGraph.out_neighbours g u →
  DiGraph.out_neighbours (DiGraph.add_edge g u v w) u = DiGraph.out_neighbours g u ++ [v].
Proof. intros Hnin. by apply out_set_edge_new. Qed.

Lemma add_edge_edges g u v w e :
  e ∈ DiGraph.edges (DiGraph.add_edge g u v w) →
  e = (u, v, w) ∨ e ∈ DiGraph.edges g.
Proof. apply set_edge_elem. Qed.

Lemma out_neighbours_nil g x :
  (∀ e, e ∈ DiGraph.edges g → DiGraph.src e ≠ x) → DiGraph.out_neighbours g x = [].
Proof.
  intros H. unfold DiGraph.out_neighbours.
  induction (DiGraph.edges g) as [|e es IH]; [done |].
  rewrite filter_cons_False by (apply H; by left).
  apply IH. intros e' He'. apply H. by right.
Qed.

Lemma out_neighbours_elem g x v :
  v ∈ DiGraph.out_neighbours g x →
  ∃ e, e ∈ DiGraph.edges g ∧ DiGraph.src e = x ∧ DiGraph.dst e = v.
Proof.
  unfold DiGraph.out_neighbours. intros H.
  apply list_elem_of_fmap in H as (e & -> & He).
  apply list_elem_of_filter in He as [Hs He]. by exists e.
Qed.

Lemma successors_out g x :
  x ∈ DiGraph.nodes g → DiGraph.successors g x = Some (DiGraph.out_neighbours g x).
Proof. intros H. unfold DiGraph.successors. by rewrite decide_True. Qed.

(** The inner loops of the topology strategies: one edge from [x] to
    each target, whatever the weight computation. *)
Lemma add_edges_yields (x : string) (W : string → Q → Prop)
    (body : DiGraph.t → string → Random.M DiGraph.t) :
  ∀ (targets : list string) g s,
    NoDup targets →
    x ∈ DiGraph.nodes g →
    (∀ c, c ∈ targets → c ∈ DiGraph.nodes g ∧ c ∉ DiGraph.out_neighbours g x) →
    (∀ g c t, c ∈ targets →
       yields (body g c) t (λ g', ∃ w, g' = DiGraph.add_edge g x c w ∧ W c w)) →
    yields (Random.for_each targets body g) s
      (λ g', DiGraph.nodes g' = DiGraph.nodes g
             ∧ DiGraph.out_neighbours g' x = DiGraph.out_neighbours g x ++ targets
             ∧ (∀ u, u ≠ x → DiGraph.out_neighbours g' u = DiGraph.out_neighbours g u)
             ∧ (∀ e, e ∈ DiGraph.edges g' →
                  e ∈ DiGraph.edges g
                  ∨ (DiGraph.src e = x ∧ DiGraph.dst e ∈ targets
                     ∧ W (DiGraph.dst e) (DiGraph.weight e)))).
Proof.
  induction targets as [|c targets IH]; intros g s Hnd Hx Htargets Hbody.
  - apply yields_ret. rewrite app_nil_r. repeat split; auto.
  - simpl. apply NoDup_cons in Hnd as [Hc Hnd].
    destruct (Htargets c ltac:(by left)) as [Hcn Hco].
    eapply yields_bind; [apply Hbody; by left |].
    intros g1 s1 (w & -> & Hw).
    eapply yields_mono.
    + apply IH; [done | by rewrite add_edge_nodes | | ].
      * intros c' Hc'. destruct (Htargets c' ltac:(by right)) as [Hn Ho].
        rewrite add_edge_nodes by done. split; [done |].
        rewrite add_edge_out_new by done. intros Hin.
        apply elem_of_app in Hin as [Hin | Hin]; [done |].
        apply list_elem_of_singleton in Hin. by subst.
      * intros g' c' t Hc'. apply Hbody. by right.
    + intros g' (Hnodes & Hout & Hother & Hedges).
      rewrite add_edge_nodes in Hnodes by done.
      rewrite add_edge_out_new in Hout by done.
      split; [done |]. split; [by rewrite Hout, <- app_assoc |].
      split.
      * intros u Hu. rewrite (Hother u Hu). by apply add_edge_out_other.
      * intros e He. destruct (Hedges e He) as [He' | (Hs & Hd & HW)].
        -- apply add_edge_edges in He' as [-> | He']; [ | by left].
           right. repeat split; [by left | done].
        -- right. repeat split; [done | by right | done].
Qed.

Lemma filter_ne_length (l : list string) x :
  NoDup l → x ∈ l → S (length (filter (λ n, n ≠ x) l)) = length l.
Proof.
  induction l as [|y l IH]; intros Hnd Hx; [by apply elem_of_nil in Hx |].
  apply NoDup_cons in Hnd as [Hy Hnd].
  destruct (decide (y = x)) as [-> | Hne].
  - rewrite filter_cons_False by (intros H; by apply H). simpl. f_equal.
    clear IH Hx Hnd. induction l as [|z l IH]; [done |].
    rewrite filter_cons_True; [simpl; f_equal; apply IH; set_solver | set_solver].
  - rewrite filter_cons_True by done. simpl. f_equal. apply IH; [done | set_solver].
Qed.

(** ** Registering the agents *)

Lemma add_agents_register self new_agents :
  InfluenceGraph.add_agents self new_agents
  = InfluenceGraph._create_network_edges (register self new_agents).
Proof. reflexivity. Qed.

Lemma register_facts new_agents :
  ∀ self,
    DiGraph.nodes (InfluenceGraph.graph self) = ODict.keys (InfluenceGraph.agents self) →
    NoDup (ODict.keys (InfluenceGraph.agents self)) →
    let self' := register self new_agents in
    DiGraph.nodes (InfluenceGraph.graph self') = ODict.keys (InfluenceGraph.agents self')
    ∧ NoDup (ODict.keys (InfluenceGraph.agents self'))
    ∧ DiGraph.edges (InfluenceGraph.graph self') = DiGraph.edges (InfluenceGraph.graph self)
    ∧ InfluenceGraph.topology self' = InfluenceGraph.topology self
    ∧ (∀ n a, ODict.get (InfluenceGraph.agents self') n = Some a →
         ODict.get (InfluenceGraph.agents self) n = Some a
         ∨ (a ∈ new_agents ∧ Agent.name a = n))
    ∧ (∀ n, n ∈ ODict.keys (InfluenceGraph.agents self') ↔
         n ∈ ODict.keys (InfluenceGraph.agents self) ∨ n ∈ Agent.name <$> new_agents).
Proof.
  induction new_agents as [|a l IH]; intros self Hnodes Hnd.
  - repeat split; auto. intros [? | H]; [done | by apply elem_of_nil in H].
  - set (step := {| InfluenceGraph.topology := InfluenceGraph.topology self;
                    InfluenceGraph.graph :=
                      DiGraph.add_node (InfluenceGraph.graph self) (Agent.name a);
                    InfluenceGraph.agents :=
                      ODict.set (InfluenceGraph.agents self) (Agent.name a) a |}).
    change (register self (a :: l)) with (register step l).
    destruct (IH step) as (H1 & H2 & H3 & H4 & H5 & H6).
    + unfold step. simpl. by rewrite odict_keys_set, Hnodes.
    + unfold step. simpl. rewrite odict_keys_set. by apply add_node_list_NoDup.
    + cbv zeta. split; [exact H1 |]. split; [exact H2 |]. split; [exact H3 |].
      split; [exact H4 |]. split.
      * intros n b Hb. destruct (H5 n b Hb) as [Hold | [Hin Hname]].
        -- unfold step in Hold. simpl in Hold. rewrite odict_get_set in Hold.
           destruct (decide (Agent.name a = n)) as [Heq | Hne].
           ++ injection Hold as <-. right. split; [by left | done].
           ++ by left.
        -- right. split; [by right | done].
      * intros n. etransitivity; [apply H6 |].
        unfold step. cbn [InfluenceGraph.agents].
        rewrite odict_keys_set, add_node_list_elem, fmap_cons, elem_of_cons.
        naive_solver.
Qed.

Lemma register_init topology population :
  let self := register (InfluenceGraph.init topology) population in
  let names := ODict.keys (InfluenceGraph.agents self) in
  DiGraph.nodes (InfluenceGraph.graph self) = names
  ∧ NoDup names
  ∧ DiGraph.edges (InfluenceGraph.graph self) = []
  ∧ InfluenceGraph.topology self = topology
  ∧ (∀ n a, ODict.get (InfluenceGraph.agents self) n = Some a →
       a ∈ population ∧ Agent.name a = n)
  ∧ (∀ n, n ∈ names ↔ n ∈ Agent.name <$> population).
Proof.
  intros self names.
  destruct (register_facts population (InfluenceGraph.init topology))
    as (H1 & H2 & H3 & H4 & H5 & H6); [done | constructor |].
  fold self in H1, H2, H3, H4, H5, H6. fold names in H1, H2, H6.
  repeat split; try done.
  - by destruct (H5 n a H) as [[=] | [? ?]].
  - by destruct (H5 n a H) as [[=] | [? ?]].
  - intros Hn. apply H6 in Hn as [Hn | Hn]; [by apply elem_of_nil in Hn | done].
  - intros Hn. apply H6. by right.
Qed.

Lemma register_keys_distinct population :
  ∀ self,
    NoDup (ODict.keys (InfluenceGraph.agents self) ++ (Agent.name <$> population)) →
    ODict.keys (InfluenceGraph.agents (register self population))
    = ODict.keys (InfluenceGraph.agents self) ++ (Agent.name <$> population).
Proof.
  induction population as [|a l IH]; intros self Hnd.
  - by rewrite app_nil_r.
  - set (step := {| InfluenceGraph.topology := InfluenceGraph.topology self;
                    InfluenceGraph.graph :=
                      DiGraph.add_node (InfluenceGraph.graph self) (Agent.name a);
                    InfluenceGraph.agents :=
                      ODict.set (InfluenceGraph.agents self) (Agent.name a) a |}).
    change (register self (a :: l)) with (register step l).
    assert (ODict.keys (InfluenceGraph.agents step)
            = ODict.keys (InfluenceGraph.agents self) ++ [Agent.name a]) as Hstep.
    { unfold step. cbn [InfluenceGraph.agents].
      rewrite odict_keys_set. unfold DiGraph.add_node_list.
      rewrite decide_False; [done |].
      rewrite fmap_cons in Hnd.
      apply NoDup_app in Hnd as (_ & Hd & _). intros Hin. apply (Hd _ Hin). by left. }
    rewrite IH; rewrite Hstep, <- app_assoc; [done |].
    by rewrite fmap_cons in Hnd.
Qed.

(** ** The loose-network strategy *)

Lemma submseteq_facts (l pool : list string) :
  l ⊆+ pool → NoDup pool → NoDup l ∧ ∀ x, x ∈ l → x ∈ pool.
Proof.
  intros Hsub Hnd. split.
  - apply submseteq_sublist_r in Hsub as (l' & Hperm & Hsub).
    rewrite Hperm. by eapply sublist_NoDup.
  - intros x Hx. by eapply elem_of_submseteq.
Qed.

Lemma loose_network_edges_yields names g s :
  NoDup names →
  DiGraph.nodes g = names →
  DiGraph.edges g = [] →
  yields (InfluenceGraph.loose_network_edges names g) s
    (λ g',
       DiGraph.nodes g' = names
       ∧ (∀ e, e ∈ DiGraph.edges g' →
            DiGraph.src e ∈ names ∧ DiGraph.dst e ∈ names
            ∧ DiGraph.src e ≠ DiGraph.dst e ∧ 0.1 <= DiGraph.weight e <= 1)
       ∧ ∀ u, u ∈ names →
           NoDup (DiGraph.out_neighbours g' u)
           ∧ ∃ d, (2 ≤ d ≤ 4)%Z
                  ∧ Z.of_nat (length (DiGraph.out_neighbours g' u))
                    = Z.min d (Z.of_nat (length names) - 1)).
Proof.
  intros Hnd Hnodes Hedges. unfold InfluenceGraph.loose_network_edges.
  set (Inv := λ (pre : list string) (g' : DiGraph.t),
         DiGraph.nodes g' = names
         ∧ (∀ e, e ∈ DiGraph.edges g' →
              DiGraph.src e ∈ pre ∧ DiGraph.dst e ∈ names
              ∧ DiGraph.src e ≠ DiGraph.dst e ∧ 0.1 <= DiGraph.weight e <= 1)
         ∧ ∀ u, u ∈ pre →
             NoDup (DiGraph.out_neighbours g' u)
             ∧ ∃ d, (2 ≤ d ≤ 4)%Z
                    ∧ Z.of_nat (length (DiGraph.out_neighbours g' u))
                      = Z.min d (Z.of_nat (length names) - 1)).
  eapply yields_mono.
  - apply (yields_for_each_prefix Inv _ names [] g s).
    + intros pre x post acc t Heq _ (Hn & He & Hout). simpl in Heq.
      assert (x ∈ names) as Hx by (rewrite Heq; set_solver).
      assert (x ∉ pre) as Hxpre.
      { rewrite Heq in Hnd. apply NoDup_app in Hnd as (_ & Hd & _).
        intros Hin. apply (Hd x Hin). by left. }
      pose proof (filter_ne_length names x Hnd Hx) as Hlen.
      yields_step.
      eapply yields_bind; [apply sample_yields; lia |].
      intros conns t1 [Hclen Hsub].
      destruct (submseteq_facts _ _ Hsub (NoDup_filter _ _ Hnd)) as [Hcnd Hcin].
      assert (DiGraph.out_neighbours acc x = []) as Hnil.
      { apply out_neighbours_nil. intros e Hin Hs.
        destruct (He e Hin) as (Hpre & _). by rewrite Hs in Hpre. }
      eapply yields_mono.
      * apply (add_edges_yields x (λ _ w, 0.1 <= w <= 1)); [done | by rewrite Hn | | ].
        -- intros c Hc. apply Hcin, list_elem_of_filter in Hc as [_ Hc].
           rewrite Hn, Hnil. split; [done | apply not_elem_of_nil].
        -- intros g1 c t2 Hc. eapply yields_bind; [apply uniform_yields; lra |].
           intros w t3 Hw. apply yields_ret. exists w. split; [done |].
           simpl in Hw. lra.
      * intros g1 (Hn1 & Hout1 & Hother & Hedges1). rewrite Hnil in Hout1. simpl in Hout1.
        split; [by rewrite Hn1 |]. split.
        -- intros e Hin. destruct (Hedges1 e Hin) as [Hold | (Hs & Hd & Hw)].
           ++ destruct (He e Hold) as (H1 & H2 & H3 & H4 & H5).
              split; [apply elem_of_app; by left |]. by repeat split.
           ++ apply Hcin, list_elem_of_filter in Hd as [Hne Hd].
              destruct Hw as [Hw1 Hw2].
              split; [rewrite Hs; apply elem_of_app; right; by left |].
              split; [done |]. split; [by rewrite Hs |]. by split.
        -- intros u Hu. apply elem_of_app in Hu as [Hu | Hu].
           ++ rewrite Hother by (intros ->; done). by apply Hout.
           ++ apply list_elem_of_singleton in Hu as ->. rewrite Hout1.
              split; [done |]. exists x0. split; [done | lia].
    + unfold Inv. split; [done |]. split.
      * intros e He. rewrite Hedges in He. by apply elem_of_nil in He.
      * intros u Hu. by apply elem_of_nil in Hu.
  - simpl. intros g' (Hn & He & Hout). split; [done |]. split; [ | done].
    intros e Hin. destruct (He e Hin) as (H1 & H2 & H3 & H4 & H5).
    split; [exact H1 |]. by repeat split.
Qed.

Lemma build_register topology population :
  build topology population
  = InfluenceGraph._create_network_edges
      (register (InfluenceGraph.init topology) population).
Proof. reflexivity. Qed.

Lemma nodes_of_population topology population :
  let self := register (InfluenceGraph.init topology) population in
  let names := ODict.keys (InfluenceGraph.agents self) in
  NoDup names
  ∧ (∀ x, x ∈ names ↔ x ∈ Agent.name <$> population)
  ∧ (NoDup (Agent.name <$> population) → names = Agent.name <$> population).
Proof.
  intros self names.
  destruct (register_init topology population) as (_ & Hnd & _ & _ & _ & Hin).
  split; [exact Hnd |]. split; [exact Hin |].
  intros Hdistinct. unfold names, self.
  by rewrite register_keys_distinct.
Qed.

(** C7, as the code has it.  On a graph built by the loose-network
    strategy every agent has [min(d, population - 1)] out-edges for a
    drawn [d] in [[2, 4]], to distinct agents other than itself; the
    out-degree therefore lies in
    [[min(2, population - 1), min(4, population - 1)]], which is
    [[2, min(4, population - 1)]] once the population has three agents.
    The population is counted by distinct names, the nodes of the
    graph. *)
Theorem loose_network_out_degree (population : list Agent.t) (s : Random.Rng) :
  yields (build NetworkTopology.LOOSE_NETWORK population) s
    (λ ig,
       let g := InfluenceGraph.graph ig in
       let n := Z.of_nat (length (DiGraph.nodes g)) in
       NoDup (DiGraph.nodes g)
       ∧ (∀ x, x ∈ DiGraph.nodes g ↔ x ∈ Agent.name <$> population)
       ∧ (NoDup (Agent.name <$> population) →
          DiGraph.nodes g = Agent.name <$> population)
       ∧ ∀ u, u ∈ DiGraph.nodes g →
           let out := DiGraph.out_neighbours g u in
           InfluenceGraph.get_followers ig u = Some out
           ∧ NoDup out
           ∧ (u ∉ out)
           ∧ (∀ v, v ∈ out → v ∈ DiGraph.nodes g)
           ∧ (∃ d, (2 ≤ d ≤ 4)%Z ∧ Z.of_nat (length out) = Z.min d (n - 1))
           ∧ (Z.min 2 (n - 1) ≤ Z.of_nat (length out) ≤ Z.min 4 (n - 1))%Z
           ∧ ((3 ≤ n)%Z → (2 ≤ Z.of_nat (length out) ≤ Z.min 4 (n - 1))%Z)).
Proof.
  rewrite build_register. unfold InfluenceGraph._create_network_edges.
  destruct (register_init NetworkTopology.LOOSE_NETWORK population)
    as (Hnodes & Hnd & Hedges & Htopo & _ & _).
  destruct (nodes_of_population NetworkTopology.LOOSE_NETWORK population)
    as (_ & Hin & Hdistinct).
  rewrite Htopo.
  eapply yields_bind; [by apply loose_network_edges_yields |].
  intros g t (Hn & He & Hout). apply yields_ret. simpl.
  rewrite Hn. split; [done |]. split; [done |]. split; [done |].
  intros u Hu. destruct (Hout u Hu) as (Hond & d & Hd & Hlen).
  split; [unfold InfluenceGraph.get_followers; apply successors_out; simpl;
          by rewrite Hn |].
  split; [done |].
  assert (∀ v, v ∈ DiGraph.out_neighbours g u →
               v ∈ ODict.keys (InfluenceGraph.agents
                     (register (InfluenceGraph.init NetworkTopology.LOOSE_NETWORK)
                        population)) ∧ v ≠ u) as Hedge.
  { intros v Hv. apply out_neighbours_elem in Hv as (e & Hein & Hs & Hdst).
    destruct (He e Hein) as (_ & H2 & H3 & _). rewrite <- Hdst.
    split; [done |]. rewrite <- Hs. intros Heq. by apply H3. }
  split; [intros Hself; by destruct (Hedge u Hself) |].
  split; [intros v Hv; by destruct (Hedge v Hv) |].
  split; [by exists d |]. lia.
Qed.

(** C7 on the three-agent scenario: every out-degree is 2. *)
Lemma loose_network_out_degree_witness :
  yields (build NetworkTopology.LOOSE_NETWORK Scenario.trio) [4; 7; 1; 8]%N
    (λ ig,
       DiGraph.nodes (InfluenceGraph.graph ig) = ["ann"; "bob"; "cat"]
       ∧ ∀ u, u ∈ DiGraph.nodes (InfluenceGraph.graph ig) →
           length (DiGraph.out_neighbours (InfluenceGraph.graph ig) u) = 2%nat).
Proof.
  eapply yields_mono; [apply loose_network_out_degree |].
  intros ig (_ & _ & Hnodes & Hout).
  assert (DiGraph.nodes (InfluenceGraph.graph ig) = ["ann"; "bob"; "cat"]) as Heq.
  { apply Hnodes. vm_compute. repeat constructor; set_solver. }
  split; [exact Heq |].
  intros u Hu. destruct (Hout u Hu) as (_ & _ & _ & _ & _ & _ & Hdeg).
  rewrite Heq in Hdeg. simpl in Hdeg. lia.
Defined.

(** C7 fails as stated.  With two agents each one has a single
    out-edge, and the interval [[2, min(4, 2 - 1)]] is empty. *)
Lemma loose_network_pair_out_degree :
  (λ '(ig, _),
     let g := InfluenceGraph.graph ig in
     (DiGraph.nodes g,
      length (DiGraph.out_neighbours g "ann"),
      length (DiGraph.out_neighbours g "bob")))
  <$> build NetworkTopology.LOOSE_NETWORK Scenario.pair []
  = Some (["ann"; "bob"], 1%nat, 1%nat)
  ∧ ¬ (2 ≤ 1 ≤ Z.min 4 (2 - 1))%Z.
Proof. split; [vm_compute; reflexivity | lia]. Qed.

(** ** Ranking by influence score *)

Lemma insert_desc_perm x l : InfluenceGraph.insert_desc x l ≡ₚ x :: l.
Proof.
  induction l as [|y l IH]; simpl; [done |].
  destruct (decide (x.2 < y.2)); [ | done].
  rewrite IH. apply Permutation_swap.
Qed.

Lemma sorted_desc_perm l : InfluenceGraph.sorted_desc l ≡ₚ l.
Proof.
  induction l as [|x l IH]; simpl; [done |].
  by rewrite insert_desc_perm, IH.
Qed.

Lemma insert_desc_sorted x l :
  StronglySorted (λ a b : string * Q, b.2 <= a.2) l →
  StronglySorted (λ a b : string * Q, b.2 <= a.2) (InfluenceGraph.insert_desc x l).
Proof.
  induction 1 as [|y l Hl IH Hy]; simpl.
  - repeat constructor.
  - destruct (decide (x.2 < y.2)) as [Hlt | Hge].
    + constructor; [exact IH |].
      rewrite insert_desc_perm. constructor; [lra | exact Hy].
    + constructor; [by constructor |].
      constructor; [lra |].
      eapply Forall_impl; [exact Hy |]. intros z Hz. simpl in Hz. lra.
Qed.

Lemma sorted_desc_sorted l :
  StronglySorted (λ a b : string * Q, b.2 <= a.2) (InfluenceGraph.sorted_desc l).
Proof.
  induction l as [|x l IH]; simpl; [constructor | by apply insert_desc_sorted].
Qed.

Lemma ranked_Some agents names :
  (∀ x, x ∈ names → x ∈ ODict.keys agents) →
  InfluenceGraph.ranked agents names
  = Some (InfluenceGraph.sorted_desc ((λ x, (x, score_of agents x)) <$> names)).*1.
Proof.
  intros Hin. unfold InfluenceGraph.ranked.
  rewrite (mapM_Some_2 _ names ((λ x, (x, score_of agents x)) <$> names)); [reflexivity |].
  apply Forall2_fmap_r, Forall_Forall2_diag, Forall_forall.
  intros x Hx.
  destruct (proj1 (odict_get_is_Some agents x) (Hin x Hx)) as [a Ha].
  unfold score_of. simpl. by rewrite !Ha.
Qed.

Lemma ranked_facts agents names sorted :
  (∀ x, x ∈ names → x ∈ ODict.keys agents) →
  InfluenceGraph.ranked agents names = Some sorted →
  sorted ≡ₚ names
  ∧ StronglySorted (λ a b, score_of agents b <= score_of agents a) sorted.
Proof.
  intros Hin Hr. rewrite (ranked_Some _ _ Hin) in Hr. injection Hr as <-.
  set (keyed := (λ x, (x, score_of agents x)) <$> names).
  split.
  - rewrite sorted_desc_perm. unfold keyed. rewrite <- list_fmap_compose.
    by rewrite list_fmap_id.
  - assert (Forall (λ p : string * Q, p.2 = score_of agents p.1)
              (InfluenceGraph.sorted_desc keyed)) as Hkeys.
    { rewrite sorted_desc_perm. unfold keyed. apply Forall_fmap, Forall_forall. done. }
    pose proof (sorted_desc_sorted keyed) as Hsorted.
    induction Hsorted as [|p l Hl IH Hp]; simpl; [constructor |].
    apply Forall_cons in Hkeys as [Hp2 Hkeys].
    constructor; [by apply IH |].
    apply Forall_fmap, Forall_forall. intros q Hq. simpl.
    rewrite <- Hp2, <- (proj1 (Forall_forall _ _) Hkeys q Hq).
    by apply (proj1 (Forall_forall _ _) Hp q Hq).
Qed.

Lemma split_disjoint (l : list string) k x :
  NoDup l → x ∈ take k l → x ∈ drop k l → False.
Proof.
  intros Hnd H1 H2. rewrite <- (take_drop k l) in Hnd.
  apply NoDup_app in Hnd as (_ & Hd & _). by apply (Hd x).
Qed.

(** ** The real-follower strategy *)

Lemma real_follower_edges_yields agents names g s :
  NoDup names →
  DiGraph.nodes g = names →
  DiGraph.edges g = [] →
  (∀ x, x ∈ names → x ∈ ODict.keys agents) →
  yields (InfluenceGraph.real_follower_edges agents names g) s
    (λ g',
       ∃ sorted,
         InfluenceGraph.ranked agents names = Some sorted
         ∧ let k := InfluenceGraph.num_influencers sorted in
           let influencers := take k sorted in
           let followers := drop k sorted in
           DiGraph.nodes g' = names
           ∧ (∀ e, e ∈ DiGraph.edges g' →
                DiGraph.src e ∈ followers ∧ DiGraph.dst e ∈ influencers
                ∧ DiGraph.weight e = score_of agents (DiGraph.dst e))
           ∧ ∀ f, f ∈ followers →
               NoDup (DiGraph.out_neighbours g' f)
               ∧ (1 ≤ length (DiGraph.out_neighbours g' f) ≤ 3)%nat).
Proof.
  intros Hnd Hnodes Hedges Hkeys. unfold InfluenceGraph.real_follower_edges.
  pose proof (ranked_Some agents names Hkeys) as Hranked.
  destruct (ranked_facts agents names _ Hkeys Hranked) as [Hperm _].
  set (sorted := (InfluenceGraph.sorted_desc
                    ((λ x, (x, score_of agents x)) <$> names)).*1) in *.
  eapply yields_bind;
    [eapply yields_lift with (P := λ r, r = sorted); [exact Hranked | reflexivity] |].
  intros ? t0 ->. cbv zeta.
  set (k := InfluenceGraph.num_influencers sorted).
  set (influencers := take k sorted). set (followers := drop k sorted).
  assert (NoDup sorted) as Hsnd by by rewrite Hperm.
  assert (NoDup influencers) as Hind.
  { rewrite <- (take_drop k sorted) in Hsnd. by apply NoDup_app in Hsnd as (? & _ & _). }
  assert (NoDup followers) as Hfnd.
  { rewrite <- (take_drop k sorted) in Hsnd. by apply NoDup_app in Hsnd as (_ & _ & ?). }
  assert (∀ x, x ∈ sorted → x ∈ names) as Hsub by (intros x; by rewrite Hperm).
  assert (∀ x, x ∈ influencers → x ∈ names) as Hisub.
  { intros x Hx. apply Hsub. by apply (subseteq_take k sorted). }
  assert (∀ x, x ∈ followers → x ∈ names) as Hfsub.
  { intros x Hx. apply Hsub. by apply (subseteq_drop k sorted). }
  assert (followers ≠ [] → (1 ≤ length influencers)%nat) as Hpos.
  { intros Hne. unfold influencers, followers in *. rewrite length_take.
    assert (k < length sorted)%nat.
    { destruct (decide (k < length sorted)%nat) as [? | Hge]; [done |].
      exfalso. apply Hne. apply drop_ge. lia. }
    unfold k, InfluenceGraph.num_influencers in *. lia. }
  set (Inv := λ (pre : list string) (g' : DiGraph.t),
         DiGraph.nodes g' = names
         ∧ (∀ e, e ∈ DiGraph.edges g' →
              DiGraph.src e ∈ pre ∧ DiGraph.dst e ∈ influencers
              ∧ DiGraph.weight e = score_of agents (DiGraph.dst e))
         ∧ ∀ f, f ∈ pre →
             NoDup (DiGraph.out_neighbours g' f)
             ∧ (1 ≤ length (DiGraph.out_neighbours g' f) ≤ 3)%nat).
  eapply yields_mono.
  - apply (yields_for_each_prefix Inv _ followers [] g t0).
    + intros pre x post acc t Heq _ (Hn & He & Hout). simpl in Heq.
      assert (x ∈ followers) as Hx by (rewrite Heq; set_solver).
      assert (x ∉ pre) as Hxpre.
      { rewrite Heq in Hfnd. apply NoDup_app in Hfnd as (_ & Hd & _).
        intros Hin. apply (Hd x Hin). by left. }
      assert (1 ≤ length influencers)%nat as Hlen.
      { apply Hpos. intros Hnil. rewrite Hnil in Hx. by apply elem_of_nil in Hx. }
      yields_step.
      eapply yields_bind; [apply sample_yields; lia |].
      intros conns t1 [Hclen Hsubm].
      destruct (submseteq_facts _ _ Hsubm Hind) as [Hcnd Hcin].
      assert (DiGraph.out_neighbours acc x = []) as Hnil.
      { apply out_neighbours_nil. intros e Hin Hs.
        destruct (He e Hin) as (Hpre & _). by rewrite Hs in Hpre. }
      eapply yields_mono.
      * apply (add_edges_yields x (λ c w, w = score_of agents c));
          [done | rewrite Hn; by apply Hfsub | | ].
        -- intros c Hc. rewrite Hn, Hnil.
           split; [by apply Hisub, Hcin | apply not_elem_of_nil].
        -- intros g1 c t2 Hc.
           destruct (proj1 (odict_get_is_Some agents c)
                       (Hkeys c (Hisub c (Hcin c Hc)))) as [a Ha].
           eapply yields_bind;
             [eapply yields_lift with (P := λ r, r = a); [exact Ha | reflexivity] |].
           intros ? t3 ->. apply yields_ret.
           exists (AgentGenome.influence_score (Agent.genome a)).
           split; [done |]. unfold score_of. by rewrite Ha.
      * intros g1 (Hn1 & Hout1 & Hother & Hedges1). rewrite Hnil in Hout1. simpl in Hout1.
        split; [by rewrite Hn1 |]. split.
        -- intros e Hin. destruct (Hedges1 e Hin) as [Hold | (Hs & Hd & Hw)].
           ++ destruct (He e Hold) as (H1 & H2 & H3).
              split; [apply elem_of_app; by left |]. by split.
           ++ split; [rewrite Hs; apply elem_of_app; right; by left |].
              split; [by apply Hcin | done].
        -- intros u Hu. apply elem_of_app in Hu as [Hu | Hu].
           ++ rewrite Hother by (intros ->; done). by apply Hout.
           ++ apply list_elem_of_singleton in Hu as ->. rewrite Hout1.
              split; [done | lia].
    + unfold Inv. split; [done |]. split.
      * intros e He. rewrite Hedges in He. by apply elem_of_nil in He.
      * intros u Hu. by apply elem_of_nil in Hu.
  - simpl. intros g' (Hn & He & Hout). exists sorted. split; [exact Hranked |].
    cbv zeta. fold k. fold influencers. fold followers.
    split; [done |]. split; [exact He | exact Hout].
Qed.

Lemma StronglySorted_app_elem {A} (R : A → A → Prop) (l1 l2 : list A) x y :
  StronglySorted R (l1 ++ l2) → x ∈ l1 → y ∈ l2 → R x y.
Proof.
  induction l1 as [|z l1 IH]; intros Hs Hx Hy; [by apply elem_of_nil in Hx |].
  simpl in Hs. apply StronglySorted_inv in Hs as [Hs Hz].
  apply elem_of_cons in Hx as [-> | Hx]; [ | by apply IH].
  apply (proj1 (Forall_forall _ _) Hz). apply elem_of_app. by right.
Qed.

(** C6.  On a graph built by the real-follower strategy: the names are
    ranked by descending influence score, the first [max(1, n // 5)]
    are the influencers and the rest the followers; every follower has
    between one and three out-edges, to pairwise distinct influencers,
    each weighted with the influence score of the influencer it points
    to; and every edge of the graph goes from a follower to an
    influencer, so none joins two influencers or two followers. *)
Theorem real_follower_topology (population : list Agent.t) (s : Random.Rng) :
  yields (build NetworkTopology.REAL_FOLLOWER population) s
    (λ ig,
       let g := InfluenceGraph.graph ig in
       let score := score_of (InfluenceGraph.agents ig) in
       ∃ sorted,
         let k := Nat.max 1 (length sorted / 5) in
         let influencers := take k sorted in
         let followers := drop k sorted in
         sorted ≡ₚ DiGraph.nodes g
         ∧ (∀ x, x ∈ DiGraph.nodes g ↔ x ∈ Agent.name <$> population)
         ∧ StronglySorted (λ a b, score b <= score a) sorted
         ∧ (∀ x y, x ∈ influencers → y ∈ followers → score y <= score x ∧ x ≠ y)
         ∧ (∀ f, f ∈ followers →
              let out := DiGraph.out_neighbours g f in
              InfluenceGraph.get_followers ig f = Some out
              ∧ NoDup out
              ∧ (1 ≤ length out ≤ 3)%nat
              ∧ ∀ v, v ∈ out → v ∈ influencers)
         ∧ (∀ e, e ∈ DiGraph.edges g →
              DiGraph.src e ∈ followers
              ∧ DiGraph.dst e ∈ influencers
              ∧ DiGraph.weight e = score (DiGraph.dst e))
         ∧ (∀ e, e ∈ DiGraph.edges g →
              ¬ (DiGraph.src e ∈ influencers ∧ DiGraph.dst e ∈ influencers)
              ∧ ¬ (DiGraph.src e ∈ followers ∧ DiGraph.dst e ∈ followers))).
Proof.
  rewrite build_register. unfold InfluenceGraph._create_network_edges.
  destruct (register_init NetworkTopology.REAL_FOLLOWER population)
    as (Hnodes & Hnd & Hedges & Htopo & _ & _).
  destruct (nodes_of_population NetworkTopology.REAL_FOLLOWER population)
    as (_ & Hin & _).
  rewrite Htopo.
  set (self := register (InfluenceGraph.init NetworkTopology.REAL_FOLLOWER) population)
    in *.
  set (names := ODict.keys (InfluenceGraph.agents self)) in *.
  eapply yields_bind; [by apply real_follower_edges_yields |].
  intros g t (sorted & Hranked & Hn & He & Hout). apply yields_ret. simpl.
  destruct (ranked_facts _ _ _ (λ x Hx, Hx) Hranked) as [Hperm Hsorted].
  change (sorted ≡ₚ names) in Hperm.
  unfold InfluenceGraph.num_influencers in *.
  set (k := Nat.max 1 (length sorted / 5)) in *.
  assert (NoDup sorted) as Hsnd by by rewrite Hperm.
  assert (∀ x y, x ∈ take k sorted → y ∈ drop k sorted → x ≠ y) as Hdisj.
  { intros x y Hx Hy ->. by eapply split_disjoint. }
  exists sorted. fold k.
  split; [by rewrite Hn |]. split; [by rewrite Hn |]. split; [done |].
  split.
  { intros x y Hx Hy. split; [ | by apply Hdisj].
    rewrite <- (take_drop k sorted) in Hsorted.
    by apply (StronglySorted_app_elem _ _ _ x y Hsorted). }
  split.
  { intros f Hf. destruct (Hout f Hf) as [Hond Hlen].
    split.
    - unfold InfluenceGraph.get_followers. apply successors_out. simpl.
      rewrite Hn, <- Hperm. by apply (subseteq_drop k sorted).
    - split; [done |]. split; [done |].
      intros v Hv. apply out_neighbours_elem in Hv as (e & Hein & _ & <-).
      by destruct (He e Hein) as (_ & ? & _). }
  split; [exact He |].
  intros e Hein. destruct (He e Hein) as (Hs & Hd & _).
  split; intros [H1 H2].
  - by apply (Hdisj _ _ H1 Hs).
  - by apply (Hdisj _ _ Hd H2).
Qed.

(** C6 on the three-agent scenario: [cat] has the highest score and is
    the only influencer; [bob] and [ann] follow her with weight 0.9. *)
Lemma real_follower_topology_witness :
  yields (build NetworkTopology.REAL_FOLLOWER Scenario.trio) [2; 7; 1]%N
    (λ ig,
       ∃ sorted,
         sorted ≡ₚ DiGraph.nodes (InfluenceGraph.graph ig)
         ∧ ∀ f, f ∈ drop (Nat.max 1 (length sorted / 5)) sorted →
             (1 ≤ length (DiGraph.out_neighbours (InfluenceGraph.graph ig) f) ≤ 3)%nat)
  ∧ (λ '(ig, _), DiGraph.edges (InfluenceGraph.graph ig))
    <$> build NetworkTopology.REAL_FOLLOWER Scenario.trio [2; 7; 1]%N
    = Some [("bob", "cat", 0.9); ("ann", "cat", 0.9)].
Proof.
  split; [ | vm_compute; reflexivity].
  eapply yields_mono; [apply real_follower_topology |].
  intros ig (sorted & Hperm & _ & _ & _ & Hout & _).
  exists sorted. split; [exact Hperm |].
  intros f Hf. by destruct (Hout f Hf) as (_ & _ & ? & _).
Defined.

(** ** The echo-chamber strategy *)

Lemma enumerate_elem {A} (l : list A) i x :
  (i, x) ∈ InfluenceGraph.enumerate l → l !! i = Some x.
Proof.
  unfold InfluenceGraph.enumerate. intros H.
  apply list_elem_of_lookup in H as [k Hk].
  apply lookup_zip_with_Some in Hk as (j & y & [= <- <-] & Hj & Hy).
  apply lookup_seq in Hj as [-> _]. exact Hy.
Qed.

Lemma echo_chamber_edges_yields agents names g s :
  NoDup names →
  (∀ x, x ∈ names → x ∈ ODict.keys agents) →
  (∀ e, e ∈ DiGraph.edges g → DiGraph.src e ≠ DiGraph.dst e ∧ 0 < DiGraph.weight e) →
  yields (InfluenceGraph.echo_chamber_edges agents names g) s
    (λ g', ∀ e, e ∈ DiGraph.edges g' →
             DiGraph.src e ≠ DiGraph.dst e ∧ 0 < DiGraph.weight e).
Proof.
  intros Hnd Hkeys Hg. unfold InfluenceGraph.echo_chamber_edges.
  apply (yields_for_each
           (λ g', ∀ e, e ∈ DiGraph.edges g' →
                    DiGraph.src e ≠ DiGraph.dst e ∧ 0 < DiGraph.weight e));
    [ | exact Hg].
  intros acc [i agent_name] t Hi Hacc. apply enumerate_elem in Hi.
  assert (agent_name ∈ names) as Hin by by eapply list_elem_of_lookup_2.
  destruct (proj1 (odict_get_is_Some agents agent_name) (Hkeys _ Hin)) as [agent Ha].
  eapply yields_bind;
    [eapply yields_lift with (P := λ r, r = agent); [exact Ha | reflexivity] |].
  intros ? t0 ->.
  apply (yields_for_each
           (λ g', ∀ e, e ∈ DiGraph.edges g' →
                    DiGraph.src e ≠ DiGraph.dst e ∧ 0 < DiGraph.weight e));
    [ | exact Hacc].
  intros acc' [j other_name] t1 Hj Hacc'. apply enumerate_elem in Hj.
  destruct (decide (i ≠ j)) as [Hij | _]; [ | by apply yields_ret].
  assert (other_name ∈ names) as Hin' by by eapply list_elem_of_lookup_2.
  destruct (proj1 (odict_get_is_Some agents other_name) (Hkeys _ Hin')) as [other Ho].
  eapply yields_bind;
    [eapply yields_lift with (P := λ r, r = other); [exact Ho | reflexivity] |].
  intros ? t2 ->.
  eapply yields_bind; [apply random_yields |].
  intros r t3 [Hr0 Hr1]. simpl.
  destruct (decide (r < _)) as [Hlt | _]; apply yields_ret; [ | exact Hacc'].
  intros e He. apply add_edge_edges in He as [-> | He]; [ | by apply Hacc'].
  split.
  - unfold DiGraph.src, DiGraph.dst. simpl. intros ->.
    apply Hij. by eapply NoDup_lookup.
  - unfold DiGraph.weight. simpl. lra.
Qed.

(** ** Edges of a graph built from the initial population *)

Lemma build_edges_positive topology population s :
  Forall factory_agent population →
  yields (build topology population) s
    (λ ig, ∀ e, e ∈ DiGraph.edges (InfluenceGraph.graph ig) →
             DiGraph.src e ≠ DiGraph.dst e ∧ 0 < DiGraph.weight e).
Proof.
  intros Hfac. rewrite build_register. unfold InfluenceGraph._create_network_edges.
  destruct (register_init topology population)
    as (Hnodes & Hnd & Hedges & Htopo & Hget & _).
  rewrite Htopo.
  set (self := register (InfluenceGraph.init topology) population) in *.
  eapply yields_bind with
    (Q := λ g, ∀ e, e ∈ DiGraph.edges g →
                 DiGraph.src e ≠ DiGraph.dst e ∧ 0 < DiGraph.weight e);
    [ | intros g t Hg; by apply yields_ret].
  destruct topology.
  - apply echo_chamber_edges_yields; [done | done |].
    intros e He. rewrite Hedges in He. by apply elem_of_nil in He.
  - eapply yields_mono; [by apply loose_network_edges_yields |].
    intros g (_ & He & _) e Hin. destruct (He e Hin) as (_ & _ & Hne & Hw & _).
    split; [done | lra].
  - eapply yields_mono; [by apply real_follower_edges_yields |].
    intros g (sorted & Hranked & Hn & He & _) e Hin.
    destruct (ranked_facts _ _ _ (λ x Hx, Hx) Hranked) as [Hperm _].
    assert (NoDup sorted) as Hsnd by by rewrite Hperm.
    destruct (He e Hin) as (Hs & Hd & Hw). split.
    + intros Heq. rewrite Heq in Hs. by eapply split_disjoint.
    + rewrite Hw. unfold score_of.
      assert (DiGraph.dst e ∈ ODict.keys (InfluenceGraph.agents self)) as Hkey.
      { rewrite <- Hperm. by eapply (subseteq_take _ sorted). }
      apply odict_get_is_Some in Hkey as [a Ha]. rewrite Ha.
      destruct (Hget _ _ Ha) as [Hpop _].
      apply (proj1 (Forall_forall _ _) Hfac), factory_agent_facts in Hpop
        as (_ & [Hlo _] & _). lra.
Qed.

(** C8.  Whatever the configuration and the topology, the population
    starts with every opinion at 0.5 and the influence graph built from
    it has no edge from an agent to itself and only edges of strictly
    positive weight. *)
Theorem no_self_loop_and_positive_weights
    (topology : NetworkTopology.t) (config : gmap string Z) (s : Random.Rng) :
  yields (population <- AdvancedSimulator.create_agent_population config;;
          ig <- build topology population;;
          Random.ret (population, ig)) s
    (λ '(population, ig),
       Forall (λ a, Agent.current_opinion a = 0.5) population
       ∧ ∀ e, e ∈ DiGraph.edges (InfluenceGraph.graph ig) →
           DiGraph.src e ≠ DiGraph.dst e ∧ 0 < DiGraph.weight e).
Proof.
  eapply yields_bind; [apply factory_agent_population |].
  intros population t Hfac.
  eapply yields_bind; [by apply build_edges_positive |].
  intros ig t' Hedges. apply yields_ret. split; [ | exact Hedges].
  eapply Forall_impl; [exact Hfac |]. intros a Ha.
  by apply factory_agent_facts in Ha as (? & _).
Qed.

(** * Runs return

    With a backend that answers, nothing in a run of a new simulator
    raises: the graph only names agents of the population, the index
    resolves every name, and every record carries a numeric
    [influence_impact]. *)

Lemma yields_and {A} (m : Random.M A) s (P Q : A → Prop) :
  yields m s P → yields m s Q → yields m s (λ x, P x ∧ Q x).
Proof.
  intros (x & s' & Hm & HP) HQ. exists x, s'. split; [done |].
  split; [done | by eapply yields_inv].
Qed.

Lemma yields_run {A} (m : Random.M A) s (P : A → Prop) :
  yields m s (λ _, True) →
  (∀ x s', m s = Some (x, s') → P x) →
  yields m s P.
Proof. intros (x & s' & Hm & _) H. exists x, s'. eauto. Qed.

Lemma yields_map_m {A B} (f : A → Random.M B) (R : A → B → Prop) l :
  (∀ x s, x ∈ l → yields (f x) s (R x)) →
  ∀ s, yields (Random.map_m f l) s (Forall2 R l).
Proof.
  induction l as [|x l IH]; intros Hf s; simpl.
  - apply yields_ret. constructor.
  - eapply yields_bind; [apply Hf; by left |].
    intros y s1 Hy. eapply yields_bind.
    + apply IH. intros z t Hz. apply Hf. by right.
    + intros ys s2 Hys. apply yields_ret. by constructor.
Qed.

(** ** One round *)

Lemma fmap_name_insert (population : list Agent.t) i agent q :
  population !! i = Some agent →
  Agent.name <$> <[i := Agent.set_opinion agent q]> population
  = Agent.name <$> population.
Proof.
  intros Hi. rewrite list_fmap_insert. apply list_insert_id.
  by rewrite list_lookup_fmap, Hi.
Qed.

Lemma influence_step_yields self names i population result x s :
  wired self names →
  Agent.name <$> population = names →
  (i < length names)%nat →
  (∃ e, e ∈ DiGraph.edges (InfluenceGraph.graph (AdvancedSimulator.influence_graph self))
        ∧ DiGraph.src e = x) →
  numeric_impact result →
  yields (AdvancedSimulator.influence_step self i (population, result) x) s
    (λ st, Agent.name <$> st.1 = names ∧ numeric_impact st.2).
Proof.
  intros [_ Hedges] Hnames Hi (e & He & <-) [q Hq].
  assert (length population = length names) as Hlen by by rewrite <- Hnames, length_fmap.
  destruct (lookup_lt_is_Some_2 population i) as [agent Hagent]; [lia |].
  destruct (Hedges e He) as (j & Hj & Hlt).
  destruct (lookup_lt_is_Some_2 population j) as [influencer Hinf]; [lia |].
  eexists _, s. split.
  - by apply (influence_step_run _ _ _ _ _ agent j influencer q).
  - simpl. split.
    + rewrite <- Hnames. by apply fmap_name_insert.
    + unfold numeric_impact. rewrite impact_of_insert. by eexists.
Qed.

Lemma propagate_yields self names population ints i result s :
  wired self names →
  Agent.name <$> population = names →
  (i < length names)%nat →
  numeric_impact result →
  Forall numeric_impact ints →
  yields (AdvancedSimulator.propagate self (population, ints) (i, result)) s
    (λ st, Agent.name <$> st.1 = names ∧ Forall numeric_impact st.2).
Proof.
  intros Hw Hnames Hi Hr Hints. unfold AdvancedSimulator.propagate.
  assert (length population = length names) as Hlen by by rewrite <- Hnames, length_fmap.
  destruct (lookup_lt_is_Some_2 population i) as [agent Hagent]; [lia |].
  eapply yields_bind;
    [eapply yields_lift with (P := λ a, a = agent); [exact Hagent | reflexivity] |].
  intros ? s1 ->.
  assert (Agent.name agent ∈ names) as Hin.
  { rewrite <- Hnames. apply list_elem_of_fmap. exists agent.
    split; [done | by eapply list_elem_of_lookup_2]. }
  set (g := InfluenceGraph.graph (AdvancedSimulator.influence_graph self)).
  eapply yields_bind with
    (Q := λ influencers, ∀ x, x ∈ influencers →
            ∃ e, e ∈ DiGraph.edges g ∧ DiGraph.src e = x).
  - unfold InfluenceGraph.get_influencers, DiGraph.predecessors. fold g.
    rewrite decide_True by by apply Hw.
    eapply yields_lift; [reflexivity |].
    intros x Hx. apply list_elem_of_fmap in Hx as (e & -> & He).
    apply list_elem_of_filter in He as [_ He]. by exists e.
  - intros influencers s2 Hsrc.
    eapply yields_bind.
    + apply (yields_for_each
               (λ st, Agent.name <$> st.1 = names ∧ numeric_impact st.2));
        [ | by split].
      intros [p r] x t Hx [Hp Hnum]. simpl in Hp, Hnum.
      apply (influence_step_yields self names); try done. by apply Hsrc.
    + intros [p r] s3 [Hp Hnum]. apply yields_ret. simpl in *. split; [done |].
      apply Forall_app. split; [done | by constructor].
Qed.

Lemma gather_yields llm feature mc population s :
  answers llm →
  yields (AdvancedSimulator.gather llm feature mc population) s
    (λ gr, Agent.name <$> gr.1 = Agent.name <$> population
           ∧ length gr.2 = length population
           ∧ Forall numeric_impact gr.2).
Proof.
  intros Hllm. unfold AdvancedSimulator.gather.
  eapply yields_bind.
  - apply (yields_map_m _ (λ self ar, Agent.name ar.1 = Agent.name self
                                      ∧ numeric_impact ar.2)).
    intros self t _.
    eapply yields_mono;
      [apply (process_feature_yields llm self feature mc (λ _, True));
       intros; apply Hllm |].
    intros [a r] (analysis & _ & Ha & Hr). simpl in *. subst a r. split; [done |].
    unfold numeric_impact, impact_of. rewrite report_impact. by eexists.
  - intros rs s1 Hrs. apply yields_ret. simpl.
    induction Hrs as [|self [a r] l rs [Hname Hnum] _ (IH1 & IH2 & IH3)];
      [done |].
    rewrite !fmap_cons. simpl in *. repeat split.
    + by rewrite Hname, IH1.
    + by rewrite IH2.
    + by constructor.
Qed.

Lemma enumerate_length {A} (l : list A) i x :
  (i, x) ∈ InfluenceGraph.enumerate l → (i < length l)%nat ∧ x ∈ l.
Proof.
  intros H. apply enumerate_elem in H. split.
  - by eapply lookup_lt_Some.
  - by eapply list_elem_of_lookup_2.
Qed.

Lemma run_feature_yields self names llm mc population ints feature s :
  answers llm →
  wired self names →
  Agent.name <$> population = names →
  Forall numeric_impact ints →
  yields (AdvancedSimulator.run_feature self llm mc (population, ints) feature) s
    (λ st, Agent.name <$> st.1 = names ∧ Forall numeric_impact st.2).
Proof.
  intros Hllm Hw Hnames Hints. unfold AdvancedSimulator.run_feature.
  assert (length population = length names) as Hlen by by rewrite <- Hnames, length_fmap.
  eapply yields_bind; [by apply gather_yields |].
  intros [p rs] s1 (Hp & Hlenrs & Hrs). simpl in *.
  eapply yields_bind.
  - apply (yields_for_each
             (λ st, Agent.name <$> st.1 = names ∧ Forall numeric_impact st.2));
      [ | split; [simpl; by rewrite Hp | constructor]].
    intros [p' ints'] [i r] t Hir [Hp' Hints']. simpl in *.
    apply enumerate_length in Hir as [Hi Hr].
    apply propagate_yields; try done; [lia |].
    by apply (proj1 (Forall_forall _ _) Hrs).
  - intros [p' ints'] s2 [Hp' Hints']. apply yields_ret. simpl in *.
    split; [done | by apply Forall_app].
Qed.

Lemma run_single_round_yields self names llm brief population n mc s :
  answers llm →
  wired self names →
  Agent.name <$> population = names →
  names ≠ [] →
  yields (AdvancedSimulator._run_single_round self llm brief population n mc) s
    (λ rp, Agent.name <$> rp.2 = names
           ∧ Forall numeric_impact (RoundResult.interactions rp.1)).
Proof.
  intros Hllm Hw Hnames Hne. unfold AdvancedSimulator._run_single_round.
  eapply yields_bind.
  - apply (yields_for_each
             (λ st, Agent.name <$> st.1 = names ∧ Forall numeric_impact st.2));
      [ | split; [done | constructor]].
    intros [p ints] f t _ [Hp Hints]. simpl in *.
    by apply (run_feature_yields self names).
  - intros [p ints] s1 [Hp Hints]. simpl in *.
    rewrite decide_False; [by apply yields_ret |].
    intros Hlen. apply Hne. rewrite <- Hp.
    apply nil_length_inv. by rewrite length_fmap.
Qed.

Lemma run_rounds_yields self names llm brief n mc population s :
  answers llm →
  wired self names →
  Agent.name <$> population = names →
  names ≠ [] →
  Forall numeric_impact (logged_interactions (AdvancedSimulator.round_history self)) →
  yields (AdvancedSimulator.run_rounds self llm brief n mc population) s
    (λ sp, Agent.name <$> sp.2 = names
           ∧ Forall numeric_impact
               (logged_interactions (AdvancedSimulator.round_history sp.1))).
Proof.
  intros Hllm Hw Hnames Hne Hlog. unfold AdvancedSimulator.run_rounds.
  eapply yields_mono.
  - apply (yields_for_each
             (λ sp, wired sp.1 names ∧ Agent.name <$> sp.2 = names
                    ∧ Forall numeric_impact
                        (logged_interactions (AdvancedSimulator.round_history sp.1))));
      [ | simpl; by split].
    intros [sim p] k t _ (Hsim & Hp & Hhist). simpl in *.
    eapply yields_bind; [by apply (run_single_round_yields sim names) |].
    intros [rr p'] s1 [Hp' Hrr]. apply yields_ret. simpl in *.
    split; [exact Hsim | split; [done |]].
    unfold logged_interactions in *. rewrite fmap_app, concat_app.
    apply Forall_app. split; [done |]. simpl. by rewrite app_nil_r.
  - by intros [sim p] (_ & ? & ?).
Qed.

(** ** The index of the population *)

Lemma index_fold_facts (n : nat) (l : list (nat * Agent.t)) :
  ∀ d : list (string * nat),
    (∀ k j, ODict.get d k = Some j → (j < n)%nat) →
    (∀ i a, (i, a) ∈ l → (i < n)%nat) →
    let d' := fold_left (λ d '(i, agent), ODict.set d (Agent.name agent) i) l d in
    (∀ k j, ODict.get d' k = Some j → (j < n)%nat)
    ∧ (∀ k, is_Some (ODict.get d k) → is_Some (ODict.get d' k))
    ∧ (∀ i a, (i, a) ∈ l → is_Some (ODict.get d' (Agent.name a))).
Proof.
  induction l as [|[i a] l IH]; intros d Hd Hl; simpl.
  - repeat split; [done | done |]. intros ? ? H. by apply elem_of_nil in H.
  - destruct (IH (ODict.set d (Agent.name a) i)) as (H1 & H2 & H3).
    + intros k j. rewrite odict_get_set.
      destruct (decide (Agent.name a = k)); [ | by apply Hd].
      intros [= <-]. apply (Hl i a). by left.
    + intros j b Hb. apply (Hl j b). by right.
    + split; [exact H1 |]. split.
      * intros k Hk. apply H2. rewrite odict_get_set.
        by destruct (decide (Agent.name a = k)).
      * intros j b Hb. apply elem_of_cons in Hb as [[= -> ->] | Hb]; [ | by eapply H3].
        apply H2. rewrite odict_get_set. by rewrite decide_True.
Qed.

Lemma index_by_name_lookup population x :
  x ∈ Agent.name <$> population →
  ∃ j, ODict.get (AdvancedSimulator.index_by_name population) x = Some j
       ∧ (j < length population)%nat.
Proof.
  intros Hx. apply list_elem_of_fmap in Hx as (a & -> & Ha).
  apply list_elem_of_lookup in Ha as [i Hi].
  destruct (index_fold_facts (length population)
              (InfluenceGraph.enumerate population) [])
    as (H1 & _ & H3).
  - intros k j [=].
  - intros j b Hb. by apply enumerate_length in Hb as [? _].
  - destruct (H3 i a) as [j Hj].
    + unfold InfluenceGraph.enumerate. apply list_elem_of_lookup. exists i.
      apply lookup_zip_with_Some. exists i, a. split; [done |].
      split; [ | done]. apply lookup_seq. split; [done |]. by eapply lookup_lt_Some.
    + exists j. split; [exact Hj | by eapply H1].
Qed.

(** ** The graph names agents of the population only *)

Lemma echo_chamber_edges_closed agents names g s :
  (∀ x, x ∈ names → x ∈ ODict.keys agents) →
  DiGraph.nodes g = names →
  (∀ e, e ∈ DiGraph.edges g → DiGraph.src e ∈ names) →
  yields (InfluenceGraph.echo_chamber_edges agents names g) s
    (λ g', DiGraph.nodes g' = names
           ∧ ∀ e, e ∈ DiGraph.edges g' → DiGraph.src e ∈ names).
Proof.
  intros Hkeys Hnodes Hg. unfold InfluenceGraph.echo_chamber_edges.
  set (Inv := λ g' : DiGraph.t,
         DiGraph.nodes g' = names
         ∧ ∀ e, e ∈ DiGraph.edges g' → DiGraph.src e ∈ names).
  apply (yields_for_each Inv); [ | by split].
  intros acc [i agent_name] t Hi Hacc. apply enumerate_length in Hi as [_ Hin].
  destruct (proj1 (odict_get_is_Some agents agent_name) (Hkeys _ Hin)) as [agent Ha].
  eapply yields_bind;
    [eapply yields_lift with (P := λ r, r = agent); [exact Ha | reflexivity] |].
  intros ? t0 ->.
  apply (yields_for_each Inv); [ | exact Hacc].
  intros acc' [j other_name] t1 Hj [Hn He]. apply enumerate_length in Hj as [_ Hin'].
  destruct (decide (i ≠ j)) as [Hij | _]; [ | by apply yields_ret].
  destruct (proj1 (odict_get_is_Some agents other_name) (Hkeys _ Hin')) as [other Ho].
  eapply yields_bind;
    [eapply yields_lift with (P := λ r, r = other); [exact Ho | reflexivity] |].
  intros ? t2 ->.
  eapply yields_bind; [apply random_yields |].
  intros r t3 _. simpl.
  destruct (decide (r < _)) as [Hlt | _]; apply yields_ret; [ | by split].
  split.
  - rewrite add_edge_nodes; [done | by rewrite Hn | by rewrite Hn].
  - intros e Hin_e. apply add_edge_edges in Hin_e as [-> | Hin_e]; [done | by apply He].
Qed.

Lemma build_closed topology population s :
  yields (build topology population) s
    (λ ig, let g := InfluenceGraph.graph ig in
       (∀ x, x ∈ Agent.name <$> population → x ∈ DiGraph.nodes g)
       ∧ ∀ e, e ∈ DiGraph.edges g → DiGraph.src e ∈ Agent.name <$> population).
Proof.
  rewrite build_register. unfold InfluenceGraph._create_network_edges.
  destruct (register_init topology population)
    as (Hnodes & Hnd & Hedges & Htopo & _ & Hnames).
  rewrite Htopo.
  set (self := register (InfluenceGraph.init topology) population) in *.
  set (names := ODict.keys (InfluenceGraph.agents self)) in *.
  eapply yields_bind with
    (Q := λ g, DiGraph.nodes g = names
               ∧ ∀ e, e ∈ DiGraph.edges g → DiGraph.src e ∈ names).
  - destruct topology.
    + apply echo_chamber_edges_closed; [done | done |].
      intros e He. rewrite Hedges in He. by apply elem_of_nil in He.
    + eapply yields_mono; [by apply loose_network_edges_yields |].
      intros g (Hn & He & _). split; [done |].
      intros e Hin. by destruct (He e Hin) as (? & _).
    + eapply yields_mono; [by apply real_follower_edges_yields |].
      intros g (sorted & Hranked & Hn & He & _). split; [done |].
      intros e Hin. destruct (He e Hin) as (Hs & _).
      destruct (ranked_facts _ _ _ (λ x Hx, Hx) Hranked) as [Hperm _].
      change (sorted ≡ₚ names) in Hperm.
      rewrite <- Hperm. by eapply (subseteq_drop _ sorted).
  - intros g t [Hn He]. apply yields_ret. simpl. split.
    + intros x Hx. rewrite Hn. by apply Hnames.
    + intros e Hin. apply Hnames. by apply He.
Qed.

(** ** The arena-health block *)

Lemma viral_path_numeric interactions :
  Forall numeric_impact interactions →
  is_Some (ArenaHealthMetrics._calculate_viral_path interactions).
Proof.
  intros Hall. unfold ArenaHealthMetrics._calculate_viral_path.
  destruct (decide (interactions = [])) as [_ | _]; [by eexists |].
  assert (∀ acc : Q,
    is_Some (foldl (λ (acc : option Q) (interaction : Interaction),
               t ← acc;
               x ← ArenaHealthMetrics.as_number
                     (get_or interaction "influence_impact" (VInt 0));
               Some (t + x)) (Some acc) interactions)) as Hfold.
  { induction Hall as [|r l [q Hq] _ IH]; intros acc; simpl; [by eexists |].
    unfold impact_of in Hq. unfold get_or.
    destruct (r !! "influence_impact") as [v|]; simpl in Hq; [ | discriminate].
    simpl. rewrite Hq. simpl. apply IH. }
  destruct (Hfold 0) as [total ->]. by eexists.
Qed.

Lemma calculate_metrics_total agents interactions :
  agents ≠ [] →
  Forall numeric_impact interactions →
  Forall agent_only_record interactions →
  is_Some (ArenaHealthMetrics.calculate_metrics agents interactions).
Proof.
  intros Hne Hnum Honly. unfold ArenaHealthMetrics.calculate_metrics.
  unfold ArenaHealthMetrics._calculate_polarization.
  rewrite decide_False.
  2:{ rewrite length_fmap. intros H. by apply nil_length_inv in H. }
  destruct (viral_path_numeric _ Hnum) as [viral ->].
  destruct (engagement_density_agent_only _ Honly) as (density & -> & _).
  by eexists.
Qed.

(** ** The population is never empty *)

Lemma create_agent_population_nonempty config s :
  yields (AdvancedSimulator.create_agent_population config) s (λ population, population ≠ []).
Proof.
  eapply yields_mono; [apply create_agent_population_yields |].
  intros population (cs & ks & is' & ns & -> & Hc & Hk & Hi & Hn & _).
  intros Hnil. apply (f_equal length) in Hnil.
  rewrite !length_app, Hc, Hk, Hi, Hn in Hnil. unfold iterations in Hnil.
  simpl in Hnil. lia.
Qed.

(** ** A whole run *)

Lemma index_by_name_wired topology graph history population :
  (∀ x, x ∈ Agent.name <$> population → x ∈ DiGraph.nodes (InfluenceGraph.graph graph)) →
  (∀ e, e ∈ DiGraph.edges (InfluenceGraph.graph graph) →
     DiGraph.src e ∈ Agent.name <$> population) →
  wired {| AdvancedSimulator.network_topology := topology;
           AdvancedSimulator.influence_graph := graph;
           AdvancedSimulator.round_history := history;
           AdvancedSimulator.agents := AdvancedSimulator.index_by_name population |}
    (Agent.name <$> population).
Proof.
  intros Hnodes Hedges. split; [exact Hnodes |]. simpl.
  intros e He. rewrite length_fmap. by apply index_by_name_lookup, Hedges.
Qed.

Lemma run_to_metrics_returns topology llm brief config n mc s :
  answers llm →
  yields (AdvancedSimulator.run_to_metrics (AdvancedSimulator.init topology)
            llm brief config n mc) s (λ _, True).
Proof.
  intros Hllm. unfold AdvancedSimulator.run_to_metrics.
  eapply yields_bind; [apply create_agent_population_nonempty |].
  intros population s1 Hne.
  eapply yields_bind; [apply (build_closed topology population) |].
  intros graph s2 [Hnodes Hedges].
  set (sim := AdvancedSimulator.mk _ graph [] _).
  assert (wired sim (Agent.name <$> population)) as Hw
    by by apply index_by_name_wired.
  destruct (run_rounds_yields sim (Agent.name <$> population) llm brief n mc
              population s2)
    as ([sim' final] & s3 & Hrun & Hnames & Hnum); try done.
  { intros Hnil. by apply fmap_nil_inv in Hnil. }
  simpl in Hnames, Hnum.
  pose proof Hrun as Honly. apply run_rounds_agent_only in Honly; [ | constructor].
  eapply yields_bind with (Q := λ sp, sp = (sim', final)); [by exists (sim', final), s3 |].
  intros ? s4 ->.
  destruct (calculate_metrics_total final
              (logged_interactions (AdvancedSimulator.round_history sim')))
    as [metrics Hm]; try done.
  { intros ->. apply Hne. symmetry in Hnames. by apply fmap_nil_inv in Hnames. }
  eapply yields_bind;
    [eapply yields_lift with (P := λ _, True); [exact Hm | exact I] |].
  intros ? s5 _. by apply yields_ret.
Qed.


(** * What every run guarantees *)

Lemma mock_answers : answers EnhancedMockAI.analyze_without_persona.
Proof.
  intros feature context mc s.
  eapply yields_mono; [apply mock_analyze_feature_yields | done].
Qed.

Lemma mock_run_rounds_tokens self brief n mc population s self' population' s' :
  Forall (λ a, (0 ≤ tokens a)%Z) population →
  AdvancedSimulator.run_rounds self EnhancedMockAI.analyze_without_persona brief n mc
    population s = Some ((self', population'), s') →
  Forall (λ a, (0 ≤ tokens a)%Z) population'.
Proof.
  intros Hall Hrun.
  eapply (run_rounds_preserves (λ a, (0 ≤ tokens a)%Z)); [ | | exact Hall | exact Hrun].
  - by intros a q.
  - intros x feature mc' t a r t' Hx Hpf.
    by apply (mock_process_feature_tokens _ _ _ _ _ _ _ Hx) in Hpf as [? _].
Qed.

Lemma run_to_metrics_density self llm brief config n mc s self' report s' :
  AdvancedSimulator.run_to_metrics self llm brief config n mc s
  = Some ((self', report), s') →
  ArenaHealthMetrics._calculate_engagement_density
    (logged_interactions (Report.round_history report))
  = Some (ArenaHealthMetrics.engagement_density (Report.arena_health report))
  ∧ ArenaHealthMetrics.engagement_density (Report.arena_health report) == 0.
Proof.
  intros Hrun.
  apply run_to_metrics_inv in Hrun
    as (population & s1 & graph & s2 & final & metrics & _ & _ & Hrounds & Hm & ->).
  simpl. apply calculate_metrics_density in Hm. split; [exact Hm |].
  apply run_rounds_agent_only in Hrounds; [ | constructor].
  apply engagement_density_agent_only in Hrounds as (q & Hq & Hzero).
  rewrite Hm in Hq. by injection Hq as ->.
Qed.

(** C1.  After every update the opinion of the updated agent lies in
    [[0, 1]]: (1) the shift applied by [process_feature], whatever the
    analysis backend returns; (2) every influence-propagation step,
    whatever the graph and its weights; (3) hence a whole round keeps
    every opinion of the population in range; (4) and a run of a new
    simulator, with a backend that answers, returns a report whose
    final agents all have their opinion in range. *)
Theorem opinion_clamped_after_every_update :
  (∀ (llm : Backend) (self : Agent.t) (feature : Feature) (mc : option Dict)
     (s : Random.Rng) (a : Agent.t) (r : Interaction) (s' : Random.Rng),
     Agent.process_feature llm self feature mc s = Some (a, r, s') →
     0 <= Agent.current_opinion a <= 1)
  ∧ (∀ (self : AdvancedSimulator.t) (i : nat) (population : list Agent.t)
       (result : Interaction) (influencer_name : string) (s : Random.Rng)
       (population' : list Agent.t) (result' : Interaction) (s' : Random.Rng),
       AdvancedSimulator.influence_step self i (population, result) influencer_name s
       = Some ((population', result'), s') →
       ∃ a, population' !! i = Some a ∧ 0 <= Agent.current_opinion a <= 1)
  ∧ (∀ (self : AdvancedSimulator.t) (llm : Backend) (brief : Brief.t)
       (population : list Agent.t) (n : Z) (mc : option Dict) (s : Random.Rng)
       (rr : RoundResult.t) (population' : list Agent.t) (s' : Random.Rng),
       Forall (λ a, 0 <= Agent.current_opinion a <= 1) population →
       AdvancedSimulator._run_single_round self llm brief population n mc s
       = Some ((rr, population'), s') →
       Forall (λ a, 0 <= Agent.current_opinion a <= 1) population')
  ∧ (∀ (topology : NetworkTopology.t) (llm : Backend) (brief : Brief.t)
       (config : gmap string Z) (n : Z) (mc : option Dict) (s : Random.Rng),
       answers llm →
       yields (AdvancedSimulator.run_to_metrics (AdvancedSimulator.init topology)
                 llm brief config n mc) s
         (λ '(_, report),
            Forall (λ a, 0 <= Agent.current_opinion a <= 1)
              (Report.final_agents report))).
Proof.
  split; [ | split; [ | split]].
  - intros. by eapply process_feature_in_range.
  - intros * H. by apply influence_step_in_range in H as (H & _).
  - intros *. apply run_single_round_keeps_range.
  - intros * Hllm. apply yields_run; [by apply run_to_metrics_returns |].
    intros [self' report] s' Hrun. apply run_to_metrics_final_agents in Hrun.
    eapply Forall_impl; [exact Hrun |]. by intros a [? _].
Qed.

(** The parts of C1 on the three-agent scenario: [ann] analyses the
    feature, [cat] takes one propagation step from [ann], a whole round
    runs; and a run of two rounds on the 25/25/25/25 population. *)
Lemma opinion_clamped_after_every_update_witness :
  returns (Agent.process_feature (Scenario.fixed_backend 0.3 0.25 7)
             Scenario.ann Scenario.feature None [])
    (λ '(a, _, _), 0 <= Agent.current_opinion a <= 1)
  ∧ returns (AdvancedSimulator.influence_step Scenario.trio_sim 2
               (Scenario.trio, Scenario.cat_record) "ann" [])
      (λ '((population', _), _),
         ∃ a, population' !! 2%nat = Some a ∧ 0 <= Agent.current_opinion a <= 1)
  ∧ Forall (λ a, 0 <= Agent.current_opinion a <= 1) Scenario.trio
  ∧ returns (AdvancedSimulator._run_single_round Scenario.trio_sim
               (Scenario.fixed_backend 0.3 0.25 7) Scenario.brief Scenario.trio 0 None [])
      (λ '((_, population'), _),
         Forall (λ a, 0 <= Agent.current_opinion a <= 1) population')
  ∧ answers (Scenario.fixed_backend 0.3 0.25 7)
  ∧ yields (AdvancedSimulator.run_to_metrics
              (AdvancedSimulator.init NetworkTopology.ECHO_CHAMBER)
              (Scenario.fixed_backend 0.3 0.25 7) Scenario.brief Configs.quarters
              2 None) []
      (λ '(_, report),
         Forall (λ a, 0 <= Agent.current_opinion a <= 1) (Report.final_agents report)).
Proof.
  destruct opinion_clamped_after_every_update as (H1 & H2 & H3 & H4).
  assert (Forall (λ a, 0 <= Agent.current_opinion a <= 1) Scenario.trio) as Htrio.
  { repeat constructor; simpl; lra. }
  assert (answers (Scenario.fixed_backend 0.3 0.25 7)) as Hllm.
  { intros feature context mc s. eexists _, s. split; [reflexivity | exact I]. }
  split; [ | split; [ | split; [exact Htrio | split; [ | split; [exact Hllm | ] ] ] ] ].
  - apply returns_intro; [vm_compute; reflexivity |].
    intros [[a r] s'] E. exact (H1 _ _ _ _ _ _ _ _ E).
  - apply returns_intro; [vm_compute; reflexivity |].
    intros [[p r] s'] E. exact (H2 _ _ _ _ _ _ _ _ _ E).
  - apply returns_intro; [vm_compute; reflexivity |].
    intros [[rr p] s'] E. exact (H3 _ _ _ _ _ _ _ _ _ _ Htrio E).
  - exact (H4 _ _ _ _ _ _ _ Hllm).
Defined.

(** C9.  The records logged by the rounds of a run carry an
    [agent_name] and never a [target_agent], so the engagement-density
    metric over them adds no pair and evaluates to 0: (1) over the
    history built by the rounds; (2) in the arena-health block of the
    report of a whole run; (3) and a run of a new simulator, with a
    backend that answers, does return such a report. *)
Theorem engagement_density_always_zero :
  (∀ (self : AdvancedSimulator.t) (llm : Backend) (brief : Brief.t) (n : Z)
     (mc : option Dict) (population : list Agent.t) (s : Random.Rng)
     (self' : AdvancedSimulator.t) (population' : list Agent.t) (s' : Random.Rng),
     AdvancedSimulator.round_history self = [] →
     AdvancedSimulator.run_rounds self llm brief n mc population s
     = Some ((self', population'), s') →
     let interactions := logged_interactions (AdvancedSimulator.round_history self') in
     Forall (λ r : Interaction,
               is_Some (r !! "agent_name") ∧ r !! "target_agent" = None) interactions
     ∧ ∃ q, ArenaHealthMetrics._calculate_engagement_density interactions = Some q
            ∧ q == 0)
  ∧ (∀ (self : AdvancedSimulator.t) (llm : Backend) (brief : Brief.t)
       (config : gmap string Z) (n : Z) (mc : option Dict) (s : Random.Rng)
       (self' : AdvancedSimulator.t) (report : Report.t) (s' : Random.Rng),
       AdvancedSimulator.run_to_metrics self llm brief config n mc s
       = Some ((self', report), s') →
       ArenaHealthMetrics._calculate_engagement_density
         (logged_interactions (Report.round_history report))
       = Some (ArenaHealthMetrics.engagement_density (Report.arena_health report))
       ∧ ArenaHealthMetrics.engagement_density (Report.arena_health report) == 0)
  ∧ (∀ (topology : NetworkTopology.t) (llm : Backend) (brief : Brief.t)
       (config : gmap string Z) (n : Z) (mc : option Dict) (s : Random.Rng),
       answers llm →
       yields (AdvancedSimulator.run_to_metrics (AdvancedSimulator.init topology)
                 llm brief config n mc) s
         (λ '(_, report),
            ArenaHealthMetrics._calculate_engagement_density
              (logged_interactions (Report.round_history report))
            = Some (ArenaHealthMetrics.engagement_density (Report.arena_health report))
            ∧ ArenaHealthMetrics.engagement_density (Report.arena_health report) == 0)).
Proof.
  split; [ | split].
  - intros * Hempty Hrun interactions.
    assert (Forall agent_only_record interactions) as Hall.
    { eapply run_rounds_agent_only; [ | exact Hrun]. rewrite Hempty. constructor. }
    split; [exact Hall | by apply engagement_density_agent_only].
  - intros *. apply run_to_metrics_density.
  - intros * Hllm. apply yields_run; [by apply run_to_metrics_returns |].
    intros [self' report] s'. apply run_to_metrics_density.
Qed.

(** C9 evaluated: two rounds of the three-agent scenario under the
    heuristic fallback (six records), a whole run of a customers-only
    population, and a run of three rounds on the 25/25/25/25
    population. *)
Lemma engagement_density_always_zero_witness :
  AdvancedSimulator.round_history Scenario.trio_sim = []
  ∧ returns (AdvancedSimulator.run_rounds Scenario.trio_sim EnhancedMockAI.analyze_without_persona
               Scenario.brief 2 None Scenario.trio [])
      (λ '((self', _), _),
         let interactions := logged_interactions (AdvancedSimulator.round_history self') in
         Forall (λ r : Interaction,
                   is_Some (r !! "agent_name") ∧ r !! "target_agent" = None) interactions
         ∧ ∃ q, ArenaHealthMetrics._calculate_engagement_density interactions = Some q
                ∧ q == 0)
  ∧ returns (AdvancedSimulator.run_to_metrics
               (AdvancedSimulator.init NetworkTopology.REAL_FOLLOWER)
               (Scenario.fixed_backend 0.1 0.25 7) Scenario.brief
               Configs.customers_only 2 None [])
      (λ '((_, report), _),
         ArenaHealthMetrics._calculate_engagement_density
           (logged_interactions (Report.round_history report))
         = Some (ArenaHealthMetrics.engagement_density (Report.arena_health report))
         ∧ ArenaHealthMetrics.engagement_density (Report.arena_health report) == 0)
  ∧ answers (Scenario.fixed_backend 0.1 0.25 7)
  ∧ yields (AdvancedSimulator.run_to_metrics
              (AdvancedSimulator.init NetworkTopology.LOOSE_NETWORK)
              (Scenario.fixed_backend 0.1 0.25 7) Scenario.brief Configs.quarters
              3 None) []
      (λ '(_, report),
         ArenaHealthMetrics._calculate_engagement_density
           (logged_interactions (Report.round_history report))
         = Some (ArenaHealthMetrics.engagement_density (Report.arena_health report))
         ∧ ArenaHealthMetrics.engagement_density (Report.arena_health report) == 0).
Proof.
  destruct engagement_density_always_zero as (Hrounds & Hrun & Htotal).
  assert (answers (Scenario.fixed_backend 0.1 0.25 7)) as Hllm.
  { intros feature context mc s. eexists _, s. split; [reflexivity | exact I]. }
  split; [reflexivity | split; [ | split; [ | split; [exact Hllm | ] ] ] ].
  - apply returns_intro; [vm_compute; reflexivity |].
    intros [[self' p] s'] E. eapply Hrounds; [ | exact E]. reflexivity.
  - apply returns_intro; [vm_compute; reflexivity |].
    intros [[self' report] s'] E. exact (Hrun _ _ _ _ _ _ _ _ _ _ E).
  - exact (Htotal _ _ _ _ _ _ _ Hllm).
Defined.



(** C4.  (1) On an agent list whose customers have opinions in
    [[0, 1]] and positive influence scores, the adoption score is 100
    times the mean of the customer opinions weighted by influence score;
    it lies in [[0, 100]]; and it is exactly 0 when the list has no
    customer.  (2) A run of a new simulator, with a backend that
    answers, returns a report whose final agent list is such a list and
    whose adoption score is the score of that list. *)
Theorem adoption_score_weighted_mean :
  (∀ population : list Agent.t,
     Forall (λ a, AgentGenome.agent_type (Agent.genome a) = AgentType.CUSTOMER →
                  0 <= Agent.current_opinion a <= 1
                  ∧ 0 < AgentGenome.influence_score (Agent.genome a)) population →
     let customers :=
       filter (λ a, AgentGenome.agent_type (Agent.genome a) = AgentType.CUSTOMER)
         population in
     let weighted :=
       ArenaHealthMetrics.sumQ
         ((λ a, Agent.current_opinion a * AgentGenome.influence_score (Agent.genome a))
            <$> customers) in
     let weight :=
       ArenaHealthMetrics.sumQ
         ((λ a, AgentGenome.influence_score (Agent.genome a)) <$> customers) in
     let score := AdvancedSimulator._calculate_adoption_score population in
     (customers = [] → score = 0)
     ∧ (customers ≠ [] → 0 < weight ∧ score = (weighted / weight) * 100)
     ∧ 0 <= score <= 100)
  ∧ (∀ (topology : NetworkTopology.t) (llm : Backend) (brief : Brief.t)
       (config : gmap string Z) (n : Z) (mc : option Dict) (s : Random.Rng),
       answers llm →
       yields (AdvancedSimulator.run_to_metrics (AdvancedSimulator.init topology)
                 llm brief config n mc) s
         (λ '(_, report),
            Forall (λ a, 0 <= Agent.current_opinion a <= 1
                         ∧ 0 < AgentGenome.influence_score (Agent.genome a))
              (Report.final_agents report)
            ∧ Report.adoption_score report
              = AdvancedSimulator._calculate_adoption_score (Report.final_agents report)
            ∧ 0 <= Report.adoption_score report <= 100)).
Proof.
  split; [apply adoption_score_spec |].
  intros * Hllm. apply yields_run; [by apply run_to_metrics_returns |].
  intros [self' report] s' Hrun.
  destruct (run_to_metrics_adoption_score _ _ _ _ _ _ _ _ _ _ Hrun) as [Heq Hrange].
  apply run_to_metrics_final_agents in Hrun.
  split; [ | by split].
  eapply Forall_impl; [exact Hrun |]. intros a [Hop [Hlo _]]. split; [done | lra].
Qed.

(** C4 on the three-agent scenario: [ann] is the only customer, with
    opinion 0.9, so the score is 90; and on a run of two rounds of the
    25/25/25/25 population. *)
Lemma adoption_score_weighted_mean_witness :
  let customers :=
    filter (λ a, AgentGenome.agent_type (Agent.genome a) = AgentType.CUSTOMER)
      Scenario.trio in
  let weighted :=
    ArenaHealthMetrics.sumQ
      ((λ a, Agent.current_opinion a * AgentGenome.influence_score (Agent.genome a))
         <$> customers) in
  let weight :=
    ArenaHealthMetrics.sumQ
      ((λ a, AgentGenome.influence_score (Agent.genome a)) <$> customers) in
  let score := AdvancedSimulator._calculate_adoption_score Scenario.trio in
  customers = [Scenario.ann]
  ∧ score == 90
  ∧ ((customers = [] → score = 0)
     ∧ (customers ≠ [] → 0 < weight ∧ score = (weighted / weight) * 100)
     ∧ 0 <= score <= 100)
  ∧ answers (Scenario.fixed_backend 0.1 0.25 7)
  ∧ yields (AdvancedSimulator.run_to_metrics
              (AdvancedSimulator.init NetworkTopology.REAL_FOLLOWER)
              (Scenario.fixed_backend 0.1 0.25 7) Scenario.brief Configs.quarters
              2 None) []
      (λ '(_, report),
         Forall (λ a, 0 <= Agent.current_opinion a <= 1
                      ∧ 0 < AgentGenome.influence_score (Agent.genome a))
           (Report.final_agents report)
         ∧ Report.adoption_score report
           = AdvancedSimulator._calculate_adoption_score (Report.final_agents report)
         ∧ 0 <= Report.adoption_score report <= 100).
Proof.
  intros customers weighted weight score.
  destruct adoption_score_weighted_mean as [Hscore Hrun].
  assert (answers (Scenario.fixed_backend 0.1 0.25 7)) as Hllm.
  { intros feature context mc s. eexists _, s. split; [reflexivity | exact I]. }
  split; [reflexivity |]. split; [reflexivity |].
  split; [ | split; [exact Hllm | exact (Hrun _ _ _ _ _ _ _ Hllm)]].
  apply (Hscore Scenario.trio).
  repeat (apply Forall_cons; split;
          [intros _; simpl; split; [split |]; lra |]).
  constructor.
Defined.


(** * AgentGenome.to_dict and from_dict *)

Lemma AgentType_of_value_value ty : AgentType_of_value (AgentType.value ty) = Some ty.
Proof. by destruct ty. Qed.

Lemma AgentType_of_value_Some s ty :
  AgentType_of_value s = Some ty → s = AgentType.value ty.
Proof.
  unfold AgentType_of_value. repeat case_decide; intros [= <-]; by subst.
Qed.

Lemma PersonalityTrait_of_value_value tr :
  PersonalityTrait_of_value (PersonalityTrait.value tr) = Some tr.
Proof. by destruct tr. Qed.

Lemma PersonalityTrait_of_value_Some s tr :
  PersonalityTrait_of_value s = Some tr → s = PersonalityTrait.value tr.
Proof.
  unfold PersonalityTrait_of_value. repeat case_decide; intros [= <-]; by subst.
Qed.

Lemma traits_of_values_values trs :
  GenomeCodec.traits_of_values (PersonalityTrait.value <$> trs) = inr trs.
Proof.
  induction trs as [|tr trs IH]; [done |].
  rewrite fmap_cons. cbn [GenomeCodec.traits_of_values].
  by rewrite PersonalityTrait_of_value_value, IH.
Qed.

Lemma traits_of_values_inr l trs :
  GenomeCodec.traits_of_values l = inr trs → l = PersonalityTrait.value <$> trs.
Proof.
  revert trs. induction l as [|v l IH]; intros trs; cbn [GenomeCodec.traits_of_values].
  - by intros [= <-].
  - destruct (PersonalityTrait_of_value v) as [tr|] eqn:Hv; [ | done].
    destruct (GenomeCodec.traits_of_values l) as [e|trs']; [done |].
    intros [= <-]. rewrite fmap_cons.
    by rewrite (PersonalityTrait_of_value_Some _ _ Hv), (IH trs').
Qed.

Lemma traits_of_values_inl l e :
  GenomeCodec.traits_of_values l = inl e →
  ∃ v, e = ValueError v ∧ v ∈ l ∧ PersonalityTrait_of_value v = None.
Proof.
  induction l as [|v l IH]; cbn [GenomeCodec.traits_of_values]; [done |].
  destruct (PersonalityTrait_of_value v) as [tr|] eqn:Hv.
  - destruct (GenomeCodec.traits_of_values l) as [e'|trs']; [ | done].
    intros [= <-]. destruct IH as (w & -> & Hw & Hnone); [done |].
    exists w. split; [done |]. split; [by right | done].
  - intros [= <-]. exists v. split; [done |]. split; [by left | done].
Qed.

(** X1.  [from_dict] undoes [to_dict]: the dictionary of a genome is
    read back as the same genome; and a dictionary that [from_dict]
    accepts is written back by [to_dict] with every absent key filled
    in with its default. *)
Theorem genome_dict_round_trip :
  (∀ g : AgentGenome.t,
     GenomeCodec.from_dict (GenomeData.of_dict (AgentGenome.to_dict g)) = inr g)
  ∧ (∀ (data : GenomeData.t) (g : AgentGenome.t),
       GenomeCodec.from_dict data = inr g →
       GenomeData.of_dict (AgentGenome.to_dict g)
       = GenomeData.completed data (AgentType.value (AgentGenome.agent_type g))
       ∧ GenomeData.agent_type data = Some (AgentType.value (AgentGenome.agent_type g))).
Proof.
  split.
  - intros [ty dem psy beh inf tok trs]. unfold GenomeCodec.from_dict. simpl.
    by rewrite AgentType_of_value_value, traits_of_values_values.
  - intros [ty dem psy beh inf tok trs] g. unfold GenomeCodec.from_dict. simpl.
    destruct ty as [v|]; [ | done].
    destruct (AgentType_of_value v) as [ty|] eqn:Hty; [ | done].
    destruct (GenomeCodec.traits_of_values (default [] trs)) as [e|traits] eqn:Htr;
      [done |].
    intros [= <-]. apply AgentType_of_value_Some in Hty as ->.
    apply traits_of_values_inr in Htr.
    unfold GenomeData.of_dict, GenomeData.completed, AgentGenome.to_dict. simpl.
    by rewrite Htr.
Qed.

(** X1 on the genome of a customer with two traits, and on a
    dictionary that names the role only. *)
Lemma genome_dict_round_trip_witness :
  let g := AgentGenome.init AgentType.CUSTOMER (Some {[ "age" := VInt 30 ]}) None
             (Some [PersonalityTrait.SKEPTIC; PersonalityTrait.LAGGARD])
             (Some (3 # 10)) (Some 80%Z) in
  GenomeCodec.from_dict (GenomeData.of_dict (AgentGenome.to_dict g)) = inr g
  ∧ GenomeCodec.from_dict (GenomeData.only "influencer")
    = inr (AgentGenome.init AgentType.INFLUENCER None None None None None)
  ∧ GenomeData.of_dict
      (AgentGenome.to_dict (AgentGenome.init AgentType.INFLUENCER None None None None None))
    = GenomeData.completed (GenomeData.only "influencer") "influencer"
  ∧ GenomeData.agent_type (GenomeData.only "influencer") = Some "influencer".
Proof.
  intros g. destruct genome_dict_round_trip as [Hback Hforth].
  split; [apply Hback |]. split; [reflexivity |].
  exact (Hforth (GenomeData.only "influencer")
           (AgentGenome.init AgentType.INFLUENCER None None None None None) eq_refl).
Defined.

(** X2.  What [from_dict] raises and what it defaults: a dictionary
    without [agent_type] raises [KeyError]; an [agent_type] that names
    no role raises [ValueError] with that value; a trait value that
    names no trait raises [ValueError]; nothing else raises; and a
    dictionary with [agent_type] only gives the genome that the
    constructor builds from the role alone. *)
Theorem from_dict_errors_and_defaults :
  (∀ data, GenomeData.agent_type data = None →
     GenomeCodec.from_dict data = inl (KeyError "agent_type"))
  ∧ (∀ data v,
       GenomeData.agent_type data = Some v →
       v ∉ AgentType.value <$> [AgentType.CUSTOMER; AgentType.COMPETITOR;
                                AgentType.INFLUENCER; AgentType.INTERNAL_TEAM] →
       GenomeCodec.from_dict data = inl (ValueError v))
  ∧ (∀ data e,
       GenomeCodec.from_dict data = inl e →
       (GenomeData.agent_type data = None ∧ e = KeyError "agent_type")
       ∨ (∃ v, GenomeData.agent_type data = Some v ∧ AgentType_of_value v = None
               ∧ e = ValueError v)
       ∨ ∃ v, e = ValueError v
              ∧ v ∈ default [] (GenomeData.personality_traits data)
              ∧ v ∉ PersonalityTrait.value <$> PersonalityTrait.all)
  ∧ (∀ ty, GenomeCodec.from_dict (GenomeData.only (AgentType.value ty))
           = inr (AgentGenome.init ty None None None None None)).
Proof.
  split; [ | split; [ | split]].
  - intros data Hty. unfold GenomeCodec.from_dict. by rewrite Hty.
  - intros data v Hty Hv. unfold GenomeCodec.from_dict. rewrite Hty.
    destruct (AgentType_of_value v) as [ty|] eqn:Hof; [ | done].
    apply AgentType_of_value_Some in Hof as ->. exfalso. apply Hv.
    apply list_elem_of_fmap. exists ty. split; [done |]. destruct ty; set_solver.
  - intros data e. unfold GenomeCodec.from_dict.
    destruct (GenomeData.agent_type data) as [v|]; [ | intros [= <-]; by left].
    destruct (AgentType_of_value v) as [ty|] eqn:Hof;
      [ | intros [= <-]; right; left; by exists v].
    destruct (GenomeCodec.traits_of_values _) as [e'|traits] eqn:Htr; [ | done].
    intros [= <-]. right. right.
    apply traits_of_values_inl in Htr as (w & -> & Hw & Hnone).
    exists w. split; [done |]. split; [done |].
    intros Hin. apply list_elem_of_fmap in Hin as (tr & -> & _).
    by rewrite PersonalityTrait_of_value_value in Hnone.
  - intros ty. unfold GenomeCodec.from_dict, GenomeData.only. simpl.
    by rewrite AgentType_of_value_value.
Qed.

(** X2 evaluated: no role, an unknown role, an unknown trait. *)
Lemma from_dict_errors_and_defaults_witness :
  let no_role := GenomeData.mk None None None None None None (Some ["skeptic"]) in
  let bad_role := GenomeData.only "partner" in
  let bad_trait :=
    GenomeData.mk (Some "customer") None None None None None
      (Some ["skeptic"; "optimist"]) in
  GenomeCodec.from_dict no_role = inl (KeyError "agent_type")
  ∧ GenomeCodec.from_dict bad_role = inl (ValueError "partner")
  ∧ GenomeCodec.from_dict bad_trait = inl (ValueError "optimist")
  ∧ (∃ v, ValueError "optimist" = ValueError v
          ∧ v ∈ default [] (GenomeData.personality_traits bad_trait)
          ∧ v ∉ PersonalityTrait.value <$> PersonalityTrait.all).
Proof.
  intros no_role bad_role bad_trait.
  destruct from_dict_errors_and_defaults as (Hkey & Hrole & Herr & _).
  split; [exact (Hkey no_role eq_refl) |].
  split.
  { apply (Hrole bad_role "partner"); [reflexivity |].
    apply (bool_decide_unpack _). vm_compute. exact I. }
  split; [reflexivity |].
  destruct (Herr bad_trait (ValueError "optimist") eq_refl)
    as [[H _] | [(v & H & _ & Hv) | H]]; [discriminate H | | exact H].
  injection Hv as <-. discriminate H.
Defined.


(** * Counting the features an agent has processed

    A property of single agents indexed by the number of features
    processed so far: [process_feature] moves it from [k] to [k + 1],
    an opinion update keeps it.  A run of [n] rounds over [f] features
    moves every agent from [0] to [n * f]. *)

Lemma for_each_counting {A S} (Inv : nat → S → Prop) (body : S → A → Random.M S) l :
  (∀ k acc x s acc' s', Inv k acc → body acc x s = Some (acc', s') → Inv (Datatypes.S k) acc') →
  ∀ k acc s acc' s',
    Inv k acc → Random.for_each l body acc s = Some (acc', s') →
    Inv (k + length l)%nat acc'.
Proof.
  intros Hbody. induction l as [|x l IH]; intros k acc s acc' s' Hk Hrun.
  - apply ret_Some in Hrun. inversion Hrun; subst. by rewrite Nat.add_0_r.
  - rewrite for_each_cons in Hrun. apply bind_Some in Hrun as (acc1 & s1 & H1 & H2).
    simpl. replace (k + Datatypes.S (length l))%nat with (Datatypes.S k + length l)%nat by lia.
    eapply IH; [ | exact H2]. by eapply Hbody.
Qed.

Section Counting.
Variable P : nat → Agent.t → Prop.
Variable llm : Backend.
Hypothesis P_set_opinion : ∀ k a q, P k a → P k (Agent.set_opinion a q).
Hypothesis P_process_feature :
  ∀ k self feature mc s a r s',
    P k self → Agent.process_feature llm self feature mc s = Some (a, r, s') →
    P (S k) a.

Lemma gather_counts k feature mc population s population' results s' :
  Forall (P k) population →
  AdvancedSimulator.gather llm feature mc population s
  = Some ((population', results), s') →
  Forall (P (S k)) population'.
Proof using P_process_feature.
  unfold AdvancedSimulator.gather. intros Hall H.
  apply bind_Some in H as (rs & s1 & Hrs & H).
  apply ret_Some in H. injection H as -> -> ->.
  apply map_m_Some in Hrs. apply Forall_fmap. clear s1.
  induction Hrs as [|a [a' r] l rs (t & t' & Hpf) _ IH]; [constructor |].
  apply Forall_cons in Hall as [Ha Hall].
  constructor; [ | by apply IH]. simpl. by eapply P_process_feature.
Qed.

Lemma run_feature_counts k self mc st feature s st' s' :
  Forall (P k) st.1 →
  AdvancedSimulator.run_feature self llm mc st feature s = Some (st', s') →
  Forall (P (S k)) st'.1.
Proof using P_set_opinion P_process_feature.
  destruct st as [population ints]. unfold AdvancedSimulator.run_feature.
  simpl. intros Hall H.
  apply bind_Some in H as ([pop1 rs] & s1 & Hg & H).
  apply bind_Some in H as (pr & s2 & Hloop & H).
  apply ret_Some in H. injection H as -> ->. simpl in *.
  eapply gather_counts in Hg; [ | exact Hall].
  eapply (for_each_invariant (λ st, Forall (P (S k)) st.1)) in Hloop;
    [exact Hloop | | exact Hg].
  intros st x t st1 t' _ Hp Hstep.
  eapply (propagate_preserves (P (S k))); [apply P_set_opinion | exact Hp | exact Hstep].
Qed.

Lemma run_single_round_counts k self brief population n mc s rr population' s' :
  Forall (P k) population →
  AdvancedSimulator._run_single_round self llm brief population n mc s
  = Some ((rr, population'), s') →
  Forall (P (k + length (default [] (Brief.features brief)))) population'.
Proof using P_set_opinion P_process_feature.
  unfold AdvancedSimulator._run_single_round. intros Hall H.
  apply bind_Some in H as (st & s1 & Hloop & H).
  destruct (decide (length st.1 = 0%nat)); [by apply raise_Some in H |].
  apply ret_Some in H. injection H as -> -> ->.
  eapply (for_each_counting (λ j st, Forall (P j) st.1)) in Hloop;
    [exact Hloop | | exact Hall].
  intros j st0 f t st1 t' Hj Hstep. by eapply run_feature_counts.
Qed.

Lemma run_rounds_counts self brief n mc population s self' population' s' :
  Forall (P 0) population →
  AdvancedSimulator.run_rounds self llm brief n mc population s
  = Some ((self', population'), s') →
  Forall (P (Z.to_nat n * length (default [] (Brief.features brief)))) population'.
Proof using P_set_opinion P_process_feature.
  unfold AdvancedSimulator.run_rounds. intros Hall Hloop.
  set (f := length (default [] (Brief.features brief))).
  eapply (for_each_counting
            (λ j (st : AdvancedSimulator.t * list Agent.t), Forall (P (j * f)) st.2)
            _ _ _ 0%nat (self, population)) in Hloop.
  - rewrite length_seq in Hloop. exact Hloop.
  - exact Hall.
  Unshelve.
  intros j [sim p] r t [sim1 p1] t' Hj Hstep. simpl in *.
  apply bind_Some in Hstep as ([rr p2] & s2 & Hround & Hstep).
  apply ret_Some in Hstep. injection Hstep as -> -> ->. simpl.
  replace (f + j * f)%nat with (j * f + f)%nat by lia.
  by eapply run_single_round_counts.
Qed.
End Counting.

(** ** The memory of an agent *)

Lemma absorb_memory self analysis :
  let memory := Agent.memory self ++ [FeatureAnalysis.reasoning analysis] in
  Agent.memory (Agent.absorb self analysis)
  = if decide (10 < length memory)%nat then drop 1 memory else memory.
Proof. reflexivity. Qed.

Lemma absorb_memory_length self analysis k :
  length (Agent.memory self) = Nat.min 10 k →
  length (Agent.memory (Agent.absorb self analysis)) = Nat.min 10 (S k).
Proof.
  intros Hlen. rewrite absorb_memory. cbv zeta.
  case_decide as Hgt; rewrite ?length_drop, length_app in *; cbn [length] in *; lia.
Qed.




(** ** The attention budget runs out *)

Lemma attention_spend_floor feature context score ty :
  AgentRole.value (AgentContext.role context) = AgentType.value ty →
  (0 ≤ AgentContext.attention_tokens context)%Z →
  (Z.min (least_spend ty) (AgentContext.attention_tokens context)
   ≤ EnhancedMockAI._calculate_attention_spend feature context score
   ≤ AgentContext.attention_tokens context)%Z.
Proof.
  intros Hrole Ht. unfold EnhancedMockAI._calculate_attention_spend. rewrite Hrole.
  destruct ty; simpl;
    repeat match goal with
           | |- context [if ?b then _ else _] => destruct b
           end; lia.
Qed.

Lemma mock_process_feature_spends self feature mc s a r s' :
  (0 ≤ tokens self)%Z →
  Agent.process_feature EnhancedMockAI.analyze_without_persona self feature mc s
  = Some (a, r, s') →
  AgentGenome.agent_type (Agent.genome a) = AgentGenome.agent_type (Agent.genome self)
  ∧ (0 ≤ tokens a)%Z
  ∧ (tokens a
     ≤ tokens self
       - Z.min (least_spend (AgentGenome.agent_type (Agent.genome self))) (tokens self))%Z.
Proof.
  intros Ht H.
  apply process_feature_inv in H
    as (context & analysis & Hllm & Htok & _ & Hrole & -> & _).
  pose proof (yields_inv _ _ _ _ _ (mock_analyze_feature_yields _ _ _ _) Hllm)
    as [Hspent _].
  pose proof (attention_spend_floor feature context
                (FeatureAnalysis.opinion_shift analysis) _ Hrole) as Hb.
  rewrite Htok in Hb. specialize (Hb Ht).
  unfold tokens, Agent.absorb in *. simpl. rewrite Hspent. split; [done | lia].
Qed.




(** * The agents the factory builds *)

Lemma Agent_init_shape genome name s :
  yields (Agent.init genome name) s
    (λ a, Agent.genome a = genome
          ∧ Agent.memory a = []
          ∧ Agent.relationships a = ∅
          ∧ Agent.current_opinion a = 0.5
          ∧ match name with
            | Some n =>
                if decide (n = "")
                then drawn_name (AgentGenome.agent_type genome) (Agent.name a)
                else Agent.name a = n
            | None => drawn_name (AgentGenome.agent_type genome) (Agent.name a)
            end).
Proof.
  unfold Agent.init.
  eapply yields_bind with
    (Q := λ n', match name with
                | Some n =>
                    if decide (n = "")
                    then drawn_name (AgentGenome.agent_type genome) n'
                    else n' = n
                | None => drawn_name (AgentGenome.agent_type genome) n'
                end).
  - destruct name as [n|]; [destruct (decide (n = "")) |].
    + yields_step. apply yields_ret. by eexists.
    + by apply yields_ret.
    + yields_step. apply yields_ret. by eexists.
  - intros n s' Hn. by apply yields_ret.
Qed.

Lemma sample_NoDup {A} (population : list A) (k : Z) s :
  NoDup population →
  (0 ≤ k ≤ Z.of_nat (length population))%Z →
  yields (Random.sample population k) s
    (λ l, Z.of_nat (length l) = k ∧ NoDup l ∧ l ⊆ population).
Proof.
  intros Hnd Hk. eapply yields_mono; [by apply sample_yields |].
  intros l [Hlen Hsub]. split; [done |]. split.
  - apply submseteq_sublist_r in Hsub as (l' & Hperm & Hsl).
    rewrite Hperm. by eapply sublist_NoDup.
  - intros x Hx. by eapply elem_of_submseteq.
Qed.

Lemma PersonalityTrait_all_NoDup : NoDup PersonalityTrait.all.
Proof. unfold PersonalityTrait.all. repeat constructor; set_solver. Qed.

(** X5.  The customer the factory builds: a customer genome with 100
    attention tokens; an age in [[18, 65]] and three categorical
    demographics; four psychographic scores in their ranges; between
    one and three personality traits, pairwise distinct; an influence
    score in [[0.1, 0.6]]; a neutral opinion and an empty memory; and a
    drawn name [customer_k] with a four-digit [k]. *)
Theorem customer_agent_profile (s : Random.Rng) :
  yields AgentFactory.create_customer_agent s
    (λ a,
       let g := Agent.genome a in
       AgentGenome.agent_type g = AgentType.CUSTOMER
       ∧ AgentGenome.attention_tokens g = 100%Z
       ∧ (∃ age income location education,
            AgentGenome.demographics g
            = <["education" := VStr education]> (<["location" := VStr location]>
              (<["income_level" := VStr income]> (<["age" := VInt age]> ∅)))
            ∧ (18 ≤ age ≤ 65)%Z
            ∧ income ∈ ["low"; "middle"; "high"]
            ∧ location ∈ ["urban"; "suburban"; "rural"]
            ∧ education ∈ ["high_school"; "college"; "graduate"])
       ∧ (∃ tech price loyalty social,
            AgentGenome.psychographics g
            = <["social_influence" := VFloat social]>
              (<["brand_loyalty" := VFloat loyalty]>
              (<["price_sensitivity" := VFloat price]>
              (<["tech_savviness" := VFloat tech]> ∅)))
            ∧ 0.2 <= tech <= 1 ∧ 0.3 <= price <= 0.9
            ∧ 0.1 <= loyalty <= 0.8 ∧ 0.1 <= social <= 0.7)
       ∧ (1 ≤ length (AgentGenome.personality_traits g) ≤ 3)%nat
       ∧ NoDup (AgentGenome.personality_traits g)
       ∧ 0.1 <= AgentGenome.influence_score g <= 0.6
       ∧ Agent.current_opinion a = 0.5
       ∧ Agent.memory a = []
       ∧ drawn_name AgentType.CUSTOMER (Agent.name a)).
Proof.
  unfold AgentFactory.create_customer_agent.
  yields_step. rename x into age, Hpost into Hage.
  yields_step. rename x into income, Hpost into Hincome.
  yields_step. rename x into location, Hpost into Hlocation.
  yields_step. rename x into education, Hpost into Heducation.
  yields_step. rename x into tech, Hpost into Htech.
  yields_step. rename x into price, Hpost into Hprice.
  yields_step. rename x into loyalty, Hpost into Hloyalty.
  yields_step. rename x into social, Hpost into Hsocial.
  yields_step. rename x into n, Hpost into Hn.
  eapply yields_bind.
  { apply sample_NoDup; [apply PersonalityTrait_all_NoDup | simpl; lia]. }
  intros traits t (Hlen & Hnd & _).
  yields_step. rename x into influence, Hpost into Hinfluence.
  eapply yields_mono; [apply Agent_init_shape |].
  intros a (-> & Hmem & _ & Hop & Hname). cbv zeta. simpl.
  split; [done |]. split; [done |].
  split; [by exists age, income, location, education |].
  split; [by exists tech, price, loyalty, social |].
  split; [lia |]. split; [done |]. split; [simpl; lra |]. by repeat split.
Qed.

(** ** The names in a population *)

Lemma create_agent_population_forall (P : Agent.t → Prop) config s :
  (∀ t, yields AgentFactory.create_customer_agent t P) →
  (∀ t, yields AgentFactory.create_competitor_agent t P) →
  (∀ t, yields AgentFactory.create_influencer_agent t P) →
  (∀ role t, role ∈ AdvancedSimulator.internal_roles →
     yields (AgentFactory.create_internal_team_agent role) t P) →
  yields (AdvancedSimulator.create_agent_population config) s (Forall P).
Proof.
  intros Hc Hk Hi Hn. unfold AdvancedSimulator.create_agent_population.
  eapply yields_bind; [apply (append_agents_yields P); intros _; apply Hc |].
  intros ? s1 (customers & -> & _ & Hcs).
  eapply yields_bind; [apply (append_agents_yields P); intros _; apply Hk |].
  intros ? s2 (competitors & -> & _ & Hks).
  eapply yields_bind; [apply (append_agents_yields P); intros _; apply Hi |].
  intros ? s3 (influencers & -> & _ & His).
  eapply yields_mono.
  - apply (append_agents_yields P).
    intros j t.
    assert (j mod 3 < 3)%nat as Hj by (apply Nat.mod_upper_bound; lia).
    destruct (lookup_lt_is_Some_2 AdvancedSimulator.internal_roles (j mod 3) Hj)
      as [role Hrole].
    eapply yields_bind;
      [eapply yields_lift with (P := λ r, r = role); [exact Hrole | reflexivity] |].
    intros ? ? ->. apply Hn. by eapply list_elem_of_lookup_2.
  - intros ? (internal & -> & _ & Hns). simpl. by rewrite !Forall_app.
Qed.

Lemma create_customer_agent_named s :
  yields AgentFactory.create_customer_agent s named_by_factory.
Proof.
  unfold AgentFactory.create_customer_agent. do 9 yields_step.
  eapply yields_bind; [apply sample_yields; simpl; lia |]. intros traits t _.
  yields_step.
  eapply yields_mono; [apply Agent_init_shape |].
  intros a (Hg & _ & _ & _ & Hname). unfold named_by_factory. by rewrite Hg.
Qed.

Lemma create_competitor_agent_named s :
  yields AgentFactory.create_competitor_agent s named_by_factory.
Proof.
  unfold AgentFactory.create_competitor_agent. do 4 yields_step.
  eapply yields_mono; [apply Agent_init_shape |].
  intros a (Hg & _ & _ & _ & Hname). unfold named_by_factory. by rewrite Hg.
Qed.

Lemma create_influencer_agent_named s :
  yields AgentFactory.create_influencer_agent s named_by_factory.
Proof.
  unfold AgentFactory.create_influencer_agent. do 4 yields_step.
  eapply yields_mono; [apply Agent_init_shape |].
  intros a (Hg & _ & _ & _ & Hname). unfold named_by_factory. by rewrite Hg.
Qed.

Lemma create_internal_team_agent_named role s :
  role ∈ AdvancedSimulator.internal_roles →
  yields (AgentFactory.create_internal_team_agent role) s named_by_factory.
Proof.
  intros Hrole. unfold AgentFactory.create_internal_team_agent. do 5 yields_step.
  eapply yields_mono; [apply Agent_init_shape |].
  intros a (Hg & _ & _ & _ & Hname). unfold named_by_factory. rewrite Hg. simpl.
  exists role, x3. split; [done |]. split; [by rewrite lookup_singleton_eq |].
  split; [done |].
  rewrite decide_False in Hname; [done |].
  unfold AdvancedSimulator.internal_roles in Hrole.
  repeat (apply elem_of_cons in Hrole as [-> | Hrole]; [done |]).
  by apply elem_of_nil in Hrole.
Qed.

Lemma names_same_role a b :
  named_by_factory a → named_by_factory b → Agent.name a = Agent.name b →
  AgentGenome.agent_type (Agent.genome a) = AgentGenome.agent_type (Agent.genome b).
Proof.
  unfold named_by_factory, drawn_name, AdvancedSimulator.internal_roles.
  destruct (AgentGenome.agent_type (Agent.genome a)),
           (AgentGenome.agent_type (Agent.genome b)); try done;
    intros Ha Hb Heq; exfalso; rewrite Heq in Ha;
    repeat match goal with
           | H : ∃ _, _ |- _ => destruct H as [? H]
           | H : _ ∧ _ |- _ => destruct H
           | H : _ ∈ _ :: _ |- _ => apply elem_of_cons in H as [-> | H]
           | H : _ ∈ [] |- _ => by apply elem_of_nil in H
           end;
    match goal with
    | H1 : ?n = _, H2 : ?n = _ |- _ => rewrite H1 in H2; cbn in H2; discriminate H2
    end.
Qed.

(** X6.  The names in a population.  A customer, competitor or
    influencer is named [<role>_<k>] with [k] in [[1000, 9999]]; an
    internal-team agent is named [PM_<k>], [SALES_<k>] or [CX_<k>] with
    [k] in [[100, 999]], after the role stored in its demographics.
    Names are drawn independently, so nothing makes them distinct, but
    two agents with the same name always have the same role. *)
Theorem population_names (config : gmap string Z) (s : Random.Rng) :
  yields (AdvancedSimulator.create_agent_population config) s
    (λ population,
       Forall named_by_factory population
       ∧ ∀ a b, a ∈ population → b ∈ population →
           Agent.name a = Agent.name b →
           AgentGenome.agent_type (Agent.genome a)
           = AgentGenome.agent_type (Agent.genome b)).
Proof.
  eapply yields_mono.
  - apply (create_agent_population_forall named_by_factory).
    + apply create_customer_agent_named.
    + apply create_competitor_agent_named.
    + apply create_influencer_agent_named.
    + intros role t. apply create_internal_team_agent_named.
  - intros population Hall. split; [exact Hall |].
    intros a b Ha Hb. apply names_same_role.
    + by apply (proj1 (Forall_forall _ _) Hall).
    + by apply (proj1 (Forall_forall _ _) Hall).
Qed.


(** * Two backends that agree on the agents of a run *)

Lemma for_each_agree {A S} (Inv : S → Prop) (body1 body2 : S → A → Random.M S) l :
  (∀ acc x s, Inv acc → body1 acc x s = body2 acc x s) →
  (∀ acc x s acc' s', Inv acc → body2 acc x s = Some (acc', s') → Inv acc') →
  ∀ acc s, Inv acc → Random.for_each l body1 acc s = Random.for_each l body2 acc s.
Proof.
  intros Hsame Hkeep. induction l as [|x l IH]; intros acc s Hacc; [done |].
  rewrite !for_each_cons. unfold Random.bind. rewrite (Hsame _ _ _ Hacc).
  destruct (body2 acc x s) as [[acc1 s1]|] eqn:Hstep; [ | done].
  apply IH. by eapply Hkeep.
Qed.

Section Agreement.
Variable P : Agent.t → Prop.
Variables f g : Backend.
Hypothesis agree :
  ∀ self feature mc s,
    P self → Agent.process_feature f self feature mc s
             = Agent.process_feature g self feature mc s.
Hypothesis P_set_opinion : ∀ a q, P a → P (Agent.set_opinion a q).
Hypothesis P_process_feature :
  ∀ self feature mc s a r s',
    P self → Agent.process_feature g self feature mc s = Some (a, r, s') → P a.

Lemma gather_agree feature mc population s :
  Forall P population →
  AdvancedSimulator.gather f feature mc population s
  = AdvancedSimulator.gather g feature mc population s.
Proof using agree.
  intros Hall. unfold AdvancedSimulator.gather, Random.bind.
  assert (Random.map_m (λ agent, Agent.process_feature f agent feature mc) population s
          = Random.map_m (λ agent, Agent.process_feature g agent feature mc) population s)
    as ->; [ | done].
  revert s. induction Hall as [|a l Ha _ IH]; intros s; [done |].
  simpl. unfold Random.bind. rewrite (agree _ _ _ _ Ha).
  destruct (Agent.process_feature g a feature mc s) as [[y s1]|]; [ | done].
  by rewrite IH.
Qed.

Lemma run_feature_agree self mc st feature s :
  Forall P st.1 →
  AdvancedSimulator.run_feature self f mc st feature s
  = AdvancedSimulator.run_feature self g mc st feature s.
Proof using agree.
  destruct st as [population ints]. intros Hall.
  unfold AdvancedSimulator.run_feature, Random.bind.
  by rewrite gather_agree.
Qed.

Lemma run_single_round_agree self brief population n mc s :
  Forall P population →
  AdvancedSimulator._run_single_round self f brief population n mc s
  = AdvancedSimulator._run_single_round self g brief population n mc s.
Proof using agree P_set_opinion P_process_feature.
  intros Hall. unfold AdvancedSimulator._run_single_round, Random.bind.
  rewrite (for_each_agree (λ st : list Agent.t * list Interaction, Forall P st.1)
             (AdvancedSimulator.run_feature self f mc)
             (AdvancedSimulator.run_feature self g mc)); [done | | | exact Hall].
  - intros st x t Hst. by apply run_feature_agree.
  - intros st x t st' t' Hst Hstep.
    by eapply (run_feature_preserves P g).
Qed.

Lemma run_rounds_agree self brief n mc population s :
  Forall P population →
  AdvancedSimulator.run_rounds self f brief n mc population s
  = AdvancedSimulator.run_rounds self g brief n mc population s.
Proof using agree P_set_opinion P_process_feature.
  intros Hall. unfold AdvancedSimulator.run_rounds.
  apply (for_each_agree (λ st : AdvancedSimulator.t * list Agent.t, Forall P st.2));
    [ | | exact Hall].
  - intros [sim p] r t Hp. simpl in Hp. unfold Random.bind.
    by rewrite run_single_round_agree.
  - intros [sim p] r t [sim' p'] t' Hp Hstep. simpl in *.
    apply bind_Some in Hstep as ([rr p2] & s2 & Hround & Hstep).
    apply ret_Some in Hstep. injection Hstep as -> -> ->. simpl.
    by eapply (run_single_round_preserves P g).
Qed.

Lemma run_to_metrics_agree self brief config n mc s :
  (∀ t, yields (AdvancedSimulator.create_agent_population config) t (Forall P)) →
  AdvancedSimulator.run_to_metrics self f brief config n mc s
  = AdvancedSimulator.run_to_metrics self g brief config n mc s.
Proof using agree P_set_opinion P_process_feature.
  intros Hpop. unfold AdvancedSimulator.run_to_metrics, Random.bind.
  destruct (Hpop s) as (population & s1 & -> & Hall).
  destruct (InfluenceGraph.add_agents _ population s1) as [[graph s2]|]; [ | done].
  by rewrite run_rounds_agree.
Qed.
End Agreement.

(** * The persona step of the fallback *)

Lemma number_numeric (d : Dict) key dflt :
  numeric_entry d key →
  is_Some (ArenaHealthMetrics.as_number dflt) →
  ∃ q, number (get_or d key dflt) = inr q.
Proof.
  intros Hd Hdflt. unfold number, get_or.
  destruct (d !! key) as [v|] eqn:Hv; simpl.
  - destruct (Hd v Hv) as [q ->]. by exists q.
  - destruct Hdflt as [q ->]. by exists q.
Qed.

Lemma persona_logic_numeric feature context market_context :
  numeric_profile (GenomeDict.demographics (AgentContext.genome context))
    (GenomeDict.psychographics (AgentContext.genome context)) →
  ∃ analysis,
    MockPersona._apply_persona_logic feature context market_context = inr analysis.
Proof.
  intros [Hage Hpsy].
  apply Forall_cons in Hpsy as [Htech Hpsy].
  apply Forall_cons in Hpsy as [Hprice Hpsy].
  apply Forall_cons in Hpsy as [Haggr Hpsy].
  apply Forall_cons in Hpsy as [Hinno Hpsy].
  apply Forall_cons in Hpsy as [Heng _].
  unfold MockPersona._apply_persona_logic.
  destruct (AgentContext.role context); simpl.
  - unfold MockPersona._analyze_customer_perspective.
    destruct (number_numeric _ _ (VInt 35) Hage) as [age ->]; [by eexists |].
    destruct (number_numeric _ _ (VFloat (5 # 10)) Htech) as [tech ->]; [by eexists |].
    destruct (number_numeric _ _ (VFloat (5 # 10)) Hprice) as [price ->]; [by eexists |].
    cbn [Result.bind]. destruct (_ || _); by eexists.
  - unfold MockPersona._analyze_competitor_perspective.
    destruct (number_numeric _ _ (VFloat (5 # 10)) Haggr) as [aggr ->]; [by eexists |].
    destruct (number_numeric _ _ (VFloat (5 # 10)) Hinno) as [inno ->]; [by eexists |].
    destruct (_ || _); by eexists.
  - unfold MockPersona._analyze_influencer_perspective.
    destruct (number_numeric _ _ (VFloat (5 # 10)) Heng) as [eng ->]; [by eexists |].
    destruct (fold_left _ _ _). by eexists.
  - by eexists.
Qed.

Ltac numeric_entry_tac :=
  let v := fresh "v" in
  let Hv := fresh "Hv" in
  intros v Hv;
  repeat (apply lookup_insert_Some in Hv as [[? <-] | [? Hv]];
          [first [done | by eexists] | ]);
  by rewrite lookup_empty in Hv.

Lemma numeric_profile_intro (demographics psychographics : Dict) :
  numeric_entry demographics "age" →
  numeric_entry psychographics "tech_savviness" →
  numeric_entry psychographics "price_sensitivity" →
  numeric_entry psychographics "aggressiveness" →
  numeric_entry psychographics "innovation_focus" →
  numeric_entry psychographics "engagement_rate" →
  numeric_profile demographics psychographics.
Proof. intros. split; [done |]. by repeat constructor. Qed.

Lemma create_customer_agent_numeric s :
  yields AgentFactory.create_customer_agent s numeric_genome.
Proof.
  unfold AgentFactory.create_customer_agent. do 9 yields_step.
  eapply yields_bind; [apply sample_yields; simpl; lia |]. intros traits t _.
  yields_step.
  eapply yields_mono; [apply Agent_init_shape |].
  intros a (Hg & _). unfold numeric_genome. rewrite Hg. simpl.
  apply numeric_profile_intro; numeric_entry_tac.
Qed.

Lemma create_competitor_agent_numeric s :
  yields AgentFactory.create_competitor_agent s numeric_genome.
Proof.
  unfold AgentFactory.create_competitor_agent. do 4 yields_step.
  eapply yields_mono; [apply Agent_init_shape |].
  intros a (Hg & _). unfold numeric_genome. rewrite Hg. simpl.
  apply numeric_profile_intro; numeric_entry_tac.
Qed.

Lemma create_influencer_agent_numeric s :
  yields AgentFactory.create_influencer_agent s numeric_genome.
Proof.
  unfold AgentFactory.create_influencer_agent. do 4 yields_step.
  eapply yields_mono; [apply Agent_init_shape |].
  intros a (Hg & _). unfold numeric_genome. rewrite Hg. simpl.
  apply numeric_profile_intro; numeric_entry_tac.
Qed.

Lemma create_internal_team_agent_numeric role s :
  yields (AgentFactory.create_internal_team_agent role) s numeric_genome.
Proof.
  unfold AgentFactory.create_internal_team_agent. do 5 yields_step.
  eapply yields_mono; [apply Agent_init_shape |].
  intros a (Hg & _). unfold numeric_genome. rewrite Hg. simpl.
  apply numeric_profile_intro; try numeric_entry_tac.
  intros v Hv. apply lookup_singleton_Some in Hv as [? _]. done.
Qed.

Lemma numeric_population config s :
  yields (AdvancedSimulator.create_agent_population config) s (Forall numeric_genome).
Proof.
  apply create_agent_population_forall.
  - apply create_customer_agent_numeric.
  - apply create_competitor_agent_numeric.
  - apply create_influencer_agent_numeric.
  - intros role t _. apply create_internal_team_agent_numeric.
Qed.

Lemma process_feature_numeric llm self feature mc s a r s' :
  numeric_genome self →
  Agent.process_feature llm self feature mc s = Some (a, r, s') →
  numeric_genome a.
Proof.
  intros Hself H.
  by apply process_feature_inv in H as (? & ? & _ & _ & _ & _ & -> & _).
Qed.

Lemma mock_characteristics_yields feature context s :
  yields (EnhancedMockAI._analyze_feature_characteristics feature context) s (λ _, True).
Proof.
  unfold EnhancedMockAI._analyze_feature_characteristics.
  yields_step. by apply yields_ret.
Qed.

Lemma persona_process_feature self feature mc s :
  numeric_genome self →
  Agent.process_feature MockPersona.analyze_feature self feature mc s
  = Agent.process_feature EnhancedMockAI.analyze_without_persona self feature mc s.
Proof.
  intros Hnum. unfold Agent.process_feature, Random.bind.
  destruct (Random.lift _ s) as [[role s1]|]; [ | done].
  unfold MockPersona.analyze_feature, EnhancedMockAI.analyze_without_persona, Random.bind.
  destruct (EnhancedMockAI._analyze_feature_characteristics _ _ s1)
    as [[score s2]|]; [ | done].
  edestruct persona_logic_numeric as [analysis ->]; [exact Hnum | done].
Qed.






(** * What every analysis of the fallback satisfies *)

Lemma clamp_bounds (lo hi x : Q) :
  lo <= hi → lo <= Py.max lo (Py.min hi x) <= hi.
Proof.
  intros Hlh. unfold Py.max, Py.min.
  destruct (x ?= hi) eqn:Hx;
    [apply Qeq_alt in Hx | apply Qlt_alt in Hx | apply Qgt_alt in Hx].
  - destruct (hi ?= lo) eqn:Hh;
      [apply Qeq_alt in Hh | apply Qlt_alt in Hh | apply Qgt_alt in Hh]; lra.
  - destruct (x ?= lo) eqn:Hl;
      [apply Qeq_alt in Hl | apply Qlt_alt in Hl | apply Qgt_alt in Hl]; lra.
  - destruct (hi ?= lo) eqn:Hh;
      [apply Qeq_alt in Hh | apply Qlt_alt in Hh | apply Qgt_alt in Hh]; lra.
Qed.

Lemma clamp_inside (lo hi x : Q) :
  lo <= x <= hi → Py.max lo (Py.min hi x) == x.
Proof.
  intros [Hl Hh]. unfold Py.max, Py.min.
  destruct (x ?= hi) eqn:Hx;
    [apply Qeq_alt in Hx | apply Qlt_alt in Hx | apply Qgt_alt in Hx]; try lra.
  - destruct (hi ?= lo) eqn:Hhl;
      [apply Qeq_alt in Hhl | apply Qlt_alt in Hhl | apply Qgt_alt in Hhl]; lra.
  - destruct (x ?= lo) eqn:Hxl;
      [apply Qeq_alt in Hxl | apply Qlt_alt in Hxl | apply Qgt_alt in Hxl]; lra.
Qed.

Lemma fold_keywords_none (hit : string → bool) (c : Q) (l : list string) (acc : Q) :
  Forall (λ kw, hit kw = false) l →
  fold_left (λ (acc : Q) kw, if hit kw then acc + c else acc) l acc = acc.
Proof.
  intros Hall. revert acc. induction Hall as [|kw l Hkw _ IH]; intros acc; [done |].
  simpl. by rewrite Hkw, IH.
Qed.

Lemma objections_suggestions_lengths feature context score :
  let os := EnhancedMockAI._generate_objections_suggestions feature context score in
  (1 ≤ length os.1 ≤ 3)%nat ∧ (1 ≤ length os.2 ≤ 3)%nat.
Proof.
  unfold EnhancedMockAI._generate_objections_suggestions.
  cbv zeta. cbn [fst snd]. rewrite !length_take. split.
  - match goal with
    | |- context [decide (length ?o = 0%nat)] => generalize o
    end.
    intros o. destruct (decide (length o = 0%nat));
      [rewrite length_app; cbn [length] |]; lia.
  - destruct (Qlt_le_dec score 0); cbn [length app decide]; simpl; lia.
Qed.

Lemma attention_spend_range feature context score :
  (Z.min 15 (AgentContext.attention_tokens context)
   ≤ EnhancedMockAI._calculate_attention_spend feature context score
   ≤ Z.min 38 (AgentContext.attention_tokens context))%Z.
Proof.
  unfold EnhancedMockAI._calculate_attention_spend.
  repeat match goal with
         | |- context [if ?b then _ else _] => destruct b
         end; lia.
Qed.





Lemma yields_ext {A} (m1 m2 : Random.M A) s (P : A → Prop) :
  m1 s = m2 s → yields m1 s P ↔ yields m2 s P.
Proof. intros H. unfold yields. by rewrite H. Qed.

(** * The integration object *)

Lemma persona_analyze_feature feature context market_context s :
  numeric_profile (GenomeDict.demographics (AgentContext.genome context))
    (GenomeDict.psychographics (AgentContext.genome context)) →
  MockPersona.analyze_feature feature context market_context s
  = EnhancedMockAI.analyze_without_persona feature context market_context s.
Proof.
  intros Hnum.
  unfold MockPersona.analyze_feature, EnhancedMockAI.analyze_without_persona, Random.bind.
  destruct (EnhancedMockAI._analyze_feature_characteristics _ _ s)
    as [[score s2]|]; [ | done].
  by destruct (persona_logic_numeric feature context market_context Hnum)
    as [analysis ->].
Qed.

Lemma without_persona_step_answers (self : LLMIntegration.t) :
  answers (LLMIntegration.without_persona_step self).
Proof.
  intros feature context mc s. unfold LLMIntegration.without_persona_step.
  destruct (LLMIntegration.llm_available self); [ | apply mock_answers].
  unfold yields. cbv beta.
  destruct (LLMIntegration._get_llm_analysis self feature context mc s)
    as [[analysis|] s1]; [by apply yields_ret | apply mock_answers].
Qed.

Lemma integration_process_feature (integration : LLMIntegration.t) self feature mc s :
  numeric_genome self →
  Agent.process_feature (LLMIntegration.analyze_feature_as_agent integration)
    self feature mc s
  = Agent.process_feature (LLMIntegration.without_persona_step integration)
      self feature mc s.
Proof.
  intros Hnum. unfold Agent.process_feature, Random.bind.
  destruct (Random.lift _ s) as [[role s1]|]; [ | done].
  unfold LLMIntegration.analyze_feature_as_agent, LLMIntegration.without_persona_step.
  cbv beta.
  destruct (LLMIntegration.llm_available integration);
    [destruct (LLMIntegration._get_llm_analysis _ _ _ _ _) as [[analysis|] s2];
     [done |] | ];
    by rewrite persona_analyze_feature.
Qed.

Lemma integration_run (integration : LLMIntegration.t) self brief config n mc s :
  AdvancedSimulator.run_to_metrics self
    (LLMIntegration.analyze_feature_as_agent integration) brief config n mc s
  = AdvancedSimulator.run_to_metrics self
      (LLMIntegration.without_persona_step integration) brief config n mc s.
Proof.
  apply (run_to_metrics_agree numeric_genome).
  - intros. by apply integration_process_feature.
  - done.
  - intros *. apply process_feature_numeric.
  - intros t. apply numeric_population.
Qed.



(** * The insight generators *)

Lemma sumQ_bounds (lo hi : Q) (l : list Q) :
  Forall (λ q, lo <= q <= hi) l →
  ArenaHealthMetrics.lenQ l * lo <= ArenaHealthMetrics.sumQ l
  ∧ ArenaHealthMetrics.sumQ l <= ArenaHealthMetrics.lenQ l * hi.
Proof.
  unfold ArenaHealthMetrics.lenQ.
  induction 1 as [|x l [Hlo Hhi] _ [IHlo IHhi]].
  - unfold ArenaHealthMetrics.sumQ. cbn [length fold_left].
    change (inject_Z (Z.of_nat 0)) with 0. lra.
  - rewrite sumQ_cons. cbn [length]. rewrite Nat2Z.inj_succ, <- Z.add_1_r, inject_Z_plus.
    change (inject_Z 1) with 1. lra.
Qed.

Lemma lenQ_pos {A} (l : list A) : l ≠ [] → 0 < ArenaHealthMetrics.lenQ l.
Proof.
  intros Hl. unfold ArenaHealthMetrics.lenQ.
  destruct l as [|x l]; [done |]. cbn [length].
  change 0 with (inject_Z 0). rewrite <- Zlt_Qlt. lia.
Qed.

Lemma mean_bounds (lo hi : Q) (l : list Q) :
  l ≠ [] → Forall (λ q, lo <= q <= hi) l →
  lo <= ArenaHealthMetrics.sumQ l / ArenaHealthMetrics.lenQ l <= hi.
Proof.
  intros Hl Hall. pose proof (lenQ_pos l Hl) as Hn.
  destruct (sumQ_bounds lo hi l Hall) as [Hlo Hhi].
  split.
  - apply Qle_shift_div_l; [exact Hn | lra].
  - apply Qle_shift_div_r; [exact Hn | lra].
Qed.

Lemma result_fold_raised {A B} (step : A → B → Result A) (e : PyError) (l : list B) :
  foldl (λ acc x, a <~ acc;; step a x) (inl e) l = inl e.
Proof. induction l as [|x l IH]; [done | exact IH]. Qed.

Lemma sum_numbers_from (vs : list PyVal) (qs : list Q) (a : Q) :
  Forall2 (λ v q, ArenaHealthMetrics.as_number v = Some q) vs qs →
  ∃ t, foldl (λ acc v, t <~ acc;; x <~ number v;; inr (t + x)) (inr a) vs = inr t
       ∧ t == a + ArenaHealthMetrics.sumQ qs.
Proof.
  intros Hall. revert a.
  induction Hall as [|v q vs qs Hv _ IH]; intros a.
  - exists a. split; [done |]. unfold ArenaHealthMetrics.sumQ. simpl. lra.
  - cbn [foldl]. unfold Result.bind at 2 3. unfold number at 2. rewrite Hv.
    destruct (IH (a + q)) as (t & Ht & Heq).
    exists t. split; [exact Ht |]. rewrite sumQ_cons. lra.
Qed.

Lemma sum_numbers_raises (vs : list PyVal) (a : Q) :
  Exists (λ v, ArenaHealthMetrics.as_number v = None) vs →
  foldl (λ acc v, t <~ acc;; x <~ number v;; inr (t + x)) (inr a) vs = inl TypeError.
Proof.
  intros Hex. revert a.
  induction vs as [|v vs IH]; intros a; [by apply Exists_nil in Hex |].
  cbn [foldl]. unfold Result.bind at 2 3. unfold number at 2.
  destruct (ArenaHealthMetrics.as_number v) as [q|] eqn:Hv.
  - apply IH. apply Exists_cons in Hex as [Hex | Hex]; [congruence | exact Hex].
  - apply (result_fold_raised (λ t v, x <~ number v;; inr (t + x))).
Qed.

Lemma extend_items (acc : list string) (v : PyVal) :
  extend acc v = match items v with Some l => inr (acc ++ l) | None => inl TypeError end.
Proof. by destruct v. Qed.

Lemma gather_lists_from (analyses : list DynAnalysis.t)
    (objections suggestions : list (list string)) (o s : list string) :
  Forall2 (λ a l, items (DynAnalysis.objections a) = Some l) analyses objections →
  Forall2 (λ a l, items (DynAnalysis.suggestions a) = Some l) analyses suggestions →
  foldl gather_lists (inr (o, s)) analyses
  = inr (o ++ concat objections, s ++ concat suggestions).
Proof.
  intros Hobj. revert suggestions o s.
  induction Hobj as [|a l analyses objections Ha _ IH]; intros suggestions o s Hsug.
  - apply Forall2_nil_inv_l in Hsug as ->. simpl. by rewrite !app_nil_r.
  - apply Forall2_cons_inv_l in Hsug as (l' & suggestions' & Ha' & Hsug & ->).
    cbn [foldl]. unfold gather_lists at 2. cbn [Result.bind fst snd].
    rewrite !extend_items, Ha. cbn [Result.bind]. rewrite Ha'. cbn [Result.bind].
    rewrite (IH _ _ _ Hsug). simpl. by rewrite <- !app_assoc.
Qed.

Lemma gather_lists_raises (analyses : list DynAnalysis.t) (o s : list string) :
  Exists (λ a, items (DynAnalysis.objections a) = None
               ∨ items (DynAnalysis.suggestions a) = None) analyses →
  foldl gather_lists (inr (o, s)) analyses = inl TypeError.
Proof.
  intros Hex. revert o s.
  induction analyses as [|a analyses IH]; intros o s; [by apply Exists_nil in Hex |].
  cbn [foldl]. unfold gather_lists at 2. cbn [Result.bind fst snd].
  rewrite !extend_items.
  destruct (items (DynAnalysis.objections a)) as [l|] eqn:Ho; cbn [Result.bind];
    [ | apply (result_fold_raised (λ os analysis,
          gather_lists (inr os) analysis))].
  destruct (items (DynAnalysis.suggestions a)) as [l'|] eqn:Hs; cbn [Result.bind];
    [ | apply (result_fold_raised (λ os analysis,
          gather_lists (inr os) analysis))].
  apply IH. apply Exists_cons in Hex as [[Hex | Hex] | Hex]; [congruence.. | exact Hex].
Qed.

Lemma trio_shifts (analyses : list DynAnalysis.t) (shifts : list Q) :
  Forall2 (λ a q, shift_of a = Some q) analyses shifts →
  Forall2 (λ v q, ArenaHealthMetrics.as_number v = Some q)
    (DynAnalysis.opinion_shift <$> analyses) shifts.
Proof. induction 1; constructor; auto. Qed.

Lemma mock_market_insights (features : list Feature) (analyses : list DynAnalysis.t)
    (shifts : list Q) (objections suggestions : list (list string)) :
  analyses ≠ [] →
  Forall2 (λ a q, shift_of a = Some q) analyses shifts →
  Forall2 (λ a l, items (DynAnalysis.objections a) = Some l) analyses objections →
  Forall2 (λ a l, items (DynAnalysis.suggestions a) = Some l) analyses suggestions →
  ∃ insights t,
    MockInsights.generate_market_insights features analyses = inr insights
    ∧ t == ArenaHealthMetrics.sumQ shifts
    ∧ MarketInsights.adoption_score insights
      = Py.max 0 (Py.min 100 ((t / ArenaHealthMetrics.lenQ analyses + 1) * 50))
    ∧ MarketInsights.top_objections insights = take 5 (concat objections)
    ∧ MarketInsights.top_suggestions insights = take 5 (concat suggestions).
Proof.
  intros Hne Hshift Hobj Hsug. unfold MockInsights.generate_market_insights.
  destruct (decide (analyses = [])) as [-> | _]; [done |].
  destruct (sum_numbers_from _ _ 0 (trio_shifts _ _ Hshift)) as (t & Ht & Heq).
  unfold sum_numbers. rewrite Ht. cbn [Result.bind].
  rewrite (gather_lists_from _ _ _ [] [] Hobj Hsug). cbn [Result.bind app].
  eexists _, t. split; [reflexivity |]. split; [lra |]. by repeat split.
Qed.

Lemma remote_market_insights (self : LLMIntegration.t) (features : list Feature)
    (analyses : list DynAnalysis.t) (mc : Dict)
    (shifts : list Q) (objections suggestions : list (list string)) (text : string) :
  analyses ≠ [] →
  Forall2 (λ a q, shift_of a = Some q) analyses shifts →
  Forall2 (λ a l, items (DynAnalysis.objections a) = Some l) analyses objections →
  Forall2 (λ a l, items (DynAnalysis.suggestions a) = Some l) analyses suggestions →
  LLMIntegration.market_reply self features analyses mc = Some text →
  ∃ insights t,
    LLMIntegration._get_llm_market_insights self features analyses mc = Some insights
    ∧ t == ArenaHealthMetrics.sumQ shifts
    ∧ MarketInsights.adoption_score insights
      = Py.max 0 (Py.min 100 ((t / ArenaHealthMetrics.lenQ analyses + 1) * 50))
    ∧ MarketInsights.top_objections insights = take 5 (concat objections)
    ∧ MarketInsights.top_suggestions insights = take 5 (concat suggestions).
Proof.
  intros Hne Hshift Hobj Hsug Hreply. unfold LLMIntegration._get_llm_market_insights.
  destruct (sum_numbers_from _ _ 0 (trio_shifts _ _ Hshift)) as (t & Ht & Heq).
  unfold sum_numbers. rewrite Ht. cbn [Result.ok mbind option_bind].
  rewrite (gather_lists_from _ _ _ [] [] Hobj Hsug). cbn [Result.ok mbind option_bind app].
  rewrite Hreply. cbn [mbind option_bind].
  destruct (decide (analyses = [])) as [-> | _]; [done |].
  eexists _, t. split; [reflexivity |]. split; [lra |]. by repeat split.
Qed.

Lemma sum_numbers_error (vs : list PyVal) (e : PyError) :
  sum_numbers vs = inl e → e = TypeError.
Proof.
  unfold sum_numbers. generalize 0. induction vs as [|v vs IH]; intros a; [done |].
  cbn [foldl]. unfold Result.bind at 2 3. unfold number at 2.
  destruct (ArenaHealthMetrics.as_number v) as [q|]; [apply IH |].
  pose proof (result_fold_raised (λ t v, x <~ number v;; inr (t + x)) TypeError vs)
    as Hraised.
  intros Hsum.
  assert (@inl PyError Q TypeError = inl e) as Heq
    by (rewrite <- Hsum; symmetry; exact Hraised).
  congruence.
Qed.

Lemma ill_typed_raises (features : list Feature) (analyses : list DynAnalysis.t) :
  Exists ill_typed analyses →
  MockInsights.generate_market_insights features analyses = inl TypeError
  ∧ ∀ self mc, LLMIntegration._get_llm_market_insights self features analyses mc = None.
Proof.
  intros Hex. unfold MockInsights.generate_market_insights,
    LLMIntegration._get_llm_market_insights.
  destruct (decide (analyses = [])) as [-> | _]; [by apply Exists_nil in Hex |].
  destruct (decide (Exists (λ a, shift_of a = None) analyses)) as [Hbad | Hgood].
  - assert (sum_numbers (DynAnalysis.opinion_shift <$> analyses) = inl TypeError) as ->.
    { apply sum_numbers_raises. apply Exists_fmap.
      eapply Exists_impl; [exact Hbad | done]. }
    done.
  - assert (Exists (λ a, items (DynAnalysis.objections a) = None
                         ∨ items (DynAnalysis.suggestions a) = None) analyses) as Hlists.
    { apply Exists_exists in Hex as (a & Hin & [Ha | Ha]).
      - destruct Hgood. apply Exists_exists. eauto.
      - apply Exists_exists. eauto. }
    rewrite (gather_lists_raises _ [] [] Hlists).
    destruct (sum_numbers _) as [e|t] eqn:Hsum; [ | done].
    apply sum_numbers_error in Hsum as ->. done.
Qed.

Lemma integration_market_insights (integration : LLMIntegration.t)
    (features : list Feature) (analyses : list DynAnalysis.t) (mc : Dict)
    (shifts : list Q) (objections suggestions : list (list string)) :
  analyses ≠ [] →
  Forall2 (λ a q, shift_of a = Some q) analyses shifts →
  Forall2 (λ a l, items (DynAnalysis.objections a) = Some l) analyses objections →
  Forall2 (λ a l, items (DynAnalysis.suggestions a) = Some l) analyses suggestions →
  ∃ insights t,
    LLMIntegration.generate_market_insights integration features analyses mc
    = inr insights
    ∧ t == ArenaHealthMetrics.sumQ shifts
    ∧ MarketInsights.adoption_score insights
      = Py.max 0 (Py.min 100 ((t / ArenaHealthMetrics.lenQ analyses + 1) * 50))
    ∧ MarketInsights.top_objections insights = take 5 (concat objections)
    ∧ MarketInsights.top_suggestions insights = take 5 (concat suggestions).
Proof.
  intros Hne Hshift Hobj Hsug.
  unfold LLMIntegration.generate_market_insights.
  destruct (LLMIntegration.llm_available integration);
    [ | by eapply mock_market_insights].
  destruct (LLMIntegration.market_reply integration features analyses mc)
    as [text|] eqn:Hreply.
  - destruct (remote_market_insights integration features analyses mc
                shifts objections suggestions text Hne Hshift Hobj Hsug Hreply)
      as (insights & t & -> & H).
    by exists insights, t.
  - assert (LLMIntegration._get_llm_market_insights integration features analyses mc
            = None) as ->; [ | by eapply mock_market_insights].
    unfold LLMIntegration._get_llm_market_insights. rewrite Hreply.
    destruct (Result.ok (sum_numbers _)); [ | done]. cbn [mbind option_bind].
    by destruct (Result.ok (foldl gather_lists _ _)).
Qed.



(** X13.  The competitive analysis divides by the number of features.
    (1) On an empty feature list the fallback raises
    [ZeroDivisionError], and so does the integration unless the remote
    model is in use and replies.  (2) On a list with a feature the
    fallback returns: the quality ratio lies in [[0, 1]], and the
    position, the threat level and the opportunity score are strong,
    low and 0.8 for a ratio above 0.6, moderate, medium and 0.6 for a
    ratio above 0.3, and weak, high and 0.3 otherwise. *)
Theorem competitive_analysis_needs_features :
  (∀ (integration : LLMIntegration.t) (competitor_data : PyVal),
     MockInsights.generate_competitive_analysis [] competitor_data
     = inl ZeroDivisionError
     ∧ (LLMIntegration.generate_competitive_analysis integration [] competitor_data
        = inl ZeroDivisionError
        ↔ LLMIntegration.llm_available integration = false
          ∨ LLMIntegration.competitive_reply integration [] competitor_data = None))
  ∧ (∀ (product_features : list Feature) (competitor_data : PyVal),
       product_features ≠ [] →
       ∃ analysis ratio,
         MockInsights.generate_competitive_analysis product_features competitor_data
         = inr analysis
         ∧ CompetitiveAnalysis.feature_quality_ratio analysis = Some ratio
         ∧ 0 <= ratio <= 1
         ∧ ((6 # 10) < ratio
              ∧ CompetitiveAnalysis.competitive_position analysis = Some "strong"
              ∧ CompetitiveAnalysis.threat_level analysis = "low"
              ∧ CompetitiveAnalysis.opportunity_score analysis = 8 # 10
            ∨ (3 # 10) < ratio <= (6 # 10)
              ∧ CompetitiveAnalysis.competitive_position analysis = Some "moderate"
              ∧ CompetitiveAnalysis.threat_level analysis = "medium"
              ∧ CompetitiveAnalysis.opportunity_score analysis = 6 # 10
            ∨ ratio <= (3 # 10)
              ∧ CompetitiveAnalysis.competitive_position analysis = Some "weak"
              ∧ CompetitiveAnalysis.threat_level analysis = "high"
              ∧ CompetitiveAnalysis.opportunity_score analysis = 3 # 10)).
Proof.
  split.
  - intros integration competitor_data. split; [done |].
    unfold LLMIntegration.generate_competitive_analysis,
      LLMIntegration._get_llm_competitive_analysis.
    destruct (LLMIntegration.llm_available integration).
    + destruct (LLMIntegration.competitive_reply integration [] competitor_data)
        as [text|]; cbn [mbind option_bind].
      * split; [done | by intros [? | ?]].
      * split; [by right | done].
    + split; [by left | done].
  - intros product_features competitor_data Hne.
    unfold MockInsights.generate_competitive_analysis.
    set (good := filter _ product_features).
    assert (length good ≤ length product_features)%nat as Hle
      by apply length_filter.
    assert (0 < length product_features)%nat as Hpos
      by (destruct product_features; [done | cbn [length]; lia]).
    set (quality := inject_Z (Z.of_nat (length good))).
    set (count := inject_Z (Z.of_nat (length product_features))).
    assert (0 < count) as Hcount.
    { unfold count. change 0 with (inject_Z 0). rewrite <- Zlt_Qlt. lia. }
    assert (0 <= quality <= count) as [Hq0 Hqc].
    { unfold quality, count. change 0 with (inject_Z 0). rewrite <- !Zle_Qle. lia. }
    assert (0 <= quality / count <= 1) as Hratio.
    { split.
      - apply Qle_shift_div_l; [exact Hcount | lra].
      - apply Qle_shift_div_r; [exact Hcount | lra]. }
    destruct (decide (length product_features = 0%nat)) as [Hz | _]; [lia |].
    destruct (decide (count * (6 # 10) < quality)) as [Hstrong | Hstrong].
    + eexists _, (quality / count). split; [reflexivity |].
      split; [reflexivity |]. split; [exact Hratio |]. left.
      split; [ | done]. apply Qlt_shift_div_l; [exact Hcount | lra].
    + destruct (decide (count * (3 # 10) < quality)) as [Hmod | Hmod].
      * eexists _, (quality / count). split; [reflexivity |].
        split; [reflexivity |]. split; [exact Hratio |]. right. left.
        split; [ | done]. split.
        -- apply Qlt_shift_div_l; [exact Hcount | lra].
        -- apply Qle_shift_div_r; [exact Hcount | lra].
      * eexists _, (quality / count). split; [reflexivity |].
        split; [reflexivity |]. split; [exact Hratio |]. right. right.
        split; [ | done]. apply Qle_shift_div_r; [exact Hcount | lra].
Qed.

(** X13 evaluated: one feature of two mentions a keyword. *)
Lemma competitive_analysis_needs_features_witness :
  ∃ analysis,
    MockInsights.generate_competitive_analysis
      [Features.dark_mode; Features.assistant] (VList []) = inr analysis
    ∧ CompetitiveAnalysis.feature_quality_ratio analysis = Some (1 / 2)
    ∧ CompetitiveAnalysis.competitive_position analysis = Some "moderate".
Proof.
  destruct competitive_analysis_needs_features as [_ Hfeatures].
  destruct (Hfeatures [Features.dark_mode; Features.assistant] (VList []))
    as (analysis & ratio & Hcall & Hratio & _ & _); [done |].
  exists analysis. split; [exact Hcall |].
  vm_compute in Hcall. injection Hcall as <-. by split.
Defined.


(** * The insights of a run *)

Lemma report_plain a analysis : plain_record (Agent.report a analysis).
Proof.
  unfold plain_record, Agent.report. split; [ | split].
  - by rewrite !lookup_insert_ne.
  - rewrite !lookup_insert_ne by done. rewrite lookup_insert_eq. by eexists.
  - rewrite !lookup_insert_ne by done. rewrite lookup_insert_eq. by eexists.
Qed.

Lemma insert_impact_plain (r : Interaction) q :
  plain_record r → plain_record (<["influence_impact" := VFloat q]> r).
Proof.
  unfold plain_record. intros (Hs & Ho & Hg).
  by rewrite !lookup_insert_ne.
Qed.

Lemma analysis_of_plain (r : Interaction) :
  plain_record r →
  unmoved (Reporting.analysis_of r)
  ∧ (∃ l, items (DynAnalysis.objections (Reporting.analysis_of r)) = Some l)
  ∧ (∃ l, items (DynAnalysis.suggestions (Reporting.analysis_of r)) = Some l).
Proof.
  intros (Hs & [o Ho] & [g Hg]).
  unfold unmoved, Reporting.analysis_of, get_or. simpl.
  rewrite Hs, Ho, Hg. simpl. eauto.
Qed.

Lemma sumQ_zeros (l : list Q) : Forall (λ q, q == 0) l → ArenaHealthMetrics.sumQ l == 0.
Proof.
  intros Hall.
  destruct (sumQ_bounds 0 0 l) as [Hlo Hhi]; [ | lra].
  eapply Forall_impl; [exact Hall |]. intros q Hq. simpl in Hq. lra.
Qed.

Lemma unmoved_sum (analyses : list DynAnalysis.t) :
  Forall unmoved analyses →
  ∃ t, sum_numbers (DynAnalysis.opinion_shift <$> analyses) = inr t ∧ t == 0.
Proof.
  intros Hall.
  destruct (sum_numbers_from (DynAnalysis.opinion_shift <$> analyses)
              (replicate (length analyses) 0) 0) as (t & Ht & Heq).
  { induction Hall as [|a l Ha _ IH]; simpl; constructor; [ | exact IH].
    unfold unmoved in Ha. by rewrite Ha. }
  exists t. split; [exact Ht |]. rewrite Heq, sumQ_zeros; [lra |].
  apply Forall_replicate. reflexivity.
Qed.

Lemma Forall2_witnesses {A B} (P : A → B → Prop) (l : list A) :
  Forall (λ a, ∃ b, P a b) l → ∃ k, Forall2 P l k.
Proof.
  induction 1 as [|a l [b Hb] _ [k IH]]; [by exists [] |].
  exists (b :: k). by constructor.
Qed.

(** ** The personas of a run *)

Lemma odict_set_values {V} (P : V → Prop) (d : list (string * V)) k v :
  Forall (λ kv, P kv.2) d → P v → Forall (λ kv, P kv.2) (ODict.set d k v).
Proof.
  intros Hd Hv. induction Hd as [|[k' v'] d Hkv Htl IH]; simpl.
  - by repeat constructor.
  - destruct (decide (k' = k)); (constructor; [done |]); [exact Htl | exact IH].
Qed.

Lemma odict_get_values {V} (P : V → Prop) (d : list (string * V)) k v :
  Forall (λ kv, P kv.2) d → ODict.get d k = Some v → P v.
Proof.
  induction 1 as [|[k' v'] d Hkv _ IH]; simpl; [done |].
  destruct (decide (k' = k)); [by intros [= <-] | exact IH].
Qed.

Lemma group_by_role_unmoved (agent_contexts : list PersonaContext.t)
    (feature_analyses : list DynAnalysis.t) :
  Forall unmoved feature_analyses →
  Forall (λ kv, Forall unmoved kv.2)
    (MockInsights.group_by_role agent_contexts feature_analyses).
Proof.
  intros Hall. unfold MockInsights.group_by_role.
  generalize (InfluenceGraph.enumerate agent_contexts).
  assert (Forall (λ kv : string * list DynAnalysis.t, Forall unmoved kv.2) []) as H0
    by constructor.
  revert H0. generalize (@nil (string * list DynAnalysis.t)).
  intros d Hd l. revert d Hd.
  induction l as [|[i context] l IH]; intros d Hd; [exact Hd |].
  cbn [fold_left]. apply IH.
  set (d1 := match ODict.get d (PersonaContext.role context) with
             | Some _ => d
             | None => ODict.set d (PersonaContext.role context) []
             end).
  assert (Forall (λ kv : string * list DynAnalysis.t, Forall unmoved kv.2) d1) as Hd1.
  { unfold d1. destruct (ODict.get d _); [exact Hd |].
    apply (odict_set_values (Forall unmoved)); [exact Hd | constructor]. }
  destruct (feature_analyses !! i) as [analysis|] eqn:Hi; [ | exact Hd1].
  apply (odict_set_values (Forall unmoved)); [exact Hd1 |].
  apply Forall_app. split.
  - destruct (ODict.get d1 _) as [l0|] eqn:Hget; simpl; [ | constructor].
    by apply (odict_get_values (Forall unmoved) d1 _ _ Hd1 Hget).
  - constructor; [ | constructor].
    eapply Forall_lookup_1; [exact Hall | exact Hi].
Qed.

Lemma receptiveness_unmoved (groups : list (string * list DynAnalysis.t)) :
  Forall (λ kv, Forall unmoved kv.2) groups →
  ∀ acc : list (string * Q),
    Forall (λ p, p.2 == 0) acc →
    ∃ receptiveness,
      foldl (λ acc '(role, analyses),
               receptiveness <~ acc;;
               if decide (analyses = []) then inr receptiveness
               else
                 total <~ sum_numbers (DynAnalysis.opinion_shift <$> analyses);;
                 inr (ODict.set receptiveness role
                        (total / ArenaHealthMetrics.lenQ analyses)))
            (inr acc) groups = inr receptiveness
      ∧ Forall (λ p, p.2 == 0) receptiveness.
Proof.
  induction 1 as [|[role analyses] groups Hg _ IH]; intros acc Hacc.
  - by exists acc.
  - cbn [foldl Result.bind]. simpl in Hg.
    destruct (decide (analyses = [])) as [_ | Hne]; [by apply IH |].
    destruct (unmoved_sum analyses Hg) as (t & -> & Ht). cbn [Result.bind].
    apply IH. apply (odict_set_values (λ q, q == 0)); [exact Hacc |].
    rewrite Ht. unfold Qdiv. apply Qmult_0_l.
Qed.

Lemma max_item_in (first : string * Q) (rest : list (string * Q)) :
  MockInsights.max_item first rest ∈ first :: rest.
Proof.
  unfold MockInsights.max_item. revert first.
  induction rest as [|x rest IH]; intros first; [by left |].
  cbn [fold_left].
  destruct (decide (first.2 < x.2)).
  - right. apply IH.
  - specialize (IH first). apply elem_of_cons in IH as [-> | IH]; [by left |].
    right. by right.
Qed.

Lemma min_item_in (first : string * Q) (rest : list (string * Q)) :
  MockInsights.min_item first rest ∈ first :: rest.
Proof.
  unfold MockInsights.min_item. revert first.
  induction rest as [|x rest IH]; intros first; [by left |].
  cbn [fold_left].
  destruct (decide (x.2 < first.2)).
  - right. apply IH.
  - specialize (IH first). apply elem_of_cons in IH as [-> | IH]; [by left |].
    right. by right.
Qed.

Lemma recommendations_unmoved (receptiveness : list (string * Q)) :
  Forall (λ p, p.2 == 0) receptiveness →
  MockInsights._generate_persona_recommendations receptiveness
  = if decide (2 < length receptiveness)%nat then [general_recommendation] else [].
Proof.
  intros Hall. unfold MockInsights._generate_persona_recommendations.
  destruct receptiveness as [|first rest]; [done |].
  pose proof (proj1 (Forall_forall _ _) Hall _ (max_item_in first rest)) as Hmax.
  pose proof (proj1 (Forall_forall _ _) Hall _ (min_item_in first rest)) as Hmin.
  cbv zeta. simpl in Hmax, Hmin.
  destruct (decide (5 # 10 < (MockInsights.max_item first rest).2)) as [H|_]; [lra |].
  destruct (decide ((MockInsights.min_item first rest).2 < - (3 # 10))) as [H|_]; [lra |].
  done.
Qed.

Lemma persona_insights_unmoved (agent_contexts : list PersonaContext.t)
    (feature_analyses : list DynAnalysis.t) :
  Forall unmoved feature_analyses →
  MockInsights.generate_persona_insights agent_contexts feature_analyses
  = inr PersonaInsights.Insufficient
  ∨ ∃ receptiveness,
      MockInsights.generate_persona_insights agent_contexts feature_analyses
      = inr (PersonaInsights.Insights receptiveness
               (if decide (2 < length receptiveness)%nat
                then [general_recommendation] else []))
      ∧ Forall (λ p, p.2 == 0) receptiveness.
Proof.
  intros Hall. unfold MockInsights.generate_persona_insights.
  destruct (decide (agent_contexts = [] ∨ feature_analyses = [])); [by left |].
  right.
  destruct (receptiveness_unmoved _
              (group_by_role_unmoved agent_contexts feature_analyses Hall) [])
    as (receptiveness & -> & Hzero); [constructor |].
  cbn [Result.bind]. exists receptiveness. split; [ | exact Hzero].
  by rewrite recommendations_unmoved.
Qed.

Lemma mock_competitive_returns (product_features : list Feature) (data : PyVal) :
  product_features ≠ [] →
  ∃ analysis,
    MockInsights.generate_competitive_analysis product_features data = inr analysis.
Proof.
  intros Hne. unfold MockInsights.generate_competitive_analysis.
  destruct (decide (length product_features = 0%nat)) as [Hz | _];
    [by destruct product_features |].
  destruct (decide (_ < _)); [by eexists |].
  destruct (decide (_ < _)); by eexists.
Qed.

Lemma integration_competitive (integration : LLMIntegration.t)
    (product_features : list Feature) (data : PyVal) :
  (∃ analysis,
     LLMIntegration.generate_competitive_analysis integration product_features data
     = inr analysis
     ∧ (product_features = [] →
        LLMIntegration.llm_available integration = true
        ∧ is_Some (LLMIntegration.competitive_reply integration [] data)))
  ∨ LLMIntegration.generate_competitive_analysis integration product_features data
    = inl ZeroDivisionError
    ∧ product_features = []
    ∧ (LLMIntegration.llm_available integration = false
       ∨ LLMIntegration.competitive_reply integration [] data = None).
Proof.
  unfold LLMIntegration.generate_competitive_analysis,
    LLMIntegration._get_llm_competitive_analysis.
  destruct (LLMIntegration.llm_available integration) eqn:Havail.
  - destruct (LLMIntegration.competitive_reply integration product_features data)
      as [text|] eqn:Hreply; cbn [mbind option_bind].
    + left. eexists. split; [reflexivity |]. intros ->. by rewrite Hreply.
    + destruct product_features as [|f l].
      * right. split; [done |]. split; [done | by right].
      * left. destruct (mock_competitive_returns (f :: l) data) as [analysis ->]; [done |].
        by exists analysis.
  - destruct product_features as [|f l].
    + right. split; [done |]. split; [done | by left].
    + left. destruct (mock_competitive_returns (f :: l) data) as [analysis ->]; [done |].
      by exists analysis.
Qed.

Lemma integration_market_insights_unmoved (integration : LLMIntegration.t)
    (features : list Feature) (interactions : list Interaction) (mc : Dict) :
  Forall plain_record interactions →
  ∃ insights,
    LLMIntegration.generate_market_insights integration features
      (Reporting.analysis_of <$> interactions) mc = inr insights
    ∧ MarketInsights.adoption_score insights == 50.
Proof.
  intros Hall.
  destruct (decide (interactions = [])) as [-> | Hne].
  - unfold LLMIntegration.generate_market_insights,
      LLMIntegration._get_llm_market_insights, MockInsights.generate_market_insights.
    destruct (LLMIntegration.llm_available integration);
      [ | eexists; split; [reflexivity | done]].
    cbn. destruct (LLMIntegration.market_reply integration features [] mc);
      eexists; (split; [reflexivity | done]).
  - set (analyses := Reporting.analysis_of <$> interactions).
    assert (Forall (λ a, unmoved a
                         ∧ (∃ l, items (DynAnalysis.objections a) = Some l)
                         ∧ (∃ l, items (DynAnalysis.suggestions a) = Some l)) analyses)
      as Han.
    { apply Forall_fmap. eapply Forall_impl; [exact Hall |].
      intros r Hr. by apply analysis_of_plain. }
    destruct (Forall2_witnesses (λ a l, items (DynAnalysis.objections a) = Some l) analyses)
      as [objections Hobj].
    { eapply Forall_impl; [exact Han |]. by intros a (_ & ? & _). }
    destruct (Forall2_witnesses (λ a l, items (DynAnalysis.suggestions a) = Some l) analyses)
      as [suggestions Hsug].
    { eapply Forall_impl; [exact Han |]. by intros a (_ & _ & ?). }
    assert (Forall2 (λ a q, shift_of a = Some q) analyses
              (replicate (length analyses) 0)) as Hshift.
    { clear -Han. induction Han as [|a l (Ha & _) _ IH]; simpl; constructor; [ | exact IH].
      unfold shift_of. unfold unmoved in Ha. by rewrite Ha. }
    destruct (integration_market_insights integration features analyses mc
                (replicate (length analyses) 0) objections suggestions) as (insights & t & Hcall & Ht & Hscore & _);
      [ | exact Hshift | exact Hobj | exact Hsug | ].
    { unfold analyses. intros Hnil. by apply fmap_nil_inv in Hnil. }
    exists insights. split; [exact Hcall |].
    rewrite Hscore.
    assert (t == 0) as Hzero.
    { rewrite Ht. apply sumQ_zeros, Forall_replicate. reflexivity. }
    rewrite clamp_inside.
    + rewrite Hzero. unfold Qdiv. rewrite Qmult_0_l. lra.
    + rewrite Hzero. unfold Qdiv. rewrite Qmult_0_l. lra.
Qed.

Lemma run_to_metrics_plain self llm brief config n mc s self' report s' :
  AdvancedSimulator.run_to_metrics self llm brief config n mc s
  = Some ((self', report), s') →
  Forall plain_record (logged_interactions (AdvancedSimulator.round_history self')).
Proof.
  intros Hrun. apply run_to_metrics_inv in Hrun
    as (population & s1 & graph & s2 & final & metrics & _ & _ & Hrounds & _ & _).
  eapply (run_rounds_record plain_record report_plain insert_impact_plain);
    [ | exact Hrounds].
  constructor.
Qed.

(** X14.  What the insights of a run report.  A run of a new simulator
    with the integration, whatever the remote model does, ends in one
    of two ways.  It raises [ZeroDivisionError] exactly when the brief
    has no feature, the market context names competitors and the
    remote model gives no competitive analysis.  Otherwise it returns
    a report in which the adoption score of the market insights is 50,
    every persona receptiveness is 0 and the only recommendation
    possible is the general one, given when more than two roles are
    present: the rebuilt analyses carry no opinion shift. *)
Theorem run_insights_carry_no_shift
    (integration : LLMIntegration.t) (topology : NetworkTopology.t) (brief : Brief.t)
    (config : gmap string Z) (n : Z) (mc : option Dict) (s : Random.Rng) :
  yields (Reporting.run_simulation (AdvancedSimulator.init topology) integration
            brief config n mc) s
    (λ '(_, outcome),
       match outcome with
       | inl e =>
           e = ZeroDivisionError
           ∧ default [] (Brief.features brief) = []
           ∧ ∃ data, Reporting.competitors mc = Some data
                     ∧ (LLMIntegration.llm_available integration = false
                        ∨ LLMIntegration.competitive_reply integration [] data = None)
       | inr report =>
           let insights := FullReport.advanced_insights report in
           MarketInsights.adoption_score (AdvancedInsights.market_insights insights)
           == 50
           ∧ (AdvancedInsights.persona_insights insights = PersonaInsights.Insufficient
              ∨ ∃ receptiveness,
                  AdvancedInsights.persona_insights insights
                  = PersonaInsights.Insights receptiveness
                      (if decide (2 < length receptiveness)%nat
                       then [general_recommendation] else [])
                  ∧ Forall (λ p, p.2 == 0) receptiveness)
           ∧ (is_Some (AdvancedInsights.competitor_analysis insights)
              ↔ is_Some (Reporting.competitors mc))
           ∧ (default [] (Brief.features brief) = [] →
              ∀ data, Reporting.competitors mc = Some data →
                      LLMIntegration.llm_available integration = true
                      ∧ is_Some (LLMIntegration.competitive_reply integration [] data))
       end).
Proof.
  unfold Reporting.run_simulation.
  eapply yields_bind.
  - apply yields_run with (P := λ sr,
      Forall plain_record (logged_interactions (AdvancedSimulator.round_history sr.1))).
    + rewrite (yields_ext _ _ _ _
                 (integration_run integration _ brief config n mc s)).
      apply run_to_metrics_returns, without_persona_step_answers.
    + intros [self' report] s' Hrun. simpl. by eapply run_to_metrics_plain.
  - intros [self' report] s' Hplain. simpl in Hplain. apply yields_ret.
    unfold Reporting._generate_advanced_insights.
    fold (logged_interactions (AdvancedSimulator.round_history self')).
    destruct (integration_market_insights_unmoved integration
                (default [] (Brief.features brief))
                (logged_interactions (AdvancedSimulator.round_history self'))
                (default ∅ mc) Hplain) as (market & -> & Hscore).
    cbn [Result.bind].
    unfold LLMIntegration.generate_persona_insights.
    match goal with
    | |- context [MockInsights.generate_persona_insights ?c ?a] =>
        assert (Forall unmoved a) as Hunmoved
          by (apply Forall_fmap; eapply Forall_impl; [exact Hplain |];
              intros r Hr; by apply analysis_of_plain);
        pose proof (persona_insights_unmoved c a Hunmoved) as Hpersona;
        destruct (MockInsights.generate_persona_insights c a) as [e|persona] eqn:Hp
    end.
    { exfalso. destruct Hpersona as [? | (? & ? & _)]; congruence. }
    cbn [Result.bind].
    destruct (Reporting.competitors mc) as [data|] eqn:Hcomp.
    + destruct (integration_competitive integration
                  (default [] (Brief.features brief)) data)
        as [(analysis & -> & Hgiven) | (-> & Hnone & Hwhy)]; cbn [Result.bind].
      * split; [exact Hscore |]. split.
        { cbn. destruct Hpersona as [H | (r & H & Hz)];
            [left | right; exists r; split; [ | exact Hz]]; congruence. }
        split; [by split; eexists |].
        intros Hnil d [= <-]. by apply Hgiven.
      * split; [done |]. split; [exact Hnone |]. by exists data.
    + cbn [Result.bind]. split; [exact Hscore |]. split.
      { cbn. destruct Hpersona as [H | (r & H & Hz)];
            [left | right; exists r; split; [ | exact Hz]]; congruence. }
      split; [ | done].
      split; intros [? H]; discriminate H.
Qed.

(** X14 evaluated on its exceptional branch: no feature, competitors
    named, no remote model. *)
Lemma run_insights_carry_no_shift_witness :
  yields (Reporting.run_simulation
            (AdvancedSimulator.init NetworkTopology.LOOSE_NETWORK) Setups.offline
            Setups.bare_brief Configs.quarters 2 (Some Setups.rivals)) []
    (λ '(_, outcome), outcome = inl ZeroDivisionError).
Proof.
  eapply yields_mono; [apply run_insights_carry_no_shift |].
  intros [self [e|report]].
  - by intros (-> & _).
  - intros (_ & _ & _ & H).
    destruct (H eq_refl (VList ["Acme"]) eq_refl) as [Havailable _].
    discriminate Havailable.
Defined.


(** * The arena metrics *)

Lemma sumQ_fmap_cons {A} (f : A → Q) (x : A) (l : list A) :
  ArenaHealthMetrics.sumQ (f <$> x :: l) == f x + ArenaHealthMetrics.sumQ (f <$> l).
Proof. rewrite fmap_cons. apply sumQ_cons. Qed.

Lemma lenQ_cons {A} (x : A) (l : list A) :
  ArenaHealthMetrics.lenQ (x :: l) == ArenaHealthMetrics.lenQ l + 1.
Proof.
  unfold ArenaHealthMetrics.lenQ. cbn [length].
  rewrite Nat2Z.inj_succ, <- Z.add_1_r, inject_Z_plus. reflexivity.
Qed.

Lemma lenQ_fmap {A B} (f : A → B) (l : list A) :
  ArenaHealthMetrics.lenQ (f <$> l) = ArenaHealthMetrics.lenQ l.
Proof. unfold ArenaHealthMetrics.lenQ. by rewrite length_fmap. Qed.

Lemma square_nonneg (x : Q) : 0 <= x * x.
Proof.
  destruct (Qlt_le_dec x 0) as [Hneg | Hpos].
  - assert (x * x == (- x) * (- x)) as -> by ring.
    apply Qmult_le_0_compat; lra.
  - apply Qmult_le_0_compat; lra.
Qed.

(** The sum of the squared deviations from any point [m]. *)
Lemma sum_squared_deviations (l : list Q) (m : Q) :
  ArenaHealthMetrics.sumQ ((λ op, (op - m) ^ 2) <$> l)
  == ArenaHealthMetrics.sumQ ((λ op, op * op) <$> l)
     - 2 * m * ArenaHealthMetrics.sumQ l + ArenaHealthMetrics.lenQ l * (m * m).
Proof.
  induction l as [|x l IH].
  - unfold ArenaHealthMetrics.sumQ, ArenaHealthMetrics.lenQ. simpl. ring.
  - rewrite !sumQ_fmap_cons, sumQ_cons, lenQ_cons, IH.
    change ((x - m) ^ 2) with ((x - m) * (x - m)). ring.
Qed.

Lemma sum_squares_le (l : list Q) :
  Forall (λ q, 0 <= q <= 1) l →
  0 <= ArenaHealthMetrics.sumQ ((λ op, op * op) <$> l)
  ∧ ArenaHealthMetrics.sumQ ((λ op, op * op) <$> l) <= ArenaHealthMetrics.sumQ l.
Proof.
  induction 1 as [|x l [H0 H1] _ [IH0 IH1]].
  - unfold ArenaHealthMetrics.sumQ. simpl. lra.
  - rewrite sumQ_fmap_cons, sumQ_cons. split; nra.
Qed.

Lemma squared_deviations_nonneg (l : list Q) (m : Q) :
  0 <= ArenaHealthMetrics.sumQ ((λ op, (op - m) ^ 2) <$> l).
Proof.
  induction l as [|x l IH].
  - unfold ArenaHealthMetrics.sumQ. simpl. lra.
  - rewrite sumQ_fmap_cons. cbv beta.
    pose proof (square_nonneg (x - m)) as Hsq.
    change ((x - m) ^ 2) with ((x - m) * (x - m)). lra.
Qed.

Lemma py_min_le (a b : Q) : b <= a → Py.min a b == b.
Proof.
  intros Hle. unfold Py.min.
  destruct (b ?= a) eqn:Hc; [apply Qeq_alt in Hc; by symmetry | reflexivity |].
  apply Qgt_alt in Hc. lra.
Qed.

(** Four times the variance of numbers in the unit interval is at most
    one. *)
Lemma variance_bound (l : list Q) :
  l ≠ [] → Forall (λ q, 0 <= q <= 1) l →
  let mean := ArenaHealthMetrics.sumQ l / ArenaHealthMetrics.lenQ l in
  let variance :=
    ArenaHealthMetrics.sumQ ((λ op, (op - mean) ^ 2) <$> l) / ArenaHealthMetrics.lenQ l in
  0 <= variance * 4 <= 1.
Proof.
  intros Hne Hall mean variance.
  pose proof (lenQ_pos l Hne) as Hn.
  pose proof (mean_bounds 0 1 l Hne Hall) as Hmean. fold mean in Hmean.
  pose proof (sum_squared_deviations l mean) as Hdev.
  pose proof (squared_deviations_nonneg l mean) as Hnonneg.
  destruct (sum_squares_le l Hall) as [_ Hsq].
  assert (ArenaHealthMetrics.sumQ l == mean * ArenaHealthMetrics.lenQ l) as Hsum.
  { unfold mean. field. lra. }
  set (n := ArenaHealthMetrics.lenQ l) in *.
  set (D := ArenaHealthMetrics.sumQ ((λ op, (op - mean) ^ 2) <$> l)) in *.
  set (S2 := ArenaHealthMetrics.sumQ ((λ op, op * op) <$> l)) in *.
  set (S := ArenaHealthMetrics.sumQ l) in *.
  assert (D <= (1 # 4) * n) as Hbound.
  { assert (D <= n * (mean - mean * mean)) as H1.
    { rewrite Hdev. rewrite Hsum in Hsq. rewrite Hsum. lra. }
    pose proof (square_nonneg (mean - (1 # 2))) as H2.
    assert (0 <= n * ((1 # 4) - (mean - mean * mean))) as H3
      by (apply Qmult_le_0_compat; lra).
    lra. }
  assert (0 <= D / n <= 1 # 4) as [Hv0 Hv1].
  { split.
    - apply Qle_shift_div_l; [exact Hn | lra].
    - apply Qle_shift_div_r; [exact Hn | exact Hbound]. }
  unfold variance. lra.
Qed.



(** * The lists of the report *)

Lemma opinions_of_bounds (ty : AgentType.t) (agents : list Agent.t) (lo hi : Q) :
  Forall (λ a, lo <= Agent.current_opinion a <= hi) agents →
  Forall (λ q, lo <= q <= hi) (Reporting.opinions_of ty agents).
Proof.
  intros Hall. unfold Reporting.opinions_of. apply Forall_fmap.
  apply Forall_forall. intros a Ha. apply list_elem_of_filter in Ha as [_ Ha].
  by apply (proj1 (Forall_forall _ _) Hall).
Qed.

Lemma variance_of_equals (l : list Q) (c : Q) :
  l ≠ [] → Forall (λ q, c <= q <= c) l →
  ArenaHealthMetrics.sumQ
    ((λ op, (op - ArenaHealthMetrics.sumQ l / ArenaHealthMetrics.lenQ l) ^ 2) <$> l)
  / ArenaHealthMetrics.lenQ l == 0.
Proof.
  intros Hne Hall.
  pose proof (mean_bounds c c l Hne Hall) as Hmean.
  set (mean := ArenaHealthMetrics.sumQ l / ArenaHealthMetrics.lenQ l) in *.
  assert (ArenaHealthMetrics.sumQ ((λ op, (op - mean) ^ 2) <$> l) == 0) as ->.
  { apply sumQ_zeros. apply Forall_fmap. eapply Forall_impl; [exact Hall |].
    intros q Hq. unfold compose. cbv beta in *.
    change ((q - mean) ^ 2) with ((q - mean) * (q - mean)).
    assert (q - mean == 0) as -> by lra. ring. }
  unfold Qdiv. apply Qmult_0_l.
Qed.

Lemma mean_lower (lo : Q) (l : list Q) :
  l ≠ [] → Forall (λ q, lo <= q) l →
  lo <= ArenaHealthMetrics.sumQ l / ArenaHealthMetrics.lenQ l.
Proof.
  intros Hne Hall. pose proof (lenQ_pos l Hne) as Hn.
  apply Qle_shift_div_l; [exact Hn |].
  clear Hne Hn. induction Hall as [|x l Hx _ IH].
  - unfold ArenaHealthMetrics.sumQ, ArenaHealthMetrics.lenQ. cbn [length fold_left].
    change (inject_Z (Z.of_nat 0)) with 0. lra.
  - rewrite sumQ_cons, lenQ_cons. lra.
Qed.

Lemma no_opinion_below (agents : list Agent.t) (lo bound : Q) :
  bound <= lo →
  Forall (λ a, lo <= Agent.current_opinion a) agents →
  filter (λ a, Agent.current_opinion a < bound) agents = [].
Proof.
  intros Hb. induction 1 as [|a l Ha _ IH]; [done |].
  rewrite filter_cons. destruct (decide (Agent.current_opinion a < bound)); [lra | exact IH].
Qed.

Lemma mean_not_below (ty : AgentType.t) (agents : list Agent.t) (lo bound : Q) :
  bound <= lo →
  Forall (λ a, lo <= Agent.current_opinion a) agents →
  ¬ (Reporting.opinions_of ty agents ≠ []
     ∧ ArenaHealthMetrics.sumQ (Reporting.opinions_of ty agents)
       / ArenaHealthMetrics.lenQ (Reporting.opinions_of ty agents) < bound).
Proof.
  intros Hb Hall [Hne Hlt].
  assert (Forall (λ q, lo <= q) (Reporting.opinions_of ty agents)) as Hq.
  { unfold Reporting.opinions_of. apply Forall_fmap, Forall_forall.
    intros a Ha. apply list_elem_of_filter in Ha as [_ Ha].
    by apply (proj1 (Forall_forall _ _) Hall a Ha). }
  pose proof (mean_lower lo _ Hne Hq). lra.
Qed.

Lemma issues_sublist (agents : list Agent.t) :
  sublist (Reporting._identify_critical_issues agents) critical_issues.
Proof.
  unfold Reporting._identify_critical_issues, critical_issues. cbv zeta.
  repeat match goal with
         | |- context [decide ?P] => destruct (decide P)
         end; cbn [app];
    repeat first [apply sublist_nil_l | apply sublist_skip | apply sublist_cons].
Qed.

Lemma issues_of_content (agents : list Agent.t) :
  Forall (λ a, 5 # 10 <= Agent.current_opinion a) agents →
  sublist (Reporting._identify_critical_issues agents)
    ["Internal team misalignment - address cross-functional concerns"].
Proof.
  intros Hall. unfold Reporting._identify_critical_issues. cbv zeta.
  destruct (decide (Reporting.opinions_of AgentType.CUSTOMER agents ≠ [] ∧ _)) as [H|_];
    [by apply (mean_not_below _ _ (5 # 10)) in H |].
  destruct (decide (Reporting.opinions_of AgentType.COMPETITOR agents ≠ [] ∧ _)) as [H|_];
    [by apply (mean_not_below _ _ (5 # 10)) in H |].
  destruct (decide (Reporting.opinions_of AgentType.INTERNAL_TEAM agents ≠ []));
    [ | apply sublist_nil_l].
  destruct (decide (_ < _)); [done | apply sublist_nil_l].
Qed.

Lemma issues_of_one_mind (agents : list Agent.t) (c : Q) :
  5 # 10 <= c →
  Forall (λ a, Agent.current_opinion a == c) agents →
  Reporting._identify_critical_issues agents = [].
Proof.
  intros Hc Hall.
  assert (Forall (λ a, c <= Agent.current_opinion a <= c) agents) as Hall'.
  { eapply Forall_impl; [exact Hall |]. intros a Ha. cbv beta in *. lra. }
  assert (Forall (λ a, 5 # 10 <= Agent.current_opinion a) agents) as Hlo.
  { eapply Forall_impl; [exact Hall' |]. intros a Ha. cbv beta in *. lra. }
  unfold Reporting._identify_critical_issues. cbv zeta.
  destruct (decide (Reporting.opinions_of AgentType.CUSTOMER agents ≠ [] ∧ _)) as [H|_];
    [by apply (mean_not_below _ _ (5 # 10)) in H |].
  destruct (decide (Reporting.opinions_of AgentType.COMPETITOR agents ≠ [] ∧ _)) as [H|_];
    [by apply (mean_not_below _ _ (5 # 10)) in H |].
  destruct (decide (Reporting.opinions_of AgentType.INTERNAL_TEAM agents ≠ []))
    as [Hne|_]; [ | done].
  destruct (decide (_ < _)) as [Hvar|_]; [ | done].
  rewrite (variance_of_equals _ c Hne) in Hvar; [lra |].
  by apply opinions_of_bounds.
Qed.

(** X16.  The two lists of the report.  (1) The top objections hold
    one line per agent whose opinion is below 0.4, five at most.
    (2) The critical issues are some of the three messages, in the
    order of the checks, each at most once.  (3) When no opinion is
    below 0.5 there is no objection, and the only issue possible is
    the misalignment of the internal team.  (4) When all agents hold
    one opinion of at least 0.5, both lists are empty; (5) so they are
    for a new population. *)
Theorem report_lists :
  (∀ agents : list Agent.t,
     length (Reporting._extract_top_objections agents)
     = Nat.min 5 (length (filter (λ a, Agent.current_opinion a < 4 # 10) agents)))
  ∧ (∀ agents : list Agent.t,
       sublist (Reporting._identify_critical_issues agents) critical_issues)
  ∧ (∀ agents : list Agent.t,
       Forall (λ a, 5 # 10 <= Agent.current_opinion a) agents →
       Reporting._extract_top_objections agents = []
       ∧ sublist (Reporting._identify_critical_issues agents)
           ["Internal team misalignment - address cross-functional concerns"])
  ∧ (∀ (agents : list Agent.t) (c : Q),
       5 # 10 <= c →
       Forall (λ a, Agent.current_opinion a == c) agents →
       Reporting._extract_top_objections agents = []
       ∧ Reporting._identify_critical_issues agents = [])
  ∧ (∀ (config : gmap string Z) (s : Random.Rng),
       yields (AdvancedSimulator.create_agent_population config) s
         (λ population,
            Reporting._extract_top_objections population = []
            ∧ Reporting._identify_critical_issues population = [])).
Proof.
  assert (∀ agents : list Agent.t,
            Forall (λ a, 5 # 10 <= Agent.current_opinion a) agents →
            Reporting._extract_top_objections agents = []) as Hnone.
  { intros agents Hall. unfold Reporting._extract_top_objections.
    by rewrite (no_opinion_below agents (5 # 10)). }
  split; [ | split; [ | split; [ | split]]].
  - intros agents. unfold Reporting._extract_top_objections.
    by rewrite length_take, length_fmap.
  - apply issues_sublist.
  - intros agents Hall. split; [by apply Hnone | by apply issues_of_content].
  - intros agents c Hc Hall. split; [ | by eapply issues_of_one_mind].
    apply Hnone. eapply Forall_impl; [exact Hall |]. intros a Ha. cbv beta in *. lra.
  - intros config s.
    eapply yields_mono; [apply factory_agent_population |].
    intros population Hfac.
    assert (Forall (λ a, Agent.current_opinion a == 5 # 10) population) as Hhalf.
    { eapply Forall_impl; [exact Hfac |]. intros a Ha.
      apply factory_agent_facts in Ha as (Hop & _). by rewrite Hop. }
    split; [ | by apply (issues_of_one_mind _ (5 # 10))].
    apply Hnone. eapply Forall_impl; [exact Hhalf |]. intros a Ha. cbv beta in *. lra.
Qed.

(** X16 evaluated: two content agents, and two agents of one mind. *)
Lemma report_lists_witness :
  (Reporting._extract_top_objections [Scenario.ann; Scenario.cat] = []
   ∧ sublist (Reporting._identify_critical_issues [Scenario.ann; Scenario.cat])
       ["Internal team misalignment - address cross-functional concerns"])
  ∧ Reporting._extract_top_objections [Scenario.ann; Scenario.ann] = []
  ∧ Reporting._identify_critical_issues [Scenario.ann; Scenario.ann] = [].
Proof.
  destruct report_lists as (_ & _ & Hcontent & Hsame & _).
  split.
  - apply Hcontent. repeat constructor; simpl; lra.
  - apply (Hsame [Scenario.ann; Scenario.ann] 0.9); [lra |]. repeat constructor.
Defined.

(** * The advocate ratio *)

(** X17.  The advocate-to-saboteur ratio is a count once no saboteur
    is left.  It lies between 0 and the number of agents; with at most
    one saboteur it equals the number of advocates; and no agent
    counts on both sides. *)
Theorem advocate_ratio_bounds (agents : list Agent.t) :
  let advocates := filter (λ a, 7 # 10 < Agent.current_opinion a) agents in
  let saboteurs := filter (λ a, Agent.current_opinion a < 3 # 10) agents in
  0 <= ArenaHealthMetrics._calculate_advocate_ratio agents
       <= ArenaHealthMetrics.lenQ agents
  ∧ ((length saboteurs ≤ 1)%nat →
     ArenaHealthMetrics._calculate_advocate_ratio agents
     == ArenaHealthMetrics.lenQ advocates)
  ∧ (length advocates + length saboteurs ≤ length agents)%nat.
Proof.
  intros advocates saboteurs.
  unfold ArenaHealthMetrics._calculate_advocate_ratio. fold advocates saboteurs.
  assert (length advocates + length saboteurs ≤ length agents)%nat as Hsum.
  { unfold advocates, saboteurs. clear. induction agents as [|a l IH]; [done |].
    rewrite !filter_cons.
    destruct (decide (7 # 10 < Agent.current_opinion a)),
             (decide (Agent.current_opinion a < 3 # 10)); cbn [length]; try lia.
    lra. }
  set (d := inject_Z (Z.max (Z.of_nat (length saboteurs)) 1)).
  assert (1 <= d) as Hd.
  { unfold d. change 1 with (inject_Z 1). rewrite <- Zle_Qle. lia. }
  set (k := inject_Z (Z.of_nat (length advocates))).
  assert (0 <= k <= ArenaHealthMetrics.lenQ agents) as [Hk0 Hk1].
  { unfold k, ArenaHealthMetrics.lenQ. change 0 with (inject_Z 0).
    rewrite <- !Zle_Qle. lia. }
  split; [ | split; [ | exact Hsum]].
  - split.
    + apply Qle_shift_div_l; lra.
    + apply Qle_shift_div_r; [lra |].
      assert (0 <= ArenaHealthMetrics.lenQ agents * (d - 1)) as H
        by (apply Qmult_le_0_compat; lra).
      lra.
  - intros Hone.
    assert (d == 1) as ->.
    { unfold d. replace (Z.max (Z.of_nat (length saboteurs)) 1) with 1%Z by lia.
      reflexivity. }
    unfold ArenaHealthMetrics.lenQ. fold k. field.
Qed.

(** X17 evaluated on the three-agent scenario: one advocate, one
    saboteur. *)
Lemma advocate_ratio_bounds_witness :
  ArenaHealthMetrics._calculate_advocate_ratio Scenario.trio == 1.
Proof.
  destruct (advocate_ratio_bounds Scenario.trio) as (_ & Hcount & _).
  rewrite Hcount; [reflexivity |]. vm_compute. lia.
Defined.

(** * Reading the influence graph *)

Lemma find_edge_Some (g : DiGraph.t) (u v : string) (e : DiGraph.edge) :
  DiGraph.find_edge g u v = Some e →
  e ∈ DiGraph.edges g ∧ DiGraph.src e = u ∧ DiGraph.dst e = v.
Proof.
  unfold DiGraph.find_edge. intros H.
  apply head_Some_elem_of in H. by apply list_elem_of_filter in H as [[? ?] ?].
Qed.

Lemma find_edge_None (g : DiGraph.t) (u v : string) :
  DiGraph.find_edge g u v = None →
  ∀ e, e ∈ DiGraph.edges g → ¬ (DiGraph.src e = u ∧ DiGraph.dst e = v).
Proof.
  unfold DiGraph.find_edge. intros H e He Huv.
  assert (e ∈ filter (λ x, DiGraph.src x = u ∧ DiGraph.dst x = v) (DiGraph.edges g))
    as Hin by by apply list_elem_of_filter.
  destruct (filter _ _); [by apply elem_of_nil in Hin | done].
Qed.

Lemma has_edge_iff (g : DiGraph.t) (u v : string) :
  DiGraph.has_edge g u v = true
  ↔ ∃ e, e ∈ DiGraph.edges g ∧ DiGraph.src e = u ∧ DiGraph.dst e = v.
Proof.
  unfold DiGraph.has_edge. rewrite bool_decide_eq_true. split.
  - intros [e He]. exists e. by apply find_edge_Some.
  - intros (e & He & Hu & Hv).
    destruct (DiGraph.find_edge g u v) as [e'|] eqn:Hfind; [by eexists |].
    by destruct (find_edge_None g u v Hfind e He).
Qed.

Lemma predecessors_iff (g : DiGraph.t) (u v : string) (l : list string) :
  DiGraph.predecessors g v = Some l →
  u ∈ l ↔ ∃ e, e ∈ DiGraph.edges g ∧ DiGraph.src e = u ∧ DiGraph.dst e = v.
Proof.
  unfold DiGraph.predecessors. destruct (decide (v ∈ DiGraph.nodes g)); [ | done].
  intros [= <-]. rewrite list_elem_of_fmap. split.
  - intros (x & -> & He). apply list_elem_of_filter in He as [? ?]. by exists x.
  - intros (x & He & <- & Hv). exists x. split; [done |]. by apply list_elem_of_filter.
Qed.

Lemma successors_iff (g : DiGraph.t) (u v : string) (l : list string) :
  DiGraph.successors g u = Some l →
  v ∈ l ↔ ∃ e, e ∈ DiGraph.edges g ∧ DiGraph.src e = u ∧ DiGraph.dst e = v.
Proof.
  unfold DiGraph.successors. destruct (decide (u ∈ DiGraph.nodes g)); [ | done].
  intros [= <-]. rewrite list_elem_of_fmap. split.
  - intros (x & -> & He). apply list_elem_of_filter in He as [? ?]. by exists x.
  - intros (x & He & Hu & <-). exists x. split; [done |]. by apply list_elem_of_filter.
Qed.

(** X18.  The three readers of the influence graph agree.  (1) For
    two known agents, [a] is among the influencers of [b] exactly when
    [b] is among the followers of [a], and exactly when the graph has
    the edge from [a] to [b].  (2) Without that edge the influence
    flow is 0.  (3) In the graph built for a new population, for
    agents [a] and [b] of the population, the influencers of [b] are
    found, [a] is one of them exactly when the flow from [a] to [b] is
    positive, and no agent influences itself. *)
Theorem influence_readers_agree :
  (∀ (self : InfluenceGraph.t) (a b : string) (influencers followers : list string),
     InfluenceGraph.get_influencers self b = Some influencers →
     InfluenceGraph.get_followers self a = Some followers →
     (a ∈ influencers ↔ b ∈ followers)
     ∧ (a ∈ influencers ↔ DiGraph.has_edge (InfluenceGraph.graph self) a b = true))
  ∧ (∀ (self : InfluenceGraph.t) (a b : string),
       DiGraph.has_edge (InfluenceGraph.graph self) a b = false →
       InfluenceGraph.calculate_influence_flow self a b = 0)
  ∧ (∀ (topology : NetworkTopology.t) (config : gmap string Z) (s : Random.Rng),
       yields (population <- AdvancedSimulator.create_agent_population config;;
               ig <- build topology population;;
               Random.ret (population, ig)) s
         (λ '(population, ig),
            ∀ a b, a ∈ Agent.name <$> population → b ∈ Agent.name <$> population →
              ∃ influencers,
                InfluenceGraph.get_influencers ig b = Some influencers
                ∧ (a ∈ influencers
                   ↔ 0 < InfluenceGraph.calculate_influence_flow ig a b)
                ∧ InfluenceGraph.calculate_influence_flow ig b b = 0)).
Proof.
  split; [ | split].
  - intros self a b influencers followers Hin Hfo.
    unfold InfluenceGraph.get_influencers in Hin.
    unfold InfluenceGraph.get_followers in Hfo.
    rewrite (predecessors_iff _ a b _ Hin), (successors_iff _ a b _ Hfo), has_edge_iff.
    done.
  - intros self a b Hno. unfold InfluenceGraph.calculate_influence_flow.
    destruct (DiGraph.find_edge (InfluenceGraph.graph self) a b) as [e|] eqn:Hfind;
      [ | done].
    unfold DiGraph.has_edge in Hno. apply bool_decide_eq_false in Hno.
    destruct Hno. by eexists.
  - intros topology config s.
    eapply yields_bind; [apply factory_agent_population |].
    intros population t Hfac.
    destruct (build_closed topology population t) as (ig & t' & Hbuild & Hnodes & _).
    pose proof (yields_inv _ _ _ _ _ (build_edges_positive topology population t Hfac)
                  Hbuild) as Hpos.
    eapply yields_bind with (Q := λ x, x = ig); [by exists ig, t' |].
    intros ? t'' ->. apply yields_ret.
    cbv beta zeta in Hnodes.
    intros a b Ha Hb.
    unfold InfluenceGraph.get_influencers, InfluenceGraph.calculate_influence_flow.
    destruct (DiGraph.predecessors (InfluenceGraph.graph ig) b) as [influencers|] eqn:Hpred.
    2: { unfold DiGraph.predecessors in Hpred.
         destruct (decide (b ∈ DiGraph.nodes (InfluenceGraph.graph ig))) as [|Hout];
           [done | by destruct Hout; apply Hnodes]. }
    exists influencers. split; [done |]. split.
    + rewrite (predecessors_iff _ a b _ Hpred). split.
      * intros (e & He & Hu & Hv).
        destruct (DiGraph.find_edge (InfluenceGraph.graph ig) a b) as [e'|] eqn:Hfind.
        -- apply find_edge_Some in Hfind as (He' & _). by apply Hpos in He' as [_ ?].
        -- by destruct (find_edge_None _ a b Hfind e He).
      * destruct (DiGraph.find_edge (InfluenceGraph.graph ig) a b) as [e'|] eqn:Hfind.
        -- intros _. exists e'. by apply find_edge_Some.
        -- intros H. lra.
    + destruct (DiGraph.find_edge (InfluenceGraph.graph ig) b b) as [e'|] eqn:Hfind;
        [ | done].
      apply find_edge_Some in Hfind as (He' & Hu & Hv).
      apply Hpos in He' as [Hloop _]. congruence.
Qed.

(** X18 evaluated on a graph with the edges ann to bob, cat to bob and
    bob to ann. *)
Lemma influence_readers_agree_witness :
  InfluenceGraph.get_influencers small_graph "bob" = Some ["ann"; "cat"]
  ∧ InfluenceGraph.get_followers small_graph "ann" = Some ["bob"]
  ∧ ("ann" ∈ ["ann"; "cat"] ↔ "bob" ∈ ["bob"])
  ∧ DiGraph.has_edge (InfluenceGraph.graph small_graph) "ann" "cat" = false
  ∧ InfluenceGraph.calculate_influence_flow small_graph "ann" "cat" = 0.
Proof.
  destruct influence_readers_agree as (Hdual & Hflow & _).
  assert (DiGraph.has_edge (InfluenceGraph.graph small_graph) "ann" "cat" = false)
    as Hno by (by vm_compute).
  split; [by vm_compute |]. split; [by vm_compute |]. split.
  - by apply (Hdual small_graph "ann" "bob" ["ann"; "cat"] ["bob"]); vm_compute.
  - split; [exact Hno | by apply Hflow].
Defined.


(** * The shape of the round history *)

Lemma roll_call_names (p q : list Agent.t) :
  Agent.name <$> p = Agent.name <$> q → roll_call p = roll_call q.
Proof.
  intros H. unfold roll_call.
  change (λ a, Some (VStr (Agent.name a))) with ((λ n, Some (VStr n)) ∘ Agent.name).
  by rewrite !list_fmap_compose, H.
Qed.

Lemma length_concat_replicate {A} (m : nat) (l : list A) :
  length (concat (replicate m l)) = (m * length l)%nat.
Proof. induction m as [|m IH]; simpl; [done |]. rewrite length_app. lia. Qed.

Lemma for_each_seq {S} (Inv : nat → S → Prop) (body : S → nat → Random.M S) :
  (∀ k acc s acc' s', Inv k acc → body acc k s = Some (acc', s') →
                      Inv (Datatypes.S k) acc') →
  ∀ n k acc s acc' s',
    Inv k acc → Random.for_each (seq k n) body acc s = Some (acc', s') →
    Inv (k + n)%nat acc'.
Proof.
  intros Hbody. induction n as [|n IH]; intros k acc s acc' s' Hk Hrun.
  - apply ret_Some in Hrun. inversion Hrun; subst. by rewrite Nat.add_0_r.
  - cbn [seq] in Hrun. rewrite for_each_cons in Hrun.
    apply bind_Some in Hrun as (acc1 & s1 & H1 & H2).
    replace (k + Datatypes.S n)%nat with (Datatypes.S k + n)%nat by lia.
    eapply IH; [ | exact H2]. by eapply Hbody.
Qed.

Lemma influence_loop_names self i influencers :
  ∀ population result s st' s',
    Random.for_each influencers (AdvancedSimulator.influence_step self i)
      (population, result) s = Some (st', s') →
    Agent.name <$> st'.1 = Agent.name <$> population
    ∧ st'.2 !! "agent_name" = result !! "agent_name".
Proof.
  induction influencers as [|x l IH]; intros population result s st' s' Hrun.
  - apply ret_Some in Hrun. by inversion Hrun; subst.
  - rewrite for_each_cons in Hrun.
    apply bind_Some in Hrun as ([p1 r1] & s1 & Hstep & Hrun).
    apply influence_step_inv in Hstep
      as (agent & j & influencer & q & Hi & _ & _ & _ & _ & [= -> ->]).
    apply IH in Hrun as [Hn Hr]. split.
    + rewrite Hn, list_fmap_insert. simpl. apply list_insert_id.
      by rewrite list_lookup_fmap, Hi.
    + rewrite Hr. by rewrite lookup_insert_ne.
Qed.

Lemma propagate_loop_names self (l : list (nat * Interaction)) :
  ∀ population ints s st' s',
    Random.for_each l (AdvancedSimulator.propagate self) (population, ints) s
    = Some (st', s') →
    Agent.name <$> st'.1 = Agent.name <$> population
    ∧ record_names st'.2 = record_names ints ++ record_names l.*2.
Proof.
  induction l as [|[i result] l IH]; intros population ints s st' s' Hrun.
  - apply ret_Some in Hrun. inversion Hrun; subst. simpl. by rewrite app_nil_r.
  - rewrite for_each_cons in Hrun.
    apply bind_Some in Hrun as ([p1 ints1] & s1 & Hstep & Hrun).
    apply propagate_inv in Hstep as (agent & influencers & [p2 r2] & _ & _ & Hloop & Heq).
    injection Heq as -> ->.
    apply influence_loop_names in Hloop as [Hn Hr]. simpl in Hn, Hr.
    apply IH in Hrun as [Hn' Hr']. split; [by rewrite Hn' |].
    rewrite Hr'. unfold record_names. rewrite fmap_app. simpl.
    rewrite Hr. by rewrite <- app_assoc.
Qed.

Lemma gather_names llm feature mc population s population' results s' :
  AdvancedSimulator.gather llm feature mc population s
  = Some ((population', results), s') →
  Agent.name <$> population' = Agent.name <$> population
  ∧ record_names results = roll_call population.
Proof.
  unfold AdvancedSimulator.gather. intros H.
  apply bind_Some in H as (rs & s1 & Hrs & H).
  apply ret_Some in H. injection H as -> -> ->.
  apply map_m_Some in Hrs. clear s1.
  induction Hrs as [|a [a' r] l rs (t & t' & Hpf) _ [IHn IHr]]; [done |].
  apply process_feature_inv in Hpf as (c & an & _ & _ & _ & _ & -> & ->).
  unfold record_names, roll_call in *. rewrite !fmap_cons. simpl.
  rewrite IHn. split; [done |]. by rewrite IHr.
Qed.

Lemma run_feature_names self llm mc st feature s st' s' :
  AdvancedSimulator.run_feature self llm mc st feature s = Some (st', s') →
  Agent.name <$> st'.1 = Agent.name <$> st.1
  ∧ record_names st'.2 = record_names st.2 ++ roll_call st.1.
Proof.
  destruct st as [population ints]. unfold AdvancedSimulator.run_feature.
  simpl. intros H.
  apply bind_Some in H as ([pop1 rs] & s1 & Hg & H).
  apply bind_Some in H as ([pop2 ints2] & s2 & Hloop & H).
  apply ret_Some in H. injection H as -> ->. simpl in *.
  apply gather_names in Hg as [Hn Hr].
  apply propagate_loop_names in Hloop as [Hn' Hr']. simpl in *.
  split; [by rewrite Hn' |].
  unfold record_names in *. rewrite fmap_app, Hr'. simpl.
  by rewrite enumerate_snd, Hr.
Qed.

Lemma run_single_round_shape self llm brief population n mc s rr population' s' :
  AdvancedSimulator._run_single_round self llm brief population n mc s
  = Some ((rr, population'), s') →
  Agent.name <$> population' = Agent.name <$> population
  ∧ RoundResult.round rr = (n + 1)%Z
  ∧ record_names (RoundResult.interactions rr)
    = concat (replicate (length (default [] (Brief.features brief)))
                (roll_call population))
  ∧ RoundResult.average_opinion rr
    = ArenaHealthMetrics.sumQ (Agent.current_opinion <$> population')
      / ArenaHealthMetrics.lenQ population'
  ∧ population' ≠ [].
Proof.
  unfold AdvancedSimulator._run_single_round. intros H.
  apply bind_Some in H as (st & s1 & Hloop & H).
  destruct (decide (length st.1 = 0%nat)) as [|Hlen]; [by apply raise_Some in H |].
  apply ret_Some in H. injection H as -> -> ->. simpl.
  destruct (for_each_counting
              (λ j st, Agent.name <$> st.1 = Agent.name <$> population
                       ∧ record_names st.2
                         = concat (replicate j (roll_call population)))
              (AdvancedSimulator.run_feature self llm mc)
              (default [] (Brief.features brief))) with
    (k := 0%nat) (acc := (population, @nil Interaction)) (s := s) (acc' := st) (s' := s1)
    as [Hn Hr]; [ | by split | exact Hloop | ].
  - intros j st0 f t st1 t' [Hn Hr] Hstep.
    apply run_feature_names in Hstep as [Hn' Hr']. split; [by rewrite Hn' |].
    rewrite Hr', Hr, (roll_call_names _ _ Hn).
    rewrite replicate_S_end, concat_app. simpl. by rewrite app_nil_r.
  - simpl in Hr. split; [exact Hn |].
    split; [done |]. split; [exact Hr |]. split; [done |].
    intros Hnil. by rewrite Hnil in Hlen.
Qed.

(** X19.  The round history of a run.  A run of a new simulator with a
    backend that answers returns a history with one entry per round.
    Entry [k] carries the round number [k + 1]; its records name,
    once per feature of the brief, every final agent in the order of
    the population, so there are as many records as features times
    agents; and its average opinion lies in [[0, 1]]. *)
Theorem round_history_shape
    (llm : Backend) (topology : NetworkTopology.t) (brief : Brief.t)
    (config : gmap string Z) (n : Z) (mc : option Dict) (s : Random.Rng) :
  answers llm →
  yields (AdvancedSimulator.run_to_metrics (AdvancedSimulator.init topology)
            llm brief config n mc) s
    (λ '(_, report),
       let features := default [] (Brief.features brief) in
       let agents := Report.final_agents report in
       length (Report.round_history report) = Z.to_nat n
       ∧ ∀ k rr,
           Report.round_history report !! k = Some rr →
           RoundResult.round rr = (Z.of_nat k + 1)%Z
           ∧ record_names (RoundResult.interactions rr)
             = concat (replicate (length features) (roll_call agents))
           ∧ length (RoundResult.interactions rr)
             = (length features * length agents)%nat
           ∧ 0 <= RoundResult.average_opinion rr <= 1).
Proof.
  intros Hllm. apply yields_run; [by apply run_to_metrics_returns |].
  intros [self' report] s' Hrun.
  apply run_to_metrics_inv in Hrun
    as (population & s1 & graph & s2 & final & metrics & Hpop & _ & Hrounds & _ & ->).
  simpl.
  pose proof (yields_inv _ _ _ _ _ (factory_agent_population config s) Hpop) as Hfac.
  assert (Forall opinion_in_range population) as Hrange.
  { eapply Forall_impl; [exact Hfac |]. intros a Ha.
    apply factory_agent_facts in Ha as (Hop & _). unfold opinion_in_range.
    rewrite Hop. lra. }
  unfold AdvancedSimulator.run_rounds in Hrounds.
  eapply (for_each_seq
            (λ k (sp : AdvancedSimulator.t * list Agent.t),
               Agent.name <$> sp.2 = Agent.name <$> population
               ∧ Forall opinion_in_range sp.2
               ∧ length (AdvancedSimulator.round_history sp.1) = k
               ∧ ∀ i rr,
                   AdvancedSimulator.round_history sp.1 !! i = Some rr →
                   RoundResult.round rr = (Z.of_nat i + 1)%Z
                   ∧ record_names (RoundResult.interactions rr)
                     = concat (replicate (length (default [] (Brief.features brief)))
                                 (roll_call population))
                   ∧ 0 <= RoundResult.average_opinion rr <= 1)) in Hrounds.
  - destruct Hrounds as (Hn & _ & Hlen & Hall). simpl in *.
    split; [exact Hlen |]. intros k rr Hk.
    destruct (Hall k rr Hk) as (Hround & Hnames & Havg).
    rewrite (roll_call_names _ _ Hn).
    split; [exact Hround |]. split; [exact Hnames |]. split; [ | exact Havg].
    assert (length (record_names (RoundResult.interactions rr))
            = length (RoundResult.interactions rr)) as <-
      by apply length_fmap.
    rewrite Hnames, length_concat_replicate. f_equal.
    unfold roll_call. rewrite length_fmap.
    by rewrite <- (length_fmap Agent.name population), <- Hn, length_fmap.
  - intros k [sim p] t [sim1 p1] t' (Hn & Hr & Hlen & Hall) Hstep. simpl in *.
    apply bind_Some in Hstep as ([rr p2] & t2 & Hround & Hstep).
    apply ret_Some in Hstep. injection Hstep as -> -> ->. simpl.
    pose proof (run_single_round_keeps_range _ _ _ _ _ _ _ _ _ _ Hr Hround) as Hr2.
    apply run_single_round_shape in Hround as (Hn2 & Hnum & Hnames & Havg & Hne).
    split; [by rewrite Hn2 |]. split; [exact Hr2 |].
    split; [rewrite length_app; simpl; lia |].
    intros i rr' Hi. apply lookup_app_Some in Hi as [Hi | [Hge Hi]].
    + by apply Hall.
    + apply list_lookup_singleton_Some in Hi as [Hi ->].
      assert (i = k) as -> by lia.
      split; [exact Hnum |]. split.
      * rewrite Hnames. by rewrite (roll_call_names _ _ Hn).
      * rewrite Havg.
        rewrite <- (lenQ_fmap Agent.current_opinion).
        apply mean_bounds.
        -- intros Hnil. by apply fmap_nil_inv in Hnil.
        -- by apply Forall_fmap.
  - simpl. split; [done |]. split; [exact Hrange |]. split; [done |].
    intros i rr Hi. by rewrite lookup_nil in Hi.
Qed.

(** X19 evaluated: two rounds leave two entries. *)
Lemma round_history_shape_witness :
  answers (Scenario.fixed_backend 0.3 0.25 7)
  ∧ yields (AdvancedSimulator.run_to_metrics
              (AdvancedSimulator.init NetworkTopology.ECHO_CHAMBER)
              (Scenario.fixed_backend 0.3 0.25 7) Scenario.brief Configs.quarters
              2 None) []
      (λ '(_, report), length (Report.round_history report) = 2%nat).
Proof.
  assert (answers (Scenario.fixed_backend 0.3 0.25 7)) as Hllm.
  { intros feature context mc s. eexists _, s. split; [reflexivity | exact I]. }
  split; [exact Hllm |].
  eapply yields_mono; [by apply round_history_shape |].
  intros [self report] [Hlen _]. exact Hlen.
Defined.


(** * A simulator that is used again *)

Lemma for_each_fails {A S} (Inv : S → Prop) (body : S → A → Random.M S)
    (l : list A) (x : A) :
  x ∈ l →
  (∀ acc y s acc' s', Inv acc → body acc y s = Some (acc', s') → Inv acc') →
  (∀ acc s, Inv acc → body acc x s = None) →
  ∀ acc s, Inv acc → Random.for_each l body acc s = None.
Proof.
  intros Hx Hkeep Hfail. induction l as [|y l IH]; intros acc s Hacc.
  - by apply elem_of_nil in Hx.
  - rewrite for_each_cons. unfold Random.bind.
    destruct (body acc y s) as [[acc1 s1]|] eqn:Hy; [ | done].
    apply elem_of_cons in Hx as [-> | Hx].
    + by rewrite Hfail in Hy.
    + apply IH; [exact Hx |]. by eapply Hkeep.
Qed.

Lemma influence_loop_fails self i influencers u st s :
  u ∈ influencers →
  ODict.get (AdvancedSimulator.agents self) u = None →
  Random.for_each influencers (AdvancedSimulator.influence_step self i) st s = None.
Proof.
  intros Hu Hget.
  apply (for_each_fails (λ _, True) _ _ u); [exact Hu | done | | done].
  intros [population result] t _. unfold AdvancedSimulator.influence_step.
  unfold Random.bind. destruct (Random.lift (population !! i) t) as [[a t1]|]; [ | done].
  by rewrite Hget.
Qed.

Lemma propagate_names self st ir s st' s' :
  AdvancedSimulator.propagate self st ir s = Some (st', s') →
  Agent.name <$> st'.1 = Agent.name <$> st.1.
Proof.
  destruct st as [population ints], ir as [i result]. intros H.
  apply propagate_inv in H as (agent & influencers & [p r] & _ & _ & Hloop & ->).
  by apply influence_loop_names in Hloop as [Hn _].
Qed.

Lemma propagate_fails self population ints i result a e s :
  population !! i = Some a →
  e ∈ DiGraph.edges (InfluenceGraph.graph (AdvancedSimulator.influence_graph self)) →
  DiGraph.dst e = Agent.name a →
  ODict.get (AdvancedSimulator.agents self) (DiGraph.src e) = None →
  AdvancedSimulator.propagate self (population, ints) (i, result) s = None.
Proof.
  intros Hi He Hdst Hget. unfold AdvancedSimulator.propagate.
  unfold Random.bind at 1. rewrite Hi. cbn [Random.lift Random.ret].
  unfold Random.bind at 1.
  destruct (InfluenceGraph.get_influencers (AdvancedSimulator.influence_graph self)
              (Agent.name a)) as [influencers|] eqn:Hinf; [ | done].
  cbn [Random.lift Random.ret]. unfold Random.bind.
  rewrite (influence_loop_fails self i influencers (DiGraph.src e)); [done | | exact Hget].
  unfold InfluenceGraph.get_influencers in Hinf.
  apply (predecessors_iff _ (DiGraph.src e) _ _ Hinf). by exists e.
Qed.

Lemma gather_length llm feature mc population s population' results s' :
  AdvancedSimulator.gather llm feature mc population s
  = Some ((population', results), s') →
  length results = length population.
Proof.
  intros H. apply gather_names in H as [_ H].
  unfold record_names, roll_call in H.
  rewrite <- (length_fmap (λ r : Interaction, r !! "agent_name") results), H.
  apply length_fmap.
Qed.

Lemma run_feature_fails self llm mc population ints feature e s :
  stale_edge self population e →
  AdvancedSimulator.run_feature self llm mc (population, ints) feature s = None.
Proof.
  intros (He & Hdst & Hget). unfold AdvancedSimulator.run_feature.
  unfold Random.bind at 1.
  destruct (AdvancedSimulator.gather llm feature mc population s)
    as [[[pop1 rs] s1]|] eqn:Hg; [ | done].
  pose proof (gather_length _ _ _ _ _ _ _ _ Hg) as Hlen.
  apply gather_names in Hg as [Hn _].
  rewrite <- Hn in Hdst. apply list_elem_of_fmap in Hdst as (a & Ha & Hin).
  apply list_elem_of_lookup in Hin as [i Hi].
  assert (i < length rs)%nat as Hlt.
  { rewrite Hlen, <- (length_fmap Agent.name population), <- Hn, length_fmap.
    by eapply lookup_lt_Some. }
  apply lookup_lt_is_Some in Hlt as [r Hr].
  cbn [fst snd]. unfold Random.bind.
  rewrite (for_each_fails (λ st, Agent.name <$> st.1 = Agent.name <$> pop1)
             (AdvancedSimulator.propagate self) _ (i, r)); [done | | | | done].
  - unfold InfluenceGraph.enumerate. apply list_elem_of_lookup. exists i.
    apply lookup_zip_with_Some. exists i, r. split; [done |].
    split; [ | exact Hr]. apply lookup_seq. split; [done |]. by eapply lookup_lt_Some.
  - intros acc y t acc' t' Hacc Hstep. apply propagate_names in Hstep. congruence.
  - intros [p ints'] t Hp. simpl in Hp.
    assert (∃ b, p !! i = Some b ∧ Agent.name b = Agent.name a) as (b & Hb & Hname).
    { assert ((Agent.name <$> p) !! i = Some (Agent.name a)) as H
        by (by rewrite Hp, list_lookup_fmap, Hi).
      rewrite list_lookup_fmap in H. destruct (p !! i) as [b|]; [ | done].
      exists b. split; [done |]. by injection H. }
    eapply propagate_fails; [exact Hb | exact He | congruence | exact Hget].
Qed.

Lemma run_single_round_fails self llm brief population n mc e s :
  default [] (Brief.features brief) ≠ [] →
  stale_edge self population e →
  AdvancedSimulator._run_single_round self llm brief population n mc s = None.
Proof.
  intros Hfeatures Hstale. unfold AdvancedSimulator._run_single_round.
  destruct (default [] (Brief.features brief)) as [|f fs]; [done |].
  unfold Random.bind at 1. rewrite for_each_cons. unfold Random.bind at 1.
  by rewrite (run_feature_fails self llm mc population [] f e s Hstale).
Qed.

Lemma index_by_name_None population x :
  x ∉ Agent.name <$> population →
  ODict.get (AdvancedSimulator.index_by_name population) x = None.
Proof.
  intros Hx. unfold AdvancedSimulator.index_by_name.
  assert (∀ (l : list (nat * Agent.t)) (d : list (string * nat)),
            (∀ i a, (i, a) ∈ l → Agent.name a ≠ x) →
            ODict.get d x = None →
            ODict.get (fold_left (λ d '(i, agent), ODict.set d (Agent.name agent) i) l d) x
            = None) as Hfold.
  { induction l as [|[i a] l IH]; intros d Hl Hd; [exact Hd |].
    cbn [fold_left]. apply IH.
    - intros j b Hb. apply (Hl j b). by right.
    - rewrite odict_get_set. rewrite decide_False; [exact Hd |].
      apply (Hl i a). by left. }
  apply Hfold; [ | done].
  intros i a Hin Heq. apply Hx. apply enumerate_length in Hin as [_ Hin].
  apply list_elem_of_fmap. by exists a.
Qed.

Lemma run_to_metrics_fails self llm brief config n mc s s1 s2 population graph e :
  AdvancedSimulator.create_agent_population config s = Some (population, s1) →
  InfluenceGraph.add_agents (AdvancedSimulator.influence_graph self) population s1
  = Some (graph, s2) →
  e ∈ DiGraph.edges (InfluenceGraph.graph graph) →
  DiGraph.dst e ∈ Agent.name <$> population →
  DiGraph.src e ∉ Agent.name <$> population →
  (0 < n)%Z →
  default [] (Brief.features brief) ≠ [] →
  AdvancedSimulator.run_to_metrics self llm brief config n mc s = None.
Proof.
  intros Hpop Hgraph He Hdst Hsrc Hn Hf.
  unfold AdvancedSimulator.run_to_metrics, Random.bind at 1. rewrite Hpop.
  unfold Random.bind at 1. rewrite Hgraph. cbv zeta.
  unfold Random.bind at 1.
  assert (AdvancedSimulator.run_rounds (prepared self graph population) llm brief n mc
            population s2 = None) as Hrounds;
    [ | unfold prepared in Hrounds; by rewrite Hrounds].
  unfold AdvancedSimulator.run_rounds.
  destruct (Z.to_nat n) as [|m] eqn:Hm; [lia |].
  cbn [seq]. rewrite for_each_cons. unfold Random.bind at 1. unfold Random.bind at 1.
  rewrite (run_single_round_fails _ llm brief population _ mc e); [done | exact Hf |].
  split; [exact He |]. split; [exact Hdst |]. by apply index_by_name_None.
Qed.

(** X20.  A simulator must not be used twice.  (1) A round over at
    least one feature raises as soon as the graph holds an edge that
    ends at an agent of the population and starts at a name the
    simulator has no agent for: the executor looks the influencer up
    and fails.  (2) So a run of at least one round over at least one
    feature raises whenever the graph, after the new population was
    added, holds an edge from a name outside the population to an
    agent of it, as edges from agents of an earlier run are.  (3) On a
    new simulator there is no such edge: every edge starts at an agent
    the simulator can find. *)
Theorem stale_influencer_breaks_the_run :
  (∀ (self : AdvancedSimulator.t) (llm : Backend) (brief : Brief.t)
     (population : list Agent.t) (n : Z) (mc : option Dict) (s : Random.Rng)
     (e : DiGraph.edge),
     default [] (Brief.features brief) ≠ [] →
     stale_edge self population e →
     AdvancedSimulator._run_single_round self llm brief population n mc s = None)
  ∧ (∀ (self : AdvancedSimulator.t) (llm : Backend) (brief : Brief.t)
       (config : gmap string Z) (n : Z) (mc : option Dict) (s : Random.Rng),
       outside_influence self config s = true →
       (0 < n)%Z →
       default [] (Brief.features brief) ≠ [] →
       AdvancedSimulator.run_to_metrics self llm brief config n mc s = None)
  ∧ (∀ (topology : NetworkTopology.t) (config : gmap string Z) (s : Random.Rng),
       yields (population <- AdvancedSimulator.create_agent_population config;;
               ig <- build topology population;;
               Random.ret (population, ig)) s
         (λ '(population, ig),
            ∀ e, ¬ stale_edge (prepared (AdvancedSimulator.init topology) ig population)
                     population e)).
Proof.
  split; [ | split].
  - intros self llm brief population n mc s e Hf Hstale.
    by eapply run_single_round_fails.
  - intros self llm brief config n mc s Hout Hn Hf. unfold outside_influence in Hout.
    destruct (AdvancedSimulator.create_agent_population config s)
      as [[population s1]|] eqn:Hpop; [ | done].
    destruct (InfluenceGraph.add_agents _ population s1) as [[graph s2]|] eqn:Hgraph;
      [ | done].
    apply existsb_exists in Hout as (e & He & Hcheck).
    apply andb_true_iff in Hcheck as [Hdst Hsrc].
    apply bool_decide_eq_true in Hdst, Hsrc.
    eapply run_to_metrics_fails; try done. by apply list_elem_of_In.
  - intros topology config s.
    eapply yields_bind; [apply factory_agent_population |].
    intros population t _.
    eapply yields_bind; [apply build_closed |].
    intros ig t' [_ Hedges]. apply yields_ret.
    intros e (He & _ & Hget). simpl in *.
    destruct (index_by_name_lookup population (DiGraph.src e)) as (j & Hj & _);
      [by apply Hedges | congruence].
Qed.

(** X20 evaluated: a simulator whose graph still holds the agent
    [zed] of an earlier run is run again. *)
Lemma stale_influencer_breaks_the_run_witness :
  AdvancedSimulator.run_to_metrics used_simulator (Scenario.fixed_backend 0.3 0.25 7)
    Scenario.brief Configs.customers_only 1 None [] = None.
Proof.
  destruct stale_influencer_breaks_the_run as (_ & Hrun & _).
  apply Hrun; [vm_compute; reflexivity | lia | done].
Defined.


(** * The persona insights, role by role *)

Lemma zip_seq_snoc {A} (l : list A) (x : A) (k : nat) :
  zip (seq k (length l) ++ [(k + length l)%nat]) (l ++ [x])
  = zip (seq k (length l)) l ++ [((k + length l)%nat, x)].
Proof.
  revert k. induction l as [|y l IH]; intros k; cbn; [done |].
  rewrite <- Nat.add_succ_comm. by rewrite IH.
Qed.

Lemma enumerate_snoc {A} (l : list A) (x : A) :
  InfluenceGraph.enumerate (l ++ [x]) = InfluenceGraph.enumerate l ++ [(length l, x)].
Proof.
  unfold InfluenceGraph.enumerate. rewrite length_app. cbn [length].
  rewrite Nat.add_1_r, seq_S. apply (zip_seq_snoc l x 0).
Qed.

Lemma of_role_snoc {A} (agent_contexts : list PersonaContext.t) (c : PersonaContext.t)
    (xs : list A) (role : string) :
  of_role (agent_contexts ++ [c]) xs role
  = of_role agent_contexts xs role
    ++ (if decide (PersonaContext.role c = role)
        then option_list (xs !! length agent_contexts) else []).
Proof.
  unfold of_role. rewrite enumerate_snoc, omap_app. f_equal. simpl.
  destruct (decide (PersonaContext.role c = role)); [ | done].
  by destruct (xs !! length agent_contexts).
Qed.

Lemma of_role_absent {A} (agent_contexts : list PersonaContext.t) (xs : list A)
    (role : string) :
  role ∉ PersonaContext.role <$> agent_contexts →
  of_role agent_contexts xs role = [].
Proof.
  induction agent_contexts as [|c cs IH] using rev_ind; [done |].
  rewrite of_role_snoc, fmap_app. cbn [fmap list_fmap]. intros Hout.
  rewrite IH by set_solver. rewrite decide_False; [done | set_solver].
Qed.

Lemma group_by_role_snoc (agent_contexts : list PersonaContext.t) (c : PersonaContext.t)
    (feature_analyses : list DynAnalysis.t) :
  MockInsights.group_by_role (agent_contexts ++ [c]) feature_analyses
  = let role := PersonaContext.role c in
    let role_analyses := MockInsights.group_by_role agent_contexts feature_analyses in
    let role_analyses :=
      match ODict.get role_analyses role with
      | Some _ => role_analyses
      | None => ODict.set role_analyses role []
      end in
    match feature_analyses !! length agent_contexts with
    | Some analysis =>
        ODict.set role_analyses role
          (default [] (ODict.get role_analyses role) ++ [analysis])
    | None => role_analyses
    end.
Proof.
  unfold MockInsights.group_by_role. by rewrite enumerate_snoc, fold_left_app.
Qed.

Lemma odict_set_NoDup {V} (d : list (string * V)) k v :
  NoDup (ODict.keys d) → NoDup (ODict.keys (ODict.set d k v)).
Proof. rewrite odict_keys_set. apply add_node_list_NoDup. Qed.

(** What the grouping holds for each role. *)
Lemma group_by_role_spec (agent_contexts : list PersonaContext.t)
    (feature_analyses : list DynAnalysis.t) :
  NoDup (ODict.keys (MockInsights.group_by_role agent_contexts feature_analyses))
  ∧ ∀ role,
      ODict.get (MockInsights.group_by_role agent_contexts feature_analyses) role
      = if decide (role ∈ PersonaContext.role <$> agent_contexts)
        then Some (of_role agent_contexts feature_analyses role) else None.
Proof.
  induction agent_contexts as [|c cs [IHnd IH]] using rev_ind.
  - split; [constructor |]. intros role. cbn. destruct (decide _) as [H|_]; [ | done].
    by apply elem_of_nil in H.
  - rewrite group_by_role_snoc. cbv zeta.
    set (groups := MockInsights.group_by_role cs feature_analyses) in *.
    set (groups1 := match ODict.get groups (PersonaContext.role c) with
                    | Some _ => groups
                    | None => ODict.set groups (PersonaContext.role c) []
                    end).
    assert (NoDup (ODict.keys groups1)) as Hnd1.
    { unfold groups1. destruct (ODict.get groups _); [done | by apply odict_set_NoDup]. }
    assert (∀ role, ODict.get groups1 role
                    = if decide (role ∈ PersonaContext.role <$> cs ++ [c])
                      then Some (of_role cs feature_analyses role) else None) as Hget1.
    { intros role. unfold groups1. rewrite fmap_app. cbn [fmap list_fmap].
      destruct (ODict.get groups (PersonaContext.role c)) as [l|] eqn:Hc.
      - rewrite IH. rewrite IH in Hc.
        destruct (decide (PersonaContext.role c ∈ PersonaContext.role <$> cs)) as [Hin|];
          [ | done].
        destruct (decide (role ∈ PersonaContext.role <$> cs)) as [Hr|Hr].
        + rewrite decide_True; [done | set_solver].
        + rewrite decide_False; [done |]. set_solver.
      - rewrite odict_get_set, IH. rewrite IH in Hc.
        destruct (decide (PersonaContext.role c ∈ PersonaContext.role <$> cs)) as [|Hout];
          [done |].
        destruct (decide (PersonaContext.role c = role)) as [<- | Hne].
        + rewrite decide_True by set_solver. f_equal.
          by rewrite of_role_absent.
        + destruct (decide (role ∈ PersonaContext.role <$> cs)) as [Hr|Hr].
          * rewrite decide_True; [done | set_solver].
          * rewrite decide_False; [done |]. set_solver. }
    assert (∀ role,
              (if decide (role ∈ PersonaContext.role <$> cs ++ [c])
               then Some (of_role cs feature_analyses role) else None)
              = if decide (role ∈ PersonaContext.role <$> cs ++ [c])
                then Some (of_role cs feature_analyses role ++ []) else None) as Hnil.
    { intros role. by rewrite app_nil_r. }
    destruct (feature_analyses !! length cs) as [analysis|] eqn:Ha.
    + split; [by apply odict_set_NoDup |].
      intros role. rewrite odict_get_set, of_role_snoc, Ha. cbn [option_list].
      destruct (decide (PersonaContext.role c = role)) as [<- | Hne].
      * rewrite Hget1. rewrite !decide_True by set_solver. done.
      * rewrite Hget1. apply Hnil.
    + split; [exact Hnd1 |].
      intros role. rewrite Hget1, of_role_snoc, Ha. cbn [option_list].
      destruct (decide (PersonaContext.role c = role)); apply Hnil.
Qed.

Lemma sum_numbers_exact_from (analyses : list DynAnalysis.t) (a : Q) :
  Forall (λ x, is_Some (shift_of x)) analyses →
  foldl (λ acc v, t <~ acc;; x <~ number v;; inr (t + x)) (inr a)
    (DynAnalysis.opinion_shift <$> analyses)
  = inr (fold_left Qplus (shifts_of analyses) a).
Proof.
  intros Hall. revert a. induction Hall as [|x l [q Hq] _ IH]; intros a; [done |].
  rewrite fmap_cons. cbn [foldl]. unfold Result.bind at 2 3. unfold number at 2.
  unfold shifts_of. cbn [omap list_omap]. unfold shift_of in Hq. rewrite Hq.
  unfold shift_of at 1. rewrite Hq. cbn [fold_left]. apply IH.
Qed.

Lemma sum_numbers_exact (analyses : list DynAnalysis.t) :
  Forall (λ x, is_Some (shift_of x)) analyses →
  sum_numbers (DynAnalysis.opinion_shift <$> analyses)
  = inr (ArenaHealthMetrics.sumQ (shifts_of analyses)).
Proof. apply sum_numbers_exact_from. Qed.

Lemma shifts_of_length (analyses : list DynAnalysis.t) :
  Forall (λ x, is_Some (shift_of x)) analyses →
  length (shifts_of analyses) = length analyses.
Proof.
  induction 1 as [|x l [q Hq] _ IH]; [done |].
  unfold shifts_of in *. cbn [omap list_omap]. rewrite Hq. cbn [length]. by rewrite IH.
Qed.

(** What the receptiveness loop holds after the groups. *)
Lemma receptiveness_spec (groups : list (string * list DynAnalysis.t)) :
  NoDup (ODict.keys groups) →
  Forall (λ kv, Forall (λ x, is_Some (shift_of x)) kv.2) groups →
  ∀ acc : list (string * Q),
    NoDup (ODict.keys acc) →
    ∃ receptiveness,
      foldl (λ acc '(role, analyses),
               receptiveness <~ acc;;
               if decide (analyses = []) then inr receptiveness
               else
                 total <~ sum_numbers (DynAnalysis.opinion_shift <$> analyses);;
                 inr (ODict.set receptiveness role
                        (total / ArenaHealthMetrics.lenQ analyses)))
            (inr acc) groups = inr receptiveness
      ∧ NoDup (ODict.keys receptiveness)
      ∧ ∀ role,
          ODict.get receptiveness role
          = match ODict.get groups role with
            | Some analyses =>
                if decide (analyses = []) then ODict.get acc role
                else Some (mean (shifts_of analyses))
            | None => ODict.get acc role
            end.
Proof.
  intros Hnd Hall. induction Hall as [|[r l] groups Hl _ IH]; intros acc Hacc.
  - exists acc. by repeat split.
  - apply NoDup_cons in Hnd as [Hr Hnd]. specialize (IH Hnd).
    cbn [foldl Result.bind]. simpl in Hl.
    assert (∀ role, role = r → ODict.get groups role = None) as Hfresh.
    { intros role ->. destruct (ODict.get groups r) eqn:Hg; [ | done].
      destruct Hr. apply odict_get_is_Some. by eexists. }
    destruct (decide (l = [])) as [-> | Hne].
    + destruct (IH acc Hacc) as (rec & Hrun & Hnd' & Hget).
      exists rec. split; [exact Hrun |]. split; [exact Hnd' |].
      intros role. rewrite Hget. cbn [ODict.get].
      destruct (decide (r = role)) as [<- | _]; [ | done].
      by rewrite (Hfresh r eq_refl).
    + rewrite (sum_numbers_exact l Hl). cbn [Result.bind].
      destruct (IH (ODict.set acc r
                      (ArenaHealthMetrics.sumQ (shifts_of l) / ArenaHealthMetrics.lenQ l)))
        as (rec & Hrun & Hnd' & Hget); [by apply odict_set_NoDup |].
      exists rec. split; [exact Hrun |]. split; [exact Hnd' |].
      intros role. rewrite Hget. cbn [ODict.get]. rewrite odict_get_set.
      destruct (decide (r = role)) as [<- | Hother].
      * rewrite (Hfresh r eq_refl). rewrite decide_False by done.
        unfold mean, ArenaHealthMetrics.lenQ. by rewrite shifts_of_length.
      * done.
Qed.

Lemma of_role_shifts (agent_contexts : list PersonaContext.t)
    (analyses : list DynAnalysis.t) (shifts : list Q) (role : string) :
  Forall2 (λ a q, shift_of a = Some q) analyses shifts →
  shifts_of (of_role agent_contexts analyses role) = of_role agent_contexts shifts role
  ∧ Forall (λ x, is_Some (shift_of x)) (of_role agent_contexts analyses role).
Proof.
  intros Hall. induction agent_contexts as [|c cs [IH1 IH2]] using rev_ind.
  - split; [done | constructor].
  - rewrite !of_role_snoc. unfold shifts_of in *. rewrite omap_app, IH1.
    destruct (decide (PersonaContext.role c = role)) as [_ | _].
    + destruct (analyses !! length cs) as [a|] eqn:Ha.
      * destruct (Forall2_lookup_l _ _ _ _ _ Hall Ha) as (q & Hq & Haq).
        rewrite Hq. cbn. rewrite Haq. split; [done |].
        apply Forall_app. split; [exact IH2 |]. constructor; [by eexists | constructor].
      * assert (shifts !! length cs = None) as ->.
        { apply lookup_ge_None. rewrite <- (Forall2_length _ _ _ Hall).
          by apply lookup_ge_None. }
        cbn. split; [done |]. by rewrite app_nil_r.
    + cbn. split; [done |]. by rewrite app_nil_r.
Qed.

Lemma max_item_most (first : string * Q) (rest : list (string * Q)) :
  Forall (λ p, p.2 <= (MockInsights.max_item first rest).2) (first :: rest).
Proof.
  unfold MockInsights.max_item.
  assert (∀ first : string * Q,
            first.2 <= (fold_left (λ best item : string * Q,
                                     if decide (best.2 < item.2) then item else best)
                          rest first).2
            ∧ Forall (λ p : string * Q,
                        p.2 <= (fold_left (λ best item : string * Q,
                                             if decide (best.2 < item.2) then item else best)
                                  rest first).2) rest) as H.
  { induction rest as [|x rest IH]; intros b; cbn [fold_left].
    - split; [lra | constructor].
    - destruct (decide (b.2 < x.2)) as [Hlt | Hge].
      + destruct (IH x) as [Hx Hrest]. split; [lra |]. by constructor.
      + destruct (IH b) as [Hb Hrest]. split; [exact Hb |]. constructor; [lra | exact Hrest]. }
  destruct (H first). by constructor.
Qed.

Lemma min_item_least (first : string * Q) (rest : list (string * Q)) :
  Forall (λ p, (MockInsights.min_item first rest).2 <= p.2) (first :: rest).
Proof.
  unfold MockInsights.min_item.
  assert (∀ first : string * Q,
            (fold_left (λ best item : string * Q,
                          if decide (item.2 < best.2) then item else best)
               rest first).2 <= first.2
            ∧ Forall (λ p : string * Q,
                        (fold_left (λ best item : string * Q,
                                      if decide (item.2 < best.2) then item else best)
                           rest first).2 <= p.2) rest) as H.
  { induction rest as [|x rest IH]; intros b; cbn [fold_left].
    - split; [lra | constructor].
    - destruct (decide (x.2 < b.2)) as [Hlt | Hge].
      + destruct (IH x) as [Hx Hrest]. split; [lra |]. by constructor.
      + destruct (IH b) as [Hb Hrest]. split; [exact Hb |]. constructor; [lra | exact Hrest]. }
  destruct (H first). by constructor.
Qed.

Lemma of_role_elem {A} (agent_contexts : list PersonaContext.t) (xs : list A)
    (i : nat) (c : PersonaContext.t) (x : A) :
  agent_contexts !! i = Some c → xs !! i = Some x →
  x ∈ of_role agent_contexts xs (PersonaContext.role c).
Proof.
  intros Hc Hx. unfold of_role. apply list_elem_of_omap. exists (i, c). split.
  - unfold InfluenceGraph.enumerate. apply list_elem_of_lookup. exists i.
    apply lookup_zip_with_Some. exists i, c. split; [done |].
    split; [ | exact Hc]. apply lookup_seq. split; [done |]. by eapply lookup_lt_Some.
  - by rewrite decide_True.
Qed.

Lemma odict_get_elem {V} (d : list (string * V)) k v :
  ODict.get d k = Some v → (k, v) ∈ d.
Proof.
  induction d as [|[k' v'] d IH]; simpl; [done |].
  destruct (decide (k' = k)) as [-> | _].
  - intros [= ->]. by left.
  - intros H. right. by apply IH.
Qed.

Lemma receptiveness_raises (groups : list (string * list DynAnalysis.t))
    (role : string) (analyses : list DynAnalysis.t) :
  (role, analyses) ∈ groups →
  Exists (λ x, shift_of x = None) analyses →
  ∀ acc : list (string * Q),
    foldl (λ acc '(role, analyses),
             receptiveness <~ acc;;
             if decide (analyses = []) then inr receptiveness
             else
               total <~ sum_numbers (DynAnalysis.opinion_shift <$> analyses);;
               inr (ODict.set receptiveness role
                      (total / ArenaHealthMetrics.lenQ analyses)))
          (inr acc) groups = inl TypeError.
Proof.
  intros Hin Hbad.
  assert (∀ l : list (string * list DynAnalysis.t),
            foldl (λ acc '(role, analyses),
                     receptiveness <~ acc;;
                     if decide (analyses = []) then inr receptiveness
                     else
                       total <~ sum_numbers (DynAnalysis.opinion_shift <$> analyses);;
                       inr (ODict.set receptiveness role
                              (total / ArenaHealthMetrics.lenQ analyses)))
                  (inl TypeError) l = @inl PyError (list (string * Q)) TypeError)
    as Hraised.
  { induction l as [|[r l0] l IH]; [done | exact IH]. }
  induction groups as [|[r l] groups IH]; intros acc; [by apply elem_of_nil in Hin |].
  cbn [foldl Result.bind].
  destruct (decide (l = [])) as [-> | Hne].
  - apply IH. apply elem_of_cons in Hin as [[= -> ->] | Hin]; [ | exact Hin].
    by apply Exists_nil in Hbad.
  - destruct (sum_numbers (DynAnalysis.opinion_shift <$> l)) as [e|t] eqn:Hsum.
    + apply sum_numbers_error in Hsum as ->. cbn [Result.bind]. apply Hraised.
    + cbn [Result.bind]. apply elem_of_cons in Hin as [[= -> ->] | Hin]; [ | by apply IH].
      unfold sum_numbers in Hsum. rewrite sum_numbers_raises in Hsum; [done |].
      apply Exists_fmap. eapply Exists_impl; [exact Hbad | done].
Qed.


